(** * LibraLM Reader: a shallow embedding of the document model,
      the storage engine and the feed reader, with the properties of
      the design document proved (or refuted) against it. *)

From Stdlib Require Import ZArith QArith Qabs Qminmax Ascii String List Lia Bool.
From Stdlib Require Import DecimalString.
From Stdlib.Strings Require Import Byte.
From Stdlib Require Import Sorted.
From stdpp Require Import base option list gmap strings.

Local Open Scope Z_scope.
Set Warnings "-register-all".

(* ===================================================================== *)
(** * Part I. Definitions                                                 *)
(* ===================================================================== *)

(** ** JavaScript strings

    A JavaScript string is a finite sequence of code units.  It is
    modelled by [string]; an [ascii] stands for a code unit below 256,
    which is enough for every constant the program compares against
    (['#'], ['/'], white space).  Indices and lengths are numbers in
    the source and integers here. *)

Module JS.

Definition len (s : string) : Z := Z.of_nat (String.length s).

Fixpoint take (n : nat) (s : string) : string :=
  match n, s with
  | S n', String c s' => String c (take n' s')
  | _, _ => EmptyString
  end.

Fixpoint drop (n : nat) (s : string) : string :=
  match n, s with
  | S n', String _ s' => drop n' s'
  | _, _ => s
  end.

(** Relative index of [String.prototype.slice]: a negative index counts
    from the end, everything is clamped to [0, length]. *)
Definition clampIndex (n i : Z) : Z :=
  if i <? 0 then Z.max (n + i) 0 else Z.min i n.

(** [s.slice(start, end)]; [end] is [None] when the argument is left out. *)
Definition slice (s : string) (start : Z) (stop : option Z) : string :=
  let n := len s in
  let from := clampIndex n start in
  let to := match stop with None => n | Some e => clampIndex n e end in
  take (Z.to_nat (to - from)) (drop (Z.to_nat from) s).

(** [s.startsWith(p)] *)
Fixpoint startsWith (s p : string) : bool :=
  match p, s with
  | EmptyString, _ => true
  | String a p', String b s' => if Ascii.eqb a b then startsWith s' p' else false
  | String _ _, EmptyString => false
  end.

(** [s.endsWith(p)] *)
Definition endsWith (s p : string) : bool :=
  if (String.length p <=? String.length s)%nat
  then startsWith (drop (String.length s - String.length p) s) p
  else false.

(** [s.indexOf(p)], scanning from position [i] of the original string. *)
Fixpoint indexOfFrom (s p : string) (i : Z) : Z :=
  if startsWith s p then i
  else match s with
       | EmptyString => -1
       | String _ s' => indexOfFrom s' p (i + 1)
       end.

Definition indexOf (s p : string) : Z := indexOfFrom s p 0.

(** [s.lastIndexOf(p)]: the last position at which [p] starts. *)
Fixpoint lastIndexOfFrom (s p : string) (i best : Z) : Z :=
  let best' := if startsWith s p then i else best in
  match s with
  | EmptyString => best'
  | String _ s' => lastIndexOfFrom s' p (i + 1) best'
  end.

Definition lastIndexOf (s p : string) : Z := lastIndexOfFrom s p 0 (-1).

(** White space of [String.prototype.trim] among the code units below
    256: TAB, LF, VT, FF, CR, SPACE and NBSP. *)
Definition isSpace (c : ascii) : bool :=
  let n := nat_of_ascii c in
  ((9 <=? n) && (n <=? 13) || (n =? 32) || (n =? 160))%nat.

Fixpoint trimStart (s : string) : string :=
  match s with
  | String c s' => if isSpace c then trimStart s' else s
  | EmptyString => EmptyString
  end.

Fixpoint trimEnd (s : string) : string :=
  match s with
  | EmptyString => EmptyString
  | String c s' =>
      match trimEnd s' with
      | EmptyString => if isSpace c then EmptyString else String c EmptyString
      | t => String c t
      end
  end.

Definition trim (s : string) : string := trimEnd (trimStart s).

(** [s.split(sep)] for a separator of one code unit. *)
Fixpoint split (sep : ascii) (s : string) : list string :=
  match s with
  | EmptyString => [EmptyString]
  | String c s' =>
      if Ascii.eqb c sep then EmptyString :: split sep s'
      else match split sep s' with
           | h :: t => String c h :: t
           | [] => [String c EmptyString]
           end
  end.

(** [s.includes(c)] for a pattern of one code unit. *)
Fixpoint includes (s : string) (c : ascii) : bool :=
  match s with
  | EmptyString => false
  | String a s' => Ascii.eqb a c || includes s' c
  end.

(** Truthiness of a string and of an optional string ([undefined] and
    the empty string are falsy). *)
Definition truthy (s : string) : bool :=
  match s with EmptyString => false | _ => true end.

Definition truthyOpt (o : option string) : bool :=
  match o with Some s => truthy s | None => false end.

(** [a || b] on optional strings. *)
Definition orElse (a b : option string) : option string :=
  if truthyOpt a then a else b.

(** Decimal rendering of a natural number, as a template literal
    renders a non-negative integer. *)
Definition showNat (n : nat) : string :=
  NilEmpty.string_of_uint (Nat.to_uint n).

(** A call that either returns a value or throws. *)
Inductive Outcome (A : Type) :=
| Returned (a : A)
| Thrown.
Arguments Returned {A} a.
Arguments Thrown {A}.

End JS.

(** ** Node's [crypto] module: SHA-256 and random UUIDs

    [hashBook] calls [crypto.createHash('sha256')]; the digest is
    written out (FIPS 180-4) over 32-bit words held in [Z], so that a
    book id is a value that can be computed. *)

Module Crypto.

Definition mask32 : Z := 4294967295.
Definition add32 (a b : Z) : Z := Z.land (a + b) mask32.
Definition rotr (n x : Z) : Z :=
  Z.lor (Z.shiftr x n) (Z.land (Z.shiftl x (32 - n)) mask32).
Definition not32 (x : Z) : Z := Z.lxor x mask32.
Definition ch (x y z : Z) : Z := Z.lxor (Z.land x y) (Z.land (not32 x) z).
Definition maj (x y z : Z) : Z :=
  Z.lxor (Z.lxor (Z.land x y) (Z.land x z)) (Z.land y z).
Definition bigSigma0 (x : Z) : Z := Z.lxor (Z.lxor (rotr 2 x) (rotr 13 x)) (rotr 22 x).
Definition bigSigma1 (x : Z) : Z := Z.lxor (Z.lxor (rotr 6 x) (rotr 11 x)) (rotr 25 x).
Definition smallSigma0 (x : Z) : Z :=
  Z.lxor (Z.lxor (rotr 7 x) (rotr 18 x)) (Z.shiftr x 3).
Definition smallSigma1 (x : Z) : Z :=
  Z.lxor (Z.lxor (rotr 17 x) (rotr 19 x)) (Z.shiftr x 10).

(** The constants of FIPS 180-4 come from the primes: the first 32
    bits of the fractional parts of the cube roots of the first 64
    primes (round constants) and of the square roots of the first 8
    (initial hash value). *)
Definition isPrime (n : nat) : bool :=
  forallb (fun d => negb (Nat.eqb (Nat.modulo n d) 0)) (seq 2 (n - 2)).

Definition primesBelow (n : nat) : list Z :=
  map Z.of_nat (List.filter isPrime (seq 2 (n - 2))).

(** The largest [r' >= r] with [r' ^ k <= n], found bit by bit. *)
Fixpoint rootFrom (k n : Z) (bit : nat) (r : Z) : Z :=
  let c := r + 2 ^ Z.of_nat bit in
  let r' := if c ^ k <=? n then c else r in
  match bit with
  | O => r'
  | S bit' => rootFrom k n bit' r'
  end.

Definition fractionBits (k p : Z) : Z :=
  Z.land (rootFrom k (p * 2 ^ (32 * k)) 35 0) mask32.

Definition roundConstants : list Z :=
  Eval vm_compute in map (fractionBits 3) (primesBelow 312).

Record Registers := mkRegs {
  ra : Z; rb : Z; rc : Z; rd : Z; re : Z; rf : Z; rg : Z; rh : Z
}.

Definition initialRegisters : Registers :=
  Eval vm_compute in
    match map (fractionBits 2) (primesBelow 20) with
    | [a; b; c; d; e; f; g; h] => mkRegs a b c d e f g h
    | _ => mkRegs 0 0 0 0 0 0 0 0
    end.

Definition bigEndian (width : nat) (x : Z) : list Z :=
  map (fun i => Z.land (Z.shiftr x (8 * Z.of_nat (width - 1 - i))) 255) (seq 0 width).

(** Padding: the byte 0x80, zeros up to 56 modulo 64, the bit length
    on eight bytes. *)
Definition pad (msg : list Z) : list Z :=
  let n := Z.of_nat (length msg) in
  let zeros := Z.to_nat ((55 - n) mod 64) in
  msg ++ [128] ++ repeat 0 zeros ++ bigEndian 8 (8 * n).

Fixpoint wordsOf (bytes : list Z) : list Z :=
  match bytes with
  | a :: b :: c :: d :: rest =>
      (Z.shiftl a 24 + Z.shiftl b 16 + Z.shiftl c 8 + d) :: wordsOf rest
  | _ => []
  end.

Fixpoint blocksOf (fuel : nat) (words : list Z) : list (list Z) :=
  match fuel, words with
  | S fuel', _ :: _ => take 16 words :: blocksOf fuel' (drop 16 words)
  | _, _ => []
  end.

Definition wordAt (w : list Z) (i : nat) : Z := nth i w 0.

Fixpoint schedule (n : nat) (w : list Z) : list Z :=
  match n with
  | O => w
  | S n' =>
      let t := length w in
      schedule n'
        (w ++ [ add32 (add32 (smallSigma1 (wordAt w (t - 2))) (wordAt w (t - 7)))
                      (add32 (smallSigma0 (wordAt w (t - 15))) (wordAt w (t - 16))) ])
  end.

Definition round (r : Registers) (kw : Z * Z) : Registers :=
  let '(k, w) := kw in
  let t1 := add32 (add32 (add32 (add32 (rh r) (bigSigma1 (re r)))
                                (ch (re r) (rf r) (rg r))) k) w in
  let t2 := add32 (bigSigma0 (ra r)) (maj (ra r) (rb r) (rc r)) in
  mkRegs (add32 t1 t2) (ra r) (rb r) (rc r) (add32 (rd r) t1) (re r) (rf r) (rg r).

Definition compress (r : Registers) (block : list Z) : Registers :=
  let w := schedule 48 block in
  let s := fold_left round (combine roundConstants w) r in
  mkRegs (add32 (ra r) (ra s)) (add32 (rb r) (rb s))
         (add32 (rc r) (rc s)) (add32 (rd r) (rd s))
         (add32 (re r) (re s)) (add32 (rf r) (rf s))
         (add32 (rg r) (rg s)) (add32 (rh r) (rh s)).

Definition digest (msg : list byte) : Registers :=
  let bytes := pad (map (fun b => Z.of_N (Byte.to_N b)) msg) in
  let words := wordsOf bytes in
  fold_left compress (blocksOf (length words) words) initialRegisters.

Definition hexDigit (x : Z) : ascii :=
  match Z.to_nat (Z.land x 15) with
  | 0 => "0" | 1 => "1" | 2 => "2" | 3 => "3"
  | 4 => "4" | 5 => "5" | 6 => "6" | 7 => "7"
  | 8 => "8" | 9 => "9" | 10 => "a" | 11 => "b"
  | 12 => "c" | 13 => "d" | 14 => "e" | _ => "f"
  end%nat%char.

(** The eight hexadecimal digits of a word, in front of [rest]. *)
Definition hexWord (x : Z) (rest : string) : string :=
  String (hexDigit (Z.shiftr x 28)) (String (hexDigit (Z.shiftr x 24))
  (String (hexDigit (Z.shiftr x 20)) (String (hexDigit (Z.shiftr x 16))
  (String (hexDigit (Z.shiftr x 12)) (String (hexDigit (Z.shiftr x 8))
  (String (hexDigit (Z.shiftr x 4)) (String (hexDigit x) rest))))))).

(** [createHash('sha256').update(content).digest('hex')] *)
Definition sha256Hex (content : list byte) : string :=
  let r := digest content in
  hexWord (ra r) (hexWord (rb r) (hexWord (rc r) (hexWord (rd r)
  (hexWord (re r) (hexWord (rf r) (hexWord (rg r) (hexWord (rh r) EmptyString))))))).

(** [crypto.randomUUID()]: 128 random bits, given as four words, in the
    8-4-4-4-12 layout of a version 4 UUID. *)
Record Entropy := mkEntropy { e0 : Z; e1 : Z; e2 : Z; e3 : Z }.

Definition hexHalf (x : Z) (rest : string) : string :=
  String (hexDigit (Z.shiftr x 12)) (String (hexDigit (Z.shiftr x 8))
  (String (hexDigit (Z.shiftr x 4)) (String (hexDigit x) rest))).

Definition randomUUID (e : Entropy) : string :=
  hexWord (e0 e)
    (String "-" (hexHalf (Z.shiftr (e1 e) 16)
      (String "-" (hexHalf (Z.lor 0x4000 (Z.land (e1 e) 0x0fff))
        (String "-" (hexHalf (Z.lor 0x8000 (Z.land (Z.shiftr (e2 e) 16) 0x3fff))
          (String "-" (hexHalf (e2 e) (hexWord (e3 e) EmptyString))))))))).

End Crypto.

(** ** EPUB structural engine (src/server/epub-engine.ts) *)

Module Epub.
Import JS (Outcome, Returned, Thrown).

(** What the package reader ([epub2]) exposes and [openEpub] reads. *)
Record EpubTocItem := mkToc {
  tocHref : option string;
  tocTitle : option string;
  tocLevel : option Z;
  tocOrder : option Z
}.

Record EpubFlowItem := mkFlow {
  flowItemId : string;
  flowItemHref : string
}.

Record EpubSpineItem := mkSpine {
  spineId : string;
  spineHref : string;
  spineTitle : option string
}.

(** The three raw structures of an opened package: [epub.flow || []],
    [epub.toc || []] and [epub.spine?.contents || []]. *)
Record EPub := mkEPub {
  flow : list EpubFlowItem;
  toc : list EpubTocItem;
  spineContents : list EpubSpineItem
}.

Record PageInfo := mkPage {
  pageTitle : string;
  flowId : string;
  pageHref : string;
  anchor : option string
}.

Record TocItem := mkTocItem {
  itemTitle : string;
  itemIndex : nat;
  itemLevel : Z;
  itemHref : option string
}.

Record CachedEpub := mkCached {
  pages : list PageInfo;
  tocEntries : list TocItem
}.

(** [href.replace(/^P/, '')] for a literal prefix [P]. *)
Definition stripPrefix (p s : string) : string :=
  if JS.startsWith s p then JS.drop (String.length p) s else s.

Definition normalizeHref (href : string) : string :=
  stripPrefix "text/"
    (stripPrefix "xhtml/"
      (stripPrefix "OPS/"
        (stripPrefix "EPUB/"
          (stripPrefix "OEBPS/" href)))).

(** [hrefToFlowId]: every flow item is entered under its href and under
    its normalized href; [Map.set] overwrites. *)
Definition hrefToFlowId (fl : list EpubFlowItem) : gmap string string :=
  fold_left
    (fun m item =>
       <[normalizeHref (flowItemHref item) := flowItemId item]>
         (<[flowItemHref item := flowItemId item]> m))
    fl ∅.

(** [if (!m.has(k)) m.set(k, v)] *)
Definition setIfAbsent (k v : string) (m : gmap string string) : gmap string string :=
  match m !! k with
  | Some _ => m
  | None => <[k := v]> m
  end.

(** [href.split('#')[0]] and [href.split('#')[1]] *)
Definition fileHrefOf (href : string) : string :=
  List.hd EmptyString (JS.split "#" href).

Definition anchorOf (href : string) : option string :=
  List.nth_error (JS.split "#" href) 1.

(** [hrefToTocTitle]: the first TOC entry of a file wins. *)
Definition hrefToTocTitle (tc : list EpubTocItem) : gmap string string :=
  fold_left
    (fun m tocItem =>
       match tocHref tocItem, tocTitle tocItem with
       | Some href, Some title =>
           if JS.truthy href && JS.truthy title then
             let fileHref := fileHrefOf href in
             setIfAbsent (normalizeHref fileHref) title
               (setIfAbsent fileHref title m)
           else m
       | _, _ => m
       end)
    tc ∅.

(** [toc.some((t) => t.href?.includes('#'))] *)
Definition tocHasAnchors (tc : list EpubTocItem) : bool :=
  existsb
    (fun t => match tocHref t with
              | Some href => JS.includes href "#"
              | None => false
              end)
    tc.

Definition useAnchorBasedPages (epub : EPub) : bool :=
  (length (flow epub) <? length (toc epub))%nat && tocHasAnchors (toc epub).

(** [[...toc].sort((a, b) => (a.order ?? 0) - (b.order ?? 0))]: the
    sort of an array is stable, so it is the insertion sort that puts an
    entry in front of the later entries of equal or larger order. *)
Definition orderOf (t : EpubTocItem) : Z := default 0 (tocOrder t).

Fixpoint insertByOrder (x : EpubTocItem) (l : list EpubTocItem) : list EpubTocItem :=
  match l with
  | [] => [x]
  | y :: l' =>
      if orderOf x <=? orderOf y then x :: y :: l'
      else y :: insertByOrder x l'
  end.

Definition sortByOrder (l : list EpubTocItem) : list EpubTocItem :=
  fold_right insertByOrder [] l.

(** [title || fallback] *)
Definition titleOr (title : option string) (fallback : string) : string :=
  match title with
  | Some t => if JS.truthy t then t else fallback
  | None => fallback
  end.

Definition pageLabel (n : nat) : string := String.append "Page " (JS.showNat n).
Definition sectionLabel (n : nat) : string := String.append "Section " (JS.showNat n).

(** The loop of the anchor-based branch: one step per sorted TOC item. *)
Definition anchorStep (ids : gmap string string)
    (pgs : list PageInfo) (tocItem : EpubTocItem) : list PageInfo :=
  match tocHref tocItem with
  | None => pgs
  | Some href =>
      if negb (JS.truthy href) then pgs
      else
        let fileHref := fileHrefOf href in
        let anchor := anchorOf href in
        let flowId := JS.orElse (ids !! fileHref) (ids !! normalizeHref fileHref) in
        match flowId with
        | Some fid =>
            if negb (JS.truthy fid) then pgs
            else pgs ++ [ {| pageTitle := titleOr (tocTitle tocItem)
                                            (pageLabel (length pgs + 1));
                             flowId := fid;
                             pageHref := fileHref;
                             anchor := anchor |} ]
        | None => pgs
        end
  end.

Definition anchorPages (epub : EPub) : list PageInfo :=
  fold_left (anchorStep (hrefToFlowId (flow epub))) (sortByOrder (toc epub)) [].

(** The loop of the flow-based branch: one page per spine item. *)
Definition flowPage (titles : gmap string string) (i : nat) (spineItem : EpubSpineItem)
  : PageInfo :=
  let href := spineHref spineItem in
  let title1 := spineTitle spineItem in
  let title2 :=
    if JS.truthyOpt title1 then title1
    else JS.orElse (titles !! href) (titles !! normalizeHref href) in
  {| pageTitle := titleOr title2 (pageLabel (i + 1));
     flowId := spineId spineItem;
     pageHref := href;
     anchor := None |}.

Definition flowPages (epub : EPub) : list PageInfo :=
  imap (flowPage (hrefToTocTitle (toc epub))) (spineContents epub).

(** [pages.findIndex(pred)]; [None] stands for [-1]. *)
Fixpoint findIndex {A} (pred : A -> bool) (l : list A) : option nat :=
  match l with
  | [] => None
  | x :: l' => if pred x then Some O else S <$> findIndex pred l'
  end.

Definition optStringEqb (a b : option string) : bool :=
  match a, b with
  | Some x, Some y => String.eqb x y
  | None, None => true
  | _, _ => false
  end.

(** The loop that builds the sidebar entries. *)
Definition tocEntryStep (anchorBased : bool) (pgs : list PageInfo)
    (entries : list TocItem) (tocItem : EpubTocItem) : list TocItem :=
  match tocHref tocItem with
  | None => entries
  | Some href =>
      if negb (JS.truthy href) then entries
      else
        let fileHref := fileHrefOf href in
        let anchor := anchorOf href in
        let pageIndex :=
          if anchorBased then
            findIndex (fun p => String.eqb (pageHref p) fileHref
                                && optStringEqb (Epub.anchor p) anchor) pgs
          else
            findIndex (fun p => String.eqb (pageHref p) fileHref
                                || String.eqb (normalizeHref (pageHref p))
                                              (normalizeHref fileHref)) pgs in
        match pageIndex with
        | Some i =>
            entries ++ [ {| itemTitle := titleOr (tocTitle tocItem)
                                           (sectionLabel (length entries + 1));
                            itemIndex := i;
                            itemLevel := default 0 (tocLevel tocItem);
                            itemHref := Some href |} ]
        | None => entries
        end
  end.

(** [openEpub] on a package that is not in the cache: [epub] is what
    [EPub.createAsync(filePath)] produced.  (A cache hit returns the
    entry an earlier call computed in this way; [hrefToFlowIndex] is
    built by the source and never read, so it is left out.) *)
Definition openEpub (epub : EPub) : CachedEpub :=
  let pgs := if useAnchorBasedPages epub then anchorPages epub else flowPages epub in
  {| pages := pgs;
     tocEntries :=
       fold_left (tocEntryStep (useAnchorBasedPages epub) pgs)
                 (sortByOrder (toc epub)) [] |}.

Inductive Format := FormatEpub | FormatPdf.

Record BookMetadata := mkMetadata {
  metaId : string;
  metaTitle : string;
  metaAuthor : string;
  metaFormat : Format;
  metaCoverUrl : option string;
  chapterCount : Z
}.

Record BookInfo := mkBookInfo {
  metadata : BookMetadata;
  bookToc : list TocItem
}.

(** [loadBook]: [title] and [creator] are the package metadata,
    [baseName] is [path.basename(filePath, '.epub')] and [cover] what
    the cover extraction produced. *)
Definition loadBook (epub : EPub) (title creator : option string) (baseName : string)
    (cover : option string) (bookId : string) : BookInfo :=
  let entry := openEpub epub in
  {| metadata := {| metaId := bookId;
                    metaTitle := titleOr title baseName;
                    metaAuthor := titleOr creator "Unknown Author";
                    metaFormat := FormatEpub;
                    metaCoverUrl := cover;
                    chapterCount := Z.of_nat (length (pages entry)) |};
     bookToc := tocEntries entry |}.

(** *** Content extraction for search *)

Record ExtractedChapter := mkChapter {
  index : Z;
  title : string;
  content : string
}.

(** [Math.ceil(n * 0.5)] for a length [n] *)
Definition ceilHalf (n : nat) : Z := (Z.of_nat n + 1) / 2.

(** [strings.filter(pred).length] *)
Definition countWhere (pred : string -> bool) (strings : list string) : Z :=
  Z.of_nat (length (List.filter pred strings)).

(** The [for (len = ...; len >= 100; len -= 50)] loop of
    [findCommonPrefix]; [fuel] bounds the number of iterations. *)
Fixpoint prefixLoop (fuel : nat) (strings : list string) (minCount : Z)
    (prefix : string) (len : Z) : string :=
  match fuel with
  | O => EmptyString
  | S fuel' =>
      if 100 <=? len then
        let testPrefix := JS.slice prefix 0 (Some len) in
        let matchCount := countWhere (fun s => JS.startsWith s testPrefix) strings in
        if minCount <=? matchCount then testPrefix
        else prefixLoop fuel' strings minCount prefix (len - 50)
      else EmptyString
  end.

Definition findCommonPrefix (strings : list string) (minCount : Z) : string :=
  match strings with
  | [] => EmptyString
  | prefix :: _ =>
      let start := Z.min (JS.len prefix) 2000 in
      prefixLoop (Z.to_nat start) strings minCount prefix start
  end.

Fixpoint suffixLoop (fuel : nat) (strings : list string) (minCount : Z)
    (suffix : string) (len : Z) : string :=
  match fuel with
  | O => EmptyString
  | S fuel' =>
      if 100 <=? len then
        let testSuffix := JS.slice suffix (- len) None in
        let matchCount := countWhere (fun s => JS.endsWith s testSuffix) strings in
        if minCount <=? matchCount then testSuffix
        else suffixLoop fuel' strings minCount suffix (len - 50)
      else EmptyString
  end.

Definition findCommonSuffix (strings : list string) (minCount : Z) : string :=
  match strings with
  | [] => EmptyString
  | suffix :: _ =>
      let start := Z.min (JS.len suffix) 1500 in
      suffixLoop (Z.to_nat start) strings minCount suffix start
  end.

(** The two removals of [deduplicateChapterContent], one chapter at a time. *)
Definition stripCommonPrefix (commonPrefix content : string) : string :=
  if 200 <? JS.len commonPrefix then
    let prefixIndex := JS.indexOf content commonPrefix in
    if negb (prefixIndex =? -1) && (prefixIndex <? 500)
    then JS.slice content (prefixIndex + JS.len commonPrefix) None
    else content
  else content.

Definition stripCommonSuffix (commonSuffix content : string) : string :=
  if 200 <? JS.len commonSuffix then
    let suffixIndex := JS.lastIndexOf content commonSuffix in
    if negb (suffixIndex =? -1) && (JS.len content - 2000 <? suffixIndex)
    then JS.slice content 0 (Some suffixIndex)
    else content
  else content.

Definition commonPrefixOf (chapters : list ExtractedChapter) : string :=
  findCommonPrefix (map (fun ch => JS.slice (content ch) 0 (Some 2000)) chapters)
                   (ceilHalf (length chapters)).

Definition commonSuffixOf (chapters : list ExtractedChapter) : string :=
  findCommonSuffix (map (fun ch => JS.slice (content ch) (-1500) None) chapters)
                   (ceilHalf (length chapters)).

Definition deduplicateChapterContent (chapters : list ExtractedChapter)
  : list ExtractedChapter :=
  if (length chapters <? 3)%nat then chapters
  else
    let commonPrefix := commonPrefixOf chapters in
    let commonSuffix := commonSuffixOf chapters in
    map (fun ch =>
           let content1 := stripCommonPrefix commonPrefix (content ch) in
           let content2 := stripCommonSuffix commonSuffix content1 in
           {| index := index ch; title := title ch; content := JS.trim content2 |})
        chapters.

(** The extraction loop of [extractBookText]: [getChapter] is the
    package reader's callback API ([Thrown] when it reports an error,
    [None] when it hands back no text); [stripHtml] is the markup
    stripper, whose result is all the loop looks at. *)
Definition extractStep (getChapter : string -> Outcome (option string))
    (stripHtml : string -> string)
    (acc : list ExtractedChapter) (ip : nat * PageInfo) : list ExtractedChapter :=
  let '(i, page) := ip in
  match getChapter (flowId page) with
  | Thrown => acc
  | Returned text =>
      let html := default EmptyString text in
      let plainText := stripHtml html in
      if JS.truthy (JS.trim plainText)
      then acc ++ [ {| index := Z.of_nat i; title := pageTitle page; content := plainText |} ]
      else acc
  end.

Definition rawChapters (getChapter : string -> Outcome (option string))
    (stripHtml : string -> string) (pgs : list PageInfo) : list ExtractedChapter :=
  fold_left (extractStep getChapter stripHtml) (imap pair pgs) [].

(** [extractBookText(...).chapters] *)
Definition extractBookText (getChapter : string -> Outcome (option string))
    (stripHtml : string -> string) (entry : CachedEpub) : list ExtractedChapter :=
  deduplicateChapterContent (rawChapters getChapter stripHtml (pages entry)).

End Epub.

(** ** The pagination rule as the design document words it

    These definitions follow the design document.  They use none of
    the helpers of [openEpub]: the parts of an href, the container
    directories, play order and the title rules are written out here,
    and Part II proves that the loops and their helpers compute them. *)

Module EpubSpec.
Import Epub.

(** *** The parts of an href *)

Definition hashSign : ascii := "#".

(** The file part of an href: what stands in front of its first ['#']
    (the whole href when it has none). *)
Fixpoint fileOf (href : string) : string :=
  match href with
  | EmptyString => EmptyString
  | String c rest =>
      if Ascii.eqb c hashSign then EmptyString else String c (fileOf rest)
  end.

(** What stands behind the first ['#'] of an href, if it has one. *)
Fixpoint behindHash (href : string) : option string :=
  match href with
  | EmptyString => None
  | String c rest => if Ascii.eqb c hashSign then Some rest else behindHash rest
  end.

(** The anchor of an href: the fragment behind its first ['#'], up to
    the next ['#'] if there is one; none when the href has no ['#']. *)
Definition fragmentOf (href : string) : option string := fileOf <$> behindHash href.

(** *** Hrefs without their container directory *)

(** The directory names that a package puts in front of its files. *)
Definition containerDirs : list string := ["OEBPS/"; "EPUB/"; "OPS/"; "xhtml/"; "text/"].

(** What stands behind a prefix, if the string starts with it. *)
Fixpoint behindPrefix (prefix s : string) : option string :=
  match prefix, s with
  | EmptyString, _ => Some s
  | String a prefix', String b s' =>
      if Ascii.eqb a b then behindPrefix prefix' s' else None
  | String _ _, EmptyString => None
  end.

(** The href with the container directories taken off its front, one
    after the other in the order of the list. *)
Definition plainHref (href : string) : string :=
  fold_left (fun h dir => default h (behindPrefix dir h)) containerDirs href.

(** *** Play order *)

Definition playOrderOf (t : EpubTocItem) : Z :=
  match tocOrder t with Some z => z | None => 0 end.

(** [ordered] is the table of contents in play order: the same
    entries, by ascending order number (0 for an entry without one),
    entries with the same number in the order they have in the table. *)
Definition inPlayOrder (tc ordered : list EpubTocItem) : Prop :=
  Permutation ordered tc
  /\ StronglySorted (fun a b => playOrderOf a <= playOrderOf b) ordered
  /\ forall z, List.filter (fun t => playOrderOf t =? z) ordered
               = List.filter (fun t => playOrderOf t =? z) tc.

(** *** Titles *)

(** A text (a title, an href, an id) that is there and is not empty. *)
Definition present (text : option string) : option string :=
  match text with
  | Some (String c rest) => Some (String c rest)
  | _ => None
  end.

(** The synthetic title of the page at the 1-based position [n]:
    ["Page "] and [n] in decimal. *)
Definition pageName (n : nat) : string :=
  String.append "Page " (NilEmpty.string_of_uint (Nat.to_uint n)).

(** *** Anchor mode *)

(** A flow document answers to a key when its href, as written or
    without its container directory, is that key. *)
Definition flowAnswers (k : string) (f : EpubFlowItem) : bool :=
  String.eqb (flowItemHref f) k || String.eqb (plainHref (flowItemHref f)) k.

(** The flow document a key stands for: the last one that answers. *)
Definition flowDocumentAt (fl : list EpubFlowItem) (k : string) : option string :=
  flowItemId <$> last (List.filter (flowAnswers k) fl).

(** Resolution of the file part of a TOC href: by the href as written,
    else without its container directory.  A document is known by its
    id; one whose id is empty resolves nothing. *)
Definition resolveFlow (fl : list EpubFlowItem) (fileHref : string) : option string :=
  match present (flowDocumentAt fl fileHref) with
  | Some fid => Some fid
  | None => present (flowDocumentAt fl (plainHref fileHref))
  end.

(** A TOC entry that becomes a chapter in anchor mode, with its href
    and the flow document its file part resolves to. *)
Definition chapterOfToc (fl : list EpubFlowItem) (t : EpubTocItem)
  : option (EpubTocItem * string * string) :=
  match present (tocHref t) with
  | Some href => (fun fid => (t, href, fid)) <$> resolveFlow fl (fileOf href)
  | None => None
  end.

Definition resolves (fl : list EpubFlowItem) (t : EpubTocItem) : bool :=
  match chapterOfToc fl t with Some _ => true | None => false end.

(** The chapter of such an entry at position [i]: the flow document,
    the file part of the href and its anchor. *)
Definition anchorChapter (i : nat) (c : EpubTocItem * string * string) : PageInfo :=
  let '(t, href, fid) := c in
  {| pageTitle := default (pageName (i + 1)) (present (tocTitle t));
     flowId := fid;
     pageHref := fileOf href;
     anchor := fragmentOf href |}.

(** Anchor mode: one chapter per resolving entry of the ordered table. *)
Definition anchorChapters (fl : list EpubFlowItem) (ordered : list EpubTocItem)
  : list PageInfo :=
  imap anchorChapter (omap (chapterOfToc fl) ordered).

(** *** Flow mode *)

(** A TOC entry names the file [k] when it has an href and a title and
    the file part of the href, as written or without its container
    directory, is [k]. *)
Definition tocNames (k : string) (t : EpubTocItem) : bool :=
  match present (tocHref t), present (tocTitle t) with
  | Some href, Some _ =>
      String.eqb (fileOf href) k || String.eqb (plainHref (fileOf href)) k
  | _, _ => false
  end.

(** The title of the first TOC entry that names [k]. *)
Definition firstTocTitle (tc : list EpubTocItem) (k : string) : option string :=
  List.find (tocNames k) tc ≫= tocTitle.

(** Flow mode: the title of the spine document at position [i]. *)
Definition flowChapterTitle (tc : list EpubTocItem) (i : nat) (sp : EpubSpineItem)
  : string :=
  match present (spineTitle sp) with
  | Some t => t
  | None =>
      match firstTocTitle tc (spineHref sp) with
      | Some t => t
      | None =>
          match firstTocTitle tc (plainHref (spineHref sp)) with
          | Some t => t
          | None => pageName (i + 1)
          end
      end
  end.

Definition flowChapter (tc : list EpubTocItem) (i : nat) (sp : EpubSpineItem) : PageInfo :=
  {| pageTitle := flowChapterTitle tc i sp;
     flowId := spineId sp;
     pageHref := spineHref sp;
     anchor := None |}.

End EpubSpec.

(** ** PDF structural engine (src/server/pdf-engine.ts) *)

Module Pdf.
Import JS (Outcome, Returned, Thrown).

(** The first element of an explicit destination array: a page
    reference, a falsy value ([null], [0], [undefined]) or some other
    truthy value. *)
Inductive DestHead :=
| HeadRef (num gen : Z)
| HeadFalsy
| HeadOther.

(** [item.dest]: [null] (or an empty string), a destination name, or
    an explicit destination given by its first element ([None] for an
    empty array). *)
Inductive Destination :=
| DestNull
| DestNamed (name : string)
| DestExplicit (head : option DestHead).

Inductive OutlineNode :=
| Node (title : string) (dest : Destination) (items : list OutlineNode).

(** What the engine asks of an opened document. *)
Record PdfDocument := mkDocument {
  numPages : nat;
  getOutline : Outcome (option (list OutlineNode));
  getDestination : string -> Outcome (option (option DestHead));
  getPageIndex : DestHead -> Outcome Z;
  getPageText : nat -> Outcome string
}.

Record PdfTocItem := mkPdfToc {
  tocTitle : string;
  pageNumber : Z;
  level : Z
}.

Definition headTruthy (h : option DestHead) : bool :=
  match h with
  | Some (HeadRef _ _) | Some HeadOther => true
  | Some HeadFalsy | None => false
  end.

(** The body of the inner [try]: [Returned None] when no assignment to
    [pageNumber] is reached, [Thrown] when a lookup throws. *)
Definition lookupPage (doc : PdfDocument) (dest : Destination) : Outcome (option Z) :=
  let resolved : Outcome (option (option DestHead)) :=
    match dest with
    | DestNamed name => getDestination doc name
    | DestExplicit head => Returned (Some head)
    | DestNull => Returned None
    end in
  match resolved with
  | Thrown => Thrown
  | Returned (Some (Some head)) =>
      if headTruthy (Some head) then
        match getPageIndex doc head with
        | Returned pageIndex => Returned (Some (pageIndex + 1))
        | Thrown => Thrown
        end
      else Returned None
  | Returned _ => Returned None
  end.

(** [let pageNumber = 1; if (item.dest) { try { ... } catch { } }] *)
Definition pageNumberOf (doc : PdfDocument) (dest : Destination) : Z :=
  match dest with
  | DestNull => 1
  | DestNamed EmptyString => 1
  | _ =>
      match lookupPage doc dest with
      | Returned (Some n) => n
      | Returned None => 1
      | Thrown => 1
      end
  end.

Definition sectionLabel (n : nat) : string := String.append "Section " (JS.showNat n).

(** [processOutlineItems] on one item: push its entry, then its children
    one level down. *)
Fixpoint processOutlineItem (doc : PdfDocument) (lvl : Z)
    (toc : list PdfTocItem) (item : OutlineNode) : list PdfTocItem :=
  match item with
  | Node title dest items =>
      let entry := {| tocTitle := if JS.truthy title then title
                                  else sectionLabel (length toc + 1);
                      pageNumber := pageNumberOf doc dest;
                      level := lvl |} in
      fold_left (processOutlineItem doc (lvl + 1)) items (toc ++ [entry])
  end.

Definition processOutlineItems (doc : PdfDocument) (items : list OutlineNode) (lvl : Z)
    (toc : list PdfTocItem) : list PdfTocItem :=
  fold_left (processOutlineItem doc lvl) items toc.

Definition extractOutline (doc : PdfDocument) : list PdfTocItem :=
  match getOutline doc with
  | Returned (Some outline) => processOutlineItems doc outline 0 []
  | Returned None => []
  | Thrown => []
  end.

(** [pageToTitle]: the first TOC entry of a page wins. *)
Definition pageToTitle (toc : list PdfTocItem) : gmap Z string :=
  fold_left
    (fun m item =>
       match m !! pageNumber item with
       | Some _ => m
       | None => <[pageNumber item := tocTitle item]> m
       end)
    toc ∅.

Definition pageLabel (n : nat) : string := String.append "Page " (JS.showNat n).

(** One turn of the page loop of [extractPdfText]. *)
Definition extractPage (doc : PdfDocument) (titles : gmap Z string)
    (chapters : list Epub.ExtractedChapter) (pageNum : nat) : list Epub.ExtractedChapter :=
  match getPageText doc pageNum with
  | Thrown => chapters
  | Returned text =>
      if JS.truthy (JS.trim text) then
        chapters ++ [ {| Epub.index := Z.of_nat pageNum - 1;
                         Epub.title := Epub.titleOr (titles !! Z.of_nat pageNum)
                                         (pageLabel pageNum);
                         Epub.content := text |} ]
      else chapters
  end.

(** [extractPdfText(...).chapters]; [toc] is the cached outline. *)
Definition extractPdfText (doc : PdfDocument) (toc : list PdfTocItem)
  : list Epub.ExtractedChapter :=
  fold_left (extractPage doc (pageToTitle toc)) (seq 1 (numPages doc)) [].

End Pdf.

(** ** The outline as a flat list, as the design document words it *)

Module PdfSpec.
Import JS (Outcome, Returned, Thrown).
Import Pdf.

(** The 0-based page a destination resolves to, when every lookup it
    needs succeeds. *)
Definition resolvedIndex (doc : PdfDocument) (dest : Destination) : option Z :=
  let head :=
    match dest with
    | DestNull | DestNamed EmptyString => None
    | DestNamed name =>
        match getDestination doc name with
        | Returned (Some h) => h
        | _ => None
        end
    | DestExplicit h => h
    end in
  match head with
  | Some (HeadRef num gen) =>
      match getPageIndex doc (HeadRef num gen) with
      | Returned i => Some i
      | Thrown => None
      end
  | Some HeadOther =>
      match getPageIndex doc HeadOther with
      | Returned i => Some i
      | Thrown => None
      end
  | _ => None
  end.

(** 1-based page of a bookmark: page 1 when it resolves nowhere. *)
Definition bookmarkPage (doc : PdfDocument) (dest : Destination) : Z :=
  match resolvedIndex doc dest with
  | Some i => i + 1
  | None => 1
  end.

(** The nodes of an outline tree in document order, each with its
    title, page and depth. *)
Fixpoint flatten (doc : PdfDocument) (depth : Z) (item : OutlineNode)
  : list (string * Z * Z) :=
  match item with
  | Node title dest items =>
      (title, bookmarkPage doc dest, depth) :: flat_map (flatten doc (depth + 1)) items
  end.

Definition entryAt (i : nat) (e : string * Z * Z) : PdfTocItem :=
  let '(title, page, depth) := e in
  {| tocTitle := if JS.truthy title then title else sectionLabel (i + 1);
     pageNumber := page;
     level := depth |}.

Fixpoint nodeCount (item : OutlineNode) : nat :=
  match item with
  | Node _ _ items => S (list_sum (map nodeCount items))
  end.

End PdfSpec.

(** ** Which structural units have text *)

Module ExtractionSpec.
Import JS (Outcome, Returned, Thrown).

(** The page of an EPUB at a position has text when its chapter could
    be read and its plain text is more than white space. *)
Definition pageHasText (getChapter : string -> Outcome (option string))
    (stripHtml : string -> string) (ip : nat * Epub.PageInfo) : bool :=
  match getChapter (Epub.flowId (snd ip)) with
  | Returned text => JS.truthy (JS.trim (stripHtml (default EmptyString text)))
  | Thrown => false
  end.

(** Likewise for page [pageNum] (1-based) of a PDF. *)
Definition pdfPageHasText (doc : Pdf.PdfDocument) (pageNum : nat) : bool :=
  match Pdf.getPageText doc pageNum with
  | Returned text => JS.truthy (JS.trim text)
  | Thrown => false
  end.

End ExtractionSpec.

(** ** Chapter reading tool (src/server/tools/indexing.ts) *)

Module Indexing.
Import Epub.

Record ExtractedBook := mkBook {
  bookId : string;
  bookTitle : string;
  author : string;
  chapters : list ExtractedChapter
}.

(** The arguments of [read_chapter] ([ReadChapterSchema]) without the
    book reference, which [getExtractedBook] consumes. *)
Record ReadChapterArgs := mkArgs {
  chapterIndex : Z;
  offset : option Z;
  limit : option Z
}.

(** [structuredContent] of a successful call. *)
Record ChapterSlice := mkSlice {
  sliceChapterIndex : Z;
  sliceChapterTitle : string;
  sliceContent : string;
  totalLength : Z;
  sliceOffset : Z;
  sliceLength : Z;
  hasMore : bool;
  remaining : Z;
  nextOffset : option Z
}.

Inductive ReadResult :=
| BookNotFound
| ChapterNotFound (requested : Z) (count : nat)
| ChapterRead (r : ChapterSlice).

(** [extracted.chapters.find((ch) => ch.index === args.chapterIndex)] *)
Definition findChapter (chs : list ExtractedChapter) (i : Z) : option ExtractedChapter :=
  List.find (fun ch => index ch =? i) chs.

(** [readChapter]; [extracted] is what [await getExtractedBook(args.bookId)]
    returned ([None] for [null]).  The numbers are whole numbers held
    in [Z]: the additions and the subtraction below are those of the
    source as long as their operands and results stay within
    [Number.MAX_SAFE_INTEGER] (beyond it the source rounds). *)
Definition readChapter (extracted : option ExtractedBook) (args : ReadChapterArgs) : ReadResult :=
  match extracted with
  | None => BookNotFound
  | Some book =>
      match findChapter (chapters book) (chapterIndex args) with
      | None => ChapterNotFound (chapterIndex args) (length (chapters book))
      | Some chapter =>
          let totalLength := JS.len (content chapter) in
          let offset := default 0 (offset args) in
          let defaultLimit := if 50000 <? totalLength then 30000 else totalLength in
          let limit := default defaultLimit (limit args) in
          let contentSlice := JS.slice (content chapter) offset (Some (offset + limit)) in
          let endOffset := offset + JS.len contentSlice in
          let hasMore := endOffset <? totalLength in
          let remaining := totalLength - endOffset in
          ChapterRead {|
            sliceChapterIndex := index chapter;
            sliceChapterTitle := title chapter;
            sliceContent := contentSlice;
            totalLength := totalLength;
            sliceOffset := offset;
            sliceLength := JS.len contentSlice;
            hasMore := hasMore;
            remaining := remaining;
            nextOffset := if hasMore then Some endOffset else None
          |}
      end
  end.

(** A client that reads a chapter progressively: the call number [k]
    passes the limit [limits k] (or none) and the offset the previous
    call returned as [nextOffset]; it stops when [hasMore] is false.
    [fuel] bounds the number of calls. *)
Fixpoint readProgressively (fuel : nat) (book : ExtractedBook) (i : Z)
    (limits : nat -> option Z) (k : nat) (off : Z) : option (list string) :=
  match fuel with
  | O => None
  | S fuel' =>
      match readChapter (Some book) (mkArgs i (Some off) (limits k)) with
      | ChapterRead r =>
          match nextOffset r with
          | Some next =>
              cons (sliceContent r) <$> readProgressively fuel' book i limits (S k) next
          | None => Some [sliceContent r]
          end
      | _ => None
      end
  end.

End Indexing.

(** ** Storage (src/storage/index.ts) *)

Module Storage.
Import JS (Outcome, Returned, Thrown).

(** *** Documents: the library catalog and the session *)

Record LibraryBook := mkLibraryBook {
  id : string;
  path : string;
  title : string;
  author : string;
  format : Epub.Format;
  coverUrl : option string;
  description : option string;
  chapterCount : option Z;
  addedAt : string;
  lastRead : option string
}.

Record Collection := mkCollection {
  collectionId : string;
  collectionName : string;
  collectionBookIds : list string
}.

Record LibraryData := mkLibrary {
  version : Z;
  bookPath : string;
  books : list LibraryBook;
  collections : list Collection
}.

Record ReadingPosition := mkPosition {
  chapterIndex : Z;
  scrollPosition : Q;
  positionLastRead : string
}.

Record SessionData := mkSession {
  lastBook : option string;
  positions : gmap string ReadingPosition
}.

(** *** Tables: indexed chapter text and its full-text mirror *)

Record BookContentRow := mkContentRow {
  rowId : string;
  rowBookId : string;
  rowChapterIndex : Z;
  rowChapterTitle : string;
  rowContent : string;
  rowContentHash : string;
  rowIndexedAt : string;
  rowBookTitle : option string;
  rowAuthor : option string
}.

Record FtsRow := mkFtsRow {
  ftsContent : string;
  ftsChapterTitle : string;
  ftsContentId : string;
  ftsBookId : string
}.

Record Db := mkDb {
  book_content : list BookContentRow;
  book_content_fts : list FtsRow
}.

(** What the storage object persists. *)
Record Store := mkStore {
  libraryDoc : LibraryData;
  sessionDoc : SessionData;
  db : Db
}.

(** [hashBook]: [readFileSync] throws when there is no such file. *)
Definition hashBook (fs : gmap string (list byte)) (filePath : string) : Outcome string :=
  match fs !! filePath with
  | Some content => Returned (JS.slice (Crypto.sha256Hex content) 0 (Some 16))
  | None => Thrown
  end.

Definition getLibrary (st : Store) : LibraryData := libraryDoc st.

Definition saveLibrary (library : LibraryData) (st : Store) : Store :=
  {| libraryDoc := library; sessionDoc := sessionDoc st; db := db st |}.

Definition getBook (st : Store) (bookId : string) : option LibraryBook :=
  List.find (fun b => String.eqb (id b) bookId) (books (getLibrary st)).

Definition getSession (st : Store) : SessionData := sessionDoc st.

Definition saveSession (session : SessionData) (st : Store) : Store :=
  {| libraryDoc := libraryDoc st; sessionDoc := session; db := db st |}.

Definition getPosition (st : Store) (bookId : string) : option ReadingPosition :=
  positions (getSession st) !! bookId.

Definition savePosition (bookId : string) (position : ReadingPosition) (st : Store) : Store :=
  let session := getSession st in
  saveSession {| lastBook := Some bookId;
                 positions := <[bookId := position]> (positions session) |} st.

(** *** Statements

    A statement runs on the tables and returns or throws; what it did
    before throwing stays done unless a transaction undoes it. *)

Definition Sql (A : Type) : Type := Db -> Outcome A * Db.

Definition ret {A} (a : A) : Sql A := fun d => (Returned a, d).

Definition bind {A B} (c : Sql A) (k : A -> Sql B) : Sql B :=
  fun d => match c d with
           | (Returned a, d') => k a d'
           | (Thrown, d') => (Thrown, d')
           end.

Definition andThen {A} (c : Sql unit) (k : Sql A) : Sql A := bind c (fun _ => k).

Fixpoint forEach {A} (f : A -> Sql unit) (l : list A) : Sql unit :=
  match l with
  | [] => ret tt
  | x :: l' => andThen (f x) (forEach f l')
  end.

(** [db.transaction(fn)()]: the tables are as before when [fn] throws. *)
Definition transaction {A} (body : Sql A) : Sql A :=
  fun d => match body d with
           | (Returned a, d') => (Returned a, d')
           | (Thrown, _) => (Thrown, d)
           end.

(** [SELECT id FROM book_content WHERE book_id = ?] *)
Definition selectContentIds (bookId : string) : Sql (list string) :=
  fun d => (Returned (map rowId
                        (List.filter (fun r => String.eqb (rowBookId r) bookId)
                                     (book_content d))), d).

(** [DELETE FROM book_content_fts WHERE content_id = ?] *)
Definition deleteFts (contentId : string) : Sql unit :=
  fun d => (Returned tt,
            {| book_content := book_content d;
               book_content_fts :=
                 List.filter (fun f => negb (String.eqb (ftsContentId f) contentId))
                             (book_content_fts d) |}).

(** [DELETE FROM book_content WHERE book_id = ?] *)
Definition deleteContentRows (bookId : string) : Sql unit :=
  fun d => (Returned tt,
            {| book_content :=
                 List.filter (fun r => negb (String.eqb (rowBookId r) bookId))
                             (book_content d);
               book_content_fts := book_content_fts d |}).

(** [INSERT INTO book_content ...]: [id] is the primary key, so a row
    whose id is taken is refused. *)
Definition insertContent (row : BookContentRow) : Sql unit :=
  fun d => if existsb (fun r => String.eqb (rowId r) (rowId row)) (book_content d)
           then (Thrown, d)
           else (Returned tt,
                 {| book_content := book_content d ++ [row];
                    book_content_fts := book_content_fts d |}).

(** [INSERT INTO book_content_fts ...] *)
Definition insertFts (row : FtsRow) : Sql unit :=
  fun d => (Returned tt,
            {| book_content := book_content d;
               book_content_fts := book_content_fts d ++ [row] |}).

Definition deleteBookContent (bookId : string) : Sql unit :=
  bind (selectContentIds bookId) (fun contentIds =>
  andThen (forEach deleteFts contentIds)
          (deleteContentRows bookId)).

(** [bookTitle || null] *)
Definition orNull (o : option string) : option string :=
  if JS.truthyOpt o then o else None.

(** One turn of the insertion loop; [newId] is what [generateId()]
    returned for this chapter. *)
Definition insertChapter (bookId contentHash indexedAt : string)
    (bookTitle author : option string)
    (entry : string * Epub.ExtractedChapter) : Sql unit :=
  let '(newId, chapter) := entry in
  andThen
    (insertContent {| rowId := newId;
                      rowBookId := bookId;
                      rowChapterIndex := Epub.index chapter;
                      rowChapterTitle := Epub.title chapter;
                      rowContent := Epub.content chapter;
                      rowContentHash := contentHash;
                      rowIndexedAt := indexedAt;
                      rowBookTitle := orNull bookTitle;
                      rowAuthor := orNull author |})
    (insertFts {| ftsContent := Epub.content chapter;
                  ftsChapterTitle := Epub.title chapter;
                  ftsContentId := newId;
                  ftsBookId := bookId |}).

(** The function handed to [db.transaction]. *)
Definition indexBody (newIds : nat -> string) (indexedAt bookId : string)
    (chapters : list Epub.ExtractedChapter) (contentHash : string)
    (bookTitle author : option string) : Sql unit :=
  andThen (deleteBookContent bookId)
          (forEach (insertChapter bookId contentHash indexedAt bookTitle author)
                   (imap (fun k chapter => (newIds k, chapter)) chapters)).

(** [indexBookContent]; [newIds k] is the id generated for the chapter
    at position [k], [indexedAt] the clock reading. *)
Definition indexBookContent (newIds : nat -> string) (indexedAt bookId : string)
    (chapters : list Epub.ExtractedChapter) (contentHash : string)
    (bookTitle author : option string) : Sql unit :=
  transaction (indexBody newIds indexedAt bookId chapters contentHash bookTitle author).

(** The operations that write the two tables, and a history of them. *)
Inductive Write :=
| WriteIndex (newIds : nat -> string) (indexedAt bookId : string)
             (chapters : list Epub.ExtractedChapter) (contentHash : string)
             (bookTitle author : option string)
| WriteDelete (bookId : string).

Definition applyWrite (d : Db) (w : Write) : Db :=
  match w with
  | WriteIndex newIds indexedAt bookId chapters contentHash bookTitle author =>
      snd (indexBookContent newIds indexedAt bookId chapters contentHash bookTitle author d)
  | WriteDelete bookId => snd (deleteBookContent bookId d)
  end.

Definition emptyDb : Db := {| book_content := []; book_content_fts := [] |}.

(** All rows of one book carry one content hash. *)
Definition hashConsistent (d : Db) : Prop :=
  forall r1 r2, In r1 (book_content d) -> In r2 (book_content d) ->
                rowBookId r1 = rowBookId r2 -> rowContentHash r1 = rowContentHash r2.

(** *** Full-text search

    The tokenizer, the [MATCH] operator and the [bm25] ranking function
    belong to the database engine; they are fields of [FtsEngine] and
    the query is written over them. *)

Record FtsEngine := mkEngine {
  ftsMatches : string -> FtsRow -> bool;
  bm25 : string -> FtsRow -> Q
}.

Record SearchParams := mkSearchParams {
  query : string;
  bookIds : option (list string);
  limit : option Z
}.

Record RankedRow := mkRankedRow {
  ranked : BookContentRow;
  bm25_score : Q
}.

Record SearchHit := mkHit {
  hitBookId : string;
  hitBookTitle : option string;
  hitAuthor : option string;
  hitChapterTitle : string;
  hitChapterIndex : Z;
  hitContent : string;
  score : Q
}.

(** [query.split(/\s+/)] *)
Fixpoint splitSpaces (skipping : bool) (s : string) : list string :=
  match s with
  | EmptyString => [EmptyString]
  | String c s' =>
      if JS.isSpace c then
        if skipping then splitSpaces true s' else EmptyString :: splitSpaces true s'
      else
        match splitSpaces false s' with
        | h :: t => String c h :: t
        | [] => [String c EmptyString]
        end
  end.

Definition doubleQuote : ascii := ascii_of_nat 34.

(** The replacement that doubles every double-quote character of a
    term. *)
Fixpoint escapeQuotes (t : string) : string :=
  match t with
  | EmptyString => EmptyString
  | String c t' =>
      if Ascii.eqb c doubleQuote
      then String doubleQuote (String doubleQuote (escapeQuotes t'))
      else String c (escapeQuotes t')
  end.

Definition quoteTerm (t : string) : string :=
  String doubleQuote (String.append (escapeQuotes t) (String doubleQuote "*")).

Definition buildTerms (q : string) : string :=
  String.concat " AND "
    (map quoteTerm (List.filter JS.truthy (splitSpaces false q))).

(** [ORDER BY bm25_score]: ascending. *)
Fixpoint insertByScore (x : RankedRow) (l : list RankedRow) : list RankedRow :=
  match l with
  | [] => [x]
  | y :: l' =>
      if Qle_bool (bm25_score x) (bm25_score y) then x :: y :: l'
      else y :: insertByScore x l'
  end.

Definition orderByScore (l : list RankedRow) : list RankedRow :=
  fold_right insertByScore [] l.

(** [LIMIT ?]: a negative limit is no limit. *)
Definition limitRows {A} (n : Z) (l : list A) : list A :=
  if n <? 0 then l else take (Z.to_nat n) l.

(** The [SELECT] of [searchBookContent]: the matching full-text rows
    joined with their content rows, restricted to the given books,
    best first, cut at the limit. *)
Definition selectRanked (engine : FtsEngine) (terms : string)
    (books : option (list string)) (n : Z) (d : Db) : list RankedRow :=
  let joined :=
    flat_map
      (fun fts =>
         if ftsMatches engine terms fts then
           map (fun bc => {| ranked := bc; bm25_score := bm25 engine terms fts |})
               (List.filter (fun bc => String.eqb (ftsContentId fts) (rowId bc))
                            (book_content d))
         else [])
      (book_content_fts d) in
  let restricted :=
    match books with
    | Some (b :: bs) =>
        List.filter (fun r => existsb (String.eqb (rowBookId (ranked r))) (b :: bs)) joined
    | _ => joined
    end in
  limitRows n (orderByScore restricted).

(** [Math.max(...absScores, 1)] *)
Definition maxAbsScore (rows : list RankedRow) : Q :=
  fold_right Qmax 1%Q (map (fun r => Qabs (bm25_score r)) rows).

Definition normalizeScores (rows : list RankedRow) : list SearchHit :=
  map (fun row =>
         {| hitBookId := rowBookId (ranked row);
            hitBookTitle := rowBookTitle (ranked row);
            hitAuthor := rowAuthor (ranked row);
            hitChapterTitle := rowChapterTitle (ranked row);
            hitChapterIndex := rowChapterIndex (ranked row);
            hitContent := rowContent (ranked row);
            score := (Qabs (bm25_score row) / maxAbsScore rows)%Q |})
      rows.

(** [params.limit || 20] *)
Definition limitOrDefault (l : option Z) : Z :=
  match l with
  | Some n => if n =? 0 then 20 else n
  | None => 20
  end.

Definition searchBookContent (engine : FtsEngine) (params : SearchParams) (d : Db)
  : list SearchHit :=
  let n := limitOrDefault (limit params) in
  let terms := buildTerms (query params) in
  if negb (JS.truthy terms) then []
  else normalizeScores (selectRanked engine terms (bookIds params) n d).

End Storage.

(** ** RSS engine (src/server/rss-engine.ts) *)

Module Rss.
Import JS (Outcome, Returned, Thrown).

(** An item as the feed parser hands it over; every field may be
    missing. *)
Record FeedItem := mkItem {
  itemGuid : option string;
  itemLink : option string;
  itemTitle : option string;
  itemCreator : option string;
  itemDcCreator : option string;
  itemAuthor : option string;
  itemPubDate : option string;
  itemIsoDate : option string;
  itemContentSnippet : option string;
  itemSummary : option string;
  itemContentEncoded : option string;
  itemContent : option string
}.

Record RawFeed := mkRawFeed {
  feedTitle : option string;
  feedDescription : option string;
  feedLink : option string;
  feedImageUrl : option string;
  feedItems : list FeedItem
}.

Record ParsedArticle := mkArticle {
  guid : string;
  title : string;
  link : option string;
  author : option string;
  pubDate : option string;
  summary : string;
  content : string
}.

Record ParsedFeed := mkParsedFeed {
  parsedTitle : string;
  parsedDescription : option string;
  parsedLink : option string;
  iconUrl : option string;
  items : list ParsedArticle
}.

Record CachedFeed := mkCachedFeed {
  parsed : ParsedFeed;
  fetchedAt : Z
}.

Definition CACHE_TTL : Z := 5 * 60 * 1000.

(** [a || fallback] where [fallback] is a string. *)
Definition orString (a : option string) (fallback : string) : string :=
  match a with
  | Some s => if JS.truthy s then s else fallback
  | None => fallback
  end.

(** The function mapped over [feed.items]; [uuid] is what
    [crypto.randomUUID()] returns when this item comes to call it. *)
Definition parseItem (cleanHtml : string -> string) (uuid : string) (item : FeedItem)
  : ParsedArticle :=
  {| guid := orString (JS.orElse (JS.orElse (itemGuid item) (itemLink item)) (itemTitle item))
                      uuid;
     title := orString (itemTitle item) "Untitled";
     link := itemLink item;
     author := JS.orElse (JS.orElse (itemCreator item) (itemDcCreator item)) (itemAuthor item);
     pubDate := JS.orElse (itemPubDate item) (itemIsoDate item);
     summary := cleanHtml (orString (JS.orElse (itemContentSnippet item) (itemSummary item))
                                    EmptyString);
     content := cleanHtml (orString (JS.orElse (JS.orElse (itemContentEncoded item)
                                                          (itemContent item))
                                               (itemSummary item))
                                    EmptyString) |}.

(** [fetchFeed]: [parseURL] is the feed parser's request, [entropy k]
    the random bits behind the UUID of item [k], [now] the clock at the
    cache check and [later] the clock when the entry is stored. *)
Definition fetchFeed (parseURL : string -> Outcome RawFeed)
    (cleanHtml extractDomainName : string -> string)
    (entropy : nat -> Crypto.Entropy) (now later : Z)
    (url : string) (useCache : bool) (cache : gmap string CachedFeed)
  : Outcome ParsedFeed * gmap string CachedFeed :=
  let hit :=
    if useCache then
      match cache !! url with
      | Some cached => if now - fetchedAt cached <? CACHE_TTL then Some (parsed cached) else None
      | None => None
      end
    else None in
  match hit with
  | Some p => (Returned p, cache)
  | None =>
      match parseURL url with
      | Thrown => (Thrown, cache)
      | Returned feed =>
          let result :=
            {| parsedTitle := orString (feedTitle feed) (extractDomainName url);
               parsedDescription := feedDescription feed;
               parsedLink := feedLink feed;
               iconUrl := feedImageUrl feed;
               items := imap (fun k item =>
                                parseItem cleanHtml (Crypto.randomUUID (entropy k)) item)
                             (feedItems feed) |} in
          (Returned result, <[url := {| parsed := result; fetchedAt := later |}]> cache)
      end
  end.

End Rss.

(** ** The GUID rule as the design document words it *)

Module RssSpec.
Import Rss.

(** The item's own guid if non-empty, else its link, else its title,
    else a fresh random id. *)
Definition guidByPriority (item : FeedItem) (fresh : string) : string :=
  match itemGuid item with
  | Some (String c g) => String c g
  | _ =>
      match itemLink item with
      | Some (String c l) => String c l
      | _ =>
          match itemTitle item with
          | Some (String c t) => String c t
          | _ => fresh
          end
      end
  end.

(** Every article of every cached feed has a guid. *)
Definition guidsPresent (cache : gmap string CachedFeed) : Prop :=
  forall url cached,
    cache !! url = Some cached ->
    Forall (fun a => guid a <> EmptyString) (items (parsed cached)).

End RssSpec.

(** ** Library tools (src/server/tools/library.ts) *)

Module LibraryTools.
Import JS (Outcome, Returned, Thrown).
Import Storage.

(** An entry of what [scanDirectory] returns. *)
Record ScannedBook := mkScanned {
  scannedPath : string;
  scannedFormat : Epub.Format;
  scannedTitle : string;
  scannedAuthor : string;
  scannedCoverUrl : option string;
  scannedDescription : option string;
  scannedPageCount : option Z
}.

(** Assignment to the fields of the entry that [find] returned: the
    entry is an element of [library.books] and changes in place. *)
Fixpoint updateFirst (pred : LibraryBook -> bool) (f : LibraryBook -> LibraryBook)
    (l : list LibraryBook) : list LibraryBook :=
  match l with
  | [] => []
  | b :: l' => if pred b then f b :: l' else b :: updateFirst pred f l'
  end.

Definition hasId (bookId : string) (b : LibraryBook) : bool := String.eqb (id b) bookId.

(** The four assignments of the [if (existingBook)] branch. *)
Definition refresh (scanned : ScannedBook) (b : LibraryBook) : LibraryBook :=
  {| id := id b;
     path := path b;
     title := scannedTitle scanned;
     author := scannedAuthor scanned;
     format := format b;
     coverUrl := scannedCoverUrl scanned;
     description := scannedDescription scanned;
     chapterCount := chapterCount b;
     addedAt := addedAt b;
     lastRead := lastRead b |}.

(** The entry pushed by the [else] branch. *)
Definition newEntry (bookId : string) (scanned : ScannedBook) (now : string) : LibraryBook :=
  {| id := bookId;
     path := scannedPath scanned;
     title := scannedTitle scanned;
     author := scannedAuthor scanned;
     format := scannedFormat scanned;
     coverUrl := scannedCoverUrl scanned;
     description := scannedDescription scanned;
     chapterCount := None;
     addedAt := now;
     lastRead := None |}.

(** One turn of the add/update loop for the scanned book at position
    [i]; [clock i] is the time read if it is pushed. *)
Definition scanStep (fs : gmap string (list byte)) (clock : nat -> string)
    (acc : Outcome (list LibraryBook)) (entry : nat * ScannedBook)
  : Outcome (list LibraryBook) :=
  match acc with
  | Thrown => Thrown
  | Returned bks =>
      let '(i, scanned) := entry in
      match hashBook fs (scannedPath scanned) with
      | Thrown => Thrown
      | Returned bookId =>
          match List.find (hasId bookId) bks with
          | Some _ => Returned (updateFirst (hasId bookId) (refresh scanned) bks)
          | None => Returned (bks ++ [newEntry bookId scanned (clock i)])
          end
      end
  end.

(** [scannedBooks.some((s) => s.path === book.path)] *)
Definition stillPresent (scannedBooks : list ScannedBook) (book : LibraryBook) : bool :=
  existsb (fun s => String.eqb (scannedPath s) (path book)) scannedBooks.

(** [viewLibrary]: [scannedBooks] is what [scanDirectory(bookPath)]
    returned and [fs] holds the bytes of the files.  The result is the
    catalog that was saved; when a file cannot be read the call throws
    before anything is saved. *)
Definition viewLibrary (fs : gmap string (list byte)) (clock : nat -> string)
    (dir : string) (scannedBooks : list ScannedBook) (st : Store)
  : Outcome LibraryData * Store :=
  let library := getLibrary st in
  match fold_left (scanStep fs clock) (imap pair scannedBooks) (Returned (books library)) with
  | Thrown => (Thrown, st)
  | Returned bks =>
      let library' :=
        {| version := version library;
           bookPath := dir;
           books := List.filter (stillPresent scannedBooks) bks;
           collections := collections library |} in
      (Returned library', saveLibrary library' st)
  end.

(** [structuredContent] of [load_book]. *)
Record LoadedBook := mkLoaded {
  loadedInfo : Epub.BookInfo;
  lastPosition : option (Z * Q)
}.

Definition touch (now : string) (count : Z) (b : LibraryBook) : LibraryBook :=
  {| id := id b;
     path := path b;
     title := title b;
     author := author b;
     format := format b;
     coverUrl := coverUrl b;
     description := description b;
     chapterCount := Some count;
     addedAt := addedAt b;
     lastRead := Some now |}.

(** [loadBookTool]: [loadInfo] stands for [loadBook] / [loadPdfBook]
    (chosen by the file name), [now] for the clock. *)
Definition loadBookTool (fs : gmap string (list byte)) (now : string)
    (loadInfo : string -> string -> Outcome Epub.BookInfo)
    (bookPath : string) (st : Store) : Outcome LoadedBook * Store :=
  match hashBook fs bookPath with
  | Thrown => (Thrown, st)
  | Returned bookId =>
      match loadInfo bookPath bookId with
      | Thrown => (Thrown, st)
      | Returned bookInfo =>
          let count := Epub.chapterCount (Epub.metadata bookInfo) in
          let '(lastPosition, st1) :=
            match getPosition st bookId with
            | Some saved =>
                if count <=? chapterIndex saved then
                  let corrected := {| chapterIndex := 0;
                                      scrollPosition := 0%Q;
                                      positionLastRead := positionLastRead saved |} in
                  (Some corrected, savePosition bookId corrected st)
                else (Some saved, st)
            | None => (None, st)
            end in
          let library := getLibrary st1 in
          let st2 :=
            match List.find (hasId bookId) (books library) with
            | Some _ =>
                saveLibrary
                  {| version := version library;
                     bookPath := Storage.bookPath library;
                     books := updateFirst (hasId bookId) (touch now count) (books library);
                     collections := collections library |}
                  st1
            | None => st1
            end in
          let session := getSession st2 in
          let st3 := saveSession {| lastBook := Some bookId;
                                    positions := positions session |} st2 in
          (Returned {| loadedInfo := bookInfo;
                       lastPosition :=
                         (fun p => (chapterIndex p, scrollPosition p)) <$> lastPosition |},
           st3)
      end
  end.

End LibraryTools.

(** ** Scanning as the design document words it *)

Module LibrarySpec.
Import Storage LibraryTools.

(** The book id of a file with the given bytes. *)
Definition bookIdOf (content : list byte) : string :=
  JS.slice (Crypto.sha256Hex content) 0 (Some 16).

Definition isHexDigit (c : ascii) : bool :=
  let n := nat_of_ascii c in
  ((48 <=? n) && (n <=? 57) || (97 <=? n) && (n <=? 102))%nat.

Fixpoint allHex (s : string) : bool :=
  match s with
  | EmptyString => true
  | String c s' => isHexDigit c && allHex s'
  end.

(** The id of a scanned file (of a file that can be read). *)
Definition idAt (fs : gmap string (list byte)) (s : ScannedBook) : string :=
  match fs !! scannedPath s with
  | Some content => bookIdOf content
  | None => EmptyString
  end.

Definition readable (fs : gmap string (list byte)) (scannedBooks : list ScannedBook) : Prop :=
  forall s, In s scannedBooks -> is_Some (fs !! scannedPath s).

(** No catalog entry has the id of a scanned file while its own path
    is not among the scanned paths (a file that was moved since the
    catalog was written). *)
Definition noMovedFile (fs : gmap string (list byte)) (scannedBooks : list ScannedBook)
    (bks : list LibraryBook) : Prop :=
  forall b s, In b bks -> In s scannedBooks -> id b = idAt fs s ->
              stillPresent scannedBooks b = true.

(** The catalog lists each book id once. *)
Definition uniqueIds (bks : list LibraryBook) : Prop := NoDup (map id bks).

(** One turn of the add/update loop when the file can be read. *)
Definition reconcile (fs : gmap string (list byte)) (clock : nat -> string)
    (bks : list LibraryBook) (entry : nat * ScannedBook) : list LibraryBook :=
  match List.find (hasId (idAt fs (snd entry))) bks with
  | Some _ => updateFirst (hasId (idAt fs (snd entry))) (refresh (snd entry)) bks
  | None => bks ++ [newEntry (idAt fs (snd entry)) (snd entry) (clock (fst entry))]
  end.

(** What the loop does to one entry whose id stays in the catalog. *)
Definition refreshIfSame (fs : gmap string (list byte)) (entry : nat * ScannedBook)
    (b : LibraryBook) : LibraryBook :=
  if hasId (idAt fs (snd entry)) b then refresh (snd entry) b else b.

Definition refreshAll (fs : gmap string (list byte)) (l : list (nat * ScannedBook))
    (b : LibraryBook) : LibraryBook :=
  fold_left (fun b entry => refreshIfSame fs entry b) l b.

(** The catalog that a scan of readable files saves. *)
Definition scannedCatalog (fs : gmap string (list byte)) (clock : nat -> string)
    (scannedBooks : list ScannedBook) (bks : list LibraryBook) : list LibraryBook :=
  List.filter (stillPresent scannedBooks)
    (fold_left (reconcile fs clock) (imap pair scannedBooks) bks).

(** The last scanned file with a given id. *)
Definition lastFor (fs : gmap string (list byte)) (l : list (nat * ScannedBook))
    (h : string) : option (nat * ScannedBook) :=
  last (List.filter (fun entry => String.eqb (idAt fs (snd entry)) h) l).

End LibrarySpec.

(** ** Score normalization as the design document words it *)

Module StorageSpec.
Import Storage.

(** Rows in the order of the query: ascending raw score. *)
Definition byRawScore (a b : RankedRow) : Prop := (bm25_score a <= bm25_score b)%Q.

(** The maximum absolute raw score of a result set (0 for none). *)
Definition maxAbsOf (rows : list RankedRow) : Q :=
  fold_right Qmax 0%Q (map (fun r => Qabs (bm25_score r)) rows).

(** Absolute score divided by the maximum absolute score of the set. *)
Definition claimedScore (rows : list RankedRow) (row : RankedRow) : Q :=
  (Qabs (bm25_score row) / maxAbsOf rows)%Q.

(** The content rows a re-index writes and the full-text rows it keeps. *)
Definition remainingFts (bookId : string) (d : Db) : list FtsRow :=
  List.filter
    (fun f => negb (existsb (String.eqb (ftsContentId f))
                      (map rowId (List.filter (fun r => String.eqb (rowBookId r) bookId)
                                              (book_content d)))))
    (book_content_fts d).

Definition contentRowOf (bookId contentHash indexedAt : string)
    (bookTitle author : option string) (entry : string * Epub.ExtractedChapter)
  : BookContentRow :=
  {| rowId := fst entry;
     rowBookId := bookId;
     rowChapterIndex := Epub.index (snd entry);
     rowChapterTitle := Epub.title (snd entry);
     rowContent := Epub.content (snd entry);
     rowContentHash := contentHash;
     rowIndexedAt := indexedAt;
     rowBookTitle := orNull bookTitle;
     rowAuthor := orNull author |}.

Definition ftsRowOf (bookId : string) (entry : string * Epub.ExtractedChapter) : FtsRow :=
  {| ftsContent := Epub.content (snd entry);
     ftsChapterTitle := Epub.title (snd entry);
     ftsContentId := fst entry;
     ftsBookId := bookId |}.

(** [WHERE book_id = ?] on the content table and on the full-text table. *)
Definition contentOf (bookId : string) (r : BookContentRow) : bool :=
  String.eqb (rowBookId r) bookId.

Definition ftsOf (bookId : string) (f : FtsRow) : bool :=
  String.eqb (ftsBookId f) bookId.

(** The ids generated for [n] chapters can all be inserted: they differ
    from one another and from the id of every row of another book. *)
Definition idsFree (newIds : nat -> string) (n : nat) (bookId : string) (d : Db) : Prop :=
  NoDup (map newIds (seq 0 n))
  /\ forall k r, (k < n)%nat -> In r (book_content d) -> rowBookId r <> bookId ->
                 rowId r <> newIds k.

(** The full-text table mirrors the content table: content ids are
    unique (the primary key) and every full-text row carries the id and
    the book id of a content row. *)
Definition mirrored (d : Db) : Prop :=
  NoDup (map rowId (book_content d))
  /\ forall f, In f (book_content_fts d) ->
               exists r, In r (book_content d)
                         /\ rowId r = ftsContentId f /\ rowBookId r = ftsBookId f.

End StorageSpec.

(** ** What a call of [readChapter] hands out *)

Module IndexingSpec.
Import Epub Indexing.

(** The limit a call works with: the explicit one or the default. *)
Definition effectiveLimit (ch : ExtractedChapter) (lim : option Z) : Z :=
  default (if 50000 <? JS.len (content ch) then 30000 else JS.len (content ch)) lim.

(** The piece of the chapter a call at offset [o] hands out. *)
Definition piece (ch : ExtractedChapter) (o : Z) (lim : option Z) : string :=
  JS.slice (content ch) o (Some (o + effectiveLimit ch lim)).

(** [Number.MAX_SAFE_INTEGER]: up to here the numbers of the source,
    which are doubles, hold every whole number, and their sums and
    differences are the sums and differences of [Z]. *)
Definition MAX_SAFE_INTEGER : Z := 2 ^ 53 - 1.

End IndexingSpec.

(** ** Sample data used by the examples of Part II *)

Module Samples.

Fixpoint repeatString (n : nat) (s : string) : string :=
  match n with
  | O => EmptyString
  | S n' => String.append s (repeatString n' s)
  end.

(** A preamble of 500 code units. *)
Definition preamble : string := repeatString 50 "0123456789".

Definition chapterOf (i : Z) (body : string) : Epub.ExtractedChapter :=
  Epub.mkChapter i "Chapter" (String.append preamble body).

(** Five chapters of 520 code units: the preamble and 20 of their own. *)
Definition shortChapters : list Epub.ExtractedChapter :=
  [ chapterOf 0 "Chapter 0 unique txt";
    chapterOf 1 "Chapter 1 unique txt";
    chapterOf 2 "Chapter 2 unique txt";
    chapterOf 3 "Chapter 3 unique txt";
    chapterOf 4 "Chapter 4 unique txt" ].

(** Five chapters of 550 code units: the preamble and 50 of their own. *)
Definition filler : string := repeatString 4 "abcdefghi.".

Definition alignedChapters : list Epub.ExtractedChapter :=
  [ chapterOf 0 (String.append "Chapter 0 " filler);
    chapterOf 1 (String.append "Chapter 1 " filler);
    chapterOf 2 (String.append "Chapter 2 " filler);
    chapterOf 3 (String.append "Chapter 3 " filler);
    chapterOf 4 (String.append "Chapter 4 " filler) ].

(** A book whose second page had no text: chapters 0 and 2 only. *)
Definition gappedBook : Indexing.ExtractedBook :=
  Indexing.mkBook "3f2a9c1d5e7b8a60" "Sample" "Anonymous"
    [ Epub.mkChapter 0 "One" "alpha beta gamma delta";
      Epub.mkChapter 2 "Three" "epsilon" ].

(** Tables holding one indexed chapter of book [b1] and one of [b2]. *)
Definition twoBooksDb : Storage.Db :=
  {| Storage.book_content :=
       [ Storage.mkContentRow "r1" "b1" 0 "Old" "old text" "hash-old" "t0" None None;
         Storage.mkContentRow "x9" "b2" 0 "Other" "other text" "hash-b2" "t0" None None ];
     Storage.book_content_fts :=
       [ Storage.mkFtsRow "old text" "Old" "r1" "b1";
         Storage.mkFtsRow "other text" "Other" "x9" "b2" ] |}.

(** Generated ids of which the second is already taken. *)
Definition collidingIds (k : nat) : string :=
  match k with O => "n0" | _ => "x9" end.

Definition freshIds (k : nat) : string :=
  match k with O => "n0" | 1%nat => "n1" | _ => "n2" end.

Definition newChapters : list Epub.ExtractedChapter :=
  [ Epub.mkChapter 0 "One" "first"; Epub.mkChapter 1 "Two" "second" ].

(** Two indexed chapters that match a query with raw scores -1/2 and -1/4. *)
Definition smallScoresDb : Storage.Db :=
  {| Storage.book_content :=
       [ Storage.mkContentRow "c1" "b1" 0 "One" "whale whale" "h" "t0" None None;
         Storage.mkContentRow "c2" "b1" 1 "Two" "a whale" "h" "t0" None None ];
     Storage.book_content_fts :=
       [ Storage.mkFtsRow "a whale" "Two" "c2" "b1";
         Storage.mkFtsRow "whale whale" "One" "c1" "b1" ] |}.

Definition smallScoresEngine : Storage.FtsEngine :=
  {| Storage.ftsMatches := fun _ _ => true;
     Storage.bm25 := fun _ fts =>
       if String.eqb (Storage.ftsContentId fts) "c1" then (-1 # 2)%Q else (-1 # 4)%Q |}.

(** A library directory with one book file, a catalog that lists it
    and a session that remembers chapter 12 of it. *)
Definition mobyBytes : list byte := list_byte_of_string "Call me Ishmael.".

Definition mobyId : string := JS.slice (Crypto.sha256Hex mobyBytes) 0 (Some 16).

Definition oneFile : gmap string (list byte) := {[ "/books/moby.epub" := mobyBytes ]}.

Definition mobyInfo (bookId : string) : Epub.BookInfo :=
  {| Epub.metadata := Epub.mkMetadata bookId "Moby-Dick" "Herman Melville"
                        Epub.FormatEpub None 5;
     Epub.bookToc := [] |}.

Definition staleStore : Storage.Store :=
  {| Storage.libraryDoc :=
       Storage.mkLibrary 1 "/books"
         [ Storage.mkLibraryBook mobyId "/books/moby.epub" "Moby-Dick" "Herman Melville"
             Epub.FormatEpub None None (Some 140) "2024-01-01" None ]
         [];
     Storage.sessionDoc :=
       Storage.mkSession None
         {[ mobyId := Storage.mkPosition 12 (1 # 2)%Q "2024-02-02" ]};
     Storage.db := Storage.emptyDb |}.

(** An EPUB of three spine documents of which the second is blank. *)
Definition threePages : Epub.CachedEpub :=
  Epub.openEpub
    (Epub.mkEPub
       [ Epub.mkFlow "f1" "one.xhtml"; Epub.mkFlow "f2" "two.xhtml";
         Epub.mkFlow "f3" "three.xhtml" ]
       []
       [ Epub.mkSpine "f1" "one.xhtml" (Some "One");
         Epub.mkSpine "f2" "two.xhtml" None;
         Epub.mkSpine "f3" "three.xhtml" (Some "Three") ]).

Definition threePagesText (flowId : string) : JS.Outcome (option string) :=
  if String.eqb flowId "f1" then JS.Returned (Some "first words")
  else if String.eqb flowId "f2" then JS.Returned (Some "   ")
  else JS.Returned (Some "last words").

Definition threePagesBook : Indexing.ExtractedBook :=
  Indexing.mkBook "3f2a9c1d5e7b8a60" "Sample" "Anonymous"
    (Epub.extractBookText threePagesText (fun html => html) threePages).

(** A directory holding the same bytes under two names, and an empty
    store. *)
Definition twinFiles : gmap string (list byte) :=
  {[ "/books/a.epub" := mobyBytes; "/books/b.epub" := mobyBytes ]}.

Definition twinScan : list LibraryTools.ScannedBook :=
  [ LibraryTools.mkScanned "/books/a.epub" Epub.FormatEpub "a" "Unknown Author"
      None None None;
    LibraryTools.mkScanned "/books/b.epub" Epub.FormatEpub "b" "Unknown Author"
      None None None ].

Definition emptyStore : Storage.Store :=
  {| Storage.libraryDoc := Storage.mkLibrary 1 "" [] [];
     Storage.sessionDoc := Storage.mkSession None ∅;
     Storage.db := Storage.emptyDb |}.

(** A catalog written when the book was at another path. *)
Definition movedStore : Storage.Store :=
  {| Storage.libraryDoc :=
       Storage.mkLibrary 1 "/books"
         [ Storage.mkLibraryBook mobyId "/old/moby.epub" "Moby-Dick" "Herman Melville"
             Epub.FormatEpub None None None "2024-01-01" None ]
         [];
     Storage.sessionDoc := Storage.mkSession None ∅;
     Storage.db := Storage.emptyDb |}.

Definition mobyScan : list LibraryTools.ScannedBook :=
  [ LibraryTools.mkScanned "/books/moby.epub" Epub.FormatEpub "Moby-Dick"
      "Herman Melville" None None None ].

Definition whaleQuery : Storage.SearchParams :=
  {| Storage.query := "whale"; Storage.bookIds := None; Storage.limit := None |}.

End Samples.

(** ** More of the RSS engine: the cache sweep *)

Module FeedCache.
Import Rss.

(** [cleanCache]: the timer's sweep at clock reading [now] deletes the
    entries fetched more than [CACHE_TTL] ago. *)
Definition cleanCache (now : Z) (cache : gmap string CachedFeed) : gmap string CachedFeed :=
  filter (fun entry => now - fetchedAt (snd entry) <= CACHE_TTL) cache.

End FeedCache.

(** ** More JavaScript strings: case, substrings, replacement *)

Module JSText.

(** [toLowerCase] on a code unit below 256: the letters A-Z and the
    capital letters of Latin-1 (U+00C0 to U+00DE, the multiplication
    sign apart) move up by 32. *)
Definition lowerUnit (c : ascii) : ascii :=
  let n := nat_of_ascii c in
  if ((65 <=? n) && (n <=? 90) || (192 <=? n) && (n <=? 222) && negb (n =? 215))%nat
  then ascii_of_nat (n + 32)
  else c.

Fixpoint toLowerCase (s : string) : string :=
  match s with
  | EmptyString => EmptyString
  | String c s' => String (lowerUnit c) (toLowerCase s')
  end.

(** [s.includes(p)] for a string pattern. *)
Fixpoint includesString (s p : string) : bool :=
  JS.startsWith s p
  || match s with
     | EmptyString => false
     | String _ s' => includesString s' p
     end.

(** [s.replace(/[_-]/g, ' ')] *)
Fixpoint spaceSeparators (s : string) : string :=
  match s with
  | EmptyString => EmptyString
  | String c s' =>
      String (if Ascii.eqb c "_" || Ascii.eqb c "-" then " "%char else c)
             (spaceSeparators s')
  end.

End JSText.

(** ** More of the storage: catalog updates and table queries *)

Module Catalog.
Import Storage.

(** [getBookByPath] *)
Definition getBookByPath (st : Store) (bookPath : string) : option LibraryBook :=
  List.find (fun b => String.eqb (path b) bookPath) (books (getLibrary st)).

(** [addOrUpdateBook]: the first entry with the book's id is replaced,
    or the book is pushed. *)
Definition addOrUpdateBook (book : LibraryBook) (st : Store) : Store :=
  let library := getLibrary st in
  let books' :=
    match Epub.findIndex (fun b => String.eqb (id b) (id book)) (books library) with
    | Some existingIndex => <[existingIndex := book]> (books library)
    | None => books library ++ [book]
    end in
  saveLibrary {| version := version library;
                 bookPath := Storage.bookPath library;
                 books := books';
                 collections := collections library |} st.

(** [WHERE book_id = ?] on the content table *)
Definition ofBook (bookId : string) (r : BookContentRow) : bool :=
  String.eqb (rowBookId r) bookId.

(** [SELECT COUNT( * ) ... WHERE book_id = ?] and [row.count > 0] *)
Definition isBookIndexed (bookId : string) (d : Db) : bool :=
  (0 <? length (List.filter (ofBook bookId) (book_content d)))%nat.

(** [SELECT content_hash ... WHERE book_id = ? LIMIT 1] and
    [row?.content_hash || null] *)
Definition getBookContentHash (bookId : string) (d : Db) : option string :=
  match List.find (ofBook bookId) (book_content d) with
  | Some row => if JS.truthy (rowContentHash row) then Some (rowContentHash row) else None
  | None => None
  end.

End Catalog.

(** ** More of the indexing tools: finding a book by id or title *)

Module BookLookup.
Import Storage.

Definition searchLowerOf (bookIdOrTitle : string) : string :=
  JSText.spaceSeparators (JSText.toLowerCase bookIdOrTitle).

(** [searchLower.split(/\s+/).filter(w => w.length > 2)] *)
Definition searchWordsOf (searchLower : string) : list string :=
  List.filter (fun w => 2 <? JS.len w) (splitSpaces false searchLower).

Definition exactTitle (searchLower : string) (b : LibraryBook) : bool :=
  String.eqb (JSText.toLowerCase (title b)) searchLower.

Definition partialTitle (searchLower : string) (b : LibraryBook) : bool :=
  JSText.includesString (JSText.toLowerCase (title b)) searchLower
  || JSText.includesString searchLower
       (JS.slice (JSText.toLowerCase (title b)) 0 (Some 20)).

Definition allWords (searchWords : list string) (b : LibraryBook) : bool :=
  let titleLower := JSText.toLowerCase (title b) in
  forallb (fun word => JSText.includesString titleLower word) searchWords.

(** [findBook]: by id, then by title, by part of the title, by the
    words of the search term. *)
Definition findBook (st : Store) (bookIdOrTitle : string) : option LibraryBook :=
  match getBook st bookIdOrTitle with
  | Some byId => Some byId
  | None =>
      let library := getLibrary st in
      let searchLower := searchLowerOf bookIdOrTitle in
      match List.find (exactTitle searchLower) (books library) with
      | Some exactMatch => Some exactMatch
      | None =>
          match List.find (partialTitle searchLower) (books library) with
          | Some partialMatch => Some partialMatch
          | None =>
              List.find (allWords (searchWordsOf searchLower)) (books library)
          end
      end
  end.

End BookLookup.

(** ** More of the library tools: saving a position *)

Module PositionTools.
Import Storage LibraryTools.

Definition setLastRead (now : string) (b : LibraryBook) : LibraryBook :=
  {| id := id b;
     path := path b;
     title := title b;
     author := author b;
     format := format b;
     coverUrl := coverUrl b;
     description := description b;
     chapterCount := chapterCount b;
     addedAt := addedAt b;
     lastRead := Some now |}.

(** The [save_position] tool; [now1] and [now2] are its two clock
    readings. *)
Definition savePositionTool (now1 now2 : string) (bookId : string) (chapter : Z)
    (scroll : Q) (st : Store) : Store :=
  let st1 := savePosition bookId {| chapterIndex := chapter;
                                    scrollPosition := scroll;
                                    positionLastRead := now1 |} st in
  let library := getLibrary st1 in
  match List.find (hasId bookId) (books library) with
  | Some _ =>
      saveLibrary {| version := version library;
                     bookPath := Storage.bookPath library;
                     books := updateFirst (hasId bookId) (setLastRead now2) (books library);
                     collections := collections library |} st1
  | None => st1
  end.

End PositionTools.

(** ** More of the storage: annotations and per-book caches

    Each table is the list of its rows in the order of insertion; a
    statement returns or throws as in [Storage].  [ORDER BY] is the
    stable insertion sort: the properties proved of it (the rows are
    the same, they are in order) hold of any order the engine chooses
    among equal keys. *)

Module Annotations.
Import JS (Outcome, Returned, Thrown).

Fixpoint insertBy {A} (before : A -> A -> bool) (x : A) (l : list A) : list A :=
  match l with
  | [] => [x]
  | y :: l' => if before x y then x :: y :: l' else y :: insertBy before x l'
  end.

Definition sortBy {A} (before : A -> A -> bool) (l : list A) : list A :=
  fold_right (insertBy before) [] l.

(** [x || null] for a string and for a number. *)
Definition stringOrNull (o : option string) : option string :=
  if JS.truthyOpt o then o else None.

Definition numberOrNull (o : option Z) : option Z :=
  match o with
  | Some n => if n =? 0 then None else Some n
  | None => None
  end.

(** *** Highlights *)

Record Highlight := mkHighlight {
  hlId : string;
  hlBookId : string;
  hlChapterIndex : Z;
  hlText : string;
  hlColor : string;
  hlCfiRange : option string;
  hlPageNumber : option Z;
  hlCreatedAt : string
}.

(** [Omit<Highlight, 'id' | 'createdAt'>] *)
Record NewHighlight := mkNewHighlight {
  newBookId : string;
  newChapterIndex : Z;
  newText : string;
  newColor : option string;
  newCfiRange : option string;
  newPageNumber : option Z
}.

(** [highlight.color || 'yellow'] *)
Definition colorOrYellow (color : option string) : string :=
  match color with
  | Some c => if JS.truthy c then c else "yellow"
  | None => "yellow"
  end.

(** The row that [INSERT INTO highlights] writes. *)
Definition highlightRow (id createdAt : string) (h : NewHighlight) : Highlight :=
  {| hlId := id;
     hlBookId := newBookId h;
     hlChapterIndex := newChapterIndex h;
     hlText := newText h;
     hlColor := colorOrYellow (newColor h);
     hlCfiRange := stringOrNull (newCfiRange h);
     hlPageNumber := numberOrNull (newPageNumber h);
     hlCreatedAt := createdAt |}.

(** [addHighlight]; [id] is the generated id, [createdAt] the clock
    reading.  The id is the primary key. *)
Definition addHighlight (id createdAt : string) (h : NewHighlight)
    (tbl : list Highlight) : Outcome Highlight * list Highlight :=
  if existsb (fun r => String.eqb (hlId r) id) tbl then (Thrown, tbl)
  else (Returned {| hlId := id;
                    hlBookId := newBookId h;
                    hlChapterIndex := newChapterIndex h;
                    hlText := newText h;
                    hlColor := colorOrYellow (newColor h);
                    hlCfiRange := newCfiRange h;
                    hlPageNumber := newPageNumber h;
                    hlCreatedAt := createdAt |},
        tbl ++ [highlightRow id createdAt h]).

(** [ORDER BY created_at DESC] *)
Definition newerFirst (a b : Highlight) : bool := String.leb (hlCreatedAt b) (hlCreatedAt a).

Definition getHighlights (bookId : string) (tbl : list Highlight) : list Highlight :=
  sortBy newerFirst (List.filter (fun r => String.eqb (hlBookId r) bookId) tbl).

Definition getHighlightsByChapter (bookId : string) (chapterIndex : Z)
    (tbl : list Highlight) : list Highlight :=
  sortBy newerFirst
    (List.filter (fun r => String.eqb (hlBookId r) bookId && (hlChapterIndex r =? chapterIndex))
                 tbl).

Definition deleteHighlight (id : string) (tbl : list Highlight) : list Highlight :=
  List.filter (fun r => negb (String.eqb (hlId r) id)) tbl.






(** *** Bookmarks *)

Record Bookmark := mkBookmark {
  bmId : string;
  bmBookId : string;
  bmChapterIndex : Z;
  bmTitle : option string;
  bmCfiRange : option string;
  bmPageNumber : option Z;
  bmCreatedAt : string
}.

Record NewBookmark := mkNewBookmark {
  newBmBookId : string;
  newBmChapterIndex : Z;
  newBmTitle : option string;
  newBmCfiRange : option string;
  newBmPageNumber : option Z
}.

Definition bookmarkRow (id createdAt : string) (b : NewBookmark) : Bookmark :=
  {| bmId := id;
     bmBookId := newBmBookId b;
     bmChapterIndex := newBmChapterIndex b;
     bmTitle := stringOrNull (newBmTitle b);
     bmCfiRange := stringOrNull (newBmCfiRange b);
     bmPageNumber := numberOrNull (newBmPageNumber b);
     bmCreatedAt := createdAt |}.

Definition addBookmark (id createdAt : string) (b : NewBookmark)
    (tbl : list Bookmark) : Outcome Bookmark * list Bookmark :=
  if existsb (fun r => String.eqb (bmId r) id) tbl then (Thrown, tbl)
  else (Returned {| bmId := id;
                    bmBookId := newBmBookId b;
                    bmChapterIndex := newBmChapterIndex b;
                    bmTitle := newBmTitle b;
                    bmCfiRange := newBmCfiRange b;
                    bmPageNumber := newBmPageNumber b;
                    bmCreatedAt := createdAt |},
        tbl ++ [bookmarkRow id createdAt b]).

(** [ORDER BY chapter_index ASC] *)
Definition earlierChapter (a b : Bookmark) : bool := bmChapterIndex a <=? bmChapterIndex b.

Definition getBookmarks (bookId : string) (tbl : list Bookmark) : list Bookmark :=
  sortBy earlierChapter (List.filter (fun r => String.eqb (bmBookId r) bookId) tbl).

Definition deleteBookmark (id : string) (tbl : list Bookmark) : list Bookmark :=
  List.filter (fun r => negb (String.eqb (bmId r) id)) tbl.

(** *** The cached structure tree of a book *)

Record BookStructure := mkStructure {
  bsId : string;
  bsBookId : string;
  treeJson : string;
  bsCreatedAt : string
}.

(** [SELECT tree_json ... WHERE book_id = ?] and [row?.tree_json || null] *)
Definition getBookStructure (bookId : string) (tbl : list BookStructure) : option string :=
  match List.find (fun r => String.eqb (bsBookId r) bookId) tbl with
  | Some row => if JS.truthy (treeJson row) then Some (treeJson row) else None
  | None => None
  end.

(** [INSERT OR REPLACE]: the rows that hold the new row's id (primary
    key) or its book id (unique) are deleted, then the row goes in. *)
Definition saveBookStructure (id createdAt bookId tree : string)
    (tbl : list BookStructure) : list BookStructure :=
  List.filter (fun r => negb (String.eqb (bsId r) id) && negb (String.eqb (bsBookId r) bookId))
              tbl
  ++ [ {| bsId := id; bsBookId := bookId; treeJson := tree; bsCreatedAt := createdAt |} ].

Definition deleteBookStructure (bookId : string) (tbl : list BookStructure)
  : list BookStructure :=
  List.filter (fun r => negb (String.eqb (bsBookId r) bookId)) tbl.

(** *** The semantic index of a book *)

Record SemanticIndex := mkSemanticIndex {
  siId : string;
  siBookId : string;
  indexData : string;
  siCreatedAt : string;
  siUpdatedAt : string
}.

Definition forBook (bookId : string) (r : SemanticIndex) : bool :=
  String.eqb (siBookId r) bookId.

Definition hasSemanticIndex (bookId : string) (tbl : list SemanticIndex) : bool :=
  (0 <? length (List.filter (forBook bookId) tbl))%nat.

Definition getSemanticIndex (bookId : string) (tbl : list SemanticIndex)
  : option SemanticIndex :=
  List.find (forBook bookId) tbl.

(** [UPDATE semantic_index SET index_data = ?, updated_at = ? WHERE book_id = ?] *)
Definition updateIndex (data now bookId : string) (r : SemanticIndex) : SemanticIndex :=
  if forBook bookId r
  then {| siId := siId r; siBookId := siBookId r; indexData := data;
          siCreatedAt := siCreatedAt r; siUpdatedAt := now |}
  else r.

(** [saveSemanticIndex]; [id] is the id generated on the insert path. *)
Definition saveSemanticIndex (id now bookId data : string) (tbl : list SemanticIndex)
  : Outcome SemanticIndex * list SemanticIndex :=
  match getSemanticIndex bookId tbl with
  | Some existing =>
      (Returned {| siId := siId existing; siBookId := siBookId existing; indexData := data;
                   siCreatedAt := siCreatedAt existing; siUpdatedAt := now |},
       map (updateIndex data now bookId) tbl)
  | None =>
      if existsb (fun r => String.eqb (siId r) id) tbl then (Thrown, tbl)
      else
        let row := {| siId := id; siBookId := bookId; indexData := data;
                      siCreatedAt := now; siUpdatedAt := now |} in
        (Returned row, tbl ++ [row])
  end.

Definition deleteSemanticIndex (bookId : string) (tbl : list SemanticIndex)
  : list SemanticIndex :=
  List.filter (fun r => negb (forBook bookId r)) tbl.

End Annotations.

(** ** What a sidebar entry of an EPUB points to *)

Module EpubToc.
Import Epub.

(** The entry has a title, carries its href, and its index is the
    position of a page of the file that the href names. *)
Definition pointsIntoPages (pgs : list PageInfo) (e : TocItem) : Prop :=
  itemTitle e <> EmptyString
  /\ exists href page,
       itemHref e = Some href /\ href <> EmptyString
       /\ pgs !! itemIndex e = Some page
       /\ (pageHref page = fileHrefOf href
           \/ normalizeHref (pageHref page) = normalizeHref (fileHrefOf href)).

End EpubToc.

(** ** More of the PDF engine: metadata, page ranges and page text *)

Module PdfBook.
Import JS (Outcome, Returned, Thrown).
Import Pdf.

(** [s.replace(/[\x00-\x1F\x7F]/g, '')] *)
Definition isControl (c : ascii) : bool :=
  let n := nat_of_ascii c in ((n <? 32) || (n =? 127))%nat.

Fixpoint stripControl (s : string) : string :=
  match s with
  | EmptyString => EmptyString
  | String c s' => if isControl c then stripControl s' else String c (stripControl s')
  end.

(** No code unit of the string is a control character. *)
Fixpoint controlFree (s : string) : bool :=
  match s with
  | EmptyString => true
  | String c s' => negb (isControl c) && controlFree s'
  end.

(** [pdfInfo?.info]: the two entries that are read. *)
Record RawInfo := mkRawInfo {
  infoTitle : option string;
  infoAuthor : option string
}.

Record PdfMetadata := mkPdfMetadata {
  pdfId : string;
  pdfTitle : string;
  pdfAuthor : string;
  pageCount : nat
}.

Record CachedPdf := mkCachedPdf {
  pdfMetadata : PdfMetadata;
  pdfToc : list PdfTocItem
}.

(** [openPdf] on a file that is not in the cache: [doc] is the
    document PDF.js opened, [getMetadata] what its metadata request
    gave, [baseName] is [path.basename(filePath)] and [stem] is
    [path.basename(filePath, '.pdf')]. *)
Definition openPdf (doc : PdfDocument) (getMetadata : Outcome RawInfo)
    (baseName stem : string) (bookId : string) : Outcome CachedPdf :=
  match getMetadata with
  | Thrown => Thrown
  | Returned info =>
      let title0 := Rss.orString (infoTitle info) EmptyString in
      let title1 := if negb (JS.truthy title0) || String.eqb title0 baseName
                    then stem else title0 in
      let title := JS.trim (stripControl title1) in
      let author0 := Rss.orString (infoAuthor info) EmptyString in
      let author1 := if negb (JS.truthy author0) then "Unknown Author" else author0 in
      let author := JS.trim (stripControl author1) in
      Returned {| pdfMetadata := {| pdfId := bookId;
                                    pdfTitle := if JS.truthy title then title else stem;
                                    pdfAuthor := author;
                                    pageCount := numPages doc |};
                  pdfToc := extractOutline doc |}
  end.

(** An entry of the table of contents handed to the reader (the
    [TocItem] of the EPUB engine, whose index is a number). *)
Record BookTocItem := mkBookTocItem {
  entryTitle : string;
  entryIndex : Z;
  entryLevel : Z
}.

Record PdfBookInfo := mkPdfBookInfo {
  bookMetadata : Epub.BookMetadata;
  bookEntries : list BookTocItem
}.

(** [loadPdfBook]; [pdfInfo] is what [loadPdf] returned. *)
Definition loadPdfBook (pdfInfo : CachedPdf) (bookId : string) : PdfBookInfo :=
  {| bookMetadata :=
       {| Epub.metaId := bookId;
          Epub.metaTitle := pdfTitle (pdfMetadata pdfInfo);
          Epub.metaAuthor := pdfAuthor (pdfMetadata pdfInfo);
          Epub.metaFormat := Epub.FormatPdf;
          Epub.metaCoverUrl := None;
          Epub.chapterCount := Z.of_nat (pageCount (pdfMetadata pdfInfo)) |};
     bookEntries :=
       match pdfToc pdfInfo with
       | [] => [ {| entryTitle := "Document"; entryIndex := 0; entryLevel := 0 |} ]
       | toc => map (fun item => {| entryTitle := tocTitle item;
                                    entryIndex := pageNumber item - 1;
                                    entryLevel := level item |}) toc
       end |}.

(** [document.getPage(n)] followed by [getPageText]: PDF.js rejects a
    page number outside [1, numPages]. *)
Definition getPage (doc : PdfDocument) (n : Z) : Outcome string :=
  if (n <=? 0) || (Z.of_nat (numPages doc) <? n) then Thrown
  else getPageText doc (Z.to_nat n).

(** The page loop of [extractPdfPagesText]. *)
Fixpoint readPages (doc : PdfDocument) (numbers : list Z) : Outcome (list (Z * string)) :=
  match numbers with
  | [] => Returned []
  | i :: rest =>
      match getPage doc i with
      | Thrown => Thrown
      | Returned text =>
          match readPages doc rest with
          | Thrown => Thrown
          | Returned pages => Returned ((i, text) :: pages)
          end
      end
  end.

(** The numbers [startPage, ..., endPage] of the loop. *)
Definition pageRange (startPage endPage : Z) : list Z :=
  map (fun k => startPage + Z.of_nat k) (seq 0 (Z.to_nat (endPage - startPage + 1))).

(** [extractPdfPagesText]: the pages read and [totalPages]. *)
Definition extractPdfPagesText (doc : PdfDocument) (startPage count : Z)
  : Outcome (list (Z * string) * nat) :=
  let endPage := Z.min (startPage + count - 1) (Z.of_nat (numPages doc)) in
  match readPages doc (pageRange startPage endPage) with
  | Thrown => Thrown
  | Returned pages => Returned (pages, numPages doc)
  end.

(** *** The text of a page *)

(** An item of [textContent.items]: its string and the vertical
    position [transform[5]]. *)
Record TextItem := mkTextItem {
  str : string;
  baseline : Q
}.

Record LineState := mkLineState {
  lines : list string;
  currentLine : string;
  lastY : option Q
}.

(** [if (currentLine.trim()) lines.push(currentLine.trim())] *)
Definition pushLine (ls : list string) (line : string) : list string :=
  if JS.truthy (JS.trim line) then ls ++ [JS.trim line] else ls.

(** One turn of the loop; [None] is an item without a [str]. *)
Definition lineStep (st : LineState) (item : option TextItem) : LineState :=
  match item with
  | None => st
  | Some textItem =>
      let y := baseline textItem in
      let breaks :=
        match lastY st with
        | Some previous => negb (Qle_bool (Qabs (y - previous)) 5)
        | None => false
        end in
      let st1 := if breaks
                 then {| lines := pushLine (lines st) (currentLine st);
                         currentLine := EmptyString;
                         lastY := lastY st |}
                 else st in
      {| lines := lines st1;
         currentLine := String.append (currentLine st1) (str textItem);
         lastY := Some y |}
  end.

Definition newline : ascii := ascii_of_nat 10.

(** [s.replace(/\n{3,}/g, '\n\n')]; [run] counts the line feeds just
    passed. *)
Fixpoint collapseFrom (run : nat) (s : string) : string :=
  match s with
  | EmptyString => EmptyString
  | String c s' =>
      if Ascii.eqb c newline then
        if (run <? 2)%nat then String c (collapseFrom (S run) s')
        else collapseFrom (S run) s'
      else String c (collapseFrom 0 s')
  end.

Definition collapseNewlines (s : string) : string := collapseFrom 0 s.

(** [getPageText] on the items of a page. *)
Definition pageText (items : list (option TextItem)) : string :=
  let st := fold_left lineStep items
              {| lines := []; currentLine := EmptyString; lastY := None |} in
  let ls := pushLine (lines st) (currentLine st) in
  JS.trim (collapseNewlines (String.concat (String newline EmptyString) ls)).

(** The code units of a string that are not white space. *)
Fixpoint nonSpace (s : string) : string :=
  match s with
  | EmptyString => EmptyString
  | String c s' => if JS.isSpace c then nonSpace s' else String c (nonSpace s')
  end.

(** The string of an item (empty for an item without one) and the text
    that the loop holds in a state, white space apart. *)
Definition strOf (item : option TextItem) : string :=
  match item with Some textItem => str textItem | None => EmptyString end.

Definition textOf (st : LineState) : string :=
  String.append (String.concat EmptyString (map nonSpace (lines st)))
                (nonSpace (currentLine st)).

End PdfBook.

(** ** Scanning the books directory (src/server/epub-engine.ts) *)

Module Scanner.
Import JS (Outcome, Returned, Thrown).
Import LibraryTools.

Definition isPdf (filePath : string) : bool :=
  JS.endsWith (JSText.toLowerCase filePath) ".pdf".

Definition isEpub (filePath : string) : bool :=
  JS.endsWith (JSText.toLowerCase filePath) ".epub".

(** *** Cleaning a description *)

Definition lessThan : ascii := "<".
Definition greaterThan : ascii := ">".

(** What follows the first [>] of a string, if there is one. *)
Fixpoint closeTag (s : string) : option string :=
  match s with
  | EmptyString => None
  | String c s' => if Ascii.eqb c greaterThan then Some s' else closeTag s'
  end.

(** [s.replace(/<[^>]+>/g, '')].  At a [<] the pattern matches up to
    the next [>] when at least one code unit lies between them; the scan
    goes on behind the match.  Where it does not match, the [<] stays.
    [fuel] bounds the number of steps; the length of the string is
    enough. *)
Fixpoint removeTagsFuel (fuel : nat) (s : string) : string :=
  match fuel, s with
  | S fuel', String c s' =>
      if Ascii.eqb c lessThan then
        match s' with
        | String d _ =>
            if Ascii.eqb d greaterThan then String c (removeTagsFuel fuel' s')
            else match closeTag s' with
                 | Some rest => removeTagsFuel fuel' rest
                 | None => String c (removeTagsFuel fuel' s')
                 end
        | EmptyString => String c EmptyString
        end
      else String c (removeTagsFuel fuel' s')
  | _, _ => EmptyString
  end.

Definition removeTags (s : string) : string := removeTagsFuel (String.length s) s.

(** [s.replace(/\s+/g, ' ')]; [inRun] says that the code unit before
    was white space. *)
Fixpoint collapseFrom (inRun : bool) (s : string) : string :=
  match s with
  | EmptyString => EmptyString
  | String c s' =>
      if JS.isSpace c then
        if inRun then collapseFrom true s' else String " " (collapseFrom true s')
      else String c (collapseFrom false s')
  end.

Definition collapseSpaces (s : string) : string := collapseFrom false s.

(** The clean-up of [metadata.description] in [scanDirectory]. *)
Definition cleanDescription (description : string) : string :=
  let cleaned := JS.trim (collapseSpaces (removeTags description)) in
  if 300 <? JS.len cleaned
  then String.append (JS.slice cleaned 0 (Some 297)) "..."
  else cleaned.

Definition describe (description : option string) : option string :=
  match description with
  | Some d => if JS.truthy d then Some (cleanDescription d) else Some d
  | None => None
  end.

(** No [<] of the string opens a tag: each one is followed at once by
    a [>] or by no [>] at all. *)
Fixpoint tagFree (s : string) : bool :=
  match s with
  | EmptyString => true
  | String c s' =>
      (negb (Ascii.eqb c lessThan)
       || JS.startsWith s' (String greaterThan EmptyString)
       || negb (JS.includes s' greaterThan))
      && tagFree s'
  end.

(** All white space of the string is single blanks; [afterSpace] says
    that the code unit before was one. *)
Fixpoint spaceNormalFrom (afterSpace : bool) (s : string) : bool :=
  match s with
  | EmptyString => true
  | String c s' =>
      if JS.isSpace c
      then Ascii.eqb c " " && negb afterSpace && spaceNormalFrom true s'
      else spaceNormalFrom false s'
  end.

Definition spaceNormal (s : string) : bool := spaceNormalFrom false s.

(** *** The directory walk *)

(** A directory tree as the walk meets it: what [statSync] says of an
    entry and what [readdirSync] lists of a directory.  Both calls stand
    outside every [try] of the source, so an entry that cannot be
    stat'ed (a dangling link, a name without permission) and a directory
    that cannot be listed end the scan with their error. *)
Inductive FsNode :=
| FsFile
| FsDirectory (entries : list (string * FsNode))
| FsNoStat
| FsNoList.

(** What opening an EPUB for the scan yields: the cover that
    [extractCover] found and three metadata entries. *)
Record EpubScan := mkEpubScan {
  scanCover : option string;
  scanTitle : option string;
  scanCreator : option string;
  scanDescription : option string
}.

(** What [scanPdfFile] reads from a PDF: its info dictionary and its
    number of pages. *)
Record PdfScan := mkPdfScan {
  scanInfo : PdfBook.RawInfo;
  scanPages : nat
}.

(** The [for] loop over the names of a directory: the books of each
    entry are pushed in turn, and an entry that throws ends the loop. *)
Definition scanEach {A} (scanOne : A -> Outcome (list ScannedBook))
  : list A -> Outcome (list ScannedBook) :=
  fix loop (entries : list A) : Outcome (list ScannedBook) :=
    match entries with
    | [] => Returned []
    | entry :: rest =>
        match scanOne entry with
        | Thrown => Thrown
        | Returned books =>
            match loop rest with
            | Thrown => Thrown
            | Returned books' => Returned (books ++ books')
            end
        end
    end.

Section Walk.

(** [path.join], [path.basename(file, ext)], and the two readers:
    [readEpub] is [openEpub] followed by [extractCover], [readPdf]
    opens the document and asks for its metadata. *)
Variable join : string -> string -> string.
Variable stem : string -> string -> string.
Variable readEpub : string -> Outcome EpubScan.
Variable readPdf : string -> Outcome PdfScan.

Definition scanEpubFile (filePath file : string) : ScannedBook :=
  match readEpub filePath with
  | Returned scan =>
      {| scannedPath := filePath;
         scannedFormat := Epub.FormatEpub;
         scannedTitle := Epub.titleOr (scanTitle scan) (stem file ".epub");
         scannedAuthor := Epub.titleOr (scanCreator scan) "Unknown Author";
         scannedCoverUrl := scanCover scan;
         scannedDescription := describe (scanDescription scan);
         scannedPageCount := None |}
  | Thrown =>
      {| scannedPath := filePath;
         scannedFormat := Epub.FormatEpub;
         scannedTitle := stem file ".epub";
         scannedAuthor := "Unknown Author";
         scannedCoverUrl := None;
         scannedDescription := None;
         scannedPageCount := None |}
  end.

(** [scanPdfFile] and the entry that [scanDirectory] makes of it. *)
Definition scanPdfFile (filePath : string) : ScannedBook :=
  match readPdf filePath with
  | Returned scan =>
      let title0 := Rss.orString (PdfBook.infoTitle (scanInfo scan)) EmptyString in
      let title1 := if negb (JS.truthy title0) then stem filePath ".pdf" else title0 in
      let title := JS.trim (PdfBook.stripControl title1) in
      let author0 := Rss.orString (PdfBook.infoAuthor (scanInfo scan)) EmptyString in
      let author1 := if negb (JS.truthy author0) then "Unknown Author" else author0 in
      {| scannedPath := filePath;
         scannedFormat := Epub.FormatPdf;
         scannedTitle := if JS.truthy title then title else stem filePath ".pdf";
         scannedAuthor := JS.trim (PdfBook.stripControl author1);
         scannedCoverUrl := None;
         scannedDescription := None;
         scannedPageCount := Some (Z.of_nat (scanPages scan)) |}
  | Thrown =>
      {| scannedPath := filePath;
         scannedFormat := Epub.FormatPdf;
         scannedTitle := stem filePath ".pdf";
         scannedAuthor := "Unknown Author";
         scannedCoverUrl := None;
         scannedDescription := None;
         scannedPageCount := Some 0 |}
  end.

(** The body of the loop of [scanDirectory] for the entry [file] of
    the directory [dirPath]: [statSync] throws or tells a directory,
    which is walked in turn (its [readdirSync] may throw), from a file,
    which is read if its name is that of a book. *)
Fixpoint scanEntry (dirPath file : string) (node : FsNode) : Outcome (list ScannedBook) :=
  let filePath := join dirPath file in
  match node with
  | FsNoStat => Thrown
  | FsNoList => Thrown
  | FsDirectory entries =>
      scanEach (fun entry => scanEntry filePath (fst entry) (snd entry)) entries
  | FsFile =>
      Returned (if isEpub file then [scanEpubFile filePath file]
                else if isPdf file then [scanPdfFile filePath]
                else [])
  end.

(** [scanDirectory]; [root] is [None] when [dirPath] does not exist
    and otherwise what [readdirSync(dirPath)] does: it lists the
    entries, or throws (no directory, no permission). *)
Definition scanDirectory (dirPath : string)
    (root : option (Outcome (list (string * FsNode)))) : Outcome (list ScannedBook) :=
  match root with
  | None => Returned []
  | Some Thrown => Thrown
  | Some (Returned entries) =>
      scanEach (fun entry => scanEntry dirPath (fst entry) (snd entry)) entries
  end.

(** The book files of a tree with their paths, in the order of the walk. *)
Fixpoint bookFiles (dirPath file : string) (node : FsNode) : list (string * string) :=
  let filePath := join dirPath file in
  match node with
  | FsDirectory entries =>
      flat_map (fun entry => bookFiles filePath (fst entry) (snd entry)) entries
  | FsFile => if isEpub file || isPdf file then [(filePath, file)] else []
  | FsNoStat => []
  | FsNoList => []
  end.

End Walk.

(** Every entry of the tree can be stat'ed and every directory listed. *)
Fixpoint walkable (node : FsNode) : bool :=
  match node with
  | FsFile => true
  | FsDirectory entries => forallb (fun entry => walkable (snd entry)) entries
  | FsNoStat => false
  | FsNoList => false
  end.

(** A description, if there is one, has at most 300 code units. *)
Definition shortDescription (b : ScannedBook) : Prop :=
  forall d, scannedDescription b = Some d -> d <> EmptyString -> JS.len d <= 300.

(** Exactly one of the two tests holds of the entry's path, the one of
    its format. *)
Definition nameTellsFormat (b : ScannedBook) : Prop :=
  isEpub (scannedPath b)
  = match scannedFormat b with
    | Epub.FormatEpub => true
    | Epub.FormatPdf => false
    end
  /\ isPdf (scannedPath b) = negb (isEpub (scannedPath b)).

(** The format that the name of a book file stands for. *)
Definition formatOf (file : string) : Epub.Format :=
  if isEpub file then Epub.FormatEpub else Epub.FormatPdf.

End Scanner.

(** ** More of the indexing tools: the extraction cache and the table
       of contents *)

Module TocTools.
Import JS (Outcome, Returned, Thrown).
Import Storage.

(** What [extractBookText] and [extractPdfText] return besides the book
    id, which both hand back as they were given it. *)
Record Extraction := mkExtraction {
  exTitle : string;
  exAuthor : string;
  exChapters : list Epub.ExtractedChapter
}.

Record CachedBook := mkCachedBook {
  cachedBook : Indexing.ExtractedBook;
  extractedAt : Z
}.

Definition CACHE_TTL_MS : Z := 10 * 60 * 1000.

(** [getExtractedBook]; [extractPdf] and [extractEpub] are the two
    extractions (path, then book id), [now] is the clock at the cache
    check and [later] the clock when the result is stored. *)
Definition getExtractedBook (st : Store)
    (extractPdf extractEpub : string -> string -> Outcome Extraction) (now later : Z)
    (bookIdOrTitle : string) (cache : gmap string CachedBook)
  : Outcome (option Indexing.ExtractedBook) * gmap string CachedBook :=
  match BookLookup.findBook st bookIdOrTitle with
  | None => (Returned None, cache)
  | Some book =>
      let bookId := id book in
      let hit :=
        match cache !! bookId with
        | Some cached =>
            if now - extractedAt cached <? CACHE_TTL_MS then Some (cachedBook cached) else None
        | None => None
        end in
      match hit with
      | Some cached => (Returned (Some cached), cache)
      | None =>
          let extracted :=
            if Scanner.isPdf (path book) then extractPdf (path book) bookId
            else extractEpub (path book) bookId in
          match extracted with
          | Thrown => (Thrown, cache)
          | Returned ex =>
              let result := Indexing.mkBook bookId (exTitle ex) (exAuthor ex)
                              (exChapters ex) in
              (Returned (Some result),
               <[bookId := {| cachedBook := result; extractedAt := later |}]> cache)
          end
      end
  end.

(** [structuredContent] of [get_book_toc]. *)
Record TocLine := mkTocLine {
  lineIndex : Z;
  lineTitle : string;
  contentLength : Z
}.

Record BookToc := mkBookToc {
  tocBookId : string;
  tocBookTitle : string;
  tocAuthor : string;
  tocChapters : list TocLine;
  tocHasSemanticIndex : bool
}.

(** [getBookToc]; [extracted] is what [getExtractedBook(args.bookId)]
    returned and [semantic] the table of semantic indexes.  The index is
    looked up under [args.bookId] itself. *)
Definition getBookToc (extracted : option Indexing.ExtractedBook) (argBookId : string)
    (semantic : list Annotations.SemanticIndex) : option BookToc :=
  match extracted with
  | None => None
  | Some book =>
      Some {| tocBookId := Indexing.bookId book;
              tocBookTitle := Indexing.bookTitle book;
              tocAuthor := Indexing.author book;
              tocChapters :=
                map (fun ch => {| lineIndex := Epub.index ch;
                                  lineTitle := Epub.title ch;
                                  contentLength := JS.len (Epub.content ch) |})
                    (Indexing.chapters book);
              tocHasSemanticIndex :=
                match Annotations.getSemanticIndex argBookId semantic with
                | Some _ => true
                | None => false
                end |}
  end.

(** The arguments of [save_book_index]: the index as the JSON text
    that [JSON.stringify] makes of it, and the lengths of its four
    optional lists. *)
Record IndexArgs := mkIndexArgs {
  indexJson : string;
  themesLength : option Z;
  keyTopicsLength : option Z;
  chapterSummariesLength : option Z;
  importantQuotesLength : option Z
}.

Record IndexStats := mkIndexStats {
  statThemes : Z;
  statKeyTopics : Z;
  statChapterSummaries : Z;
  statImportantQuotes : Z
}.

Inductive SaveIndexResult :=
| SaveBookNotFound
| IndexSaved (bookId bookTitle indexId : string) (stats : IndexStats) (updatedAt : string).

(** [saveBookIndex]; [newId] and [now] are the id and the clock
    reading that [saveSemanticIndex] uses. *)
Definition saveBookIndex (st : Store) (newId now : string) (bookIdOrTitle : string)
    (args : IndexArgs) (semantic : list Annotations.SemanticIndex)
  : Outcome SaveIndexResult * list Annotations.SemanticIndex :=
  match BookLookup.findBook st bookIdOrTitle with
  | None => (Returned SaveBookNotFound, semantic)
  | Some book =>
      match Annotations.saveSemanticIndex newId now (id book) (indexJson args) semantic with
      | (Thrown, semantic') => (Thrown, semantic')
      | (Returned saved, semantic') =>
          (Returned (IndexSaved (id book) (title book) (Annotations.siId saved)
                       {| statThemes := default 0 (themesLength args);
                          statKeyTopics := default 0 (keyTopicsLength args);
                          statChapterSummaries := default 0 (chapterSummariesLength args);
                          statImportantQuotes := default 0 (importantQuotesLength args) |}
                       (Annotations.siUpdatedAt saved)),
           semantic')
      end
  end.

Inductive GetIndexResult (J : Type) :=
| IndexBookNotFound
| NoIndex (bookId bookTitle : string)
| HasIndex (bookId bookTitle : string) (index : J) (createdAt updatedAt : string).
Arguments IndexBookNotFound {J}.
Arguments NoIndex {J} bookId bookTitle.
Arguments HasIndex {J} bookId bookTitle index createdAt updatedAt.

(** [getBookIndex]; [parse] is [JSON.parse]. *)
Definition getBookIndex {J} (parse : string -> Outcome J) (st : Store)
    (bookIdOrTitle : string) (semantic : list Annotations.SemanticIndex)
  : Outcome (GetIndexResult J) :=
  match BookLookup.findBook st bookIdOrTitle with
  | None => Returned IndexBookNotFound
  | Some book =>
      match Annotations.getSemanticIndex (id book) semantic with
      | None => Returned (NoIndex (id book) (title book))
      | Some index =>
          match parse (Annotations.indexData index) with
          | Thrown => Thrown
          | Returned indexData =>
              Returned (HasIndex (id book) (title book) indexData
                          (Annotations.siCreatedAt index) (Annotations.siUpdatedAt index))
          end
      end
  end.

End TocTools.

(** ** More sample data *)

Module MoreSamples.

Definition twoTitles : Storage.Store :=
  {| Storage.libraryDoc :=
       Storage.mkLibrary 1 "/books"
         [ Storage.mkLibraryBook "aaaaaaaaaaaaaaaa" "/books/moby.epub" "Moby-Dick"
             "Herman Melville" Epub.FormatEpub None None None "2024-01-01" None;
           Storage.mkLibraryBook "bbbbbbbbbbbbbbbb" "/books/war.pdf" "War and Peace"
             "Leo Tolstoy" Epub.FormatPdf None None None "2024-01-02" None ]
         [];
     Storage.sessionDoc := Storage.mkSession None ∅;
     Storage.db := Storage.emptyDb |}.

(** A books directory with a book, a note and a folder. *)
Definition smallTree : list (string * Scanner.FsNode) :=
  [ ("Moby.EPUB", Scanner.FsFile);
    ("notes.txt", Scanner.FsFile);
    ("papers", Scanner.FsDirectory [ ("logic.pdf", Scanner.FsFile) ]) ].

Definition joinPaths (d file : string) : string :=
  String.append d (String "/" file).

Definition noExtraction (filePath bookId : string) : JS.Outcome TocTools.Extraction :=
  JS.Thrown.

Definition mobyExtraction (filePath bookId : string) : JS.Outcome TocTools.Extraction :=
  JS.Returned (TocTools.mkExtraction "Moby-Dick" "Herman Melville"
                 [ Epub.mkChapter 0 "Loomings" "Call me Ishmael." ]).

Definition mobyIndexArgs : TocTools.IndexArgs :=
  TocTools.mkIndexArgs "{}" None None None None.

End MoreSamples.

(* ===================================================================== *)
(** * Part II. Properties                                                 *)
(* ===================================================================== *)

(** ** Facts about JavaScript strings *)

Section StringFacts.
Import JS.
Local Open Scope string_scope.

Lemma append_cons (c : ascii) (s t : string) :
  String c s ++ t = String c (s ++ t).
Proof. reflexivity. Qed.

Lemma append_nil_l (t : string) : "" ++ t = t.
Proof. reflexivity. Qed.

Lemma take_drop (n : nat) (s : string) : take n s ++ drop n s = s.
Proof.
  revert s; induction n as [|n IH]; intros [|c s]; cbn [take drop];
    rewrite ?append_nil_l, ?append_cons; try reflexivity.
  now rewrite IH.
Qed.

Lemma length_take (n : nat) (s : string) :
  String.length (take n s) = Nat.min n (String.length s).
Proof.
  revert s; induction n as [|n IH]; intros [|c s]; simpl; try reflexivity.
  now rewrite IH.
Qed.

Lemma length_drop (n : nat) (s : string) :
  String.length (drop n s) = (String.length s - n)%nat.
Proof.
  revert s; induction n as [|n IH]; intros [|c s]; simpl; try reflexivity.
  apply IH.
Qed.

Lemma drop_drop (n m : nat) (s : string) : drop n (drop m s) = drop (m + n) s.
Proof.
  revert s; induction m as [|m IH]; intros s; simpl; [reflexivity|].
  destruct s as [|c s]; simpl; [now destruct n | apply IH].
Qed.

Lemma take_all (n : nat) (s : string) :
  (String.length s <= n)%nat -> take n s = s.
Proof.
  revert s; induction n as [|n IH]; intros [|c s]; simpl; intros H;
    try reflexivity; try lia.
  rewrite IH; [reflexivity | lia].
Qed.

Lemma drop_all (n : nat) (s : string) :
  (String.length s <= n)%nat -> drop n s = "".
Proof.
  revert s; induction n as [|n IH]; intros [|c s]; simpl; intros H;
    try reflexivity; try lia.
  apply IH; lia.
Qed.

Lemma drop_0 (s : string) : drop 0 s = s.
Proof. now destruct s. Qed.

Lemma length_append (s t : string) :
  String.length (s ++ t) = (String.length s + String.length t)%nat.
Proof.
  induction s as [|c s IH]; rewrite ?append_nil_l, ?append_cons; cbn;
    [reflexivity | now rewrite IH].
Qed.

Lemma append_nil_r (s : string) : s ++ "" = s.
Proof.
  induction s as [|c s IH]; rewrite ?append_nil_l, ?append_cons;
    [reflexivity | now rewrite IH].
Qed.

Lemma len_nonneg (s : string) : 0 <= len s.
Proof. unfold len; lia. Qed.

(** A slice that starts inside the string and spans [lim] code units. *)
Lemma slice_window (s : string) (off lim : Z) :
  0 <= off <= len s -> 0 <= lim ->
  slice s off (Some (off + lim))
  = take (Z.to_nat (Z.min lim (len s - off))) (drop (Z.to_nat off) s).
Proof.
  intros Hoff Hlim. unfold slice, clampIndex.
  destruct (Z.ltb_spec off 0) as [?|_]; [lia|].
  destruct (Z.ltb_spec (off + lim) 0) as [?|_]; [lia|].
  rewrite (Z.min_l off (len s)) by lia.
  f_equal. lia.
Qed.

Lemma len_slice_window (s : string) (off lim : Z) :
  0 <= off <= len s -> 0 <= lim ->
  len (slice s off (Some (off + lim))) = Z.min lim (len s - off).
Proof.
  intros Hoff Hlim. rewrite slice_window by assumption.
  unfold len in *. rewrite length_take, length_drop. lia.
Qed.

End StringFacts.

(** ** Pagination of an EPUB *)

Section Pagination.
Import Epub EpubSpec.

(** *** The helpers of [openEpub] compute the parts of an href *)

Lemma split_head (href : string) :
  exists rest, JS.split hashSign href = fileOf href :: rest.
Proof.
  induction href as [|c href [rest IH]]; [now exists []|]. cbn [JS.split fileOf].
  destruct (Ascii.eqb c hashSign); [eauto|]. rewrite IH. eauto.
Qed.

Lemma fileOf_spec (href : string) : fileOf href = fileHrefOf href.
Proof.
  unfold fileHrefOf. change "#"%char with hashSign.
  destruct (split_head href) as [rest ->]. reflexivity.
Qed.

Lemma fragmentOf_spec (href : string) : fragmentOf href = anchorOf href.
Proof.
  unfold anchorOf, fragmentOf. change "#"%char with hashSign.
  induction href as [|c href IH]; [reflexivity|]. cbn [JS.split behindHash].
  destruct (Ascii.eqb c hashSign).
  - destruct (split_head href) as [rest ->]. reflexivity.
  - rewrite IH. destruct (split_head href) as [rest ->]. reflexivity.
Qed.

Lemma behindPrefix_spec (prefix s : string) :
  behindPrefix prefix s
  = if JS.startsWith s prefix then Some (JS.drop (String.length prefix) s) else None.
Proof.
  revert s; induction prefix as [|a prefix IH]; intros s; [now destruct s|].
  destruct s as [|b s]; [reflexivity|]. cbn [behindPrefix JS.startsWith String.length JS.drop].
  destruct (Ascii.eqb a b); [apply IH | reflexivity].
Qed.

Lemma plainHref_spec (href : string) : plainHref href = normalizeHref href.
Proof.
  unfold plainHref, normalizeHref, containerDirs, stripPrefix. cbn [fold_left].
  rewrite !behindPrefix_spec.
  repeat match goal with
         | |- context [JS.startsWith ?s ?p] =>
             lazymatch s with
             | context [JS.startsWith] => fail
             | _ => destruct (JS.startsWith s p) eqn:?
             end; cbn [default from_option id]
         end; rewrite ?behindPrefix_spec; reflexivity.
Qed.

Lemma present_spec (text : option string) :
  present text = if JS.truthyOpt text then text else None.
Proof. now destruct text as [[|c rest]|]. Qed.

Lemma present_truthy (text : option string) (t : string) :
  present text = Some t -> text = Some t /\ JS.truthy t = true.
Proof. destruct text as [[|c rest]|]; cbn; [discriminate | | discriminate]. now intros [= <-]. Qed.

Lemma titleOr_present (title : option string) (fallback : string) :
  titleOr title fallback = default fallback (present title).
Proof. now destruct title as [[|c rest]|]. Qed.

(** [a || b] followed by the test of the result. *)
Lemma orElse_present (a b : option string) :
  present (JS.orElse a b)
  = match present a with Some x => Some x | None => present b end.
Proof. unfold JS.orElse. now destruct a as [[|c rest]|]. Qed.

(** A file href followed by ['#'] and a fragment comes apart as it was
    put together. *)
Lemma href_parts (file fragment : string) :
  JS.includes file hashSign = false ->
  JS.includes fragment hashSign = false ->
  fileOf (String.append file (String hashSign fragment)) = file
  /\ fragmentOf (String.append file (String hashSign fragment)) = Some fragment
  /\ fileOf file = file
  /\ fragmentOf file = None.
Proof.
  intros Hfile Hfragment.
  assert (Hwhole : forall s, JS.includes s hashSign = false ->
                             fileOf s = s /\ behindHash s = None).
  { induction s as [|c s IH]; [now split|]. cbn [JS.includes fileOf behindHash].
    intros H. apply orb_false_iff in H as [Hc Hs]. rewrite Hc.
    destruct (IH Hs) as [-> ->]. now split. }
  unfold fragmentOf. destruct (Hwhole file Hfile) as [Hf Hb]. rewrite Hf, Hb.
  split; [|split; [|split; reflexivity]].
  - clear Hf Hb. induction file as [|c file IH]; rewrite ?append_nil_l, ?append_cons.
    + reflexivity.
    + cbn [JS.includes] in Hfile. apply orb_false_iff in Hfile as [Hc Hs].
      cbn [fileOf]. rewrite Hc. now rewrite IH.
  - clear Hf Hb. induction file as [|c file IH]; rewrite ?append_nil_l, ?append_cons.
    + cbn. now rewrite (proj1 (Hwhole fragment Hfragment)).
    + cbn [JS.includes] in Hfile. apply orb_false_iff in Hfile as [Hc Hs].
      cbn [behindHash]. rewrite Hc. now apply IH.
Qed.


Lemma last_filter_cons {A} (P : A -> bool) (x : A) (l : list A) :
  last (List.filter P (x :: l))
  = match last (List.filter P l) with
    | Some y => Some y
    | None => if P x then Some x else None
    end.
Proof.
  cbn [List.filter]. destruct (P x); [|now destruct (last _)].
  destruct (List.filter P l) as [|y l'] eqn:E; [reflexivity|].
  rewrite last_cons. now destruct (last (y :: l')).
Qed.

(** The id map holds, under each key, the last flow document that
    answers to it. *)
Lemma hrefToFlowId_from (fl : list EpubFlowItem) (m : gmap string string) (k : string) :
  fold_left
    (fun m item =>
       <[normalizeHref (flowItemHref item) := flowItemId item]>
         (<[flowItemHref item := flowItemId item]> m))
    fl m !! k
  = match flowDocumentAt fl k with
    | Some fid => Some fid
    | None => m !! k
    end.
Proof.
  revert m; induction fl as [|f fl IH]; intros m; [reflexivity|].
  cbn [fold_left]. rewrite IH. unfold flowDocumentAt.
  rewrite last_filter_cons.
  destruct (last (List.filter (flowAnswers k) fl)) as [g|]; [reflexivity|].
  unfold flowAnswers. rewrite plainHref_spec.
  destruct (String.eqb_spec (normalizeHref (flowItemHref f)) k) as [->|Hn].
  - rewrite lookup_insert_eq, orb_true_r. reflexivity.
  - rewrite lookup_insert_ne by assumption. rewrite orb_false_r.
    destruct (String.eqb_spec (flowItemHref f) k) as [->|Hh].
    + now rewrite lookup_insert_eq.
    + now rewrite lookup_insert_ne.
Qed.

Lemma hrefToFlowId_lookup (fl : list EpubFlowItem) (k : string) :
  hrefToFlowId fl !! k = flowDocumentAt fl k.
Proof.
  unfold hrefToFlowId. rewrite hrefToFlowId_from, lookup_empty.
  now destruct (flowDocumentAt fl k).
Qed.

Lemma setIfAbsent_lookup (k v k' : string) (m : gmap string string) :
  setIfAbsent k v m !! k'
  = match m !! k' with
    | Some w => Some w
    | None => if String.eqb k k' then Some v else None
    end.
Proof.
  unfold setIfAbsent. destruct (m !! k) as [w|] eqn:Ek.
  - destruct (String.eqb_spec k k') as [<-|Hne]; [now rewrite Ek|].
    now destruct (m !! k').
  - destruct (String.eqb_spec k k') as [<-|Hne].
    + now rewrite lookup_insert_eq, Ek.
    + rewrite lookup_insert_ne by assumption. now destruct (m !! k').
Qed.

(** The title map holds, under each key, the title of the first TOC
    entry that names it. *)
Lemma hrefToTocTitle_from (tc : list EpubTocItem) (m : gmap string string) (k : string) :
  fold_left
    (fun m tocItem =>
       match tocHref tocItem, tocTitle tocItem with
       | Some href, Some title =>
           if JS.truthy href && JS.truthy title then
             let fileHref := fileHrefOf href in
             setIfAbsent (normalizeHref fileHref) title
               (setIfAbsent fileHref title m)
           else m
       | _, _ => m
       end)
    tc m !! k
  = match m !! k with
    | Some w => Some w
    | None => firstTocTitle tc k
    end.
Proof.
  revert m; induction tc as [|t tc IH]; intros m.
  - cbn. now destruct (m !! k).
  - cbn [fold_left]. rewrite IH. unfold firstTocTitle. cbn [List.find].
    assert (Hn : tocNames k t
                 = match present (tocHref t), present (tocTitle t) with
                   | Some href, Some _ =>
                       String.eqb (fileOf href) k || String.eqb (plainHref (fileOf href)) k
                   | _, _ => false
                   end) by reflexivity.
    rewrite Hn; clear Hn.
    destruct (tocHref t) as [[|c href]|];
      destruct (tocTitle t) as [[|d ti]|] eqn:Eti;
      cbn [present JS.truthy andb]; try reflexivity.
    cbv zeta. rewrite !setIfAbsent_lookup.
    rewrite (fileOf_spec (String c href)), (plainHref_spec (fileHrefOf (String c href))).
    destruct (m !! k); [reflexivity|].
    destruct (String.eqb (fileHrefOf (String c href)) k); cbn [orb mbind option_bind].
    + now rewrite Eti.
    + destruct (String.eqb (normalizeHref (fileHrefOf (String c href))) k);
        cbn [mbind option_bind].
      * now rewrite Eti.
      * reflexivity.
Qed.

Lemma hrefToTocTitle_lookup (tc : list EpubTocItem) (k : string) :
  hrefToTocTitle tc !! k = firstTocTitle tc k.
Proof. unfold hrefToTocTitle. now rewrite hrefToTocTitle_from, lookup_empty. Qed.

(** A title found through the TOC is never empty. *)
Lemma firstTocTitle_truthy (tc : list EpubTocItem) (k t : string) :
  firstTocTitle tc k = Some t -> JS.truthy t = true.
Proof.
  unfold firstTocTitle. destruct (List.find (tocNames k) tc) as [e|] eqn:E; [|discriminate].
  apply List.find_some in E as [_ E]. unfold tocNames in E. cbn.
  destruct (present (tocHref e)); [|discriminate].
  destruct (present (tocTitle e)) as [ti|] eqn:Eti; [|discriminate].
  apply present_truthy in Eti as [-> Hti]. now intros [= <-].
Qed.

Lemma anchorStep_spec (fl : list EpubFlowItem) (pgs : list PageInfo) (t : EpubTocItem) :
  anchorStep (hrefToFlowId fl) pgs t
  = pgs ++ match chapterOfToc fl t with
           | Some c => [anchorChapter (length pgs) c]
           | None => []
           end.
Proof.
  unfold anchorStep, chapterOfToc, resolveFlow.
  destruct (tocHref t) as [[|c href]|]; cbn [present JS.truthy negb];
    try now rewrite app_nil_r.
  rewrite !hrefToFlowId_lookup, <- orElse_present.
  rewrite (fileOf_spec (String c href)), (plainHref_spec (fileHrefOf (String c href))).
  destruct (JS.orElse _ _) as [[|d fid]|]; cbn [present JS.truthy negb fmap option_fmap option_map];
    try now rewrite app_nil_r.
  unfold anchorChapter.
  now rewrite titleOr_present, (fileOf_spec (String c href)),
    (fragmentOf_spec (String c href)).
Qed.

Lemma anchorPages_from (fl : list EpubFlowItem) (l : list EpubTocItem) (acc : list PageInfo) :
  fold_left (anchorStep (hrefToFlowId fl)) l acc
  = acc ++ imap (fun i => anchorChapter (length acc + i)) (omap (chapterOfToc fl) l).
Proof.
  revert acc; induction l as [|t l IH]; intros acc; cbn [fold_left].
  - cbn. now rewrite app_nil_r.
  - rewrite IH, anchorStep_spec. cbn [omap list_omap].
    destruct (chapterOfToc fl t) as [c|].
    + rewrite <- app_assoc. f_equal. cbn [imap app]. rewrite Nat.add_0_r. f_equal.
      apply imap_ext. intros i x _. rewrite length_app. cbn. f_equal. lia.
    + now rewrite app_nil_r.
Qed.

Lemma anchorPages_spec (epub : EPub) :
  anchorPages epub = anchorChapters (flow epub) (sortByOrder (toc epub)).
Proof. unfold anchorPages. now rewrite anchorPages_from. Qed.

Lemma flowPage_spec (tc : list EpubTocItem) (i : nat) (sp : EpubSpineItem) :
  flowPage (hrefToTocTitle tc) i sp = flowChapter tc i sp.
Proof.
  unfold flowPage, flowChapter, flowChapterTitle. f_equal.
  rewrite !hrefToTocTitle_lookup, (plainHref_spec (spineHref sp)).
  assert (Hrest : titleOr (JS.orElse (firstTocTitle tc (spineHref sp))
                             (firstTocTitle tc (normalizeHref (spineHref sp))))
                    (pageLabel (i + 1))
                  = match firstTocTitle tc (spineHref sp) with
                    | Some t => t
                    | None =>
                        match firstTocTitle tc (normalizeHref (spineHref sp)) with
                        | Some t => t
                        | None => pageName (i + 1)
                        end
                    end).
  { unfold JS.orElse.
    destruct (firstTocTitle tc (spineHref sp)) as [t|] eqn:E1; cbn [JS.truthyOpt].
    - rewrite (firstTocTitle_truthy tc _ t E1). cbn.
      now rewrite (firstTocTitle_truthy tc _ t E1).
    - destruct (firstTocTitle tc (normalizeHref (spineHref sp))) as [t|] eqn:E2;
        [|reflexivity].
      cbn. now rewrite (firstTocTitle_truthy tc _ t E2). }
  destruct (spineTitle sp) as [[|c t]|]; cbn [JS.truthyOpt JS.truthy present];
    [exact Hrest | reflexivity | exact Hrest].
Qed.

Lemma insertByOrder_perm (x : EpubTocItem) (l : list EpubTocItem) :
  insertByOrder x l ≡ₚ x :: l.
Proof.
  induction l as [|y l IH]; cbn; [reflexivity|].
  destruct (orderOf x <=? orderOf y); [reflexivity|].
  rewrite IH. apply Permutation_swap.
Qed.

(** Sorting by play order reorders the TOC and drops or adds nothing. *)
Lemma sortByOrder_perm (l : list EpubTocItem) : sortByOrder l ≡ₚ l.
Proof.
  induction l as [|x l IH]; cbn; [reflexivity|].
  now rewrite insertByOrder_perm, IH.
Qed.

(** *** Sorting by play order *)

Lemma playOrderOf_spec (t : EpubTocItem) : playOrderOf t = orderOf t.
Proof. unfold playOrderOf, orderOf. now destruct (tocOrder t). Qed.

Lemma insertByOrder_filter (z : Z) (x : EpubTocItem) (l : list EpubTocItem) :
  List.filter (fun t => playOrderOf t =? z) (insertByOrder x l)
  = List.filter (fun t => playOrderOf t =? z) (x :: l).
Proof.
  induction l as [|y l IH]; [reflexivity|]. cbn [insertByOrder].
  destruct (Z.leb_spec (orderOf x) (orderOf y)) as [Hle|Hgt]; [reflexivity|].
  cbn [List.filter]. rewrite IH. cbn [List.filter]. rewrite <- (playOrderOf_spec x), <- (playOrderOf_spec y) in Hgt.
  destruct (Z.eqb_spec (playOrderOf y) z), (Z.eqb_spec (playOrderOf x) z);
    try reflexivity. exfalso. lia.
Qed.

Lemma insertByOrder_sorted (x : EpubTocItem) (l : list EpubTocItem) :
  StronglySorted (fun a b => playOrderOf a <= playOrderOf b) l ->
  StronglySorted (fun a b => playOrderOf a <= playOrderOf b) (insertByOrder x l).
Proof.
  induction l as [|y l IH]; intros Hs; cbn [insertByOrder].
  - constructor; constructor.
  - apply StronglySorted_inv in Hs as [Hl Hy].
    destruct (Z.leb_spec (orderOf x) (orderOf y)) as [Hle|Hgt];
      rewrite <- (playOrderOf_spec x), <- (playOrderOf_spec y) in *.
    + constructor; [now constructor|]. constructor; [exact Hle|].
      eapply List.Forall_impl; [|exact Hy]. cbn. intros t Ht. lia.
    + constructor; [now apply IH|].
      apply (Permutation_Forall (Permutation_sym (insertByOrder_perm x l))).
      constructor; [lia | exact Hy].
Qed.

(** The sort of [openEpub] puts the table of contents in play order. *)
Lemma sortByOrder_inPlayOrder (tc : list EpubTocItem) : inPlayOrder tc (sortByOrder tc).
Proof.
  split; [apply sortByOrder_perm|]. split.
  - induction tc as [|x tc IH]; [constructor|]. cbn. now apply insertByOrder_sorted.
  - intros z. induction tc as [|x tc IH]; [reflexivity|].
    cbn [sortByOrder fold_right]. rewrite insertByOrder_filter.
    cbn [List.filter]. fold (sortByOrder tc). now rewrite IH.
Qed.

Lemma omap_length_filter {A B} (f : A -> option B) (l : list A) :
  length (omap f l)
  = length (List.filter (fun x => match f x with Some _ => true | None => false end) l).
Proof.
  induction l as [|x l IH]; cbn; [reflexivity|].
  destruct (f x); cbn; now rewrite IH.
Qed.

Lemma filter_length_perm {A} (P : A -> bool) (l l' : list A) :
  l ≡ₚ l' -> length (List.filter P l) = length (List.filter P l').
Proof.
  induction 1; cbn; try congruence.
  - destruct (P x); cbn; congruence.
  - destruct (P x), (P y); reflexivity.
Qed.

Lemma tocHasAnchors_spec (tc : list EpubTocItem) :
  tocHasAnchors tc = true
  <-> exists t href, In t tc /\ tocHref t = Some href /\ JS.includes href "#" = true.
Proof.
  unfold tocHasAnchors. rewrite existsb_exists. split.
  - intros (t & Hin & Ht). destruct (tocHref t) as [href|] eqn:E; [|discriminate].
    now exists t, href.
  - intros (t & href & Hin & E & Hh). exists t. split; [assumption|]. now rewrite E.
Qed.

End Pagination.

(** C1.  The chapter list of an opened EPUB is built in anchor mode
    exactly when the table of contents has more entries than the flow
    and some TOC href contains ['#'].  In anchor mode the chapters are
    the TOC entries, taken in play order, whose file href (the part in
    front of the first ['#']) resolves to a flow document, one chapter
    each, carrying that document's id, the file href and the anchor
    (the fragment behind the ['#']); their number is the number of
    resolving TOC entries.  Otherwise every spine document is one
    chapter, in spine order, titled by its own title if it has one,
    else by the first TOC entry that names its file, else ["Page N"]
    with [N] its 1-based position. *)
Theorem C1_pagination_mode (epub : Epub.EPub) :
  (Epub.useAnchorBasedPages epub = true
   <-> (length (Epub.flow epub) < length (Epub.toc epub))%nat
       /\ exists t href, In t (Epub.toc epub) /\ Epub.tocHref t = Some href
                         /\ JS.includes href "#" = true)
  /\ (Epub.useAnchorBasedPages epub = true ->
      exists ordered,
        EpubSpec.inPlayOrder (Epub.toc epub) ordered
        /\ Epub.pages (Epub.openEpub epub)
           = EpubSpec.anchorChapters (Epub.flow epub) ordered
        /\ length (Epub.pages (Epub.openEpub epub))
           = length (List.filter (EpubSpec.resolves (Epub.flow epub)) (Epub.toc epub)))
  /\ (Epub.useAnchorBasedPages epub = false ->
      Epub.pages (Epub.openEpub epub)
      = imap (EpubSpec.flowChapter (Epub.toc epub)) (Epub.spineContents epub)
      /\ length (Epub.pages (Epub.openEpub epub)) = length (Epub.spineContents epub)).
Proof.
  split; [|split].
  - unfold Epub.useAnchorBasedPages. rewrite andb_true_iff, tocHasAnchors_spec.
    now rewrite Nat.ltb_lt.
  - intros Hmode. exists (Epub.sortByOrder (Epub.toc epub)).
    split; [apply sortByOrder_inPlayOrder|].
    unfold Epub.openEpub. rewrite Hmode. cbn [Epub.pages].
    rewrite anchorPages_spec. split; [reflexivity|].
    unfold EpubSpec.anchorChapters. rewrite length_imap, omap_length_filter.
    apply filter_length_perm, sortByOrder_perm.
  - intros Hmode. unfold Epub.openEpub. rewrite Hmode. cbn [Epub.pages].
    unfold Epub.flowPages.
    assert (E : imap (Epub.flowPage (Epub.hrefToTocTitle (Epub.toc epub)))
                     (Epub.spineContents epub)
                = imap (EpubSpec.flowChapter (Epub.toc epub)) (Epub.spineContents epub)).
    { apply imap_ext. intros i sp _. apply flowPage_spec. }
    rewrite E. split; [reflexivity | apply length_imap].
Qed.

(** ** Boilerplate removal across chapters *)

Section Dedup.
Import JS Epub.

Lemma take_take (n m : nat) (s : string) : take n (take m s) = take (Nat.min n m) s.
Proof.
  revert m s; induction n as [|n IH]; intros [|m] [|c s]; cbn; try reflexivity.
  now rewrite IH.
Qed.

Lemma startsWith_nil (s : string) : startsWith s "" = true.
Proof. now destruct s. Qed.

Lemma startsWith_iff (s p : string) :
  startsWith s p = true <-> take (String.length p) s = p.
Proof.
  revert s; induction p as [|a p IH]; intros s.
  - rewrite startsWith_nil. cbn. now destruct s.
  - destruct s as [|b s]; cbn; [split; discriminate|].
    destruct (Ascii.eqb_spec a b) as [->|Hne].
    + rewrite IH. split; [now intros -> | now intros [= H]].
    + split; [discriminate | intros [= H _]; congruence].
Qed.

Lemma startsWith_length (s p : string) :
  startsWith s p = true -> (String.length p <= String.length s)%nat.
Proof.
  intros H. apply startsWith_iff in H.
  rewrite <- H at 1. rewrite length_take. lia.
Qed.

(** A pattern no longer than a window of [s] starts the window exactly
    when it starts [s]. *)
Lemma startsWith_take (n : nat) (s p : string) :
  (String.length p <= n)%nat ->
  startsWith (take n s) p = startsWith s p.
Proof.
  intros Hn. apply eq_true_iff_eq. rewrite !startsWith_iff, take_take.
  now rewrite Nat.min_l.
Qed.

Lemma slice_head (s : string) (l : Z) :
  0 <= l -> slice s 0 (Some l) = take (Z.to_nat l) s.
Proof.
  intros Hl. change (Some l) with (Some (0 + l)).
  rewrite slice_window by (pose proof (len_nonneg s); lia).
  cbn [Z.to_nat]. rewrite drop_0.
  destruct (Z.le_ge_cases l (len s)).
  - f_equal. lia.
  - rewrite !take_all; [reflexivity | unfold len in *; lia | unfold len in *; lia].
Qed.

Lemma slice_tail (s : string) (a : Z) :
  0 <= a -> slice s a None = drop (Z.to_nat a) s.
Proof.
  intros Ha. unfold slice, clampIndex.
  destruct (Z.ltb_spec a 0); [lia|].
  destruct (Z.le_ge_cases a (len s)).
  - rewrite Z.min_l by lia. apply take_all. rewrite length_drop. unfold len; lia.
  - rewrite Z.min_r by lia. rewrite !drop_all; unfold len in *; try lia.
    now destruct (Z.to_nat _).
Qed.

Lemma len_take (n : nat) (s : string) : len (take n s) = Z.min (Z.of_nat n) (len s).
Proof. unfold len. rewrite length_take. lia. Qed.

(** Where [indexOf] finds a pattern, the pattern does start. *)
Lemma indexOfFrom_found (s p : string) (i0 : Z) :
  indexOfFrom s p i0 <> -1 -> 0 <= i0 ->
  exists d : nat,
    indexOfFrom s p i0 = i0 + Z.of_nat d /\ startsWith (drop d s) p = true.
Proof.
  revert i0; induction s as [|c s IH]; intros i0 Hfound Hi0.
  - cbn [indexOfFrom] in *. destruct (startsWith "" p) eqn:E; [|congruence].
    exists 0%nat. split; [lia | exact E].
  - cbn [indexOfFrom] in *. destruct (startsWith (String c s) p) eqn:E.
    + exists 0%nat. split; [lia | exact E].
    + destruct (IH (i0 + 1) Hfound) as (d & Hd & Hs); [lia|].
      exists (S d). split; [lia | exact Hs].
Qed.

Lemma indexOf_found (s p : string) :
  indexOf s p <> -1 ->
  exists d : nat, indexOf s p = Z.of_nat d /\ startsWith (drop d s) p = true.
Proof.
  intros H. destruct (indexOfFrom_found s p 0 H) as (d & Hd & Hs); [lia|].
  exists d. split; [exact Hd | exact Hs].
Qed.

Lemma indexOf_startsWith (s p : string) : startsWith s p = true -> indexOf s p = 0.
Proof. intros H. unfold indexOf. destruct s; cbn [indexOfFrom]; now rewrite H. Qed.

Lemma lastIndexOfFrom_found (s p : string) (i0 best : Z) :
  lastIndexOfFrom s p i0 best <> best -> 0 <= i0 ->
  exists d : nat,
    lastIndexOfFrom s p i0 best = i0 + Z.of_nat d
    /\ startsWith (drop d s) p = true.
Proof.
  revert i0 best; induction s as [|c s IH]; intros i0 best Hfound Hi0.
  - cbn [lastIndexOfFrom] in *. destruct (startsWith "" p) eqn:E; [|congruence].
    exists 0%nat. split; [lia | exact E].
  - cbn [lastIndexOfFrom] in *. destruct (startsWith (String c s) p) eqn:E.
    + destruct (Z.eq_dec (lastIndexOfFrom s p (i0 + 1) i0) i0) as [Heq|Hne].
      * exists 0%nat. split; [lia | exact E].
      * destruct (IH (i0 + 1) i0 Hne) as (d & Hd & Hs); [lia|].
        exists (S d). split; [lia | exact Hs].
    + destruct (IH (i0 + 1) best Hfound) as (d & Hd & Hs); [lia|].
      exists (S d). split; [lia | exact Hs].
Qed.

Lemma lastIndexOf_found (s p : string) :
  lastIndexOf s p <> -1 ->
  exists d : nat, lastIndexOf s p = Z.of_nat d /\ startsWith (drop d s) p = true.
Proof.
  intros H. destruct (lastIndexOfFrom_found s p 0 (-1) H) as (d & Hd & Hs); [lia|].
  exists d. split; [exact Hd | exact Hs].
Qed.

Lemma countWhere_ext (f g : string -> bool) (l : list string) :
  (forall s, In s l -> f s = g s) -> countWhere f l = countWhere g l.
Proof.
  intros H. unfold countWhere. f_equal. f_equal.
  induction l as [|x l IH]; cbn; [reflexivity|].
  rewrite (H x) by now left. rewrite IH; [reflexivity|].
  intros s Hs. apply H. now right.
Qed.

Lemma countWhere_map {A} (f g : A -> string) (P Q : string -> bool) (l : list A) :
  (forall x, In x l -> P (f x) = Q (g x)) ->
  countWhere P (map f l) = countWhere Q (map g l).
Proof.
  intros H. unfold countWhere. f_equal.
  induction l as [|x l IH]; cbn; [reflexivity|].
  rewrite (H x) by now left.
  destruct (Q (g x)); cbn; rewrite IH; try reflexivity;
    intros y Hy; apply H; now right.
Qed.

Lemma countWhere_all (P : string -> bool) (l : list string) :
  (forall s, In s l -> P s = true) -> countWhere P l = Z.of_nat (length l).
Proof.
  intros H. unfold countWhere. f_equal.
  induction l as [|x l IH]; cbn; [reflexivity|].
  rewrite (H x) by now left. cbn. rewrite IH; [reflexivity|].
  intros s Hs. apply H. now right.
Qed.

(** What the prefix loop can return: nothing, or a prefix of the first
    window of one of the tested lengths that enough windows start with. *)
Lemma prefixLoop_result (fuel : nat) (strings : list string) (minCount : Z)
    (prefix : string) (start : Z) :
  prefixLoop fuel strings minCount prefix start = ""
  \/ exists j : nat,
       100 <= start - 50 * Z.of_nat j
       /\ prefixLoop fuel strings minCount prefix start
          = slice prefix 0 (Some (start - 50 * Z.of_nat j))
       /\ minCount <= countWhere
                        (fun s => startsWith s (prefixLoop fuel strings minCount prefix start))
                        strings.
Proof.
  revert start; induction fuel as [|fuel IH]; intros start; [now left|].
  cbn [prefixLoop]. destruct (Z.leb_spec 100 start) as [Hge|_]; [|now left].
  destruct (Z.leb_spec minCount
              (countWhere (fun s => startsWith s (slice prefix 0 (Some start))) strings))
    as [Hcount|_].
  - right. exists 0%nat. rewrite Z.mul_0_r, Z.sub_0_r. auto.
  - destruct (IH (start - 50)) as [E|(j & Hj & E & Hc)]; [now left|].
    right. exists (S j). split; [lia|]. split; [|exact Hc].
    rewrite E. do 2 f_equal. lia.
Qed.

Lemma suffixLoop_result (fuel : nat) (strings : list string) (minCount : Z)
    (suffix : string) (start : Z) :
  suffixLoop fuel strings minCount suffix start = ""
  \/ exists j : nat,
       100 <= start - 50 * Z.of_nat j
       /\ suffixLoop fuel strings minCount suffix start
          = slice suffix (- (start - 50 * Z.of_nat j)) None
       /\ minCount <= countWhere
                        (fun s => endsWith s (suffixLoop fuel strings minCount suffix start))
                        strings.
Proof.
  revert start; induction fuel as [|fuel IH]; intros start; [now left|].
  cbn [suffixLoop]. destruct (Z.leb_spec 100 start) as [Hge|_]; [|now left].
  destruct (Z.leb_spec minCount
              (countWhere (fun s => endsWith s (slice suffix (- start) None)) strings))
    as [Hcount|_].
  - right. exists 0%nat. rewrite Z.mul_0_r, Z.sub_0_r. auto.
  - destruct (IH (start - 50)) as [E|(j & Hj & E & Hc)]; [now left|].
    right. exists (S j). split; [lia|]. split; [|exact Hc].
    rewrite E. do 2 f_equal. lia.
Qed.

(** The prefix loop stops at the first tested length that enough
    windows share. *)
Lemma prefixLoop_found (strings : list string) (minCount : Z) (prefix : string) (k : nat) :
  forall (fuel : nat) (start : Z),
    (k < fuel)%nat ->
    100 <= start - 50 * Z.of_nat k ->
    (forall j : nat, (j < k)%nat ->
       countWhere (fun s => startsWith s (slice prefix 0 (Some (start - 50 * Z.of_nat j))))
                  strings < minCount) ->
    minCount <= countWhere
                  (fun s => startsWith s (slice prefix 0 (Some (start - 50 * Z.of_nat k))))
                  strings ->
    prefixLoop fuel strings minCount prefix start
    = slice prefix 0 (Some (start - 50 * Z.of_nat k)).
Proof.
  induction k as [|k IH]; intros fuel start Hfuel Hge Hlow Hhit;
    (destruct fuel as [|fuel]; [lia|]); cbn [prefixLoop].
  - rewrite Z.mul_0_r, Z.sub_0_r in *.
    destruct (Z.leb_spec 100 start); [|lia].
    destruct (Z.leb_spec minCount
                (countWhere (fun s => startsWith s (slice prefix 0 (Some start))) strings));
      [reflexivity | lia].
  - destruct (Z.leb_spec 100 start); [|lia].
    pose proof (Hlow 0%nat ltac:(lia)) as H0. rewrite Z.mul_0_r, Z.sub_0_r in H0.
    destruct (Z.leb_spec minCount
                (countWhere (fun s => startsWith s (slice prefix 0 (Some start))) strings));
      [lia|].
    replace (start - 50 * Z.of_nat (S k)) with (start - 50 - 50 * Z.of_nat k) in * by lia.
    apply IH; [lia | lia | | exact Hhit].
    intros j Hj. specialize (Hlow (S j) ltac:(lia)).
    replace (start - 50 * Z.of_nat (S j)) with (start - 50 - 50 * Z.of_nat j) in Hlow by lia.
    exact Hlow.
Qed.

(** The preamble case: when the first chapter's window has one of the
    lengths [500 + 50 k] and no longer tested prefix is shared by half
    of the chapters, the common prefix is the preamble itself. *)
Lemma commonPrefix_preamble (chapters : list ExtractedChapter) (P : string)
    (ch0 : ExtractedChapter) (k : nat) :
  chapters !! 0%nat = Some ch0 ->
  len P = 500 ->
  (forall ch, In ch chapters -> startsWith (content ch) P = true) ->
  Z.min (len (content ch0)) 2000 = 500 + 50 * Z.of_nat k ->
  (forall j : nat, (j < k)%nat ->
     countWhere
       (fun c => startsWith c (take (Z.to_nat (500 + 50 * Z.of_nat k - 50 * Z.of_nat j))
                                    (content ch0)))
       (map content chapters) < ceilHalf (length chapters)) ->
  commonPrefixOf chapters = P.
Proof.
  intros H0 HP Hall Hstart Hlow.
  destruct chapters as [|c0 rest]; [discriminate|].
  cbn in H0. injection H0 as ->.
  unfold commonPrefixOf, findCommonPrefix. cbn [map].
  set (windows := slice (content ch0) 0 (Some 2000)
                  :: map (fun ch => slice (content ch) 0 (Some 2000)) rest).
  assert (Hw0 : slice (content ch0) 0 (Some 2000) = take 2000 (content ch0))
    by (now rewrite slice_head by lia).
  rewrite Hw0. rewrite len_take.
  replace (Z.min (Z.min (Z.of_nat 2000) (len (content ch0))) 2000)
    with (500 + 50 * Z.of_nat k) by lia.
  assert (Htp : forall l : Z, 0 <= l <= 2000 ->
            slice (take 2000 (content ch0)) 0 (Some l) = take (Z.to_nat l) (content ch0)).
  { intros l Hl. rewrite slice_head by lia. rewrite take_take. f_equal. lia. }
  assert (Hcount : forall tp : string, (String.length tp <= 2000)%nat ->
            countWhere (fun s => startsWith s tp) windows
            = countWhere (fun c => startsWith c tp) (map content (ch0 :: rest))).
  { intros tp Htp'. subst windows.
    change (slice (content ch0) 0 (Some 2000)
            :: map (fun ch => slice (content ch) 0 (Some 2000)) rest)
      with (map (fun ch => slice (content ch) 0 (Some 2000)) (ch0 :: rest)).
    apply countWhere_map. intros ch _. rewrite slice_head by lia.
    now apply startsWith_take. }
  rewrite (prefixLoop_found windows (ceilHalf (length (ch0 :: rest)))
             (take 2000 (content ch0)) k).
  - replace (500 + 50 * Z.of_nat k - 50 * Z.of_nat k) with 500 by lia.
    rewrite Htp by lia.
    pose proof (Hall ch0 (or_introl eq_refl)) as Hs0.
    apply startsWith_iff in Hs0. unfold len in HP.
    replace (Z.to_nat 500) with (String.length P) by lia. exact Hs0.
  - lia.
  - lia.
  - intros j Hj. rewrite Htp by lia. rewrite Hcount.
    + apply Hlow, Hj.
    + rewrite length_take. lia.
  - replace (500 + 50 * Z.of_nat k - 50 * Z.of_nat k) with 500 by lia.
    rewrite Htp by lia. rewrite Hcount by (rewrite length_take; lia).
    pose proof (Hall ch0 (or_introl eq_refl)) as Hs0.
    apply startsWith_iff in Hs0. unfold len in HP.
    replace (Z.to_nat 500) with (String.length P) by lia. rewrite Hs0.
    rewrite countWhere_all.
    + rewrite length_map. unfold ceilHalf. cbn [length].
      apply Z.div_le_upper_bound; lia.
    + intros c Hc. apply in_map_iff in Hc as (ch & <- & Hin). now apply Hall.
Qed.

Lemma stripCommonPrefix_changed (cp text : string) :
  stripCommonPrefix cp text <> text ->
  200 < len cp
  /\ exists d : nat,
       indexOf text cp = Z.of_nat d /\ Z.of_nat d < 500
       /\ startsWith (drop d text) cp = true
       /\ stripCommonPrefix cp text = slice text (Z.of_nat d + len cp) None.
Proof.
  unfold stripCommonPrefix. intros H.
  destruct (Z.ltb_spec 200 (len cp)) as [Hlen|]; [|congruence].
  split; [exact Hlen|].
  destruct (Z.eqb_spec (indexOf text cp) (-1)) as [|Hfound]; cbn [negb andb] in *;
    [congruence|].
  destruct (Z.ltb_spec (indexOf text cp) 500) as [Hnear|]; [|congruence].
  destruct (indexOf_found text cp Hfound) as (d & Hd & Hs).
  exists d. rewrite <- Hd. auto.
Qed.

Lemma stripCommonSuffix_changed (cs text : string) :
  stripCommonSuffix cs text <> text ->
  200 < len cs
  /\ exists d : nat,
       lastIndexOf text cs = Z.of_nat d /\ len text - 2000 < Z.of_nat d
       /\ startsWith (drop d text) cs = true
       /\ stripCommonSuffix cs text = slice text 0 (Some (Z.of_nat d)).
Proof.
  unfold stripCommonSuffix. intros H.
  destruct (Z.ltb_spec 200 (len cs)) as [Hlen|]; [|congruence].
  split; [exact Hlen|].
  destruct (Z.eqb_spec (lastIndexOf text cs) (-1)) as [|Hfound]; cbn [negb andb] in *;
    [congruence|].
  destruct (Z.ltb_spec (len text - 2000) (lastIndexOf text cs)) as [Hnear|]; [|congruence].
  destruct (lastIndexOf_found text cs Hfound) as (d & Hd & Hs).
  exists d. rewrite <- Hd. auto.
Qed.

Lemma len_empty_iff (s : string) : len s = 0 <-> s = "".
Proof. destruct s; cbn; split; intros H; try reflexivity; try discriminate. Qed.

Lemma commonPrefix_shape (chapters : list ExtractedChapter) :
  let windows := map (fun ch => slice (content ch) 0 (Some 2000)) chapters in
  commonPrefixOf chapters = ""
  \/ exists (w0 : string) (j : nat),
       windows !! 0%nat = Some w0
       /\ 100 <= Z.min (len w0) 2000 - 50 * Z.of_nat j
       /\ commonPrefixOf chapters
          = slice w0 0 (Some (Z.min (len w0) 2000 - 50 * Z.of_nat j))
       /\ ceilHalf (length chapters)
          <= countWhere (fun w => startsWith w (commonPrefixOf chapters)) windows.
Proof.
  intros windows. unfold commonPrefixOf, findCommonPrefix. fold windows.
  destruct windows as [|w0 ws]; [now left|].
  destruct (prefixLoop_result (Z.to_nat (Z.min (len w0) 2000)) (w0 :: ws)
              (ceilHalf (length chapters)) w0 (Z.min (len w0) 2000))
    as [E|(j & Hj & E & Hc)]; [now left|].
  right. exists w0, j. auto.
Qed.

Lemma commonSuffix_shape (chapters : list ExtractedChapter) :
  let tails := map (fun ch => slice (content ch) (-1500) None) chapters in
  commonSuffixOf chapters = ""
  \/ exists (w0 : string) (j : nat),
       tails !! 0%nat = Some w0
       /\ 100 <= Z.min (len w0) 1500 - 50 * Z.of_nat j
       /\ commonSuffixOf chapters
          = slice w0 (- (Z.min (len w0) 1500 - 50 * Z.of_nat j)) None
       /\ ceilHalf (length chapters)
          <= countWhere (fun w => endsWith w (commonSuffixOf chapters)) tails.
Proof.
  intros tails. unfold commonSuffixOf, findCommonSuffix. fold tails.
  destruct tails as [|w0 ws]; [now left|].
  destruct (suffixLoop_result (Z.to_nat (Z.min (len w0) 1500)) (w0 :: ws)
              (ceilHalf (length chapters)) w0 (Z.min (len w0) 1500))
    as [E|(j & Hj & E & Hc)]; [now left|].
  right. exists w0, j. auto.
Qed.

End Dedup.

(** C4 as the claim words its last part: five chapters share a
    500-character preamble, yet the pass removes only 470 characters of
    it, because the first chapter has 520 characters and the lengths
    tried are 520 and 470. *)
Lemma C4_preamble_counterexample :
  length Samples.shortChapters = 5%nat
  /\ JS.len Samples.preamble = 500
  /\ forallb (fun ch => JS.startsWith (Epub.content ch) Samples.preamble)
             Samples.shortChapters = true
  /\ Epub.commonPrefixOf Samples.shortChapters = JS.take 470 Samples.preamble
  /\ map Epub.content (Epub.deduplicateChapterContent Samples.shortChapters)
     = [ "012345678901234567890123456789Chapter 0 unique txt";
         "012345678901234567890123456789Chapter 1 unique txt";
         "012345678901234567890123456789Chapter 2 unique txt";
         "012345678901234567890123456789Chapter 3 unique txt";
         "012345678901234567890123456789Chapter 4 unique txt" ]
  /\ map Epub.content (Epub.deduplicateChapterContent Samples.shortChapters)
     <> map (fun ch => JS.drop 500 (Epub.content ch)) Samples.shortChapters.
Proof.
  repeat split; try (vm_compute; reflexivity).
  intros H. vm_compute in H. discriminate H.
Qed.

(** C4, amended.  The pass returns fewer than three chapters unchanged.
    With three or more, every chapter's text goes through the prefix
    removal, the suffix removal and [trim]; [cp] and [cs] are the common
    prefix and suffix found.  The prefix removal changes a text only if
    [cp] is longer than 200, is the prefix of the first chapter's
    2000-window of one of the lengths [min(2000, window length) - 50 j]
    (at least 100), starts at least half of the windows, and its first
    occurrence in the text starts before position 500; what is removed
    is everything up to the end of that occurrence.  The suffix removal
    is the same with the 1500-windows, [endsWith], the last occurrence
    and a start after [length - 2000].  If all chapters start with one
    500-character preamble, the first chapter's window length is
    [500 + 50 k] and no longer tested prefix is shared by half of the
    chapters, the prefix found is the preamble and exactly it is removed
    from the front of every chapter. *)
Theorem C4_dedup_bounds (chapters : list Epub.ExtractedChapter) :
  let n := length chapters in
  let windows := map (fun ch => JS.slice (Epub.content ch) 0 (Some 2000)) chapters in
  let tails := map (fun ch => JS.slice (Epub.content ch) (-1500) None) chapters in
  let cp := Epub.commonPrefixOf chapters in
  let cs := Epub.commonSuffixOf chapters in
  ((n < 3)%nat -> Epub.deduplicateChapterContent chapters = chapters)
  /\ ((3 <= n)%nat ->
      Epub.deduplicateChapterContent chapters
      = map (fun ch =>
               Epub.mkChapter (Epub.index ch) (Epub.title ch)
                 (JS.trim (Epub.stripCommonSuffix cs
                             (Epub.stripCommonPrefix cp (Epub.content ch)))))
            chapters)
  /\ (forall text : string,
        Epub.stripCommonPrefix cp text <> text ->
        200 < JS.len cp
        /\ (exists (w0 : string) (j : nat),
              windows !! 0%nat = Some w0
              /\ 100 <= Z.min (JS.len w0) 2000 - 50 * Z.of_nat j
              /\ cp = JS.slice w0 0 (Some (Z.min (JS.len w0) 2000 - 50 * Z.of_nat j)))
        /\ Epub.ceilHalf n <= Epub.countWhere (fun w => JS.startsWith w cp) windows
        /\ exists d : nat,
             JS.indexOf text cp = Z.of_nat d /\ Z.of_nat d < 500
             /\ JS.startsWith (JS.drop d text) cp = true
             /\ Epub.stripCommonPrefix cp text
                = JS.slice text (Z.of_nat d + JS.len cp) None)
  /\ (forall text : string,
        Epub.stripCommonSuffix cs text <> text ->
        200 < JS.len cs
        /\ (exists (w0 : string) (j : nat),
              tails !! 0%nat = Some w0
              /\ 100 <= Z.min (JS.len w0) 1500 - 50 * Z.of_nat j
              /\ cs = JS.slice w0 (- (Z.min (JS.len w0) 1500 - 50 * Z.of_nat j)) None)
        /\ Epub.ceilHalf n <= Epub.countWhere (fun w => JS.endsWith w cs) tails
        /\ exists d : nat,
             JS.lastIndexOf text cs = Z.of_nat d /\ JS.len text - 2000 < Z.of_nat d
             /\ JS.startsWith (JS.drop d text) cs = true
             /\ Epub.stripCommonSuffix cs text = JS.slice text 0 (Some (Z.of_nat d)))
  /\ (forall (P : string) (ch0 : Epub.ExtractedChapter) (k : nat),
        (3 <= n)%nat ->
        chapters !! 0%nat = Some ch0 ->
        JS.len P = 500 ->
        (forall ch, In ch chapters -> JS.startsWith (Epub.content ch) P = true) ->
        Z.min (JS.len (Epub.content ch0)) 2000 = 500 + 50 * Z.of_nat k ->
        (forall j : nat, (j < k)%nat ->
           Epub.countWhere
             (fun c => JS.startsWith c
                         (JS.take (Z.to_nat (500 + 50 * Z.of_nat k - 50 * Z.of_nat j))
                                  (Epub.content ch0)))
             (map Epub.content chapters) < Epub.ceilHalf n) ->
        cp = P
        /\ (forall ch, In ch chapters ->
              Epub.stripCommonPrefix cp (Epub.content ch) = JS.drop 500 (Epub.content ch))
        /\ Epub.deduplicateChapterContent chapters
           = map (fun ch =>
                    Epub.mkChapter (Epub.index ch) (Epub.title ch)
                      (JS.trim (Epub.stripCommonSuffix cs (JS.drop 500 (Epub.content ch)))))
                 chapters).
Proof.
  intros n windows tails cp cs.
  assert (Hrun : (3 <= n)%nat ->
            Epub.deduplicateChapterContent chapters
            = map (fun ch =>
                     Epub.mkChapter (Epub.index ch) (Epub.title ch)
                       (JS.trim (Epub.stripCommonSuffix cs
                                   (Epub.stripCommonPrefix cp (Epub.content ch)))))
                  chapters).
  { intros Hn. unfold Epub.deduplicateChapterContent. fold n.
    destruct (Nat.ltb_spec n 3); [lia | reflexivity]. }
  split; [|split; [exact Hrun|split; [|split]]].
  - intros Hn. unfold Epub.deduplicateChapterContent. fold n.
    destruct (Nat.ltb_spec n 3); [reflexivity | lia].
  - intros text Hchanged.
    destruct (stripCommonPrefix_changed cp text Hchanged) as (Hlen & d & Hd).
    destruct (commonPrefix_shape chapters) as [E|(w0 & j & Hw & Hj & E & Hc)].
    + subst cp. rewrite E in Hlen. unfold JS.len in Hlen. cbn in Hlen. lia.
    + split; [exact Hlen|]. split; [exists w0, j; auto|]. split; [exact Hc|].
      exists d; exact Hd.
  - intros text Hchanged.
    destruct (stripCommonSuffix_changed cs text Hchanged) as (Hlen & d & Hd).
    destruct (commonSuffix_shape chapters) as [E|(w0 & j & Hw & Hj & E & Hc)].
    + subst cs. rewrite E in Hlen. unfold JS.len in Hlen. cbn in Hlen. lia.
    + split; [exact Hlen|]. split; [exists w0, j; auto|]. split; [exact Hc|].
      exists d; exact Hd.
  - intros P ch0 k Hn H0 HP Hall Hstart Hlow.
    assert (Hcp : cp = P) by (eapply commonPrefix_preamble; eassumption).
    assert (Hstrip : forall ch, In ch chapters ->
              Epub.stripCommonPrefix cp (Epub.content ch) = JS.drop 500 (Epub.content ch)).
    { intros ch Hin. rewrite Hcp. unfold Epub.stripCommonPrefix.
      rewrite (indexOf_startsWith _ _ (Hall ch Hin)), HP. cbn.
      now rewrite slice_tail by lia. }
    split; [exact Hcp|]. split; [exact Hstrip|].
    rewrite (Hrun Hn). apply map_ext_in. intros ch Hin. now rewrite Hstrip.
Qed.

(** The hypotheses of the preamble case hold for five chapters of 550
    characters, and there the pass leaves the chapters' own text. *)
Lemma C4_dedup_witness :
  Epub.commonPrefixOf Samples.alignedChapters = Samples.preamble
  /\ (forall ch, In ch Samples.alignedChapters ->
        Epub.stripCommonPrefix (Epub.commonPrefixOf Samples.alignedChapters) (Epub.content ch)
        = JS.drop 500 (Epub.content ch))
  /\ Epub.deduplicateChapterContent Samples.alignedChapters
     = map (fun ch =>
              Epub.mkChapter (Epub.index ch) (Epub.title ch)
                (JS.trim (Epub.stripCommonSuffix
                            (Epub.commonSuffixOf Samples.alignedChapters)
                            (JS.drop 500 (Epub.content ch)))))
           Samples.alignedChapters.
Proof.
  refine (proj2 (proj2 (proj2 (proj2 (C4_dedup_bounds Samples.alignedChapters))))
            Samples.preamble (Samples.chapterOf 0 (String.append "Chapter 0 " Samples.filler))
            1%nat _ _ _ _ _ _).
  - cbn. lia.
  - reflexivity.
  - reflexivity.
  - intros ch Hin. cbn in Hin.
    repeat (destruct Hin as [<-|Hin]; [vm_compute; reflexivity|]). destruct Hin.
  - vm_compute. reflexivity.
  - intros j Hj. assert (j = 0%nat) as -> by lia. vm_compute. reflexivity.
Defined.

(** ** Re-indexing a book *)

Section Reindex.
Import JS (Outcome, Returned, Thrown).
Import Storage StorageSpec.

Lemma filter_filter {A} (P Q : A -> bool) (l : list A) :
  List.filter P (List.filter Q l) = List.filter (fun x => Q x && P x) l.
Proof.
  induction l as [|x l IH]; cbn; [reflexivity|].
  destruct (Q x); cbn; [destruct (P x)|]; now rewrite IH.
Qed.

Lemma map_imap {A B C} (g : B -> C) (f : nat -> A -> B) (l : list A) :
  map g (imap f l) = imap (fun k x => g (f k x)) l.
Proof.
  revert f; induction l as [|x l IH]; intros f; cbn; [reflexivity|].
  f_equal. apply IH.
Qed.

Lemma filter_none {A} (P : A -> bool) (l : list A) :
  (forall x, In x l -> P x = false) -> List.filter P l = [].
Proof.
  induction l as [|x l IH]; cbn; intros H; [reflexivity|].
  rewrite (H x) by now left. apply IH. intros y Hy. apply H. now right.
Qed.

Lemma filter_all {A} (P : A -> bool) (l : list A) :
  (forall x, In x l -> P x = true) -> List.filter P l = l.
Proof.
  induction l as [|x l IH]; cbn; intros H; [reflexivity|].
  rewrite (H x) by now left. f_equal. apply IH. intros y Hy. apply H. now right.
Qed.

Lemma NoDup_map_filter {A B} (f : A -> B) (P : A -> bool) (l : list A) :
  NoDup (map f l) -> NoDup (map f (List.filter P l)).
Proof.
  induction l as [|x l IH]; cbn; intros Hu; [exact Hu|].
  apply NoDup_cons in Hu as [Hx Hu]. destruct (P x); cbn; [|now apply IH].
  apply NoDup_cons. split; [|now apply IH].
  intros Hin. apply Hx. apply list_elem_of_In in Hin. apply list_elem_of_In.
  apply in_map_iff in Hin as (y & <- & Hy). apply in_map.
  now apply List.filter_In in Hy as [Hy _].
Qed.

Lemma NoDup_map_inj {A B} (f : A -> B) (l : list A) (x y : A) :
  NoDup (map f l) -> In x l -> In y l -> f x = f y -> x = y.
Proof.
  induction l as [|z l IH]; cbn; intros Hu Hx Hy Hxy; [destruct Hx|].
  apply NoDup_cons in Hu as [Hz Hu].
  destruct Hx as [->|Hx], Hy as [->|Hy]; auto.
  - exfalso. apply Hz. apply list_elem_of_In. rewrite Hxy. now apply in_map.
  - exfalso. apply Hz. apply list_elem_of_In. rewrite <- Hxy. now apply in_map.
Qed.

Lemma existsb_false_forall {A} (p : A -> bool) (l : list A) :
  existsb p l = false -> forall x, In x l -> p x = false.
Proof.
  intros H x Hx. destruct (p x) eqn:Hp; [|reflexivity].
  assert (existsb p l = true) by (apply existsb_exists; eauto). congruence.
Qed.

(** What is left of the full-text table after the per-id deletions. *)
Lemma forEach_deleteFts (ids : list string) (d : Db) :
  forEach deleteFts ids d
  = (Returned tt,
     {| book_content := book_content d;
        book_content_fts :=
          List.filter (fun f => negb (existsb (String.eqb (ftsContentId f)) ids))
                      (book_content_fts d) |}).
Proof.
  revert d; induction ids as [|i ids IH]; intros d.
  - cbn. unfold ret. f_equal. destruct d as [bc fts]; cbn. f_equal.
    symmetry. apply filter_all. reflexivity.
  - cbn [forEach]. unfold andThen, bind. cbn [deleteFts]. rewrite IH. cbn.
    f_equal. f_equal. rewrite filter_filter. apply List.filter_ext.
    intros f. now rewrite negb_orb.
Qed.

Lemma deleteBookContent_spec (bookId : string) (d : Db) :
  deleteBookContent bookId d
  = (Returned tt,
     {| book_content :=
          List.filter (fun r => negb (String.eqb (rowBookId r) bookId)) (book_content d);
        book_content_fts := remainingFts bookId d |}).
Proof.
  unfold deleteBookContent, bind, andThen, bind, selectContentIds.
  rewrite forEach_deleteFts. reflexivity.
Qed.

Lemma insertChapter_step (bookId contentHash indexedAt : string)
    (bookTitle author : option string) (entry : string * Epub.ExtractedChapter) (d : Db) :
  insertChapter bookId contentHash indexedAt bookTitle author entry d
  = if existsb (fun r => String.eqb (rowId r) (fst entry)) (book_content d)
    then (Thrown, d)
    else (Returned tt,
          {| book_content :=
               book_content d
               ++ [contentRowOf bookId contentHash indexedAt bookTitle author entry];
             book_content_fts := book_content_fts d ++ [ftsRowOf bookId entry] |}).
Proof.
  destruct entry as [newId chapter].
  unfold insertChapter, andThen, bind, insertContent, insertFts. cbn [rowId fst].
  now destruct (existsb _ (book_content d)).
Qed.

(** The insertion loop either throws or appends one row per chapter
    to each table. *)
Lemma insert_loop (bookId contentHash indexedAt : string) (bookTitle author : option string)
    (entries : list (string * Epub.ExtractedChapter)) (d : Db) :
  fst (forEach (insertChapter bookId contentHash indexedAt bookTitle author) entries d) = Thrown
  \/ forEach (insertChapter bookId contentHash indexedAt bookTitle author) entries d
     = (Returned tt,
        {| book_content :=
             book_content d
             ++ map (contentRowOf bookId contentHash indexedAt bookTitle author) entries;
           book_content_fts := book_content_fts d ++ map (ftsRowOf bookId) entries |}).
Proof.
  revert d; induction entries as [|entry entries IH]; intros d.
  - right. cbn. unfold ret. rewrite !app_nil_r. now destruct d.
  - cbn [forEach]. unfold andThen, bind. rewrite insertChapter_step.
    destruct (existsb _ (book_content d)); [now left|].
    match goal with
    | |- context [forEach ?f entries ?d1] => destruct (IH d1) as [Hthrow|Hok]
    end.
    + left. exact Hthrow.
    + right. rewrite Hok. cbn [book_content book_content_fts map].
      now rewrite <- !app_assoc.
Qed.

Lemma indexBody_cases (newIds : nat -> string) (indexedAt bookId : string)
    (chapters : list Epub.ExtractedChapter) (contentHash : string)
    (bookTitle author : option string) (d : Db) :
  let entries := imap (fun k chapter => (newIds k, chapter)) chapters in
  fst (indexBody newIds indexedAt bookId chapters contentHash bookTitle author d) = Thrown
  \/ indexBody newIds indexedAt bookId chapters contentHash bookTitle author d
     = (Returned tt,
        {| book_content :=
             List.filter (fun r => negb (String.eqb (rowBookId r) bookId)) (book_content d)
             ++ map (contentRowOf bookId contentHash indexedAt bookTitle author) entries;
           book_content_fts := remainingFts bookId d ++ map (ftsRowOf bookId) entries |}).
Proof.
  intros entries. unfold indexBody, andThen, bind.
  rewrite deleteBookContent_spec. cbv beta iota. fold entries.
  apply (insert_loop bookId contentHash indexedAt bookTitle author entries
           {| book_content :=
                List.filter (fun r => negb (String.eqb (rowBookId r) bookId))
                            (book_content d);
              book_content_fts := remainingFts bookId d |}).
Qed.

(** All or nothing: a re-index either throws and leaves the tables as
    they were, or returns with the book's rows replaced. *)
Lemma indexBookContent_cases (newIds : nat -> string) (indexedAt bookId : string)
    (chapters : list Epub.ExtractedChapter) (contentHash : string)
    (bookTitle author : option string) (d : Db) :
  let entries := imap (fun k chapter => (newIds k, chapter)) chapters in
  indexBookContent newIds indexedAt bookId chapters contentHash bookTitle author d
  = (Thrown, d)
  \/ indexBookContent newIds indexedAt bookId chapters contentHash bookTitle author d
     = (Returned tt,
        {| book_content :=
             List.filter (fun r => negb (String.eqb (rowBookId r) bookId)) (book_content d)
             ++ map (contentRowOf bookId contentHash indexedAt bookTitle author) entries;
           book_content_fts := remainingFts bookId d ++ map (ftsRowOf bookId) entries |}).
Proof.
  intros entries. unfold indexBookContent, transaction.
  destruct (indexBody_cases newIds indexedAt bookId chapters contentHash bookTitle author d)
    as [Hthrow|Hok].
  - left. destruct (indexBody _ _ _ _ _ _ _ d) as [[[]|] d2];
      [discriminate Hthrow | reflexivity].
  - right. fold entries in Hok. now rewrite Hok.
Qed.

Lemma hashConsistent_subset (d d' : Db) :
  (forall r, In r (book_content d') -> In r (book_content d)) ->
  hashConsistent d -> hashConsistent d'.
Proof. intros Hsub H r1 r2 H1 H2. apply H; now apply Hsub. Qed.

Lemma indexBookContent_consistent (newIds : nat -> string) (indexedAt bookId : string)
    (chapters : list Epub.ExtractedChapter) (contentHash : string)
    (bookTitle author : option string) (d : Db) :
  hashConsistent d ->
  hashConsistent
    (snd (indexBookContent newIds indexedAt bookId chapters contentHash bookTitle author d)).
Proof.
  intros Hd.
  destruct (indexBookContent_cases newIds indexedAt bookId chapters contentHash
              bookTitle author d) as [E|E]; rewrite E; cbn [snd]; [exact Hd|].
  intros r1 r2 H1 H2 Hsame. cbn [book_content] in H1, H2.
  apply in_app_or in H1, H2.
  assert (Hold : forall r,
            In r (List.filter (fun r => negb (String.eqb (rowBookId r) bookId))
                              (book_content d)) ->
            In r (book_content d) /\ rowBookId r <> bookId).
  { intros r Hr. apply List.filter_In in Hr as [Hin Hne]. split; [exact Hin|].
    apply negb_true_iff in Hne. now apply String.eqb_neq in Hne. }
  assert (Hnew : forall r,
            In r (map (contentRowOf bookId contentHash indexedAt bookTitle author)
                      (imap (fun k chapter => (newIds k, chapter)) chapters)) ->
            rowBookId r = bookId /\ rowContentHash r = contentHash).
  { intros r Hr. apply in_map_iff in Hr as (e & <- & _). split; reflexivity. }
  destruct H1 as [H1|H1], H2 as [H2|H2].
  - apply Hd; [apply Hold, H1 | apply Hold, H2 | exact Hsame].
  - apply Hold in H1 as [_ Hne]. apply Hnew in H2 as [Hb _]. congruence.
  - apply Hnew in H1 as [Hb _]. apply Hold in H2 as [_ Hne]. congruence.
  - apply Hnew in H1 as [_ ->]. apply Hnew in H2 as [_ ->]. reflexivity.
Qed.

Lemma applyWrite_consistent (d : Db) (w : Write) :
  hashConsistent d -> hashConsistent (applyWrite d w).
Proof.
  intros Hd. destruct w as [newIds indexedAt bookId chapters contentHash bookTitle author|bookId];
    cbn [applyWrite].
  - now apply indexBookContent_consistent.
  - rewrite deleteBookContent_spec. cbn [snd].
    eapply hashConsistent_subset; [|exact Hd]. cbn [book_content].
    intros r Hr. now apply List.filter_In in Hr as [Hin _].
Qed.

Lemma history_consistent (history : list Write) (d : Db) :
  hashConsistent d -> hashConsistent (fold_left applyWrite history d).
Proof.
  revert d; induction history as [|w history IH]; intros d Hd; [exact Hd|].
  cbn [fold_left]. apply IH. now apply applyWrite_consistent.
Qed.

(** *** When the insertion loop returns *)

Lemma insert_loop_returns (bookId contentHash indexedAt : string)
    (bookTitle author : option string)
    (entries : list (string * Epub.ExtractedChapter)) :
  forall d,
    fst (forEach (insertChapter bookId contentHash indexedAt bookTitle author) entries d)
    = Returned tt
    <-> NoDup (map fst entries)
        /\ forall i r, In i (map fst entries) -> In r (book_content d) -> rowId r <> i.
Proof.
  induction entries as [|e entries IH]; intros d.
  - cbn. split; [intros _; split; [constructor | intros i r []] | reflexivity].
  - cbn [forEach]. unfold andThen, bind. rewrite insertChapter_step. cbn [map].
    destruct (existsb (fun r => String.eqb (rowId r) (fst e)) (book_content d)) eqn:Etaken.
    + cbn [fst]. split; [discriminate|]. intros [_ Hfree].
      apply existsb_exists in Etaken as (r & Hr & E). apply String.eqb_eq in E.
      exfalso. exact (Hfree (fst e) r (or_introl eq_refl) Hr E).
    + rewrite IH. cbn [book_content].
      assert (Hnot : forall r, In r (book_content d) -> rowId r <> fst e).
      { intros r Hr E. apply (existsb_false_forall _ _ Etaken) in Hr.
        apply String.eqb_neq in Hr. contradiction. }
      split.
      * intros [Hnd Hfree]. split.
        -- apply NoDup_cons. split; [|exact Hnd].
           intros Hin. apply list_elem_of_In in Hin.
           apply (Hfree (fst e) (contentRowOf bookId contentHash indexedAt bookTitle author e));
             [exact Hin | apply in_or_app; right; now left | reflexivity].
        -- intros i r [<-|Hi] Hr; [now apply Hnot|].
           apply Hfree; [exact Hi | apply in_or_app; now left].
      * intros [Hnd Hfree]. apply NoDup_cons in Hnd as [Hnotin Hnd]. split; [exact Hnd|].
        intros i r Hi Hr. apply in_app_or in Hr as [Hr|[<-|[]]].
        -- apply Hfree; [now right | exact Hr].
        -- cbn [rowId contentRowOf]. intros <-. apply Hnotin. now apply list_elem_of_In.
Qed.

Lemma fst_numbered (newIds : nat -> string) (chapters : list Epub.ExtractedChapter) :
  forall k,
    map fst (imap (fun i chapter => (newIds (k + i)%nat, chapter)) chapters)
    = map newIds (seq k (length chapters)).
Proof.
  induction chapters as [|c chapters IH]; intros k; [reflexivity|].
  rewrite imap_cons. cbn [map fst length seq]. rewrite Nat.add_0_r. f_equal.
  rewrite <- (IH (S k)). f_equal. apply imap_ext. intros i x _. cbn. do 2 f_equal. lia.
Qed.

Lemma fst_entries (newIds : nat -> string) (chapters : list Epub.ExtractedChapter) :
  map fst (imap (fun k chapter => (newIds k, chapter)) chapters)
  = map newIds (seq 0 (length chapters)).
Proof. exact (fst_numbered newIds chapters 0). Qed.

(** A re-index returns exactly when the generated ids are free. *)
Lemma indexBookContent_returns (newIds : nat -> string) (indexedAt bookId : string)
    (chapters : list Epub.ExtractedChapter) (contentHash : string)
    (bookTitle author : option string) (d : Db) :
  fst (indexBookContent newIds indexedAt bookId chapters contentHash bookTitle author d)
  = Returned tt
  <-> idsFree newIds (length chapters) bookId d.
Proof.
  assert (Hbody : fst (indexBookContent newIds indexedAt bookId chapters contentHash
                         bookTitle author d)
                  = fst (indexBody newIds indexedAt bookId chapters contentHash
                           bookTitle author d)).
  { unfold indexBookContent, transaction. now destruct (indexBody _ _ _ _ _ _ _ d) as [[[]|] d2]. }
  rewrite Hbody. unfold indexBody, andThen, bind. rewrite deleteBookContent_spec.
  cbv beta iota. rewrite insert_loop_returns, fst_entries. cbn [book_content].
  unfold idsFree. split; intros [Hnd Hfree]; (split; [exact Hnd|]).
  - intros k r Hk Hr Hother. apply Hfree.
    + apply in_map. apply in_seq. lia.
    + apply List.filter_In. split; [exact Hr|].
      apply negb_true_iff. now apply String.eqb_neq.
  - intros i r Hi Hr. apply in_map_iff in Hi as (k & <- & Hk). apply in_seq in Hk.
    apply List.filter_In in Hr as [Hr Hother]. apply negb_true_iff in Hother.
    apply String.eqb_neq in Hother. apply Hfree; [lia | exact Hr | exact Hother].
Qed.

(** *** The full-text table as a mirror *)

(** In mirrored tables the per-id deletions remove exactly the
    full-text rows of the book. *)
Lemma remainingFts_mirrored (bookId : string) (d : Db) :
  mirrored d ->
  remainingFts bookId d
  = List.filter (fun f => negb (ftsOf bookId f)) (book_content_fts d).
Proof.
  intros [Hnd Hmirror]. unfold remainingFts. apply List.filter_ext_in. intros f Hf.
  destruct (Hmirror f Hf) as (r & Hr & Hid & Hbook). f_equal. unfold ftsOf.
  destruct (String.eqb_spec (ftsBookId f) bookId) as [Hsame|Hother].
  - apply existsb_exists. exists (rowId r). split; [|now apply String.eqb_eq].
    apply in_map. apply List.filter_In. split; [exact Hr|].
    apply String.eqb_eq. congruence.
  - apply not_true_is_false. intros Hex.
    apply existsb_exists in Hex as (i & Hi & E). apply String.eqb_eq in E.
    apply in_map_iff in Hi as (r' & <- & Hr'). apply List.filter_In in Hr' as [Hr' Hb].
    apply String.eqb_eq in Hb.
    assert (r' = r) as -> by (apply (NoDup_map_inj rowId (book_content d)); congruence).
    congruence.
Qed.

Lemma mirrored_delete (bookId : string) (d : Db) :
  mirrored d -> mirrored (snd (deleteBookContent bookId d)).
Proof.
  intros Hm. rewrite deleteBookContent_spec, (remainingFts_mirrored bookId d Hm).
  destruct Hm as [Hnd Hmirror]. cbn [snd]. split; cbn [book_content book_content_fts].
  - now apply NoDup_map_filter.
  - intros f Hf. apply List.filter_In in Hf as [Hf Hother].
    destruct (Hmirror f Hf) as (r & Hr & Hid & Hbook). exists r.
    split; [|split; assumption]. apply List.filter_In. split; [exact Hr|].
    unfold ftsOf in Hother. now rewrite Hbook.
Qed.

Lemma mirrored_index (newIds : nat -> string) (indexedAt bookId : string)
    (chapters : list Epub.ExtractedChapter) (contentHash : string)
    (bookTitle author : option string) (d : Db) :
  mirrored d ->
  mirrored
    (snd (indexBookContent newIds indexedAt bookId chapters contentHash bookTitle author d)).
Proof.
  intros Hm.
  pose proof (indexBookContent_returns newIds indexedAt bookId chapters contentHash
                bookTitle author d) as Hret.
  destruct (indexBookContent_cases newIds indexedAt bookId chapters contentHash
              bookTitle author d) as [E|E]; rewrite E in *; cbn [fst snd] in *; [exact Hm|].
  destruct (proj1 Hret eq_refl) as [Hfresh Hfree].
  rewrite (remainingFts_mirrored bookId d Hm). destruct Hm as [Hnd Hmirror].
  set (entries := imap (fun k chapter => (newIds k, chapter)) chapters) in *.
  split; cbn [book_content book_content_fts].
  - rewrite map_app, map_map.
    assert (Hids : map (fun e => rowId (contentRowOf bookId contentHash indexedAt
                                          bookTitle author e)) entries
                   = map newIds (seq 0 (length chapters))).
    { unfold entries. rewrite <- fst_entries. reflexivity. }
    rewrite Hids. apply NoDup_app. split; [now apply NoDup_map_filter|]. split; [|exact Hfresh].
    intros i Hold Hnew. apply list_elem_of_In in Hold, Hnew.
    apply in_map_iff in Hold as (r & <- & Hr). apply List.filter_In in Hr as [Hr Hother].
    apply negb_true_iff, String.eqb_neq in Hother.
    apply in_map_iff in Hnew as (k & E' & Hk). apply in_seq in Hk.
    apply (Hfree k r); [lia | exact Hr | exact Hother | now symmetry].
  - intros f Hf. apply in_app_or in Hf as [Hf|Hf].
    + apply List.filter_In in Hf as [Hf Hother].
      destruct (Hmirror f Hf) as (r & Hr & Hid & Hbook). exists r.
      split; [|split; assumption]. apply in_or_app. left.
      apply List.filter_In. split; [exact Hr|]. unfold ftsOf in Hother. now rewrite Hbook.
    + apply in_map_iff in Hf as (e & <- & He).
      exists (contentRowOf bookId contentHash indexedAt bookTitle author e).
      split; [|split; reflexivity]. apply in_or_app. right. now apply in_map.
Qed.

Lemma history_mirrored (history : list Write) (d : Db) :
  mirrored d -> mirrored (fold_left applyWrite history d).
Proof.
  revert d; induction history as [|w history IH]; intros d Hd; [exact Hd|].
  cbn [fold_left]. apply IH.
  destruct w as [newIds indexedAt bookId chapters contentHash bookTitle author|bookId];
    cbn [applyWrite]; [now apply mirrored_index | now apply mirrored_delete].
Qed.

End Reindex.

(** C3.  [indexBookContent] is all or nothing.  It returns exactly when
    the generated ids can be inserted (they differ from one another and
    from the ids of the rows of other books); otherwise it throws and the
    tables are exactly as before.  When it returns, the content table
    holds the rows of the other books as they were, followed by one row
    per new chapter, each with the new [contentHash]: every old row of
    the book is gone.  The same holds of the full-text table whenever
    it mirrors the content table, which it does in every state that
    re-indexings and deletions reach from the empty tables: all
    full-text rows of the book are gone and the new ones are in.  Hence,
    if all rows of each book share one content hash before the call,
    they do after it, whatever the outcome, and they do in every state
    reached from the empty tables. *)
Theorem C3_reindex_atomic (newIds : nat -> string) (indexedAt bookId : string)
    (chapters : list Epub.ExtractedChapter) (contentHash : string)
    (bookTitle author : option string) (d : Storage.Db) :
  let run := Storage.indexBookContent newIds indexedAt bookId chapters contentHash
               bookTitle author d in
  (fst run = JS.Returned tt <-> StorageSpec.idsFree newIds (length chapters) bookId d)
  /\ (fst run = JS.Thrown -> snd run = d)
  /\ (fst run = JS.Returned tt ->
      Storage.book_content (snd run)
      = List.filter (fun r => negb (StorageSpec.contentOf bookId r)) (Storage.book_content d)
        ++ imap (fun k chapter =>
                   Storage.mkContentRow (newIds k) bookId (Epub.index chapter)
                     (Epub.title chapter) (Epub.content chapter) contentHash indexedAt
                     (Storage.orNull bookTitle) (Storage.orNull author))
                chapters
      /\ (StorageSpec.mirrored d ->
          Storage.book_content_fts (snd run)
          = List.filter (fun f => negb (StorageSpec.ftsOf bookId f))
                        (Storage.book_content_fts d)
            ++ imap (fun k chapter =>
                       Storage.mkFtsRow (Epub.content chapter) (Epub.title chapter)
                         (newIds k) bookId)
                    chapters))
  /\ (StorageSpec.mirrored d -> StorageSpec.mirrored (snd run))
  /\ (Storage.hashConsistent d -> Storage.hashConsistent (snd run))
  /\ (forall history : list Storage.Write,
        Storage.hashConsistent (fold_left Storage.applyWrite history Storage.emptyDb)
        /\ StorageSpec.mirrored (fold_left Storage.applyWrite history Storage.emptyDb)).
Proof.
  intros run. split; [|split; [|split; [|split; [|split]]]].
  - apply indexBookContent_returns.
  - destruct (indexBookContent_cases newIds indexedAt bookId chapters contentHash
                bookTitle author d) as [E|E]; subst run; rewrite E; [reflexivity|].
    discriminate.
  - destruct (indexBookContent_cases newIds indexedAt bookId chapters contentHash
                bookTitle author d) as [E|E]; subst run; rewrite E; [discriminate|].
    intros _. cbn [snd Storage.book_content Storage.book_content_fts]. split.
    + f_equal. now rewrite map_imap.
    + intros Hm. rewrite (remainingFts_mirrored bookId d Hm). f_equal. now rewrite map_imap.
  - apply mirrored_index.
  - apply indexBookContent_consistent.
  - intros history. split.
    + apply history_consistent. intros r1 r2 [].
    + apply history_mirrored. split; [constructor | intros f []].
Qed.

(** A re-index that returns: the chapter of book [b1] is replaced by
    the two new ones in both tables, and the row of [b2] stays. *)
Lemma C3_reindex_atomic_witness :
  fst (Storage.indexBookContent Samples.freshIds "t1" "b1" Samples.newChapters "hash-new"
         None None Samples.twoBooksDb) = JS.Returned tt
  /\ map Storage.rowId
       (Storage.book_content
          (snd (Storage.indexBookContent Samples.freshIds "t1" "b1" Samples.newChapters
                  "hash-new" None None Samples.twoBooksDb)))
     = ["x9"; "n0"; "n1"]
  /\ map Storage.ftsContentId
       (Storage.book_content_fts
          (snd (Storage.indexBookContent Samples.freshIds "t1" "b1" Samples.newChapters
                  "hash-new" None None Samples.twoBooksDb)))
     = ["x9"; "n0"; "n1"].
Proof.
  destruct (C3_reindex_atomic Samples.freshIds "t1" "b1" Samples.newChapters "hash-new"
              None None Samples.twoBooksDb) as (Hreturns & _ & Hrows & _).
  cbv zeta in Hreturns, Hrows.
  assert (Hfree : StorageSpec.idsFree Samples.freshIds 2 "b1" Samples.twoBooksDb).
  { split.
    - apply NoDup_cons. split; [|apply NoDup_singleton].
      intros H. apply list_elem_of_In in H. destruct H as [H|[]]. discriminate H.
    - intros k r Hk [<-|[<-|[]]] Hother; [exfalso; now apply Hother|].
      destruct k as [|[|k]]; [discriminate | discriminate | lia]. }
  assert (Hok := proj2 Hreturns Hfree). split; [exact Hok|].
  destruct (Hrows Hok) as [Hcontent Hfts]. rewrite Hcontent. split; [reflexivity|].
  rewrite Hfts; [reflexivity|]. split.
  - apply NoDup_cons. split; [|apply NoDup_singleton].
    intros H. apply list_elem_of_In in H. destruct H as [H|[]]. discriminate H.
  - intros f [<-|[<-|[]]]; eexists.
    + split; [now left | split; reflexivity].
    + split; [right; now left | split; reflexivity].
Defined.

(** A failed re-index: the second generated id is taken, the call
    throws and the tables are as before, although the body alone had
    already removed the old chapter and put a new one in. *)
Example reindex_collision_rolls_back :
  Storage.indexBookContent Samples.collidingIds "t1" "b1" Samples.newChapters "hash-new"
    None None Samples.twoBooksDb
  = (JS.Thrown, Samples.twoBooksDb)
  /\ map Storage.rowContentHash
       (Storage.book_content
          (snd (Storage.indexBody Samples.collidingIds "t1" "b1" Samples.newChapters
                  "hash-new" None None Samples.twoBooksDb)))
     = ["hash-b2"; "hash-new"]
  /\ map Storage.rowContentHash
       (Storage.book_content
          (snd (Storage.indexBookContent Samples.freshIds "t1" "b1" Samples.newChapters
                  "hash-new" None None Samples.twoBooksDb)))
     = ["hash-b2"; "hash-new"; "hash-new"].
Proof. repeat split. Qed.

(** ** Ranking of search results *)

Section Ranking.
Import Storage StorageSpec.
Local Open Scope Q_scope.

Lemma Forall_insertByScore (P : RankedRow -> Prop) (x : RankedRow) (l : list RankedRow) :
  P x -> Forall P l -> Forall P (insertByScore x l).
Proof.
  intros Hx Hl. induction Hl as [|y l Hy Hl IH]; cbn.
  - now constructor.
  - destruct (Qle_bool _ _); repeat constructor; assumption.
Qed.

Lemma insertByScore_sorted (x : RankedRow) (l : list RankedRow) :
  StronglySorted byRawScore l -> StronglySorted byRawScore (insertByScore x l).
Proof.
  induction 1 as [|y l Hl IH Hy]; cbn.
  - repeat constructor.
  - destruct (Qle_bool (bm25_score x) (bm25_score y)) eqn:E.
    + apply Qle_bool_iff in E. constructor; [now constructor|].
      constructor; [exact E|].
      eapply Forall_impl; [exact Hy|]. intros z Hz. unfold byRawScore in *.
      now apply Qle_trans with (bm25_score y).
    + constructor; [exact IH|]. apply Forall_insertByScore; [|exact Hy].
      unfold byRawScore. apply Qlt_le_weak, Qnot_le_lt. intros Hle.
      apply Qle_bool_iff in Hle. congruence.
Qed.

Lemma orderByScore_sorted (l : list RankedRow) : StronglySorted byRawScore (orderByScore l).
Proof.
  induction l as [|x l IH]; cbn; [constructor | now apply insertByScore_sorted].
Qed.

Lemma take_sorted (n : nat) (l : list RankedRow) :
  StronglySorted byRawScore l -> StronglySorted byRawScore (take n l).
Proof.
  intros H; revert n; induction H as [|x l Hl IH Hx]; intros [|n]; cbn;
    try constructor; [apply IH|].
  apply Forall_forall. intros y Hy. rewrite Forall_forall in Hx. apply Hx.
  exact (subseteq_take n l y Hy).
Qed.

Lemma selectRanked_sorted (engine : FtsEngine) (terms : string)
    (books : option (list string)) (n : Z) (d : Db) :
  StronglySorted byRawScore (selectRanked engine terms books n d).
Proof.
  unfold selectRanked, limitRows.
  destruct (n <? 0)%Z; [apply orderByScore_sorted | apply take_sorted, orderByScore_sorted].
Qed.

Lemma maxAbsScore_spec (rows : list RankedRow) :
  maxAbsScore rows == Qmax 1 (maxAbsOf rows).
Proof.
  unfold maxAbsScore, maxAbsOf. induction rows as [|r rows IH]; cbn [map fold_right].
  - symmetry. apply Q.max_l. discriminate.
  - rewrite IH. rewrite !Q.max_assoc. rewrite (Q.max_comm 1). reflexivity.
Qed.

Lemma maxAbsScore_ge_1 (rows : list RankedRow) : 1 <= maxAbsScore rows.
Proof. rewrite maxAbsScore_spec. apply Q.le_max_l. Qed.

Lemma maxAbsOf_ge (rows : list RankedRow) (r : RankedRow) :
  In r rows -> Qabs (bm25_score r) <= maxAbsOf rows.
Proof.
  unfold maxAbsOf. induction rows as [|x rows IH]; cbn [map fold_right];
    [intros [] | intros [<-|Hin]].
  - apply Q.le_max_l.
  - eapply Qle_trans; [apply IH, Hin | apply Q.le_max_r].
Qed.

Lemma maxAbsScore_ge (rows : list RankedRow) (r : RankedRow) :
  In r rows -> Qabs (bm25_score r) <= maxAbsScore rows.
Proof.
  intros Hin. rewrite maxAbsScore_spec.
  eapply Qle_trans; [apply maxAbsOf_ge, Hin | apply Q.le_max_r].
Qed.

Lemma normalized_in_unit (rows : list RankedRow) (r : RankedRow) :
  In r rows ->
  0 <= Qabs (bm25_score r) / maxAbsScore rows
  /\ Qabs (bm25_score r) / maxAbsScore rows <= 1.
Proof.
  intros Hin.
  assert (Hpos : 0 < maxAbsScore rows).
  { eapply Qlt_le_trans; [|apply maxAbsScore_ge_1]. reflexivity. }
  split.
  - apply Qle_shift_div_l; [exact Hpos|]. rewrite Qmult_0_l. apply Qabs_nonneg.
  - apply Qle_shift_div_r; [exact Hpos|]. rewrite Qmult_1_l. now apply maxAbsScore_ge.
Qed.

Lemma Forall2_map_l {A B} (P : B -> A -> Prop) (f : A -> B) (l : list A) :
  (forall x, In x l -> P (f x) x) -> Forall2 P (map f l) l.
Proof.
  induction l as [|x l IH]; intros H; cbn; constructor.
  - apply H. now left.
  - apply IH. intros y Hy. apply H. now right.
Qed.

End Ranking.

(** C5 as the claim words it: two hits with raw scores -1/2 and -1/4
    are returned with scores 1/2 and 1/4, not 1 and 1/2, because the
    divisor is never below 1. *)
Lemma C5_small_scores_counterexample :
  let rows := Storage.selectRanked Samples.smallScoresEngine
                (Storage.buildTerms "whale") None 20 Samples.smallScoresDb in
  let hits := Storage.searchBookContent Samples.smallScoresEngine Samples.whaleQuery
                Samples.smallScoresDb in
  map Storage.bm25_score rows = [(-1 # 2)%Q; (-1 # 4)%Q]
  /\ StorageSpec.maxAbsOf rows = (1 # 2)%Q
  /\ map Storage.score hits = [(1 # 2)%Q; (1 # 4)%Q]
  /\ ~ Forall2 (fun hit row => (Storage.score hit == StorageSpec.claimedScore rows row)%Q)
         hits rows.
Proof.
  cbv zeta. repeat split; try (vm_compute; reflexivity).
  intros H. vm_compute in H. inversion H as [|? ? ? ? Hfirst _]; subst.
  vm_compute in Hfirst. discriminate Hfirst.
Qed.

(** C5, amended.  The hits are the rows the query selected, in the
    same order, and that order is ascending raw BM25 score (most
    negative, the best match, first).  Each score is the row's absolute
    raw score divided by the larger of 1 and the maximum absolute raw
    score of the result set, and lies in [0,1].  When that maximum is at
    least 1 the divisor is the maximum itself. *)
Theorem C5_score_normalization (engine : Storage.FtsEngine)
    (params : Storage.SearchParams) (d : Storage.Db) :
  let terms := Storage.buildTerms (Storage.query params) in
  let rows := if JS.truthy terms
              then Storage.selectRanked engine terms (Storage.bookIds params)
                     (Storage.limitOrDefault (Storage.limit params)) d
              else [] in
  let hits := Storage.searchBookContent engine params d in
  StronglySorted (fun a b => (Storage.bm25_score a <= Storage.bm25_score b)%Q) rows
  /\ Forall2
       (fun hit row =>
          Storage.hitContent hit = Storage.rowContent (Storage.ranked row)
          /\ (Storage.score hit
              == Qabs (Storage.bm25_score row) / Qmax 1 (StorageSpec.maxAbsOf rows))%Q
          /\ (0 <= Storage.score hit)%Q /\ (Storage.score hit <= 1)%Q)
       hits rows
  /\ ((1 <= StorageSpec.maxAbsOf rows)%Q ->
      Forall2 (fun hit row => (Storage.score hit == StorageSpec.claimedScore rows row)%Q)
              hits rows).
Proof.
  intros terms rows hits.
  assert (Hhits : hits = Storage.normalizeScores rows).
  { subst hits rows. unfold Storage.searchBookContent. fold terms.
    now destruct (JS.truthy terms). }
  rewrite Hhits. unfold Storage.normalizeScores. split; [|split].
  - subst rows. destruct (JS.truthy terms); [apply selectRanked_sorted | constructor].
  - apply Forall2_map_l. intros row Hin. cbn [Storage.hitContent Storage.score].
    split; [reflexivity|]. split; [now rewrite maxAbsScore_spec|].
    now apply normalized_in_unit.
  - intros Hbig. apply Forall2_map_l. intros row Hin. cbn [Storage.score].
    unfold StorageSpec.claimedScore. rewrite maxAbsScore_spec.
    now rewrite (Q.max_r 1 (StorageSpec.maxAbsOf rows)).
Qed.

(** ** Repair of a stale reading position *)

Section LoadBook.
Import JS (Outcome, Returned, Thrown).
Import Storage LibraryTools.

Lemma getPosition_saveLibrary (library : LibraryData) (st : Store) (b : string) :
  getPosition (saveLibrary library st) b = getPosition st b.
Proof. reflexivity. Qed.

Lemma getPosition_savePosition (b b' : string) (p : ReadingPosition) (st : Store) :
  getPosition (savePosition b p st) b'
  = if decide (b = b') then Some p else getPosition st b'.
Proof.
  unfold getPosition, savePosition, getSession, saveSession. cbn [sessionDoc positions].
  apply lookup_insert.
Qed.

(** What [loadBookTool] leaves in the session and hands back, by the
    position it found. *)
Lemma loadBookTool_position (fs : gmap string (list byte)) (now : string)
    (loadInfo : string -> string -> Outcome Epub.BookInfo)
    (bookPath bookId : string) (bookInfo : Epub.BookInfo) (st : Store) :
  hashBook fs bookPath = Returned bookId ->
  loadInfo bookPath bookId = Returned bookInfo ->
  exists (result : LoadedBook) (st' : Store),
    loadBookTool fs now loadInfo bookPath st = (Returned result, st')
    /\ loadedInfo result = bookInfo
    /\ (forall other, other <> bookId -> getPosition st' other = getPosition st other)
    /\ match getPosition st bookId with
       | None => lastPosition result = None /\ getPosition st' bookId = None
       | Some saved =>
           if (Epub.chapterCount (Epub.metadata bookInfo) <=? chapterIndex saved)%Z
           then lastPosition result = Some (0%Z, 0%Q)
                /\ getPosition st' bookId
                   = Some {| chapterIndex := 0; scrollPosition := 0%Q;
                             positionLastRead := positionLastRead saved |}
           else lastPosition result = Some (chapterIndex saved, scrollPosition saved)
                /\ getPosition st' bookId = Some saved
       end.
Proof.
  intros Hhash Hinfo. unfold loadBookTool. rewrite Hhash, Hinfo.
  destruct st as [lib sess d].
  unfold getPosition, savePosition, saveSession, saveLibrary, getSession, getLibrary.
  cbn [libraryDoc sessionDoc db positions lastBook].
  destruct (positions sess !! bookId) as [saved|] eqn:Hpos;
    [destruct (Epub.chapterCount (Epub.metadata bookInfo) <=? chapterIndex saved)%Z|];
    cbv beta iota zeta; cbn [libraryDoc sessionDoc db positions lastBook];
    destruct (List.find (hasId bookId) (books lib));
    cbn [libraryDoc sessionDoc db positions lastBook];
    eexists _, _; (split; [reflexivity|]);
    cbn [loadedInfo lastPosition sessionDoc positions fmap option_fmap option_map];
    (split; [reflexivity|]); split;
    try (intros other Hne; rewrite ?lookup_insert_ne by congruence; reflexivity);
    rewrite ?lookup_insert_eq; auto.
Qed.

End LoadBook.

(** C7.  When [loadBookTool] opens a readable book whose saved
    position has a chapter index at or beyond the chapter count, it
    returns chapter 0 (scroll 0) and the session storage holds that
    corrected position afterwards; a saved position inside the range is
    returned and left in storage as it was.  Positions of other books are
    not touched. *)
Theorem C7_position_repair (fs : gmap string (list byte)) (now : string)
    (loadInfo : string -> string -> JS.Outcome Epub.BookInfo)
    (bookPath : string) (content : list byte) (bookInfo : Epub.BookInfo)
    (saved : Storage.ReadingPosition) (st : Storage.Store) :
  let bookId := JS.slice (Crypto.sha256Hex content) 0 (Some 16) in
  fs !! bookPath = Some content ->
  loadInfo bookPath bookId = JS.Returned bookInfo ->
  Storage.getPosition st bookId = Some saved ->
  exists (result : LibraryTools.LoadedBook) (st' : Storage.Store),
    LibraryTools.loadBookTool fs now loadInfo bookPath st = (JS.Returned result, st')
    /\ (forall other, other <> bookId ->
          Storage.getPosition st' other = Storage.getPosition st other)
    /\ if (Epub.chapterCount (Epub.metadata bookInfo) <=? Storage.chapterIndex saved)%Z
       then LibraryTools.lastPosition result = Some (0%Z, 0%Q)
            /\ Storage.getPosition st' bookId
               = Some (Storage.mkPosition 0 0%Q (Storage.positionLastRead saved))
       else LibraryTools.lastPosition result
            = Some (Storage.chapterIndex saved, Storage.scrollPosition saved)
            /\ Storage.getPosition st' bookId = Some saved.
Proof.
  intros bookId Hfile Hinfo Hpos.
  assert (Hhash : Storage.hashBook fs bookPath = JS.Returned bookId).
  { unfold Storage.hashBook. now rewrite Hfile. }
  destruct (loadBookTool_position fs now loadInfo bookPath bookId bookInfo st Hhash Hinfo)
    as (result & st' & Hrun & _ & Hother & Hcase).
  rewrite Hpos in Hcase. exists result, st'. auto.
Qed.

(** The sample session remembers chapter 12 of a book that now has 5
    chapters: loading it returns chapter 0 and stores chapter 0. *)
Lemma C7_position_repair_witness :
  exists (result : LibraryTools.LoadedBook) (st' : Storage.Store),
    LibraryTools.loadBookTool Samples.oneFile "2024-03-03"
      (fun _ bookId => JS.Returned (Samples.mobyInfo bookId))
      "/books/moby.epub" Samples.staleStore = (JS.Returned result, st')
    /\ (forall other, other <> Samples.mobyId ->
          Storage.getPosition st' other = Storage.getPosition Samples.staleStore other)
    /\ LibraryTools.lastPosition result = Some (0%Z, 0%Q)
    /\ Storage.getPosition st' Samples.mobyId
       = Some (Storage.mkPosition 0 0%Q "2024-02-02").
Proof.
  exact (C7_position_repair Samples.oneFile "2024-03-03"
           (fun _ bookId => JS.Returned (Samples.mobyInfo bookId))
           "/books/moby.epub" Samples.mobyBytes (Samples.mobyInfo Samples.mobyId)
           (Storage.mkPosition 12 (1 # 2)%Q "2024-02-02") Samples.staleStore
           eq_refl eq_refl eq_refl).
Defined.

(** ** The PDF outline *)

Section Outline.
Import JS (Outcome, Returned, Thrown).
Import Pdf PdfSpec.

Variable doc : PdfDocument.

(** Induction over outline trees: a property of a node may use it for
    all the node's children. *)
Fixpoint OutlineNode_forall_ind (P : OutlineNode -> Prop)
    (step : forall title dest items, Forall P items -> P (Node title dest items))
    (item : OutlineNode) : P item :=
  match item with
  | Node title dest items =>
      step title dest items
        ((fix children (l : list OutlineNode) : Forall P l :=
            match l with
            | [] => @List.Forall_nil _ P
            | x :: l' =>
                @List.Forall_cons _ P x l' (OutlineNode_forall_ind P step x) (children l')
            end) items)
  end.

Lemma pageNumberOf_spec (dest : Destination) :
  pageNumberOf doc dest = bookmarkPage doc dest.
Proof.
  unfold pageNumberOf, bookmarkPage, resolvedIndex, lookupPage.
  destruct dest as [|[|c name]|[[num gen| |]|]]; try reflexivity.
  - destruct (getDestination doc (String c name)) as [[[[num gen| |]|]|]|]; try reflexivity;
      cbn [headTruthy]; now destruct (getPageIndex doc _).
  - cbn [headTruthy]. now destruct (getPageIndex doc _).
  - cbn [headTruthy]. now destruct (getPageIndex doc _).
Qed.

Lemma processOutlineItems_from (lvl : Z) (items : list OutlineNode) :
  Forall (fun item => forall lvl toc,
            processOutlineItem doc lvl toc item
            = toc ++ imap (fun i => entryAt (length toc + i)) (flatten doc lvl item)) items ->
  forall toc,
    fold_left (processOutlineItem doc lvl) items toc
    = toc ++ imap (fun i => entryAt (length toc + i)) (flat_map (flatten doc lvl) items).
Proof.
  induction 1 as [|item items Hitem _ IH]; intros toc; cbn [fold_left flat_map].
  - cbn. now rewrite app_nil_r.
  - rewrite IH, Hitem, imap_app, <- app_assoc. do 2 f_equal.
    apply imap_ext. intros i e _. rewrite length_app, length_imap. f_equal. lia.
Qed.

Lemma processOutlineItem_spec (item : OutlineNode) :
  forall lvl toc,
    processOutlineItem doc lvl toc item
    = toc ++ imap (fun i => entryAt (length toc + i)) (flatten doc lvl item).
Proof.
  induction item as [title dest items IH] using OutlineNode_forall_ind.
  intros lvl toc. cbn [processOutlineItem flatten].
  rewrite (processOutlineItems_from (lvl + 1) items IH).
  rewrite <- app_assoc. f_equal. cbn [imap app]. f_equal.
  - unfold entryAt. rewrite pageNumberOf_spec, Nat.add_0_r. reflexivity.
  - apply imap_ext. intros i e _. rewrite length_app. cbn. f_equal. lia.
Qed.

Lemma processOutlineItems_spec (items : list OutlineNode) (lvl : Z) (toc : list PdfTocItem) :
  processOutlineItems doc items lvl toc
  = toc ++ imap (fun i => entryAt (length toc + i)) (flat_map (flatten doc lvl) items).
Proof.
  apply processOutlineItems_from. apply Forall_forall. intros item _.
  apply processOutlineItem_spec.
Qed.

Lemma length_flatten (item : OutlineNode) :
  forall depth, length (flatten doc depth item) = nodeCount item.
Proof.
  induction item as [title dest items IH] using OutlineNode_forall_ind.
  intros depth. cbn [flatten nodeCount length]. f_equal.
  induction IH as [|x l Hx _ IHl]; cbn; [reflexivity|].
  now rewrite length_app, Hx, IHl.
Qed.

Lemma length_flat_map_flatten (items : list OutlineNode) (depth : Z) :
  length (flat_map (flatten doc depth) items) = list_sum (map nodeCount items).
Proof.
  induction items as [|x l IH]; cbn; [reflexivity|].
  now rewrite length_app, length_flatten, IH.
Qed.

End Outline.

(** C8.  The outline becomes one TOC entry per bookmark, in document
    order, whatever the destinations are: an entry's page is the 1-based
    page its destination resolves to, and 1 when the destination is
    missing, is not found, has no usable first element, or a lookup
    throws; its level is the depth of the bookmark in the tree (0 at the
    top, one more per generation). *)
Theorem C8_outline_total (doc : Pdf.PdfDocument) :
  (forall outline,
      Pdf.getOutline doc = JS.Returned (Some outline) ->
      Pdf.extractOutline doc
      = imap PdfSpec.entryAt (flat_map (PdfSpec.flatten doc 0) outline)
      /\ length (Pdf.extractOutline doc) = list_sum (map PdfSpec.nodeCount outline))
  /\ (forall dest, PdfSpec.resolvedIndex doc dest = None -> Pdf.pageNumberOf doc dest = 1)
  /\ (forall dest i,
        PdfSpec.resolvedIndex doc dest = Some i -> Pdf.pageNumberOf doc dest = i + 1)
  /\ (forall name,
        Pdf.getDestination doc name = JS.Thrown ->
        Pdf.pageNumberOf doc (Pdf.DestNamed name) = 1)
  /\ (forall head,
        Pdf.getPageIndex doc head = JS.Thrown ->
        Pdf.pageNumberOf doc (Pdf.DestExplicit (Some head)) = 1)
  /\ (forall title dest items depth,
        PdfSpec.flatten doc depth (Pdf.Node title dest items)
        = (title, PdfSpec.bookmarkPage doc dest, depth)
          :: flat_map (PdfSpec.flatten doc (depth + 1)) items).
Proof.
  split; [|split; [|split; [|split; [|split]]]].
  - intros outline Hout. unfold Pdf.extractOutline. rewrite Hout.
    rewrite processOutlineItems_spec. cbn [app length Nat.add].
    split; [reflexivity|]. rewrite length_imap. apply length_flat_map_flatten.
  - intros dest H. rewrite pageNumberOf_spec. unfold PdfSpec.bookmarkPage. now rewrite H.
  - intros dest i H. rewrite pageNumberOf_spec. unfold PdfSpec.bookmarkPage. now rewrite H.
  - intros name H. unfold Pdf.pageNumberOf, Pdf.lookupPage. rewrite H. now destruct name.
  - intros head H. unfold Pdf.pageNumberOf, Pdf.lookupPage. rewrite H.
    now destruct head.
  - reflexivity.
Qed.

(** ** GUIDs of fetched articles *)

Section Guids.
Import JS (Outcome, Returned, Thrown).
Import Rss RssSpec.

Lemma randomUUID_length (e : Crypto.Entropy) : String.length (Crypto.randomUUID e) = 36%nat.
Proof. reflexivity. Qed.

Lemma randomUUID_nonempty (e : Crypto.Entropy) : Crypto.randomUUID e <> "".
Proof. discriminate. Qed.

Lemma parseItem_guid (cleanHtml : string -> string) (uuid : string) (item : FeedItem) :
  guid (parseItem cleanHtml uuid item) = guidByPriority item uuid.
Proof.
  unfold parseItem, guidByPriority, orString, JS.orElse. cbn [guid].
  destruct (itemGuid item) as [[|c g]|], (itemLink item) as [[|c' l]|],
    (itemTitle item) as [[|c'' t]|]; reflexivity.
Qed.

Lemma guidByPriority_nonempty (item : FeedItem) (fresh : string) :
  fresh <> "" -> guidByPriority item fresh <> "".
Proof.
  intros Hfresh. unfold guidByPriority.
  destruct (itemGuid item) as [[|c g]|], (itemLink item) as [[|c' l]|],
    (itemTitle item) as [[|c'' t]|]; try discriminate; exact Hfresh.
Qed.

Lemma Forall_imap {A B} (P : B -> Prop) (f : nat -> A -> B) (l : list A) :
  (forall k x, P (f k x)) -> Forall P (imap f l).
Proof.
  revert f; induction l as [|x l IH]; intros f H; cbn; constructor.
  - apply H.
  - apply IH. intros k y. apply H.
Qed.

End Guids.

(** C9.  The article made from a feed item has, as its guid, the item's
    own guid if that is non-empty, else its link, else its title, else a
    freshly generated UUID, and so never an empty one.  A fetch that
    goes to the network returns exactly these articles, one per item;
    a fetch answered from the cache returns a feed stored by an earlier
    fetch, so the guarantee carries over to every feed the function
    returns and every feed it stores. *)
Theorem C9_guid_fallback (cleanHtml extractDomainName : string -> string)
    (entropy : nat -> Crypto.Entropy) :
  (forall (item : Rss.FeedItem) (k : nat),
      let article := Rss.parseItem cleanHtml (Crypto.randomUUID (entropy k)) item in
      Rss.guid article = RssSpec.guidByPriority item (Crypto.randomUUID (entropy k))
      /\ Rss.guid article <> "")
  /\ (forall parseURL now later url cache feed,
        parseURL url = JS.Returned feed ->
        exists result,
          fst (Rss.fetchFeed parseURL cleanHtml extractDomainName entropy now later
                 url false cache) = JS.Returned result
          /\ Rss.items result
             = imap (fun k item =>
                       Rss.parseItem cleanHtml (Crypto.randomUUID (entropy k)) item)
                    (Rss.feedItems feed))
  /\ (forall parseURL now later url useCache cache result cache',
        RssSpec.guidsPresent cache ->
        Rss.fetchFeed parseURL cleanHtml extractDomainName entropy now later
          url useCache cache = (JS.Returned result, cache') ->
        Forall (fun a => Rss.guid a <> "") (Rss.items result)
        /\ RssSpec.guidsPresent cache').
Proof.
  assert (Hitem : forall (item : Rss.FeedItem) (k : nat),
            Rss.guid (Rss.parseItem cleanHtml (Crypto.randomUUID (entropy k)) item) <> "").
  { intros item k. rewrite parseItem_guid.
    apply guidByPriority_nonempty, randomUUID_nonempty. }
  split; [|split].
  - intros item k article. split; [apply parseItem_guid | apply Hitem].
  - intros parseURL now later url cache feed Hparse.
    unfold Rss.fetchFeed. cbn [negb]. rewrite Hparse. cbn [fst].
    eexists. split; reflexivity.
  - intros parseURL now later url useCache cache result cache' Hcache Hrun.
    unfold Rss.fetchFeed in Hrun.
    match type of Hrun with
    | match ?h with _ => _ end = _ => destruct h as [p|] eqn:Hhit
    end.
    + injection Hrun as <- <-.
      destruct useCache; [|discriminate].
      destruct (cache !! url) as [cached|] eqn:Hc; [|discriminate].
      destruct (now - Rss.fetchedAt cached <? Rss.CACHE_TTL); [|discriminate].
      injection Hhit as <-. split; [eapply Hcache, Hc | exact Hcache].
    + destruct (parseURL url) as [feed|]; [|discriminate].
      cbv zeta in Hrun. injection Hrun as <- <-. cbn [Rss.items].
      assert (Hall := Forall_imap (fun a => Rss.guid a <> "")
                        (fun k item =>
                           Rss.parseItem cleanHtml (Crypto.randomUUID (entropy k)) item)
                        (Rss.feedItems feed) (fun k x => Hitem x k)).
      split; [exact Hall|].
      intros u c Hu. destruct (decide (url = u)) as [<-|Hne].
      * rewrite lookup_insert_eq in Hu. injection Hu as <-. exact Hall.
      * rewrite lookup_insert_ne in Hu by assumption. eapply Hcache, Hu.
Qed.

(** ** Chapters that extraction leaves out *)

Section Sparse.
Import JS (Outcome, Returned, Thrown).
Import Epub Indexing ExtractionSpec.

Lemma deduplicate_index (chs : list ExtractedChapter) :
  map index (deduplicateChapterContent chs) = map index chs.
Proof.
  unfold deduplicateChapterContent. destruct (length chs <? 3)%nat; [reflexivity|].
  rewrite map_map. reflexivity.
Qed.

Lemma rawChapters_from (getChapter : string -> Outcome (option string))
    (stripHtml : string -> string) (l : list (nat * PageInfo)) (acc : list ExtractedChapter) :
  map index (fold_left (extractStep getChapter stripHtml) l acc)
  = map index acc
    ++ map (fun ip => Z.of_nat (fst ip)) (List.filter (pageHasText getChapter stripHtml) l).
Proof.
  revert acc; induction l as [|[i page] l IH]; intros acc; cbn [fold_left List.filter].
  - cbn. now rewrite app_nil_r.
  - rewrite IH. unfold extractStep, pageHasText. cbn [snd fst].
    destruct (getChapter (flowId page)) as [text|]; [|reflexivity].
    destruct (JS.truthy _); [|reflexivity].
    rewrite map_app. cbn. now rewrite <- app_assoc.
Qed.

Lemma extractBookText_index (getChapter : string -> Outcome (option string))
    (stripHtml : string -> string) (entry : CachedEpub) :
  map index (extractBookText getChapter stripHtml entry)
  = map (fun ip => Z.of_nat (fst ip))
        (List.filter (pageHasText getChapter stripHtml) (imap pair (pages entry))).
Proof.
  unfold extractBookText, rawChapters. now rewrite deduplicate_index, rawChapters_from.
Qed.

Lemma extractPdfText_from (doc : Pdf.PdfDocument) (titles : gmap Z string)
    (l : list nat) (acc : list ExtractedChapter) :
  map index (fold_left (Pdf.extractPage doc titles) l acc)
  = map index acc
    ++ map (fun n => Z.of_nat n - 1) (List.filter (pdfPageHasText doc) l).
Proof.
  revert acc; induction l as [|n l IH]; intros acc; cbn [fold_left List.filter].
  - cbn. now rewrite app_nil_r.
  - rewrite IH. unfold Pdf.extractPage, pdfPageHasText.
    destruct (Pdf.getPageText doc n) as [text|]; [|reflexivity].
    destruct (JS.truthy _); [|reflexivity].
    rewrite map_app. cbn. now rewrite <- app_assoc.
Qed.

Lemma find_none_iff {A} (f : A -> bool) (l : list A) :
  List.find f l = None <-> forall x, In x l -> f x = false.
Proof.
  split; [apply List.find_none|].
  induction l as [|x l IH]; intros H; cbn; [reflexivity|].
  rewrite (H x) by now left. apply IH. intros y Hy. apply H. now right.
Qed.

Lemma readChapter_absent (book : ExtractedBook) (args : ReadChapterArgs) :
  ~ In (chapterIndex args) (map index (chapters book)) ->
  readChapter (Some book) args
  = ChapterNotFound (chapterIndex args) (length (chapters book)).
Proof.
  intros Habsent. unfold readChapter, findChapter.
  replace (List.find _ (chapters book)) with (@None ExtractedChapter); [reflexivity|].
  symmetry. apply find_none_iff. intros ch Hin.
  apply Z.eqb_neq. intros E. apply Habsent. rewrite <- E. now apply in_map.
Qed.

Lemma in_imap_pair {A} (l : list A) (i : nat) (x : A) :
  In (i, x) (imap pair l) -> l !! i = Some x.
Proof.
  intros H. apply list_elem_of_In in H.
  apply elem_of_lookup_imap in H as (j & y & [= -> ->] & Hj). exact Hj.
Qed.

End Sparse.

(** C10.  Extraction keeps exactly the structural units that have
    text, each under its original index: for an EPUB the position of the
    page in the page list, for a PDF the page number minus 1.  Reading a
    chapter looks the index up in the stored [index] fields, so a request
    for the index of a unit that was left out is answered with
    chapter-not-found, also when the index is below the book's chapter
    count; a request for a stored index is answered with that chapter. *)
Theorem C10_sparse_indices :
  (forall getChapter stripHtml entry,
      map Epub.index (Epub.extractBookText getChapter stripHtml entry)
      = map (fun ip => Z.of_nat (fst ip))
            (List.filter (ExtractionSpec.pageHasText getChapter stripHtml)
                         (imap pair (Epub.pages entry))))
  /\ (forall doc toc,
        map Epub.index (Pdf.extractPdfText doc toc)
        = map (fun n => Z.of_nat n - 1)
              (List.filter (ExtractionSpec.pdfPageHasText doc) (seq 1 (Pdf.numPages doc))))
  /\ (forall book args,
        ~ In (Indexing.chapterIndex args) (map Epub.index (Indexing.chapters book)) ->
        Indexing.readChapter (Some book) args
        = Indexing.ChapterNotFound (Indexing.chapterIndex args)
            (length (Indexing.chapters book)))
  /\ (forall book args,
        In (Indexing.chapterIndex args) (map Epub.index (Indexing.chapters book)) ->
        exists r,
          Indexing.readChapter (Some book) args = Indexing.ChapterRead r
          /\ Indexing.sliceChapterIndex r = Indexing.chapterIndex args)
  /\ (forall getChapter stripHtml entry i page id title author off lim,
        Epub.pages entry !! i = Some page ->
        ExtractionSpec.pageHasText getChapter stripHtml (i, page) = false ->
        (Z.of_nat i < Z.of_nat (length (Epub.pages entry)))
        /\ Indexing.readChapter
             (Some (Indexing.mkBook id title author
                      (Epub.extractBookText getChapter stripHtml entry)))
             (Indexing.mkArgs (Z.of_nat i) off lim)
           = Indexing.ChapterNotFound (Z.of_nat i)
               (length (Epub.extractBookText getChapter stripHtml entry)))
  /\ (forall doc toc n id title author off lim,
        (1 <= n <= Pdf.numPages doc)%nat ->
        ExtractionSpec.pdfPageHasText doc n = false ->
        Indexing.readChapter
          (Some (Indexing.mkBook id title author (Pdf.extractPdfText doc toc)))
          (Indexing.mkArgs (Z.of_nat n - 1) off lim)
        = Indexing.ChapterNotFound (Z.of_nat n - 1)
            (length (Pdf.extractPdfText doc toc))).
Proof.
  split; [|split; [|split; [|split; [|split]]]].
  - apply extractBookText_index.
  - intros doc toc. unfold Pdf.extractPdfText. now rewrite extractPdfText_from.
  - apply readChapter_absent.
  - intros book args Hin. unfold Indexing.readChapter, Indexing.findChapter.
    destruct (List.find _ (Indexing.chapters book)) as [ch|] eqn:E.
    + eexists. split; [reflexivity|]. cbn [Indexing.sliceChapterIndex].
      apply List.find_some in E as [_ E]. now apply Z.eqb_eq in E.
    + exfalso. apply in_map_iff in Hin as (ch & Hch & Hin).
      pose proof (List.find_none _ _ E ch Hin) as Hne. cbn in Hne.
      apply Z.eqb_neq in Hne. congruence.
  - intros getChapter stripHtml entry i page id title author off lim Hpage Hblank.
    split; [apply lookup_lt_Some in Hpage; lia|].
    rewrite readChapter_absent; [reflexivity|].
    cbn [Indexing.chapterIndex Indexing.chapters]. rewrite extractBookText_index.
    intros Hin. apply in_map_iff in Hin as ([j page'] & Hj & Hin). cbn [fst] in Hj.
    apply List.filter_In in Hin as [Hin Hkeep]. apply in_imap_pair in Hin.
    assert (j = i) as -> by lia. congruence.
  - intros doc toc n id title author off lim Hn Hblank.
    rewrite readChapter_absent; [reflexivity|].
    cbn [Indexing.chapterIndex Indexing.chapters].
    unfold Pdf.extractPdfText. rewrite extractPdfText_from. cbn [map app].
    intros Hin. apply in_map_iff in Hin as (m & Hm & Hin).
    apply List.filter_In in Hin as [_ Hkeep].
    assert (m = n) as -> by lia. congruence.
Qed.

(** Three pages, the second blank: the chapter list has two entries
    with indices 0 and 2, index 1 is not found although the book has
    three chapters, and index 2 is served from list position 1. *)
Example blank_page_leaves_a_gap :
  Z.of_nat (length (Epub.pages Samples.threePages)) = 3
  /\ map Epub.index (Indexing.chapters Samples.threePagesBook) = [0; 2]
  /\ Indexing.readChapter (Some Samples.threePagesBook) (Indexing.mkArgs 1 None None)
     = Indexing.ChapterNotFound 1 2
  /\ exists r,
       Indexing.readChapter (Some Samples.threePagesBook) (Indexing.mkArgs 2 None None)
       = Indexing.ChapterRead r
       /\ Indexing.sliceContent r = "last words".
Proof.
  repeat split. eexists. split; [vm_compute; reflexivity | reflexivity].
Qed.

(** ** Library scanning *)

(** The digest agrees with the standard's test vectors. *)
Example sha256_of_abc :
  Crypto.sha256Hex (list_byte_of_string "abc")
  = "ba7816bf8f01cfea414140de5dae2223b00361a396177a9cb410ff61f20015ad".
Proof. vm_compute. reflexivity. Qed.

Example sha256_of_nothing :
  Crypto.sha256Hex []
  = "e3b0c44298fc1c149afbf4c8996fb92427ae41e4649b934ca495991b7852b855".
Proof. vm_compute. reflexivity. Qed.

Section BookId.
Import Storage LibrarySpec.

Lemma hexDigit_isHex (x : Z) : isHexDigit (Crypto.hexDigit x) = true.
Proof.
  unfold Crypto.hexDigit. generalize (Z.to_nat (Z.land x 15)) as n. intros n.
  do 16 (destruct n as [|n]; [reflexivity|]). reflexivity.
Qed.

Lemma bookIdOf_shape (content : list byte) :
  exists a b : Z, bookIdOf content = Crypto.hexWord a (Crypto.hexWord b "").
Proof.
  unfold bookIdOf, Crypto.sha256Hex.
  generalize (Crypto.digest content) as r. intros [a b c d e f g h].
  exists a, b. reflexivity.
Qed.

Lemma bookIdOf_length (content : list byte) : String.length (bookIdOf content) = 16%nat.
Proof. destruct (bookIdOf_shape content) as (a & b & ->). reflexivity. Qed.

Lemma bookIdOf_hex (content : list byte) : allHex (bookIdOf content) = true.
Proof.
  destruct (bookIdOf_shape content) as (a & b & ->).
  unfold Crypto.hexWord. cbn [allHex]. now rewrite !hexDigit_isHex.
Qed.

Lemma hashBook_readable (fs : gmap string (list byte)) (filePath : string)
    (content : list byte) :
  fs !! filePath = Some content ->
  hashBook fs filePath = JS.Returned (bookIdOf content).
Proof. intros H. unfold hashBook. now rewrite H. Qed.

End BookId.

Section Scan.
Import JS (Outcome, Returned, Thrown).
Import Storage LibraryTools LibrarySpec.

Variable fs : gmap string (list byte).

Lemma scan_loop_thrown (clock : nat -> string) (l : list (nat * ScannedBook)) :
  fold_left (scanStep fs clock) l Thrown = Thrown.
Proof. induction l as [|e l IH]; [reflexivity | exact IH]. Qed.

Lemma scanStep_readable (clock : nat -> string) (bks : list LibraryBook)
    (e : nat * ScannedBook) :
  is_Some (fs !! scannedPath (snd e)) ->
  scanStep fs clock (Returned bks) e = Returned (reconcile fs clock bks e).
Proof.
  intros [content Hc]. destruct e as [i s]. unfold scanStep, reconcile, hashBook, idAt.
  cbn [fst snd] in *. rewrite Hc. fold (bookIdOf content).
  now destruct (List.find _ bks).
Qed.

Lemma scanStep_unreadable (clock : nat -> string) (bks : list LibraryBook)
    (e : nat * ScannedBook) :
  fs !! scannedPath (snd e) = None -> scanStep fs clock (Returned bks) e = Thrown.
Proof.
  intros Hc. destruct e as [i s]. unfold scanStep, hashBook. cbn [snd] in Hc. now rewrite Hc.
Qed.

(** The loop returns exactly when every file can be read, and then it
    is the loop of [reconcile]. *)
Lemma scan_loop (clock : nat -> string) (l : list (nat * ScannedBook)) :
  forall bks,
    (forall e, In e l -> is_Some (fs !! scannedPath (snd e))) ->
    fold_left (scanStep fs clock) l (Returned bks)
    = Returned (fold_left (reconcile fs clock) l bks).
Proof.
  induction l as [|e l IH]; intros bks Hread; [reflexivity|].
  cbn [fold_left]. rewrite scanStep_readable by (apply Hread; now left).
  apply IH. intros e' He'. apply Hread. now right.
Qed.

Lemma scan_loop_returned (clock : nat -> string) (l : list (nat * ScannedBook)) :
  forall bks bks',
    fold_left (scanStep fs clock) l (Returned bks) = Returned bks' ->
    forall e, In e l -> is_Some (fs !! scannedPath (snd e)).
Proof.
  induction l as [|e l IH]; intros bks bks' Hrun e' He'; [destruct He'|].
  cbn [fold_left] in Hrun.
  destruct (fs !! scannedPath (snd e)) as [content|] eqn:Hc.
  - rewrite scanStep_readable in Hrun by (rewrite Hc; eauto).
    destruct He' as [<-|He']; [rewrite Hc; eauto | eapply IH; eassumption].
  - rewrite scanStep_unreadable, scan_loop_thrown in Hrun by assumption. discriminate.
Qed.

(** *** The entry that [find] returned is updated in place *)

Lemma map_id_updateFirst (h : string) (s : ScannedBook) (bks : list LibraryBook) :
  map id (updateFirst (hasId h) (refresh s) bks) = map id bks.
Proof.
  induction bks as [|b bks IH]; cbn; [reflexivity|].
  destruct (hasId h b); cbn; [reflexivity | now rewrite IH].
Qed.

Lemma in_updateFirst (h : string) (s : ScannedBook) (bks : list LibraryBook) (b : LibraryBook) :
  In b (updateFirst (hasId h) (refresh s) bks) ->
  exists b0, In b0 bks /\ (b = b0 \/ b = refresh s b0).
Proof.
  induction bks as [|b1 bks IH]; cbn; [intros []|].
  destruct (hasId h b1); cbn.
  - intros [Heq|Hin].
    + exists b1. split; [now left | right; now symmetry].
    + exists b. split; [now right | now left].
  - intros [Heq|Hin].
    + exists b1. split; [now left | left; now symmetry].
    + destruct (IH Hin) as (b0 & Hb0 & Hb). exists b0. split; [now right | exact Hb].
Qed.

Lemma find_hasId_None (h : string) (bks : list LibraryBook) :
  List.find (hasId h) bks = None -> ~ In h (map id bks).
Proof.
  intros Hnone Hin. apply in_map_iff in Hin as (b & <- & Hb).
  pose proof (List.find_none _ _ Hnone b Hb) as H. unfold hasId in H.
  now rewrite String.eqb_refl in H.
Qed.

Lemma find_hasId_Some (h : string) (bks : list LibraryBook) :
  In h (map id bks) -> exists b, List.find (hasId h) bks = Some b.
Proof.
  intros Hin. destruct (List.find (hasId h) bks) as [b|] eqn:E; [eauto|].
  now apply find_hasId_None in E.
Qed.

Lemma updateFirst_unique (h : string) (s : ScannedBook) (bks : list LibraryBook) :
  uniqueIds bks ->
  updateFirst (hasId h) (refresh s) bks
  = map (fun b => if hasId h b then refresh s b else b) bks.
Proof.
  unfold uniqueIds. induction bks as [|b bks IH]; cbn; intros Hu; [reflexivity|].
  apply NoDup_cons in Hu as [Hnotin Hu].
  destruct (hasId h b) eqn:E.
  - f_equal. symmetry. rewrite <- (map_id bks) at 2. apply map_ext_in.
    intros b' Hb'. destruct (hasId h b') eqn:E'; [|reflexivity].
    exfalso. unfold hasId in *. apply String.eqb_eq in E, E'.
    apply Hnotin. apply list_elem_of_In. rewrite E, <- E'. now apply in_map.
  - f_equal. now apply IH.
Qed.

(** *** What the loop keeps true *)

Lemma reconcile_ids (clock : nat -> string) (bks : list LibraryBook) (e : nat * ScannedBook) :
  map id (reconcile fs clock bks e) = map id bks
  \/ (~ In (idAt fs (snd e)) (map id bks)
      /\ map id (reconcile fs clock bks e) = map id bks ++ [idAt fs (snd e)]).
Proof.
  unfold reconcile. destruct (List.find _ bks) as [b|] eqn:E.
  - left. apply map_id_updateFirst.
  - right. split; [now apply find_hasId_None|]. now rewrite map_app.
Qed.

Lemma reconcile_unique (clock : nat -> string) (bks : list LibraryBook)
    (e : nat * ScannedBook) :
  uniqueIds bks -> uniqueIds (reconcile fs clock bks e).
Proof.
  unfold uniqueIds. intros Hu.
  destruct (reconcile_ids clock bks e) as [->|[Hnew ->]]; [exact Hu|].
  apply NoDup_app. split; [exact Hu|]. split.
  - intros x Hx Hx'. apply list_elem_of_In in Hx, Hx'.
    destruct Hx' as [<-|[]]. contradiction.
  - apply NoDup_singleton.
Qed.

Lemma loop_unique (clock : nat -> string) (l : list (nat * ScannedBook)) :
  forall bks, uniqueIds bks -> uniqueIds (fold_left (reconcile fs clock) l bks).
Proof.
  induction l as [|e l IH]; intros bks Hu; [exact Hu|].
  cbn [fold_left]. apply IH. now apply reconcile_unique.
Qed.

Lemma reconcile_keeps_ids (clock : nat -> string) (bks : list LibraryBook)
    (e : nat * ScannedBook) (h : string) :
  In h (map id bks) -> In h (map id (reconcile fs clock bks e)).
Proof.
  intros Hin. destruct (reconcile_ids clock bks e) as [->|[_ ->]]; [exact Hin|].
  apply in_or_app. now left.
Qed.

Lemma reconcile_adds_id (clock : nat -> string) (bks : list LibraryBook)
    (e : nat * ScannedBook) :
  In (idAt fs (snd e)) (map id (reconcile fs clock bks e)).
Proof.
  unfold reconcile. destruct (List.find _ bks) as [b|] eqn:E.
  - rewrite map_id_updateFirst. apply List.find_some in E as [Hb Hid].
    unfold hasId in Hid. apply String.eqb_eq in Hid. rewrite <- Hid. now apply in_map.
  - rewrite map_app. apply in_or_app. right. now left.
Qed.

Lemma loop_keeps_ids (clock : nat -> string) (l : list (nat * ScannedBook)) (h : string) :
  forall bks, In h (map id bks) -> In h (map id (fold_left (reconcile fs clock) l bks)).
Proof.
  induction l as [|e l IH]; intros bks Hin; [exact Hin|].
  cbn [fold_left]. apply IH. now apply reconcile_keeps_ids.
Qed.

(** Every scanned file's id is in the catalog after the loop. *)
Lemma loop_present (clock : nat -> string) (l : list (nat * ScannedBook)) :
  forall bks e, In e l ->
    In (idAt fs (snd e)) (map id (fold_left (reconcile fs clock) l bks)).
Proof.
  induction l as [|e0 l IH]; intros bks e He; [destruct He|].
  cbn [fold_left]. destruct He as [->|He].
  - apply loop_keeps_ids, reconcile_adds_id.
  - now apply IH.
Qed.

(** Where an entry of the catalog after the loop comes from: an entry
    that was there (same id, same path), or a scanned file. *)
Lemma loop_origin (clock : nat -> string) (l : list (nat * ScannedBook)) :
  forall bks b,
    In b (fold_left (reconcile fs clock) l bks) ->
    (exists b0, In b0 bks /\ id b = id b0 /\ path b = path b0)
    \/ (exists e, In e l /\ id b = idAt fs (snd e) /\ path b = scannedPath (snd e)).
Proof.
  induction l as [|e l IH]; intros bks b Hb.
  - left. exists b. auto.
  - cbn [fold_left] in Hb. destruct (IH _ _ Hb) as [(b1 & Hb1 & Hid & Hpath)|(e' & He' & H)].
    + unfold reconcile in Hb1. destruct (List.find _ bks).
      * apply in_updateFirst in Hb1 as (b0 & Hb0 & [->| ->]).
        -- left. exists b0. auto.
        -- left. exists b0. auto.
      * apply in_app_or in Hb1 as [Hb1|[<-|[]]].
        -- left. exists b1. auto.
        -- right. exists e. split; [now left|]. auto.
    + right. exists e'. split; [now right | exact H].
Qed.

End Scan.

Section ScanTwice.
Import JS (Outcome, Returned, Thrown).
Import Storage LibraryTools LibrarySpec.

Variable fs : gmap string (list byte).

Lemma id_refreshIfSame (e : nat * ScannedBook) (b : LibraryBook) :
  id (refreshIfSame fs e b) = id b.
Proof. unfold refreshIfSame. now destruct (hasId _ b). Qed.

Lemma refreshAll_snoc (l : list (nat * ScannedBook)) (e : nat * ScannedBook) (b : LibraryBook) :
  refreshAll fs (l ++ [e]) b = refreshIfSame fs e (refreshAll fs l b).
Proof. unfold refreshAll. now rewrite fold_left_app. Qed.

Lemma lastFor_snoc (l : list (nat * ScannedBook)) (e : nat * ScannedBook) (h : string) :
  lastFor fs (l ++ [e]) h
  = if String.eqb (idAt fs (snd e)) h then Some e else lastFor fs l h.
Proof.
  unfold lastFor. rewrite List.filter_app. cbn [List.filter].
  destruct (String.eqb _ h); [apply last_snoc | now rewrite app_nil_r].
Qed.

(** All refreshes of one entry amount to the last one. *)
Lemma refreshAll_last (l : list (nat * ScannedBook)) (b : LibraryBook) :
  refreshAll fs l b
  = match lastFor fs l (id b) with
    | Some e => refresh (snd e) b
    | None => b
    end.
Proof.
  induction l as [|e l IH] using rev_ind; [reflexivity|].
  rewrite refreshAll_snoc, lastFor_snoc. unfold refreshIfSame, hasId.
  assert (Hid : id (refreshAll fs l b) = id b).
  { rewrite IH. now destruct (lastFor fs l (id b)). }
  rewrite Hid, String.eqb_sym.
  destruct (String.eqb (idAt fs (snd e)) (id b)); [|exact IH].
  rewrite IH. now destruct (lastFor fs l (id b)).
Qed.

(** After the loop every entry already shows the last scanned file of
    its id. *)
Lemma loop_refreshed (clock : nat -> string) (l : list (nat * ScannedBook))
    (bks : list LibraryBook) :
  uniqueIds bks ->
  forall b, In b (fold_left (reconcile fs clock) l bks) ->
            match lastFor fs l (id b) with
            | Some e => refresh (snd e) b = b
            | None => True
            end.
Proof.
  intros Hu. induction l as [|e l IH] using rev_ind; [now intros|].
  rewrite fold_left_app. cbn [fold_left]. intros b Hb. rewrite lastFor_snoc.
  pose proof (loop_unique fs clock l bks Hu) as Hu'.
  set (B := fold_left (reconcile fs clock) l bks) in *. clearbody B.
  unfold reconcile in Hb.
  destruct (List.find _ B) as [found|] eqn:E.
  - rewrite updateFirst_unique in Hb by exact Hu'.
    apply in_map_iff in Hb as (b1 & <- & Hb1). unfold hasId.
    rewrite (String.eqb_sym (id b1)).
    destruct (String.eqb (idAt fs (snd e)) (id b1)) eqn:Eh.
    + cbn [id refresh]. now rewrite Eh.
    + rewrite Eh. now apply IH.
  - apply find_hasId_None in E. apply in_app_or in Hb as [Hb|[<-|[]]].
    + destruct (String.eqb_spec (idAt fs (snd e)) (id b)) as [Heq|_]; [|now apply IH].
      exfalso. apply E. rewrite Heq. now apply in_map.
    + cbn [id newEntry]. now rewrite String.eqb_refl.
Qed.

Lemma loop_refreshAll (clock : nat -> string) (l : list (nat * ScannedBook)) :
  forall bks,
    uniqueIds bks ->
    (forall e, In e l -> In (idAt fs (snd e)) (map id bks)) ->
    fold_left (reconcile fs clock) l bks = map (refreshAll fs l) bks.
Proof.
  induction l as [|e l IH]; intros bks Hu Hpresent.
  - symmetry. apply map_id.
  - cbn [fold_left].
    assert (Hstep : reconcile fs clock bks e = map (refreshIfSame fs e) bks).
    { unfold reconcile.
      destruct (find_hasId_Some _ _ (Hpresent e (or_introl eq_refl))) as (b & ->).
      now apply updateFirst_unique. }
    assert (Hids : map id (map (refreshIfSame fs e) bks) = map id bks).
    { rewrite map_map. apply map_ext. intros b. apply id_refreshIfSame. }
    rewrite Hstep, IH.
    + now rewrite map_map.
    + unfold uniqueIds. now rewrite Hids.
    + intros e' He'. rewrite Hids. apply Hpresent. now right.
Qed.

Lemma filter_idem {A} (P : A -> bool) (l : list A) :
  List.filter P (List.filter P l) = List.filter P l.
Proof.
  induction l as [|x l IH]; cbn; [reflexivity|].
  destruct (P x) eqn:E; cbn; [rewrite E, IH|]; congruence.
Qed.

Lemma in_imap_pair_elem {A} (l : list A) (e : nat * A) :
  In e (imap pair l) -> In (snd e) l.
Proof.
  destruct e as [i x]. intros H. apply in_imap_pair in H.
  apply list_elem_of_In. eapply list_elem_of_lookup_2. exact H.
Qed.

Lemma in_imap_pair_of {A} (l : list A) (x : A) :
  In x l -> exists i, In (i, x) (imap pair l).
Proof.
  intros H. apply list_elem_of_In, list_elem_of_lookup_1 in H as [i Hi].
  exists i. apply list_elem_of_In. now apply (elem_of_lookup_imap_2 pair).
Qed.

Lemma stillPresent_path (scannedBooks : list ScannedBook) (b b' : LibraryBook) :
  path b = path b' -> stillPresent scannedBooks b = stillPresent scannedBooks b'.
Proof. unfold stillPresent. now intros ->. Qed.

Lemma stillPresent_scanned (scannedBooks : list ScannedBook) (b : LibraryBook)
    (s : ScannedBook) :
  In s scannedBooks -> path b = scannedPath s -> stillPresent scannedBooks b = true.
Proof.
  intros Hs Hp. unfold stillPresent. apply existsb_exists. exists s.
  split; [exact Hs|]. rewrite Hp. apply String.eqb_refl.
Qed.

Lemma scannedCatalog_present (clock : nat -> string) (scannedBooks : list ScannedBook)
    (bks : list LibraryBook) (s : ScannedBook) :
  noMovedFile fs scannedBooks bks ->
  In s scannedBooks ->
  In (idAt fs s) (map id (scannedCatalog fs clock scannedBooks bks)).
Proof.
  intros Hmoved Hs. destruct (in_imap_pair_of _ _ Hs) as [i Hi].
  pose proof (loop_present fs clock _ bks _ Hi) as Hin. cbn [snd] in Hin.
  apply in_map_iff in Hin as (b & Hid & Hb).
  apply in_map_iff. exists b. split; [exact Hid|].
  apply List.filter_In. split; [exact Hb|].
  destruct (loop_origin fs clock _ _ _ Hb) as [(b0 & Hb0 & Hid0 & Hp0)|(e & He & Hide & Hpe)].
  - rewrite (stillPresent_path _ b b0 Hp0). apply (Hmoved b0 s Hb0 Hs). congruence.
  - eapply stillPresent_scanned; [|exact Hpe]. now apply in_imap_pair_elem.
Qed.

(** Scanning again changes nothing. *)
Lemma scannedCatalog_fixed (clock clock' : nat -> string) (scannedBooks : list ScannedBook)
    (bks : list LibraryBook) :
  uniqueIds bks ->
  noMovedFile fs scannedBooks bks ->
  scannedCatalog fs clock' scannedBooks (scannedCatalog fs clock scannedBooks bks)
  = scannedCatalog fs clock scannedBooks bks.
Proof.
  intros Hu Hmoved. unfold scannedCatalog at 1.
  rewrite loop_refreshAll.
  - assert (Hfix : map (refreshAll fs (imap pair scannedBooks))
                       (scannedCatalog fs clock scannedBooks bks)
                   = scannedCatalog fs clock scannedBooks bks).
    { rewrite <- (map_id (scannedCatalog fs clock scannedBooks bks)) at 2.
      apply map_ext_in. intros b Hb. unfold scannedCatalog in Hb.
      apply List.filter_In in Hb as [Hb _].
      rewrite refreshAll_last.
      pose proof (loop_refreshed clock _ bks Hu b Hb) as H.
      now destruct (lastFor fs (imap pair scannedBooks) (id b)). }
    rewrite Hfix. unfold scannedCatalog. apply filter_idem.
  - unfold scannedCatalog, uniqueIds. apply NoDup_map_filter.
    now apply loop_unique.
  - intros e He. apply scannedCatalog_present; [exact Hmoved|].
    now apply in_imap_pair_elem.
Qed.

End ScanTwice.

Section ViewLibrary.
Import JS (Outcome, Returned, Thrown).
Import Storage LibraryTools LibrarySpec.

Variable fs : gmap string (list byte).

Lemma readable_entries (scannedBooks : list ScannedBook) :
  readable fs scannedBooks ->
  forall e, In e (imap pair scannedBooks) -> is_Some (fs !! scannedPath (snd e)).
Proof. intros Hr e He. apply Hr. now apply in_imap_pair_elem. Qed.

Lemma viewLibrary_readable (clock : nat -> string) (dir : string)
    (scannedBooks : list ScannedBook) (st : Store) :
  readable fs scannedBooks ->
  let saved := {| version := version (getLibrary st);
                  bookPath := dir;
                  books := scannedCatalog fs clock scannedBooks (books (getLibrary st));
                  collections := collections (getLibrary st) |} in
  viewLibrary fs clock dir scannedBooks st = (Returned saved, saveLibrary saved st).
Proof.
  intros Hr saved. unfold viewLibrary.
  now rewrite scan_loop by (now apply readable_entries).
Qed.

Lemma viewLibrary_returned (clock : nat -> string) (dir : string)
    (scannedBooks : list ScannedBook) (st : Store) (lib' : LibraryData) (st' : Store) :
  viewLibrary fs clock dir scannedBooks st = (Returned lib', st') ->
  readable fs scannedBooks
  /\ lib' = {| version := version (getLibrary st);
               bookPath := dir;
               books := scannedCatalog fs clock scannedBooks (books (getLibrary st));
               collections := collections (getLibrary st) |}
  /\ st' = saveLibrary lib' st.
Proof.
  intros Hrun.
  assert (Hr : readable fs scannedBooks).
  { unfold viewLibrary in Hrun.
    destruct (fold_left _ _ _) as [bks|] eqn:Hloop; [|discriminate].
    intros s Hs. destruct (in_imap_pair_of _ _ Hs) as [i Hi].
    exact (scan_loop_returned fs clock _ _ _ Hloop (i, s) Hi). }
  rewrite viewLibrary_readable in Hrun by exact Hr.
  injection Hrun as <- <-. auto.
Qed.

End ViewLibrary.

(** Ids are hashes of the bytes, so two files with the same bytes, at
    two distinct paths, share one entry of the catalog. *)
Example twin_files_share_an_entry :
  NoDup (map LibraryTools.scannedPath Samples.twinScan)
  /\ length Samples.twinScan = 2%nat
  /\ exists lib' st',
       LibraryTools.viewLibrary Samples.twinFiles (fun _ => "2024-03-03") "/books"
         Samples.twinScan Samples.emptyStore = (JS.Returned lib', st')
       /\ map Storage.path (Storage.books lib') = ["/books/a.epub"]
       /\ ~ (forall s, In s Samples.twinScan ->
                       In (LibraryTools.scannedPath s)
                          (map Storage.path (Storage.books lib'))).
Proof.
  split; [|split; [reflexivity|]].
  - apply NoDup_cons. split; [|apply NoDup_singleton].
    intros H. apply list_elem_of_In in H. destruct H as [H|[]]. discriminate H.
  - eexists _, _. split; [vm_compute; reflexivity|]. split; [reflexivity|].
    intros H. specialize (H _ (or_intror (or_introl eq_refl))).
    cbn in H. destruct H as [H|[]]. discriminate H.
Qed.

(** What the scan does keep.  The book id is a function of the file's
    bytes alone and has 16 hexadecimal characters.  A scan of readable files saves
    the catalog in which every scanned file has been added or refreshed
    under its id and every entry whose path was not scanned has been
    dropped; no entry of it has a path outside the scan, and it lists
    no id twice if the catalog before did not.  If moreover no entry of
    the catalog before sits at an unscanned path under the id of a
    scanned file, the saved catalog has exactly one entry for the id of
    each scanned file (files with equal bytes share it), and scanning the
    unchanged directory again saves the same catalog. *)
Lemma scan_reconciles (fs : gmap string (list byte)) (clock clock' : nat -> string)
    (dir : string) (scannedBooks : list LibraryTools.ScannedBook) (st : Storage.Store) :
  let before := Storage.books (Storage.getLibrary st) in
  let saved := Storage.mkLibrary (Storage.version (Storage.getLibrary st)) dir
                 (LibrarySpec.scannedCatalog fs clock scannedBooks before)
                 (Storage.collections (Storage.getLibrary st)) in
  (forall content,
      String.length (LibrarySpec.bookIdOf content) = 16%nat
      /\ LibrarySpec.allHex (LibrarySpec.bookIdOf content) = true)
  /\ (forall (fs1 fs2 : gmap string (list byte)) p1 p2 content,
        fs1 !! p1 = Some content -> fs2 !! p2 = Some content ->
        Storage.hashBook fs1 p1 = JS.Returned (LibrarySpec.bookIdOf content)
        /\ Storage.hashBook fs2 p2 = Storage.hashBook fs1 p1)
  /\ (LibrarySpec.readable fs scannedBooks ->
      LibraryTools.viewLibrary fs clock dir scannedBooks st
      = (JS.Returned saved, Storage.saveLibrary saved st))
  /\ (forall lib' st',
        LibraryTools.viewLibrary fs clock dir scannedBooks st = (JS.Returned lib', st') ->
        lib' = saved /\ st' = Storage.saveLibrary saved st
        /\ (forall b, In b (Storage.books lib') ->
              exists s, In s scannedBooks /\ LibraryTools.scannedPath s = Storage.path b)
        /\ (LibrarySpec.uniqueIds before -> LibrarySpec.uniqueIds (Storage.books lib'))
        /\ (LibrarySpec.uniqueIds before ->
            LibrarySpec.noMovedFile fs scannedBooks before ->
            (forall s, In s scannedBooks ->
               exists b, In b (Storage.books lib')
                         /\ Storage.id b = LibrarySpec.idAt fs s
                         /\ forall b', In b' (Storage.books lib') ->
                                       Storage.id b' = Storage.id b -> b' = b)
            /\ LibraryTools.viewLibrary fs clock' dir scannedBooks st'
               = (JS.Returned lib', st'))).
Proof.
  intros before saved. split; [|split; [|split; [|]]].
  - intros content. split; [apply bookIdOf_length | apply bookIdOf_hex].
  - intros fs1 fs2 p1 p2 content H1 H2.
    rewrite (hashBook_readable fs1 p1 content H1), (hashBook_readable fs2 p2 content H2).
    auto.
  - intros Hr. now apply viewLibrary_readable.
  - intros lib' st' Hrun.
    destruct (viewLibrary_returned fs clock dir scannedBooks st lib' st' Hrun)
      as (Hr & Hlib & Hst).
    fold before in Hlib. change (lib' = saved) in Hlib. subst lib' st'.
    split; [reflexivity|]. split; [reflexivity|].
    cbn [Storage.books saved].
    assert (Hu' : LibrarySpec.uniqueIds before ->
                  LibrarySpec.uniqueIds (LibrarySpec.scannedCatalog fs clock scannedBooks before)).
    { intros Hu. unfold LibrarySpec.scannedCatalog, LibrarySpec.uniqueIds.
      apply NoDup_map_filter. now apply loop_unique. }
    split; [|split; [exact Hu'|]].
    + intros b Hb. unfold LibrarySpec.scannedCatalog in Hb.
      apply List.filter_In in Hb as [_ Hb]. unfold LibraryTools.stillPresent in Hb.
      apply existsb_exists in Hb as (s & Hs & Hp). apply String.eqb_eq in Hp. eauto.
    + intros Hu Hmoved. split.
      * intros s Hs.
        pose proof (scannedCatalog_present fs clock scannedBooks before s Hmoved Hs) as Hin.
        apply in_map_iff in Hin as (b & Hid & Hb). exists b. split; [exact Hb|].
        split; [exact Hid|]. intros b' Hb' Hsame.
        exact (NoDup_map_inj Storage.id _ b' b (Hu' Hu) Hb' Hb Hsame).
      * rewrite viewLibrary_readable by exact Hr.
        cbn [Storage.getLibrary Storage.saveLibrary Storage.libraryDoc Storage.books
             Storage.version Storage.collections saved].
        rewrite (scannedCatalog_fixed fs clock clock' scannedBooks before Hu Hmoved).
        reflexivity.
Qed.

(** The hypotheses of the last part hold for a scan of the sample
    directory into an empty store, and there a second scan saves what
    the first one did. *)
Example scan_reconciles_twice :
  exists lib' st',
    LibraryTools.viewLibrary Samples.oneFile (fun _ => "2024-03-03") "/books"
      Samples.mobyScan Samples.emptyStore = (JS.Returned lib', st')
    /\ map Storage.id (Storage.books lib') = [Samples.mobyId]
    /\ LibraryTools.viewLibrary Samples.oneFile (fun _ => "2024-04-04") "/books"
         Samples.mobyScan st' = (JS.Returned lib', st').
Proof.
  pose proof (scan_reconciles Samples.oneFile (fun _ => "2024-03-03")
                (fun _ => "2024-04-04") "/books" Samples.mobyScan Samples.emptyStore) as H.
  cbv zeta in H. destruct H as (_ & _ & Hrun & Hrest).
  assert (Hr : LibrarySpec.readable Samples.oneFile Samples.mobyScan).
  { intros s [<-|[]]. eexists. reflexivity. }
  specialize (Hrun Hr). eexists _, _. split; [exact Hrun|].
  destruct (Hrest _ _ Hrun) as (_ & _ & _ & _ & Htwice).
  split; [vm_compute; reflexivity|].
  apply Htwice.
  - apply NoDup_nil. constructor.
  - intros b s [].
Qed.

(** C6.  The scan drops a book that is in the directory.  The catalog
    lists Moby-Dick, under the id of its bytes, at the path the file had
    before it was moved; the scanned directory holds the same bytes at
    [/books/moby.epub].  The scan finds the entry by its id and
    refreshes it but leaves its path as it was, and the filter that
    follows ("Remove books that no longer exist") removes it because
    that path was not scanned: the saved catalog is empty although the
    book is there.  Scanning the unchanged directory once more adds the
    book as a new one, so the two scans save different catalogs. *)
Theorem C6_moved_file_dropped :
  Storage.hashBook Samples.oneFile "/books/moby.epub" = JS.Returned Samples.mobyId
  /\ map LibraryTools.scannedPath Samples.mobyScan = ["/books/moby.epub"]
  /\ map (fun b => (Storage.id b, Storage.path b, Storage.addedAt b))
         (Storage.books (Storage.getLibrary Samples.movedStore))
     = [(Samples.mobyId, "/old/moby.epub", "2024-01-01")]
  /\ exists lib1 st1 lib2 st2,
       LibraryTools.viewLibrary Samples.oneFile (fun _ => "2024-03-03") "/books"
         Samples.mobyScan Samples.movedStore = (JS.Returned lib1, st1)
       /\ Storage.books lib1 = []
       /\ LibraryTools.viewLibrary Samples.oneFile (fun _ => "2024-03-04") "/books"
            Samples.mobyScan st1 = (JS.Returned lib2, st2)
       /\ map (fun b => (Storage.id b, Storage.path b, Storage.addedAt b))
              (Storage.books lib2)
          = [(Samples.mobyId, "/books/moby.epub", "2024-03-04")]
       /\ lib2 <> lib1.
Proof.
  split; [reflexivity|]. split; [reflexivity|]. split; [reflexivity|].
  eexists _, _, _, _. split; [vm_compute; reflexivity|]. split; [reflexivity|].
  split; [vm_compute; reflexivity|]. split; [reflexivity|].
  intros H. apply (f_equal Storage.books) in H. discriminate H.
Qed.

(** ** Progressive reading of a chapter *)

Section ReadChapter.
Import Epub Indexing IndexingSpec.

Variable book : ExtractedBook.
Variable ch : ExtractedChapter.
Hypothesis Hfound : findChapter (chapters book) (index ch) = Some ch.

Lemma readChapter_found (o : Z) (lim : option Z) :
  readChapter (Some book) (mkArgs (index ch) (Some o) lim)
  = ChapterRead {|
      sliceChapterIndex := index ch;
      sliceChapterTitle := title ch;
      sliceContent := piece ch o lim;
      totalLength := JS.len (content ch);
      sliceOffset := o;
      sliceLength := JS.len (piece ch o lim);
      hasMore := o + JS.len (piece ch o lim) <? JS.len (content ch);
      remaining := JS.len (content ch) - (o + JS.len (piece ch o lim));
      nextOffset := if o + JS.len (piece ch o lim) <? JS.len (content ch)
                    then Some (o + JS.len (piece ch o lim)) else None |}.
Proof.
  unfold readChapter; simpl. rewrite Hfound. reflexivity.
Qed.

(** Leaving the offset out is reading from offset 0. *)
Lemma readChapter_no_offset (lim : option Z) :
  readChapter (Some book) (mkArgs (index ch) None lim)
  = readChapter (Some book) (mkArgs (index ch) (Some 0) lim).
Proof. reflexivity. Qed.

Lemma effectiveLimit_nonneg (lim : option Z) :
  (forall l, lim = Some l -> 1 <= l) -> 0 <= effectiveLimit ch lim.
Proof.
  intros H. unfold effectiveLimit. destruct lim as [l|]; simpl.
  - specialize (H l eq_refl). lia.
  - pose proof (len_nonneg (content ch)). destruct (50000 <? _); lia.
Qed.

Lemma effectiveLimit_progress (lim : option Z) :
  (forall l, lim = Some l -> 1 <= l) ->
  0 < JS.len (content ch) -> 1 <= effectiveLimit ch lim.
Proof.
  intros H Hpos. unfold effectiveLimit. destruct lim as [l|]; simpl.
  - exact (H l eq_refl).
  - destruct (50000 <? _); lia.
Qed.

Variable limits : nat -> option Z.
Hypothesis Hlimits : forall k l, limits k = Some l -> 1 <= l.

Lemma readProgressively_from (fuel : nat) :
  forall (k : nat) (off : Z),
    0 <= off <= JS.len (content ch) ->
    JS.len (content ch) - off < Z.of_nat fuel ->
    exists slices,
      readProgressively fuel book (index ch) limits k off = Some slices
      /\ String.concat "" slices = JS.drop (Z.to_nat off) (content ch).
Proof.
  induction fuel as [|fuel IH]; intros k off Hoff Hfuel; [lia|].
  assert (Hl : forall l, limits k = Some l -> 1 <= l) by (intros l; apply Hlimits).
  pose proof (effectiveLimit_nonneg _ Hl) as Hnn.
  cbn [readProgressively].
  rewrite (readChapter_found off (limits k)); cbn [nextOffset sliceContent].
  unfold piece.
  rewrite (len_slice_window _ _ _ Hoff Hnn).
  rewrite (slice_window _ _ _ Hoff Hnn).
  set (lim := effectiveLimit ch (limits k)) in *.
  set (n := JS.len (content ch)) in *.
  destruct (Z.ltb_spec (off + Z.min lim (n - off)) n) as [Hmore|Hlast].
  - assert (Hpos : 0 < n) by lia.
    pose proof (effectiveLimit_progress _ Hl Hpos) as Hprog. fold lim in Hprog.
    assert (Hmin : Z.min lim (n - off) = lim) by lia.
    rewrite Hmin in *.
    destruct (IH (S k) (off + lim)) as (rest & Hrest & Hcat); [lia|lia|].
    rewrite Hrest. cbn. eexists; split; [reflexivity|].
    assert (Hdrop : JS.drop (Z.to_nat (off + lim)) (content ch)
                    = JS.drop (Z.to_nat lim) (JS.drop (Z.to_nat off) (content ch))).
    { rewrite drop_drop. f_equal. lia. }
    destruct rest as [|r rest'].
    + cbn in *. rewrite Hdrop in Hcat.
      rewrite <- (take_drop (Z.to_nat lim) (JS.drop (Z.to_nat off) (content ch))) at 2.
      now rewrite <- Hcat, append_nil_r.
    + cbn [String.concat] in *. rewrite Hcat, Hdrop. apply take_drop.
  - eexists; split; [reflexivity|]. cbn.
    apply take_all. rewrite length_drop. unfold n, JS.len in *. lia.
Qed.

(** Without an explicit limit a call at offset 0 hands out the whole
    chapter when it has at most 50,000 code units, and its first
    30,000 otherwise. *)
Lemma readChapter_default :
  exists r,
    readChapter (Some book) (mkArgs (index ch) None None) = ChapterRead r
    /\ totalLength r = JS.len (content ch)
    /\ if JS.len (content ch) <=? 50000
       then sliceContent r = content ch
            /\ hasMore r = false /\ nextOffset r = None
       else sliceContent r = JS.slice (content ch) 0 (Some 30000)
            /\ sliceLength r = 30000
            /\ hasMore r = true /\ nextOffset r = Some 30000.
Proof.
  rewrite readChapter_no_offset, readChapter_found.
  eexists; split; [reflexivity|]. cbn [totalLength sliceContent hasMore nextOffset sliceLength].
  split; [reflexivity|].
  pose proof (len_nonneg (content ch)) as Hn.
  assert (H0 : 0 <= 0 <= JS.len (content ch)) by lia.
  unfold piece, effectiveLimit; cbn [default from_option id].
  destruct (Z.leb_spec (JS.len (content ch)) 50000) as [Hsmall|Hbig].
  - destruct (Z.ltb_spec 50000 (JS.len (content ch))) as [?|_]; [lia|].
    rewrite (len_slice_window _ 0 _ H0 Hn), (slice_window _ 0 _ H0 Hn).
    rewrite Z.min_l by lia. cbn [Z.to_nat]. rewrite drop_0.
    rewrite take_all by (unfold JS.len; lia).
    destruct (Z.ltb_spec (0 + JS.len (content ch)) (JS.len (content ch))); [lia|].
    repeat split.
  - destruct (Z.ltb_spec 50000 (JS.len (content ch))) as [_|?]; [|lia].
    rewrite (len_slice_window _ 0 30000 H0) by lia.
    rewrite Z.min_l by lia.
    destruct (Z.ltb_spec (0 + 30000) (JS.len (content ch))); [|lia].
    repeat split.
Qed.

(** The second default call of a chapter above the threshold. *)
Lemma readChapter_second_chunk :
  60000 < JS.len (content ch) ->
  exists r,
    readChapter (Some book) (mkArgs (index ch) (Some 30000) None) = ChapterRead r
    /\ sliceContent r = JS.slice (content ch) 30000 (Some 60000)
    /\ hasMore r = true /\ nextOffset r = Some 60000.
Proof.
  intros Hbig. rewrite readChapter_found.
  eexists; split; [reflexivity|]. cbn [sliceContent hasMore nextOffset].
  unfold piece, effectiveLimit; cbn [default from_option id].
  destruct (Z.ltb_spec 50000 (JS.len (content ch))) as [_|?]; [|lia].
  change (30000 + 30000) with 60000.
  assert (H : JS.len (JS.slice (content ch) 30000 (Some 60000)) = 30000).
  { change 60000 with (30000 + 30000).
    rewrite len_slice_window by lia. lia. }
  rewrite H.
  destruct (Z.ltb_spec (30000 + 30000) (JS.len (content ch))); [|lia].
  repeat split.
Qed.

End ReadChapter.

(** C2.  Reading a chapter progressively (first call at offset 0, each
    further call at the [nextOffset] of the previous one, until
    [hasMore] is false) terminates, and the slices concatenated are the
    chapter text: nothing is skipped and nothing is repeated.  This holds
    for any choice of per-call limits (each at least one code unit; the
    schema asks for at least 1000) and for the default.  With no limit
    the slice at offset 0 is the whole chapter when it has at most
    50,000 code units and its first 30,000 otherwise; for a chapter of
    180,000 code units the first call returns [0,30000) with
    [hasMore = true] and [nextOffset = 30000], the second [30000,60000). *)
Theorem C2_progressive_read
    (book : Indexing.ExtractedBook) (ch : Epub.ExtractedChapter)
    (limits : nat -> option Z) :
  Indexing.findChapter (Indexing.chapters book) (Epub.index ch) = Some ch ->
  (forall k l, limits k = Some l -> 1 <= l) ->
  (exists slices,
      Indexing.readProgressively (S (String.length (Epub.content ch)))
        book (Epub.index ch) limits 0 0 = Some slices
      /\ String.concat "" slices = Epub.content ch)
  /\ (exists r,
        Indexing.readChapter (Some book)
          (Indexing.mkArgs (Epub.index ch) None None) = Indexing.ChapterRead r
        /\ Indexing.totalLength r = JS.len (Epub.content ch)
        /\ if JS.len (Epub.content ch) <=? 50000
           then Indexing.sliceContent r = Epub.content ch
                /\ Indexing.hasMore r = false /\ Indexing.nextOffset r = None
           else Indexing.sliceContent r = JS.slice (Epub.content ch) 0 (Some 30000)
                /\ Indexing.sliceLength r = 30000
                /\ Indexing.hasMore r = true /\ Indexing.nextOffset r = Some 30000)
  /\ (JS.len (Epub.content ch) = 180000 ->
      exists r1 r2,
        Indexing.readChapter (Some book)
          (Indexing.mkArgs (Epub.index ch) None None) = Indexing.ChapterRead r1
        /\ Indexing.sliceContent r1 = JS.slice (Epub.content ch) 0 (Some 30000)
        /\ Indexing.hasMore r1 = true /\ Indexing.nextOffset r1 = Some 30000
        /\ Indexing.readChapter (Some book)
             (Indexing.mkArgs (Epub.index ch) (Some 30000) None) = Indexing.ChapterRead r2
        /\ Indexing.sliceContent r2 = JS.slice (Epub.content ch) 30000 (Some 60000)
        /\ Indexing.hasMore r2 = true /\ Indexing.nextOffset r2 = Some 60000).
Proof.
  intros Hfound Hlimits. split; [|split].
  - destruct (readProgressively_from book ch Hfound limits Hlimits
                (S (String.length (Epub.content ch))) 0%nat 0)
      as (slices & Hrun & Hcat).
    + pose proof (len_nonneg (Epub.content ch)); lia.
    + unfold JS.len; lia.
    + exists slices; split; [exact Hrun|]. now rewrite Hcat, drop_0.
  - exact (readChapter_default book ch Hfound).
  - intros Hlen.
    destruct (readChapter_default book ch Hfound) as (r1 & Hr1 & _ & Hd).
    destruct (readChapter_second_chunk book ch Hfound) as (r2 & Hr2 & Hs2 & Hm2 & Hn2);
      [lia|].
    rewrite Hlen in Hd. cbn in Hd. destruct Hd as (Hs1 & _ & Hm1 & Hn1).
    exists r1, r2. repeat split; assumption.
Qed.

(** Reading chapter 0 of the sample book five code units at a time. *)
Lemma C2_progressive_read_witness :
  exists slices,
    Indexing.readProgressively 23 Samples.gappedBook 0 (fun _ => Some 5) 0 0 = Some slices
    /\ String.concat "" slices = "alpha beta gamma delta".
Proof.
  exact (proj1 (C2_progressive_read Samples.gappedBook
                  (Epub.mkChapter 0 "One" "alpha beta gamma delta")
                  (fun _ => Some 5)
                  eq_refl
                  (fun k l H => match H in _ = o return
                                      match o with Some x => 1 <= x | None => True end
                                with eq_refl => ltac:(cbn; lia) end))).
Defined.

(* ===================================================================== *)
(** * Part III. Properties of the code around the design document        *)
(* ===================================================================== *)

(** ** Reading a chapter at an arbitrary offset *)

Section ReadWindow.
Import Epub Indexing IndexingSpec.

Lemma slice_from (s : string) (off lim : Z) :
  0 <= off -> 0 <= lim ->
  JS.slice s off (Some (off + lim))
  = JS.take (Z.to_nat (Z.max 0 (Z.min lim (JS.len s - off)))) (JS.drop (Z.to_nat off) s).
Proof.
  intros Hoff Hlim. destruct (Z.le_gt_cases off (JS.len s)) as [Hin|Hout].
  - rewrite slice_window by lia. f_equal. lia.
  - unfold JS.slice, JS.clampIndex.
    destruct (Z.ltb_spec off 0) as [?|_]; [lia|].
    destruct (Z.ltb_spec (off + lim) 0) as [?|_]; [lia|].
    rewrite (Z.min_r off) by lia. rewrite (Z.min_r (off + lim)) by lia.
    replace (Z.to_nat (JS.len s - JS.len s)) with 0%nat by lia.
    replace (Z.to_nat (Z.max 0 (Z.min lim (JS.len s - off)))) with 0%nat by lia.
    reflexivity.
Qed.

Lemma len_slice_from (s : string) (off lim : Z) :
  0 <= off -> 0 <= lim ->
  JS.len (JS.slice s off (Some (off + lim))) = Z.max 0 (Z.min lim (JS.len s - off)).
Proof.
  intros Hoff Hlim. rewrite slice_from by assumption.
  unfold JS.len in *. rewrite length_take, length_drop. lia.
Qed.

End ReadWindow.

(** X1.  A call of [readChapter] on a stored chapter with a
    whole-number offset [o >= 0] and limit, where the length of the
    chapter and the sum of offset and limit do not exceed
    [Number.MAX_SAFE_INTEGER] (so that the arithmetic of the source is
    exact), returns the code units [o, o + n) of the chapter, where [n]
    is the limit cut at the end of the text (0 at or beyond the end);
    offset, length and remaining add up to the total length, [hasMore]
    says that something remains, and [nextOffset] is the end of the
    slice exactly when it does.  A read at or beyond the end returns no
    text, [hasMore = false] and a remaining count that is zero or
    negative. *)
Theorem readChapter_window (book : Indexing.ExtractedBook) (ch : Epub.ExtractedChapter)
    (off lim : option Z) :
  Indexing.findChapter (Indexing.chapters book) (Epub.index ch) = Some ch ->
  0 <= default 0 off ->
  (forall l, lim = Some l -> 0 <= l) ->
  JS.len (Epub.content ch) <= IndexingSpec.MAX_SAFE_INTEGER ->
  default 0 off + IndexingSpec.effectiveLimit ch lim <= IndexingSpec.MAX_SAFE_INTEGER ->
  let o := default 0 off in
  let total := JS.len (Epub.content ch) in
  let n := Z.max 0 (Z.min (IndexingSpec.effectiveLimit ch lim) (total - o)) in
  exists r,
    Indexing.readChapter (Some book) (Indexing.mkArgs (Epub.index ch) off lim)
    = Indexing.ChapterRead r
    /\ Indexing.sliceContent r = JS.take (Z.to_nat n) (JS.drop (Z.to_nat o) (Epub.content ch))
    /\ Indexing.sliceOffset r = o
    /\ Indexing.sliceLength r = n
    /\ Indexing.totalLength r = total
    /\ Indexing.sliceOffset r + Indexing.sliceLength r + Indexing.remaining r = total
    /\ (Indexing.hasMore r = true <-> 0 < Indexing.remaining r)
    /\ Indexing.nextOffset r = (if Indexing.hasMore r then Some (o + n) else None)
    /\ (total <= o ->
        Indexing.sliceContent r = EmptyString /\ Indexing.hasMore r = false
        /\ Indexing.remaining r = total - o).
Proof.
  intros Hfound Hoff Hlim _ _ o total n.
  assert (Hl : 0 <= IndexingSpec.effectiveLimit ch lim).
  { unfold IndexingSpec.effectiveLimit. destruct lim as [l|]; cbn.
    - now apply Hlim.
    - destruct (50000 <? JS.len (Epub.content ch)); [lia | apply len_nonneg]. }
  assert (Hrun : Indexing.readChapter (Some book) (Indexing.mkArgs (Epub.index ch) off lim)
                 = Indexing.readChapter (Some book)
                     (Indexing.mkArgs (Epub.index ch) (Some o) lim)).
  { subst o. now destruct off. }
  rewrite Hrun, (readChapter_found book ch Hfound o lim).
  eexists. split; [reflexivity|].
  cbn [Indexing.sliceContent Indexing.sliceOffset Indexing.sliceLength Indexing.totalLength
       Indexing.remaining Indexing.hasMore Indexing.nextOffset].
  assert (Hlen : JS.len (IndexingSpec.piece ch o lim) = n).
  { unfold IndexingSpec.piece. now rewrite len_slice_from. }
  rewrite !Hlen. fold total.
  split. { unfold IndexingSpec.piece. now rewrite slice_from. }
  split; [reflexivity|]. split; [reflexivity|]. split; [reflexivity|].
  split; [lia|]. split.
  { rewrite Z.ltb_lt. lia. }
  split; [reflexivity|].
  intros Hend. assert (n = 0) as Hn by (subst n; lia).
  rewrite Hn. split.
  - unfold IndexingSpec.piece. rewrite slice_from by assumption. fold total n.
    rewrite Hn. now destruct (JS.drop _ _).
  - split; [apply Z.ltb_ge; lia | lia].
Qed.

Lemma readChapter_window_witness :
  exists r,
    Indexing.readChapter (Some Samples.gappedBook)
      (Indexing.mkArgs 2 (Some 3) (Some 4)) = Indexing.ChapterRead r
    /\ Indexing.sliceContent r = "ilon"
    /\ Indexing.sliceLength r = 4
    /\ Indexing.remaining r = 0.
Proof.
  destruct (readChapter_window Samples.gappedBook (Epub.mkChapter 2 "Three" "epsilon")
              (Some 3) (Some 4))
    as (r & Hr & Hpiece & Ho & Hn & _ & Hsum & _).
  - reflexivity.
  - cbn. lia.
  - intros l [= <-]. lia.
  - vm_compute. discriminate.
  - vm_compute. discriminate.
  - exists r. split; [exact Hr|]. split; [now rewrite Hpiece|].
    split; [now rewrite Hn|]. rewrite Ho, Hn in Hsum.
    change (3 + 4 + Indexing.remaining r = 7) in Hsum. lia.
Defined.

(** ** The feed cache *)

Section FeedCacheFacts.
Import JS (Outcome, Returned, Thrown).
Import Rss FeedCache.

Variable parseURL : string -> Outcome RawFeed.
Variables cleanHtml extractDomainName : string -> string.
Variable entropy : nat -> Crypto.Entropy.

Lemma fetchFeed_hit (now later : Z) (url : string) (cache : gmap string CachedFeed)
    (cached : CachedFeed) :
  cache !! url = Some cached -> now - fetchedAt cached < CACHE_TTL ->
  fetchFeed parseURL cleanHtml extractDomainName entropy now later url true cache
  = (Returned (parsed cached), cache).
Proof.
  intros Hc Hfresh. unfold fetchFeed. rewrite Hc.
  destruct (Z.ltb_spec (now - fetchedAt cached) CACHE_TTL); [reflexivity | lia].
Qed.

Lemma fetchFeed_miss (now later : Z) (url : string) (useCache : bool)
    (cache : gmap string CachedFeed) :
  (useCache = true ->
   forall cached, cache !! url = Some cached -> CACHE_TTL <= now - fetchedAt cached) ->
  fetchFeed parseURL cleanHtml extractDomainName entropy now later url useCache cache
  = fetchFeed parseURL cleanHtml extractDomainName entropy now later url false cache.
Proof.
  intros Hstale. unfold fetchFeed. destruct useCache; [|reflexivity].
  destruct (cache !! url) as [cached|] eqn:Hc; [|reflexivity].
  specialize (Hstale eq_refl cached eq_refl).
  destruct (Z.ltb_spec (now - fetchedAt cached) CACHE_TTL); [lia | reflexivity].
Qed.

Lemma cleanCache_lookup (t : Z) (cache : gmap string CachedFeed) (url : string) :
  cleanCache t cache !! url
  = match cache !! url with
    | Some cached => if t - fetchedAt cached <=? CACHE_TTL then Some cached else None
    | None => None
    end.
Proof.
  unfold cleanCache. destruct (cache !! url) as [cached|] eqn:Hc.
  - destruct (Z.leb_spec (t - fetchedAt cached) CACHE_TTL) as [Hle|Hgt].
    + apply map_lookup_filter_Some. split; [exact Hc | exact Hle].
    + apply map_lookup_filter_None. right. intros x Hx. rewrite Hc in Hx.
      injection Hx as <-. cbn. lia.
  - apply map_lookup_filter_None. now left.
Qed.

End FeedCacheFacts.

(** X2.  After a fetch that went to the network and succeeded, a
    cached fetch of the same URL made less than five minutes after the
    entry was stored returns the same feed, whatever the network would
    answer then, and leaves the cache as it is.  From five minutes on,
    or when the cache is bypassed, the call goes to the network again,
    and if that fails it throws: the entry that is too old is not
    served, and the cache is not changed by the failure. *)
Theorem fetchFeed_cache_round_trip
    (parseURL parseURL' : string -> JS.Outcome Rss.RawFeed)
    (cleanHtml extractDomainName : string -> string)
    (entropy entropy' : nat -> Crypto.Entropy) (now later now' later' : Z)
    (url : string) (cache : gmap string Rss.CachedFeed) (feed : Rss.RawFeed) :
  parseURL url = JS.Returned feed ->
  let first := Rss.fetchFeed parseURL cleanHtml extractDomainName entropy now later
                 url false cache in
  let again := fun useCache =>
                 Rss.fetchFeed parseURL' cleanHtml extractDomainName entropy' now' later'
                   url useCache (snd first) in
  exists result,
    fst first = JS.Returned result
    /\ (now' - later < Rss.CACHE_TTL -> again true = (JS.Returned result, snd first))
    /\ (parseURL' url = JS.Thrown ->
        again false = (JS.Thrown, snd first)
        /\ (Rss.CACHE_TTL <= now' - later -> again true = (JS.Thrown, snd first))).
Proof.
  intros Hfeed first again.
  set (result :=
         Rss.mkParsedFeed (Rss.orString (Rss.feedTitle feed) (extractDomainName url))
           (Rss.feedDescription feed) (Rss.feedLink feed) (Rss.feedImageUrl feed)
           (imap (fun k item => Rss.parseItem cleanHtml (Crypto.randomUUID (entropy k)) item)
                 (Rss.feedItems feed))).
  set (cache' := <[url := Rss.mkCachedFeed result later]> cache).
  assert (Hfirst : first = (JS.Returned result, cache')).
  { subst first. unfold Rss.fetchFeed. now rewrite Hfeed. }
  subst again. cbv beta. rewrite Hfirst. cbn [fst snd].
  exists result. split; [reflexivity|].
  assert (Hc : cache' !! url = Some (Rss.mkCachedFeed result later))
    by apply lookup_insert_eq.
  split.
  - intros Hfresh.
    exact (fetchFeed_hit parseURL' cleanHtml extractDomainName entropy' now' later'
             url cache' _ Hc Hfresh).
  - intros Hdown.
    assert (Hoff : Rss.fetchFeed parseURL' cleanHtml extractDomainName entropy' now' later'
                     url false cache' = (JS.Thrown, cache')).
    { unfold Rss.fetchFeed. now rewrite Hdown. }
    split; [exact Hoff|]. intros Hold.
    rewrite fetchFeed_miss; [exact Hoff|].
    intros _ cached Hcached. rewrite Hc in Hcached. injection Hcached as <-. exact Hold.
Qed.

Lemma fetchFeed_cache_round_trip_witness :
  exists result,
    fst (Rss.fetchFeed (fun _ => JS.Returned (Rss.mkRawFeed (Some "News") None None None []))
           (fun s => s) (fun s => s) (fun _ => Crypto.mkEntropy 1 2 3 4) 1000 1200
           "https://example.org/feed" false ∅) = JS.Returned result
    /\ Rss.parsedTitle result = "News".
Proof.
  destruct (fetchFeed_cache_round_trip
              (fun _ => JS.Returned (Rss.mkRawFeed (Some "News") None None None []))
              (fun _ => JS.Thrown) (fun s => s) (fun s => s)
              (fun _ => Crypto.mkEntropy 1 2 3 4) (fun _ => Crypto.mkEntropy 1 2 3 4)
              1000 1200 2000 2100 "https://example.org/feed" ∅
              (Rss.mkRawFeed (Some "News") None None None []) eq_refl)
    as (result & Hfirst & _).
  exists result. split; [exact Hfirst|].
  cbn in Hfirst. injection Hfirst as <-. reflexivity.
Defined.

(** X3.  The cache sweep at time [t] keeps exactly the entries fetched
    at most five minutes before [t], unchanged.  No fetch made at or
    after the sweep can tell that it happened: with the swept cache it
    returns what it would have returned with the cache as it was. *)
Theorem cleanCache_invisible
    (parseURL : string -> JS.Outcome Rss.RawFeed)
    (cleanHtml extractDomainName : string -> string)
    (entropy : nat -> Crypto.Entropy) (t now later : Z) (useCache : bool)
    (cache : gmap string Rss.CachedFeed) :
  t <= now ->
  (forall url cached,
      FeedCache.cleanCache t cache !! url = Some cached
      <-> cache !! url = Some cached /\ t - Rss.fetchedAt cached <= Rss.CACHE_TTL)
  /\ (forall url,
        fst (Rss.fetchFeed parseURL cleanHtml extractDomainName entropy now later
               url useCache (FeedCache.cleanCache t cache))
        = fst (Rss.fetchFeed parseURL cleanHtml extractDomainName entropy now later
                 url useCache cache)).
Proof.
  intros Ht. split.
  - intros url cached. rewrite cleanCache_lookup.
    destruct (cache !! url) as [c|]; [|intuition discriminate].
    destruct (Z.leb_spec (t - Rss.fetchedAt c) Rss.CACHE_TTL) as [Hle|Hgt].
    + split; [intros [= <-]; auto | intros [[= <-] _]; reflexivity].
    + split; [discriminate | intros [[= <-] ?]; lia].
  - intros url. unfold Rss.fetchFeed. rewrite cleanCache_lookup.
    destruct useCache; [|now destruct (parseURL url)].
    destruct (cache !! url) as [c|]; [|now destruct (parseURL url)].
    destruct (Z.leb_spec (t - Rss.fetchedAt c) Rss.CACHE_TTL) as [Hle|Hgt].
    + destruct (now - Rss.fetchedAt c <? Rss.CACHE_TTL); [reflexivity|].
      now destruct (parseURL url).
    + destruct (Z.ltb_spec (now - Rss.fetchedAt c) Rss.CACHE_TTL); [lia|].
      now destruct (parseURL url).
Qed.

Lemma cleanCache_invisible_witness :
  FeedCache.cleanCache 400000 (<["u" := Rss.mkCachedFeed (Rss.mkParsedFeed "t" None None None []) 0]> ∅)
  !! "u" = None.
Proof.
  destruct (cleanCache_invisible (fun _ => JS.Thrown) (fun s => s) (fun s => s)
              (fun _ => Crypto.mkEntropy 0 0 0 0) 400000 400000 400000 true
              (<["u" := Rss.mkCachedFeed (Rss.mkParsedFeed "t" None None None []) 0]> ∅)
              ltac:(lia)) as [Hkeep _].
  destruct (FeedCache.cleanCache _ _ !! "u") as [c|] eqn:Hc; [|reflexivity].
  apply Hkeep in Hc as [Hc Hage]. rewrite lookup_insert_eq in Hc. injection Hc as <-.
  cbn in Hage. unfold Rss.CACHE_TTL in Hage. lia.
Defined.

(** ** Finding a book by id or title *)

Section FindBook.
Import Storage BookLookup.

Lemma find_head_true {A} (p : A -> bool) (l : list A) :
  l <> [] -> (forall x, In x l -> p x = true) -> exists x, List.find p l = Some x.
Proof.
  destruct l as [|x l]; [congruence|]. intros _ H. exists x. cbn.
  now rewrite (H x (or_introl eq_refl)).
Qed.

Lemma find_exists {A} (p : A -> bool) (l : list A) (x : A) :
  In x l -> p x = true -> exists y, List.find p l = Some y.
Proof.
  intros Hin Hp. destruct (List.find p l) as [y|] eqn:Hfind; [now exists y|].
  now rewrite (List.find_none _ _ Hfind x Hin) in Hp.
Qed.

Lemma includesString_nil (s : string) : JSText.includesString s EmptyString = true.
Proof. destruct s; cbn; [reflexivity | now rewrite ?startsWith_nil]. Qed.

End FindBook.

(** X4.  [findBook] only ever returns an entry of the catalog, and
    the entry it returns matches the search term in one of the four
    ways, tried in this order: by id, by the whole title, by a part of
    the title, by all words of the term.  An id is honoured first: if
    the term is the id of a catalogued book, the result is a book with
    that id, whatever the titles are. *)
Theorem findBook_sound (st : Storage.Store) (bookIdOrTitle : string) :
  let catalog := Storage.books (Storage.getLibrary st) in
  let searchLower := BookLookup.searchLowerOf bookIdOrTitle in
  (forall b,
      BookLookup.findBook st bookIdOrTitle = Some b ->
      In b catalog
      /\ (Storage.id b = bookIdOrTitle
          \/ BookLookup.exactTitle searchLower b = true
          \/ BookLookup.partialTitle searchLower b = true
          \/ BookLookup.allWords (BookLookup.searchWordsOf searchLower) b = true))
  /\ (forall b,
        In b catalog -> Storage.id b = bookIdOrTitle ->
        exists b', BookLookup.findBook st bookIdOrTitle = Some b'
                   /\ Storage.id b' = bookIdOrTitle).
Proof.
  intros catalog searchLower. split.
  - intros b. unfold BookLookup.findBook, Storage.getBook. fold catalog searchLower.
    destruct (List.find _ catalog) as [byId|] eqn:H1.
    { intros [= <-]. apply List.find_some in H1 as [Hin Hid].
      apply String.eqb_eq in Hid. auto. }
    destruct (List.find (BookLookup.exactTitle searchLower) catalog) as [m|] eqn:H2.
    { intros [= <-]. apply List.find_some in H2 as [Hin Hp]. auto. }
    destruct (List.find (BookLookup.partialTitle searchLower) catalog) as [m|] eqn:H3.
    { intros [= <-]. apply List.find_some in H3 as [Hin Hp]. auto. }
    intros H4. apply List.find_some in H4 as [Hin Hp]. auto 6.
  - intros b Hin Hid. unfold BookLookup.findBook, Storage.getBook. fold catalog.
    destruct (find_exists (fun b0 => String.eqb (Storage.id b0) bookIdOrTitle) catalog b Hin)
      as [b' Hb'].
    { now apply String.eqb_eq. }
    rewrite Hb'. exists b'. split; [reflexivity|].
    apply List.find_some in Hb' as [_ Hb']. now apply String.eqb_eq.
Qed.

(** X5.  With a catalog that is not empty, [findBook] cannot answer
    "not found" to a search term none of whose words has more than two
    characters (the empty term included): the test on the words holds
    for every book when there is no word to test.  It cannot either
    when some catalogued book has an empty title, since the empty
    string is part of every search term. *)
Theorem findBook_never_null (st : Storage.Store) (bookIdOrTitle : string) :
  Storage.books (Storage.getLibrary st) <> [] ->
  BookLookup.searchWordsOf (BookLookup.searchLowerOf bookIdOrTitle) = []
  \/ (exists b, In b (Storage.books (Storage.getLibrary st))
                /\ Storage.title b = EmptyString) ->
  exists b, BookLookup.findBook st bookIdOrTitle = Some b.
Proof.
  intros Hne Hcase. unfold BookLookup.findBook.
  destruct (Storage.getBook st bookIdOrTitle) as [b|]; [now exists b|].
  destruct (List.find (BookLookup.exactTitle _) _) as [b|]; [now exists b|].
  destruct (List.find (BookLookup.partialTitle _) _) as [b|] eqn:Hpartial; [now exists b|].
  destruct Hcase as [Hwords|(b & Hin & Htitle)].
  - rewrite Hwords. apply find_head_true; [exact Hne | reflexivity].
  - exfalso. pose proof (List.find_none _ _ Hpartial b Hin) as Hno.
    unfold BookLookup.partialTitle in Hno. rewrite Htitle in Hno. cbn in Hno.
    rewrite includesString_nil in Hno. now rewrite orb_true_r in Hno.
Qed.

Lemma findBook_never_null_witness :
  exists b, BookLookup.findBook MoreSamples.twoTitles "xy" = Some b
            /\ Storage.title b = "Moby-Dick".
Proof.
  destruct (findBook_never_null MoreSamples.twoTitles "xy") as [b Hb].
  - discriminate.
  - left. reflexivity.
  - exists b. split; [exact Hb|].
    vm_compute in Hb. injection Hb as <-. reflexivity.
Defined.

(** ** The catalog document *)

Section CatalogFacts.
Import Storage Catalog.

Lemma findIndex_None {A} (p : A -> bool) (l : list A) :
  Epub.findIndex p l = None -> forall x, In x l -> p x = false.
Proof.
  induction l as [|y l IH]; cbn; [intros _ x []|].
  destruct (p y) eqn:Hy; [discriminate|].
  destruct (Epub.findIndex p l); [discriminate|].
  intros _ x [<-|Hin]; [exact Hy | now apply IH].
Qed.

Lemma findIndex_find {A} (p : A -> bool) (l : list A) :
  Epub.findIndex p l = None <-> List.find p l = None.
Proof.
  induction l as [|y l IH]; cbn; [tauto|].
  destruct (p y); [split; discriminate|].
  destruct (Epub.findIndex p l); cbn; [|tauto].
  split; [discriminate|]. intros H. apply IH in H. discriminate.
Qed.

Lemma find_insert_at {A} (p : A -> bool) (l : list A) (i : nat) (x : A) :
  Epub.findIndex p l = Some i -> p x = true -> List.find p (<[i := x]> l) = Some x.
Proof.
  revert i; induction l as [|y l IH]; cbn; intros i Hi Hx; [discriminate|].
  destruct (p y) eqn:Hy.
  - injection Hi as <-. cbn. now rewrite Hx.
  - destruct (Epub.findIndex p l) as [j|]; [|discriminate].
    injection Hi as <-. cbn. rewrite Hy. now apply IH.
Qed.

Lemma find_app_new {A} (p : A -> bool) (l : list A) (x : A) :
  List.find p l = None -> p x = true -> List.find p (l ++ [x]) = Some x.
Proof.
  induction l as [|y l IH]; cbn; intros Hl Hx; [now rewrite Hx|].
  destruct (p y); [discriminate | now apply IH].
Qed.

Lemma find_app_other {A} (p : A -> bool) (l : list A) (x : A) :
  p x = false -> List.find p (l ++ [x]) = List.find p l.
Proof.
  intros Hx. induction l as [|y l IH]; cbn; [now rewrite Hx|].
  now destruct (p y).
Qed.

(** Replacing an entry that a test rejects by another one that it
    rejects does not change what [find] returns. *)
Lemma find_insert_other {A} (p q : A -> bool) (l : list A) (i : nat) (x : A) :
  Epub.findIndex q l = Some i -> (forall y, q y = true -> p y = false) -> p x = false ->
  List.find p (<[i := x]> l) = List.find p l.
Proof.
  revert i; induction l as [|y l IH]; cbn; intros i Hi Hq Hx; [discriminate|].
  destruct (q y) eqn:Hy.
  - injection Hi as <-. cbn. now rewrite Hx, (Hq y Hy).
  - destruct (Epub.findIndex q l) as [j|]; [|discriminate].
    injection Hi as <-. cbn. destruct (p y); [reflexivity | now apply IH].
Qed.

Lemma map_insert_same {A B} (f : A -> B) (p : A -> bool) (l : list A) (i : nat) (x : A) :
  Epub.findIndex p l = Some i -> (forall y, p y = true -> f y = f x) ->
  map f (<[i := x]> l) = map f l.
Proof.
  revert i; induction l as [|y l IH]; cbn; intros i Hi Hf; [discriminate|].
  destruct (p y) eqn:Hy.
  - injection Hi as <-. cbn. now rewrite (Hf y Hy).
  - destruct (Epub.findIndex p l) as [j|]; [|discriminate].
    injection Hi as <-. cbn. f_equal. now apply IH.
Qed.

End CatalogFacts.

(** X6.  After [addOrUpdateBook book], looking the book's id up
    returns exactly [book]; every other id is looked up as before; the
    catalog grows by one entry when the id was not catalogued and keeps
    its length when it was; and a catalog that lists no id twice still
    lists no id twice. *)
Theorem addOrUpdateBook_lookup (book : Storage.LibraryBook) (st : Storage.Store) :
  let st' := Catalog.addOrUpdateBook book st in
  let before := Storage.books (Storage.getLibrary st) in
  let after := Storage.books (Storage.getLibrary st') in
  Storage.getBook st' (Storage.id book) = Some book
  /\ (forall other, other <> Storage.id book ->
        Storage.getBook st' other = Storage.getBook st other)
  /\ length after = match Storage.getBook st (Storage.id book) with
                    | Some _ => length before
                    | None => S (length before)
                    end
  /\ (LibrarySpec.uniqueIds before -> LibrarySpec.uniqueIds after)
  /\ Storage.getSession st' = Storage.getSession st.
Proof.
  intros st' before after.
  set (p := fun b => String.eqb (Storage.id b) (Storage.id book)).
  assert (Hafter : after = match Epub.findIndex p before with
                           | Some i => <[i := book]> before
                           | None => before ++ [book]
                           end) by reflexivity.
  assert (Hbook : p book = true) by apply String.eqb_refl.
  unfold Storage.getBook. fold before after. fold p.
  destruct (Epub.findIndex p before) as [i|] eqn:Hi.
  - rewrite Hafter.
    assert (Hsome : exists b, List.find p before = Some b).
    { destruct (List.find p before) as [b|] eqn:Hf; [now exists b|].
      apply findIndex_find in Hf. congruence. }
    destruct Hsome as [b Hb]. rewrite Hb.
    split; [now apply find_insert_at|]. split.
    { intros other Hother. apply (find_insert_other _ p); [exact Hi| |].
      - intros y Hy. apply String.eqb_eq in Hy. apply String.eqb_neq. congruence.
      - apply String.eqb_neq. congruence. }
    split; [apply length_insert|]. split; [|reflexivity].
    unfold LibrarySpec.uniqueIds. rewrite (map_insert_same Storage.id p before i book Hi).
    + trivial.
    + intros y Hy. now apply String.eqb_eq in Hy.
  - rewrite Hafter. pose proof (proj1 (findIndex_find p before) Hi) as Hnone.
    rewrite Hnone. split; [now apply find_app_new|]. split.
    { intros other Hother. apply find_app_other. apply String.eqb_neq. congruence. }
    split; [rewrite length_app; cbn; lia|]. split; [|reflexivity].
    unfold LibrarySpec.uniqueIds. rewrite map_app. cbn. intros Hu.
    apply NoDup_app. split; [exact Hu|]. split; [|apply NoDup_singleton].
    intros x Hx Hx'. apply list_elem_of_In in Hx, Hx'. destruct Hx' as [<-|[]].
    apply in_map_iff in Hx as (b & Hid & Hin).
    pose proof (List.find_none _ _ Hnone b Hin) as Hb. subst p. cbn in Hb.
    apply String.eqb_neq in Hb. congruence.
Qed.

(** ** Saving a position and loading the book again *)

(** X7.  A position saved with the [save_position] tool is stored under
    the book id, marks the book as the last one read and leaves the
    positions of other books alone; when the book is loaded next,
    [loadBookTool] hands that position back if its chapter lies below
    the chapter count, and chapter 0 with scroll 0 otherwise. *)
Theorem savePosition_then_load (fs : gmap string (list byte)) (now1 now2 now : string)
    (loadInfo : string -> string -> JS.Outcome Epub.BookInfo)
    (bookPath bookId : string) (bookInfo : Epub.BookInfo)
    (chapter : Z) (scroll : Q) (st : Storage.Store) :
  Storage.hashBook fs bookPath = JS.Returned bookId ->
  loadInfo bookPath bookId = JS.Returned bookInfo ->
  let st1 := PositionTools.savePositionTool now1 now2 bookId chapter scroll st in
  Storage.getPosition st1 bookId = Some (Storage.mkPosition chapter scroll now1)
  /\ Storage.lastBook (Storage.getSession st1) = Some bookId
  /\ (forall other, other <> bookId ->
        Storage.getPosition st1 other = Storage.getPosition st other)
  /\ exists result st2,
       LibraryTools.loadBookTool fs now loadInfo bookPath st1 = (JS.Returned result, st2)
       /\ LibraryTools.lastPosition result
          = if Epub.chapterCount (Epub.metadata bookInfo) <=? chapter
            then Some (0, 0%Q) else Some (chapter, scroll).
Proof.
  intros Hhash Hinfo st1.
  assert (Hsession : Storage.getSession st1
                     = Storage.mkSession (Some bookId)
                         (<[bookId := Storage.mkPosition chapter scroll now1]>
                            (Storage.positions (Storage.getSession st)))).
  { subst st1. unfold PositionTools.savePositionTool.
    destruct (List.find _ _); reflexivity. }
  assert (Hpos : Storage.getPosition st1 bookId
                 = Some (Storage.mkPosition chapter scroll now1)).
  { unfold Storage.getPosition. rewrite Hsession. apply lookup_insert_eq. }
  split; [exact Hpos|]. split; [now rewrite Hsession|]. split.
  { intros other Hother. unfold Storage.getPosition. rewrite Hsession.
    cbn [Storage.positions]. now apply lookup_insert_ne. }
  destruct (loadBookTool_position fs now loadInfo bookPath bookId bookInfo st1 Hhash Hinfo)
    as (result & st2 & Hrun & _ & _ & Hcase).
  exists result, st2. split; [exact Hrun|].
  rewrite Hpos in Hcase. cbn [Storage.chapterIndex Storage.scrollPosition] in Hcase.
  destruct (Epub.chapterCount (Epub.metadata bookInfo) <=? chapter); apply Hcase.
Qed.

Lemma savePosition_then_load_witness :
  exists result st2,
    LibraryTools.loadBookTool Samples.oneFile "2024-05-05"
      (fun _ bookId => JS.Returned (Samples.mobyInfo bookId)) "/books/moby.epub"
      (PositionTools.savePositionTool "2024-05-01" "2024-05-01" Samples.mobyId 1 (1 # 2)
         Samples.emptyStore)
    = (JS.Returned result, st2).
Proof.
  destruct (savePosition_then_load Samples.oneFile "2024-05-01" "2024-05-01" "2024-05-05"
              (fun _ bookId => JS.Returned (Samples.mobyInfo bookId)) "/books/moby.epub"
              Samples.mobyId (Samples.mobyInfo Samples.mobyId) 1 (1 # 2) Samples.emptyStore
              eq_refl eq_refl) as (_ & _ & _ & result & st2 & Hrun & _).
  now exists result, st2.
Defined.

(** ** Asking the tables whether a book is indexed *)

Section IndexedFacts.
Import JS (Outcome, Returned, Thrown).
Import Storage Catalog.

Lemma find_none_in {A} (p : A -> bool) (l : list A) :
  (forall x, In x l -> p x = false) -> List.find p l = None.
Proof.
  induction l as [|x l IH]; cbn; intros H; [reflexivity|].
  rewrite (H x) by now left. apply IH. intros y Hy. apply H. now right.
Qed.

Lemma find_app {A} (p : A -> bool) (l l' : list A) :
  List.find p (l ++ l')
  = match List.find p l with Some x => Some x | None => List.find p l' end.
Proof. induction l as [|x l IH]; cbn; [reflexivity|]. now destruct (p x). Qed.

Lemma find_filter {A} (p q : A -> bool) (l : list A) :
  (forall x, p x = true -> q x = true) ->
  List.find p (List.filter q l) = List.find p l.
Proof.
  intros Hpq. induction l as [|x l IH]; cbn; [reflexivity|].
  destruct (p x) eqn:Hp.
  - rewrite (Hpq x Hp). cbn. now rewrite Hp.
  - destruct (q x); cbn; rewrite ?Hp; exact IH.
Qed.

Lemma ofBook_other (bookId other : string) (r : BookContentRow) :
  other <> bookId -> ofBook other r = true -> negb (ofBook bookId r) = true.
Proof.
  unfold ofBook. intros Hne Hr. apply String.eqb_eq in Hr.
  apply negb_true_iff, String.eqb_neq. congruence.
Qed.

(** The two questions after the rows of [bookId] were replaced by [new]. *)
Lemma queries_after_replace (bookId : string) (rows new : list BookContentRow) :
  (forall r, In r new -> rowBookId r = bookId) ->
  let d' := List.filter (fun r => negb (ofBook bookId r)) rows ++ new in
  List.filter (ofBook bookId) d' = new
  /\ List.find (ofBook bookId) d' = List.hd_error new
  /\ forall other, other <> bookId ->
       List.filter (ofBook other) d' = List.filter (ofBook other) rows
       /\ List.find (ofBook other) d' = List.find (ofBook other) rows.
Proof.
  intros Hnew d'. subst d'. split; [|split].
  - rewrite List.filter_app, filter_filter.
    rewrite filter_none by (intros r _; now destruct (ofBook bookId r)).
    rewrite filter_all; [reflexivity|].
    intros r Hr. unfold ofBook. rewrite (Hnew r Hr). apply String.eqb_refl.
  - rewrite find_app, find_none_in.
    + destruct new as [|r new]; [reflexivity|]. cbn.
      unfold ofBook at 1. rewrite (Hnew r) by now left. now rewrite String.eqb_refl.
    + intros r Hr. apply List.filter_In in Hr as [_ Hr].
      now apply negb_true_iff in Hr.
  - intros other Hother. split.
    + rewrite List.filter_app, filter_filter.
      rewrite (filter_none (ofBook other) new).
      * rewrite app_nil_r. apply List.filter_ext. intros r.
        destruct (ofBook other r) eqn:Hr; [|apply andb_false_r].
        now rewrite (ofBook_other bookId other r Hother Hr).
      * intros r Hr. unfold ofBook. rewrite (Hnew r Hr). apply String.eqb_neq. congruence.
    + rewrite find_app, find_filter by (intros r; apply ofBook_other; exact Hother).
      destruct (List.find (ofBook other) rows); [reflexivity|].
      apply find_none_in. intros r Hr. unfold ofBook. rewrite (Hnew r Hr).
      apply String.eqb_neq. congruence.
Qed.

Lemma In_orderByScore (x : RankedRow) (l : list RankedRow) :
  In x (orderByScore l) -> In x l.
Proof.
  assert (Hins : forall y l', In x (insertByScore y l') -> x = y \/ In x l').
  { intros y l'. induction l' as [|z l' IH]; cbn.
    - intros [<-|[]]. now left.
    - destruct (Qle_bool _ _); cbn.
      + intros [<-|[<-|H]]; auto.
      + intros [<-|H]; [auto|]. destruct (IH H); auto. }
  induction l as [|y l IH]; cbn; [tauto|].
  intros H. apply Hins in H as [->|H]; auto.
Qed.

Lemma In_limitRows {A} (n : Z) (l : list A) (x : A) : In x (limitRows n l) -> In x l.
Proof.
  unfold limitRows. destruct (n <? 0); [trivial|].
  intros H. apply list_elem_of_In in H. apply list_elem_of_In.
  exact (subseteq_take _ l x H).
Qed.

(** Every hit of a search is made from a content row of the tables. *)
Lemma search_hit_row (engine : FtsEngine) (params : SearchParams) (d : Db) (hit : SearchHit) :
  In hit (searchBookContent engine params d) ->
  exists row, In row (book_content d) /\ hitBookId hit = rowBookId row.
Proof.
  unfold searchBookContent. destruct (negb _); [intros []|].
  unfold normalizeScores. intros H. apply in_map_iff in H as (rr & <- & Hrr).
  exists (ranked rr). split; [|reflexivity].
  unfold selectRanked in Hrr. apply In_limitRows, In_orderByScore in Hrr.
  assert (Hjoined : forall r, In r
            (flat_map
               (fun fts =>
                  if ftsMatches engine (buildTerms (query params)) fts
                  then map (fun bc => {| ranked := bc;
                                         bm25_score := bm25 engine (buildTerms (query params)) fts |})
                           (List.filter (fun bc => String.eqb (ftsContentId fts) (rowId bc))
                                        (book_content d))
                  else [])
               (book_content_fts d)) -> In (ranked r) (book_content d)).
  { intros r Hr. apply in_flat_map in Hr as (fts & _ & Hr).
    destruct (ftsMatches _ _ _); [|destruct Hr].
    apply in_map_iff in Hr as (bc & <- & Hbc). cbn.
    now apply List.filter_In in Hbc as [Hbc _]. }
  destruct (bookIds params) as [[|b bs]|]; try now apply Hjoined.
  apply List.filter_In in Hrr as [Hrr _]. now apply Hjoined.
Qed.

End IndexedFacts.

(** X8.  When [indexBookContent] returns, the book counts as indexed
    exactly if it was given at least one chapter, and the content hash
    the tables report for it is the one just written (none if the
    chapter list or the hash is empty); what the tables say of every
    other book is what they said before. *)
Theorem indexed_after_index (newIds : nat -> string) (indexedAt bookId : string)
    (chapters : list Epub.ExtractedChapter) (contentHash : string)
    (bookTitle author : option string) (d : Storage.Db) :
  let run := Storage.indexBookContent newIds indexedAt bookId chapters contentHash
               bookTitle author d in
  fst run = JS.Returned tt ->
  Catalog.isBookIndexed bookId (snd run) = match chapters with [] => false | _ => true end
  /\ Catalog.getBookContentHash bookId (snd run)
     = match chapters with
       | [] => None
       | _ => if JS.truthy contentHash then Some contentHash else None
       end
  /\ forall other, other <> bookId ->
       Catalog.isBookIndexed other (snd run) = Catalog.isBookIndexed other d
       /\ Catalog.getBookContentHash other (snd run) = Catalog.getBookContentHash other d.
Proof.
  intros run Hok.
  destruct (indexBookContent_cases newIds indexedAt bookId chapters contentHash
              bookTitle author d) as [E|E]; fold run in E; rewrite E in Hok |- *;
    [discriminate Hok|]. clear Hok E run.
  cbn [snd]. unfold Catalog.isBookIndexed, Catalog.getBookContentHash.
  cbn [Storage.book_content].
  set (new := map _ (imap _ chapters)).
  assert (Hnew : forall r, In r new -> Storage.rowBookId r = bookId).
  { intros r Hr. apply in_map_iff in Hr as (e & <- & _). reflexivity. }
  destruct (queries_after_replace bookId (Storage.book_content d) new Hnew)
    as (Hfilter & Hfind & Hothers).
  unfold Catalog.ofBook in *. rewrite Hfilter, Hfind. split; [|split].
  - subst new. now destruct chapters.
  - subst new. now destruct chapters.
  - intros other Hother. destruct (Hothers other Hother) as [-> ->]. auto.
Qed.

Lemma indexed_after_index_witness :
  Catalog.getBookContentHash "b1"
    (snd (Storage.indexBookContent Samples.freshIds "t1" "b1" Samples.newChapters "hash-new"
            None None Samples.twoBooksDb)) = Some "hash-new".
Proof.
  destruct (indexed_after_index Samples.freshIds "t1" "b1" Samples.newChapters "hash-new"
              None None Samples.twoBooksDb eq_refl) as (_ & Hhash & _).
  exact Hhash.
Defined.

(** X9.  After [deleteBookContent] the book no longer counts as
    indexed, the tables report no content hash for it, and no search,
    whatever the query, the filter and the ranking, returns a passage of
    it; the other books are indexed as before. *)
Theorem deleted_book_is_gone (bookId : string) (d : Storage.Db) :
  let d' := snd (Storage.deleteBookContent bookId d) in
  Catalog.isBookIndexed bookId d' = false
  /\ Catalog.getBookContentHash bookId d' = None
  /\ (forall engine params,
        Forall (fun hit => Storage.hitBookId hit <> bookId)
               (Storage.searchBookContent engine params d'))
  /\ forall other, other <> bookId ->
       Catalog.isBookIndexed other d' = Catalog.isBookIndexed other d
       /\ Catalog.getBookContentHash other d' = Catalog.getBookContentHash other d.
Proof.
  intros d'. subst d'. rewrite deleteBookContent_spec. cbn [snd].
  set (d' := Storage.mkDb _ _).
  assert (Hrows : Storage.book_content d'
                  = List.filter (fun r => negb (Catalog.ofBook bookId r)) (Storage.book_content d) ++ [])
    by (now rewrite app_nil_r).
  destruct (queries_after_replace bookId (Storage.book_content d) [] ltac:(intros r []))
    as (Hfilter & Hfind & Hothers).
  unfold Catalog.isBookIndexed, Catalog.getBookContentHash.
  fold (Catalog.ofBook bookId). rewrite Hrows, Hfilter, Hfind. split; [reflexivity|].
  split; [reflexivity|]. split.
  - intros engine params. apply List.Forall_forall. intros hit Hhit.
    apply search_hit_row in Hhit as (row & Hrow & ->).
    rewrite Hrows, app_nil_r in Hrow. apply List.filter_In in Hrow as [_ Hrow].
    apply negb_true_iff in Hrow. now apply String.eqb_neq in Hrow.
  - intros other Hother. fold (Catalog.ofBook other).
    destruct (Hothers other Hother) as [-> ->]. auto.
Qed.

(** ** Annotations *)

Section SortFacts.
Import Annotations.
Context {A : Type} (before : A -> A -> bool).
Hypothesis before_total : forall a b, before a b = false -> before b a = true.

Lemma insertBy_perm (x : A) (l : list A) : Permutation (insertBy before x l) (x :: l).
Proof.
  induction l as [|y l IH]; cbn; [reflexivity|].
  destruct (before x y); [reflexivity|].
  rewrite IH. apply perm_swap.
Qed.

Lemma sortBy_perm (l : list A) : Permutation (sortBy before l) l.
Proof.
  induction l as [|x l IH]; cbn; [reflexivity|].
  rewrite insertBy_perm. now constructor.
Qed.

Lemma insertBy_sorted (x : A) (l : list A) :
  Sorted (fun a b => before a b = true) l ->
  Sorted (fun a b => before a b = true) (insertBy before x l).
Proof.
  induction l as [|y l IH]; cbn; intros Hs.
  - repeat constructor.
  - destruct (before x y) eqn:Hxy.
    + constructor; [exact Hs | now constructor].
    + apply Sorted_inv in Hs as [Hs Hhd]. constructor; [now apply IH|].
      destruct l as [|z l]; cbn.
      * constructor. now apply before_total.
      * destruct (before x z); constructor.
        -- now apply before_total.
        -- now apply HdRel_inv in Hhd.
Qed.

Lemma sortBy_sorted (l : list A) : Sorted (fun a b => before a b = true) (sortBy before l).
Proof.
  induction l as [|x l IH]; cbn; [constructor | now apply insertBy_sorted].
Qed.

Lemma In_sortBy (x : A) (l : list A) : In x (sortBy before l) <-> In x l.
Proof.
  split; apply Permutation_in; [|symmetry]; apply sortBy_perm.
Qed.

End SortFacts.

Section HighlightFacts.
Import JS (Outcome, Returned, Thrown).
Import Annotations.

Lemma newerFirst_total (a b : Highlight) : newerFirst a b = false -> newerFirst b a = true.
Proof.
  unfold newerFirst. intros H.
  destruct (String.leb_total (hlCreatedAt b) (hlCreatedAt a)); congruence.
Qed.

Lemma earlierChapter_total (a b : Bookmark) :
  earlierChapter a b = false -> earlierChapter b a = true.
Proof. unfold earlierChapter. intros H. apply Z.leb_gt in H. apply Z.leb_le. lia. Qed.

End HighlightFacts.

(** X10.  A highlight added under a fresh id can be read back: after
    [addHighlight], the highlights of its book are those of before
    together with the row just written, newest first, and the
    highlights of other books are as before.  The row read back is the
    value that [addHighlight] returned except for two fields: an empty
    [cfiRange] and a [pageNumber] of 0 are stored as NULL.  When the id
    is taken the call throws and the table is unchanged. *)
Theorem addHighlight_round_trip (id createdAt : string) (h : Annotations.NewHighlight)
    (tbl : list Annotations.Highlight) :
  let row := Annotations.highlightRow id createdAt h in
  (existsb (fun r => String.eqb (Annotations.hlId r) id) tbl = true ->
   Annotations.addHighlight id createdAt h tbl = (JS.Thrown, tbl))
  /\ (existsb (fun r => String.eqb (Annotations.hlId r) id) tbl = false ->
      exists returned tbl',
        Annotations.addHighlight id createdAt h tbl = (JS.Returned returned, tbl')
        /\ Permutation (Annotations.getHighlights (Annotations.newBookId h) tbl')
                       (row :: Annotations.getHighlights (Annotations.newBookId h) tbl)
        /\ Sorted (fun a b => String.leb (Annotations.hlCreatedAt b)
                                         (Annotations.hlCreatedAt a) = true)
                  (Annotations.getHighlights (Annotations.newBookId h) tbl')
        /\ (forall other, other <> Annotations.newBookId h ->
              Annotations.getHighlights other tbl' = Annotations.getHighlights other tbl)
        /\ row = {| Annotations.hlId := Annotations.hlId returned;
                    Annotations.hlBookId := Annotations.hlBookId returned;
                    Annotations.hlChapterIndex := Annotations.hlChapterIndex returned;
                    Annotations.hlText := Annotations.hlText returned;
                    Annotations.hlColor := Annotations.hlColor returned;
                    Annotations.hlCfiRange :=
                      Annotations.stringOrNull (Annotations.hlCfiRange returned);
                    Annotations.hlPageNumber :=
                      Annotations.numberOrNull (Annotations.hlPageNumber returned);
                    Annotations.hlCreatedAt := Annotations.hlCreatedAt returned |}).
Proof.
  intros row. unfold Annotations.addHighlight. split; intros Hid; rewrite Hid; [reflexivity|].
  eexists _, _. split; [reflexivity|].
  unfold Annotations.getHighlights. fold row. split; [|split; [|split]].
  - rewrite !sortBy_perm, List.filter_app. cbn [List.filter].
    assert (Hrow : String.eqb (Annotations.hlBookId row) (Annotations.newBookId h) = true)
      by apply String.eqb_refl.
    rewrite Hrow. symmetry. apply Permutation_cons_append.
  - apply (sortBy_sorted Annotations.newerFirst newerFirst_total).
  - intros other Hother. rewrite List.filter_app. cbn [List.filter].
    assert (Hrow : String.eqb (Annotations.hlBookId row) other = false).
    { apply String.eqb_neq. cbn. congruence. }
    now rewrite Hrow, app_nil_r.
  - reflexivity.
Qed.

(** X11.  Ids stay unique in the highlights table: [addHighlight]
    refuses an id that is taken, so a table without duplicate ids has
    none after any call.  [deleteHighlight] removes the row with the
    given id and nothing else, from every book's list, and an id that
    is not in the table deletes nothing. *)
Theorem deleteHighlight_exact (id : string) (tbl : list Annotations.Highlight) :
  (forall bookId r,
      In r (Annotations.getHighlights bookId (Annotations.deleteHighlight id tbl))
      <-> In r (Annotations.getHighlights bookId tbl) /\ Annotations.hlId r <> id)
  /\ (existsb (fun r => String.eqb (Annotations.hlId r) id) tbl = false ->
      Annotations.deleteHighlight id tbl = tbl)
  /\ (NoDup (map Annotations.hlId tbl) ->
      NoDup (map Annotations.hlId (Annotations.deleteHighlight id tbl))
      /\ forall newId createdAt h,
           NoDup (map Annotations.hlId
                      (snd (Annotations.addHighlight newId createdAt h tbl)))).
Proof.
  split; [|split].
  - intros bookId r. unfold Annotations.getHighlights, Annotations.deleteHighlight.
    rewrite !In_sortBy, !List.filter_In, negb_true_iff, String.eqb_neq. tauto.
  - intros Hid. apply filter_all. intros r Hr.
    now rewrite (existsb_false_forall _ _ Hid r Hr).
  - intros Hu. split.
    + unfold Annotations.deleteHighlight. clear -Hu.
      induction tbl as [|r tbl IH]; cbn; [constructor|].
      cbn in Hu. apply NoDup_cons in Hu as [Hr Hu].
      destruct (negb _); [|now apply IH]. cbn. apply NoDup_cons. split; [|now apply IH].
      intros Hin. apply Hr. apply list_elem_of_In in Hin. apply list_elem_of_In.
      apply in_map_iff in Hin as (x & Hx & Hin). apply List.filter_In in Hin as [Hin _].
      apply in_map_iff. eauto.
    + intros newId createdAt h. unfold Annotations.addHighlight.
      destruct (existsb _ tbl) eqn:Hid; cbn [snd]; [exact Hu|].
      rewrite map_app. cbn. apply NoDup_app. split; [exact Hu|].
      split; [|apply NoDup_singleton].
      intros x Hx Hx'. apply list_elem_of_In in Hx, Hx'. destruct Hx' as [<-|[]].
      apply in_map_iff in Hx as (r & Hr & Hin).
      pose proof (existsb_false_forall _ _ Hid r Hin) as Hne. cbn in Hne.
      apply String.eqb_neq in Hne. congruence.
Qed.


(** X13.  Bookmarks are listed by chapter: [getBookmarks] returns
    exactly the rows of the book, in ascending order of the chapter
    index, and a bookmark added under a fresh id is among them
    afterwards, with an empty title or CFI range and a page number of 0
    stored as NULL.  An id that is taken makes [addBookmark] throw and
    leaves the table unchanged. *)
Theorem bookmarks_by_chapter (id createdAt : string) (b : Annotations.NewBookmark)
    (tbl : list Annotations.Bookmark) :
  (forall bookId,
      Permutation (Annotations.getBookmarks bookId tbl)
                  (List.filter (fun r => String.eqb (Annotations.bmBookId r) bookId) tbl)
      /\ Sorted (fun x y => Annotations.bmChapterIndex x <= Annotations.bmChapterIndex y)
                (Annotations.getBookmarks bookId tbl))
  /\ (existsb (fun r => String.eqb (Annotations.bmId r) id) tbl = true ->
      Annotations.addBookmark id createdAt b tbl = (JS.Thrown, tbl))
  /\ (existsb (fun r => String.eqb (Annotations.bmId r) id) tbl = false ->
      exists returned tbl',
        Annotations.addBookmark id createdAt b tbl = (JS.Returned returned, tbl')
        /\ Annotations.bmId returned = id
        /\ In (Annotations.bookmarkRow id createdAt b)
              (Annotations.getBookmarks (Annotations.newBmBookId b) tbl')
        /\ (forall r, In r (Annotations.getBookmarks (Annotations.newBmBookId b) tbl) ->
                      In r (Annotations.getBookmarks (Annotations.newBmBookId b) tbl'))
        /\ Annotations.bmTitle (Annotations.bookmarkRow id createdAt b)
           = Annotations.stringOrNull (Annotations.bmTitle returned)
        /\ Annotations.bmPageNumber (Annotations.bookmarkRow id createdAt b)
           = Annotations.numberOrNull (Annotations.bmPageNumber returned)).
Proof.
  split; [|split].
  - intros bookId. unfold Annotations.getBookmarks. split; [apply sortBy_perm|].
    eapply Sorted_ind with (P := fun l => Sorted _ l);
      [| |exact (sortBy_sorted Annotations.earlierChapter earlierChapter_total _)].
    + constructor.
    + intros x l _ IH Hhd. constructor; [exact IH|].
      destruct Hhd as [|y l Hxy]; constructor.
      unfold Annotations.earlierChapter in Hxy. now apply Z.leb_le.
  - intros Hid. unfold Annotations.addBookmark. now rewrite Hid.
  - intros Hid. unfold Annotations.addBookmark. rewrite Hid.
    eexists _, _. split; [reflexivity|]. split; [reflexivity|].
    unfold Annotations.getBookmarks. split; [|split; [|split; reflexivity]].
    + apply In_sortBy, List.filter_In. split; [apply in_or_app; right; now left|].
      apply String.eqb_refl.
    + intros r Hr. apply In_sortBy, List.filter_In in Hr as [Hin Hr].
      apply In_sortBy, List.filter_In. split; [apply in_or_app; now left | exact Hr].
Qed.

(** ** The semantic index and the structure cache *)

Section IndexFacts.
Import JS (Outcome, Returned, Thrown).
Import Annotations.

Lemma find_map_update (data now bookId other : string) (tbl : list SemanticIndex) :
  List.find (forBook other) (map (updateIndex data now bookId) tbl)
  = updateIndex data now bookId <$> List.find (forBook other) tbl.
Proof.
  induction tbl as [|r tbl IH]; cbn; [reflexivity|].
  assert (Hsame : forBook other (updateIndex data now bookId r) = forBook other r).
  { unfold updateIndex. now destruct (forBook bookId r). }
  rewrite Hsame. now destruct (forBook other r).
Qed.

Lemma map_bookId_update (data now bookId : string) (tbl : list SemanticIndex) :
  map siBookId (map (updateIndex data now bookId) tbl) = map siBookId tbl.
Proof.
  rewrite map_map. apply map_ext. intros r. unfold updateIndex.
  now destruct (forBook bookId r).
Qed.

Lemma find_forBook (bookId : string) (tbl : list SemanticIndex) (r : SemanticIndex) :
  List.find (forBook bookId) tbl = Some r -> siBookId r = bookId /\ In r tbl.
Proof.
  intros H. apply List.find_some in H as [Hin H]. split; [|exact Hin].
  now apply String.eqb_eq in H.
Qed.

End IndexFacts.

Lemma saveSemanticIndex_cases (id now bookId data : string)
    (tbl : list Annotations.SemanticIndex) :
  let run := Annotations.saveSemanticIndex id now bookId data tbl in
  (forall saved,
      fst run = JS.Returned saved ->
      Annotations.getSemanticIndex bookId (snd run) = Some saved
      /\ Annotations.hasSemanticIndex bookId (snd run) = true
      /\ Annotations.siBookId saved = bookId
      /\ Annotations.indexData saved = data
      /\ Annotations.siUpdatedAt saved = now
      /\ match Annotations.getSemanticIndex bookId tbl with
         | Some old => Annotations.siId saved = Annotations.siId old
                       /\ Annotations.siCreatedAt saved = Annotations.siCreatedAt old
         | None => Annotations.siId saved = id /\ Annotations.siCreatedAt saved = now
         end
      /\ (forall other, other <> bookId ->
            Annotations.getSemanticIndex other (snd run)
            = Annotations.getSemanticIndex other tbl)
      /\ (NoDup (map Annotations.siBookId tbl) ->
          NoDup (map Annotations.siBookId (snd run))))
  /\ (fst run = JS.Thrown ->
      snd run = tbl
      /\ Annotations.getSemanticIndex bookId tbl = None
      /\ existsb (fun r => String.eqb (Annotations.siId r) id) tbl = true).
Proof.
  intros run. subst run. unfold Annotations.saveSemanticIndex.
  destruct (Annotations.getSemanticIndex bookId tbl) as [old|] eqn:Hold.
  - cbn [fst snd]. split; [|discriminate].
    intros saved [= <-]. pose proof Hold as Hfind.
    apply find_forBook in Hfind as [Hbook Hin].
    assert (Hupd : Annotations.updateIndex data now bookId old
                   = Annotations.mkSemanticIndex (Annotations.siId old)
                       (Annotations.siBookId old) data (Annotations.siCreatedAt old) now).
    { unfold Annotations.updateIndex, Annotations.forBook. rewrite Hbook.
      now rewrite String.eqb_refl. }
    assert (Hget : Annotations.getSemanticIndex bookId
                     (map (Annotations.updateIndex data now bookId) tbl)
                   = Some (Annotations.mkSemanticIndex (Annotations.siId old)
                             (Annotations.siBookId old) data
                             (Annotations.siCreatedAt old) now)).
    { unfold Annotations.getSemanticIndex in *. rewrite find_map_update, Hold. cbn.
      now rewrite Hupd. }
    split; [exact Hget|]. split.
    { unfold Annotations.hasSemanticIndex.
      unfold Annotations.getSemanticIndex in Hget.
      destruct (List.filter _ _) as [|x l] eqn:Hf; [|reflexivity].
      apply List.find_some in Hget as [Hin' Hp].
      assert (Hx : In (Annotations.mkSemanticIndex (Annotations.siId old)
                         (Annotations.siBookId old) data (Annotations.siCreatedAt old) now)
                      (List.filter (Annotations.forBook bookId)
                         (map (Annotations.updateIndex data now bookId) tbl)))
        by (apply List.filter_In; auto).
      rewrite Hf in Hx. destruct Hx. }
    cbn. split; [exact Hbook|]. split; [reflexivity|]. split; [reflexivity|].
    split; [auto|]. split.
    + intros other Hother. unfold Annotations.getSemanticIndex. rewrite find_map_update.
      destruct (List.find (Annotations.forBook other) tbl) as [r|] eqn:Hr; [|reflexivity].
      cbn. f_equal. apply find_forBook in Hr as [Hr _].
      unfold Annotations.updateIndex, Annotations.forBook. rewrite Hr.
      apply String.eqb_neq in Hother. now rewrite Hother.
    + now rewrite map_bookId_update.
  - destruct (existsb _ tbl) eqn:Hid; cbn [fst snd].
    + split; [discriminate|]. auto.
    + split; [|discriminate]. intros saved [= <-].
      unfold Annotations.getSemanticIndex, Annotations.hasSemanticIndex in *.
      rewrite find_app, Hold, List.filter_app, length_app. cbn.
      unfold Annotations.forBook at 1 3. cbn. rewrite String.eqb_refl. cbn.
      split; [reflexivity|]. split; [now rewrite Nat.add_1_r|].
      split; [reflexivity|]. split; [reflexivity|]. split; [reflexivity|].
      split; [auto|]. split.
      * intros other Hother. rewrite find_app. fold (Annotations.forBook other).
        destruct (List.find (Annotations.forBook other) tbl); [reflexivity|]. cbn.
        unfold Annotations.forBook. cbn.
        apply not_eq_sym, String.eqb_neq in Hother. now rewrite Hother.
      * intros Hu. rewrite map_app. cbn. apply NoDup_app. split; [exact Hu|].
        split; [|apply NoDup_singleton].
        intros x Hx Hx'. apply list_elem_of_In in Hx, Hx'. destruct Hx' as [<-|[]].
        apply in_map_iff in Hx as (r & Hr & Hin).
        pose proof (List.find_none _ _ Hold r Hin) as Hne.
        unfold Annotations.forBook in Hne. apply String.eqb_neq in Hne. congruence.
Qed.


Lemma saveSemanticIndex_facts (id now bookId data : string)
    (tbl : list Annotations.SemanticIndex) :
  let run := Annotations.saveSemanticIndex id now bookId data tbl in
  forall saved,
    fst run = JS.Returned saved ->
    Annotations.getSemanticIndex bookId (snd run) = Some saved
    /\ Annotations.hasSemanticIndex bookId (snd run) = true
    /\ Annotations.siBookId saved = bookId
    /\ Annotations.indexData saved = data
    /\ Annotations.siUpdatedAt saved = now.
Proof.
  intros run saved Hsaved.
  destruct (saveSemanticIndex_cases id now bookId data tbl) as [H _].
  destruct (H saved Hsaved) as (H1 & H2 & H3 & H4 & H5 & _). auto.
Qed.

(** X14.  Saving a semantic index and reading it back.  When
    [saveSemanticIndex] returns, [getSemanticIndex] returns for that
    book exactly the value the call returned: it carries the new data
    and the time of the call as [updatedAt], and if the book already
    had an index it keeps that index's id and [createdAt].  The indexes
    of other books are not touched and the table keeps one row per book
    if it had one per book.  The call can only throw on the insert path
    (the generated id is taken), and then changes nothing; for a book
    that has an index it never throws. *)
Theorem saveSemanticIndex_round_trip (id now bookId data : string)
    (tbl : list Annotations.SemanticIndex) :
  let run := Annotations.saveSemanticIndex id now bookId data tbl in
  (forall saved,
      fst run = JS.Returned saved ->
      Annotations.getSemanticIndex bookId (snd run) = Some saved
      /\ Annotations.hasSemanticIndex bookId (snd run) = true
      /\ Annotations.siBookId saved = bookId
      /\ Annotations.indexData saved = data
      /\ Annotations.siUpdatedAt saved = now
      /\ match Annotations.getSemanticIndex bookId tbl with
         | Some old => Annotations.siId saved = Annotations.siId old
                       /\ Annotations.siCreatedAt saved = Annotations.siCreatedAt old
         | None => Annotations.siId saved = id /\ Annotations.siCreatedAt saved = now
         end
      /\ (forall other, other <> bookId ->
            Annotations.getSemanticIndex other (snd run)
            = Annotations.getSemanticIndex other tbl)
      /\ (NoDup (map Annotations.siBookId tbl) ->
          NoDup (map Annotations.siBookId (snd run))))
  /\ (fst run = JS.Thrown ->
      snd run = tbl
      /\ Annotations.getSemanticIndex bookId tbl = None
      /\ existsb (fun r => String.eqb (Annotations.siId r) id) tbl = true).
Proof. exact (saveSemanticIndex_cases id now bookId data tbl). Qed.

(** X15.  The structure cache keeps one tree per book.  After
    [saveBookStructure] the table holds exactly one row for the book and
    [getBookStructure] returns the tree just saved (nothing, if the
    tree is the empty string); saving never throws, because the insert
    replaces what is in its way.  What is cached for another book is
    unchanged unless the generated id is the id of that book's row, in
    which case that row is replaced away.  After [deleteBookStructure]
    nothing is cached for the book. *)
Theorem bookStructure_round_trip (id createdAt bookId tree : string)
    (tbl : list Annotations.BookStructure) :
  let tbl' := Annotations.saveBookStructure id createdAt bookId tree tbl in
  Annotations.getBookStructure bookId tbl'
  = (if JS.truthy tree then Some tree else None)
  /\ length (List.filter (fun r => String.eqb (Annotations.bsBookId r) bookId) tbl') = 1%nat
  /\ (forall other, other <> bookId ->
        (forall r, In r tbl -> Annotations.bsBookId r = other -> Annotations.bsId r <> id) ->
        Annotations.getBookStructure other tbl' = Annotations.getBookStructure other tbl)
  /\ (forall other r, other <> bookId ->
        In r tbl -> Annotations.bsBookId r = other -> Annotations.bsId r = id ->
        NoDup (map Annotations.bsBookId tbl) ->
        Annotations.getBookStructure other tbl' = None)
  /\ Annotations.getBookStructure bookId (Annotations.deleteBookStructure bookId tbl) = None.
Proof.
  intros tbl'. subst tbl'. unfold Annotations.saveBookStructure, Annotations.getBookStructure.
  set (keep := fun r => negb (String.eqb (Annotations.bsId r) id)
                        && negb (String.eqb (Annotations.bsBookId r) bookId)).
  set (ofB := fun b r => String.eqb (Annotations.bsBookId r) b).
  assert (Hnone : List.find (ofB bookId) (List.filter keep tbl) = None).
  { apply find_none_in. intros r Hr. apply List.filter_In in Hr as [_ Hr].
    subst keep ofB. cbn in *. apply andb_true_iff in Hr as [_ Hr].
    now apply negb_true_iff in Hr. }
  split; [|split; [|split; [|split]]].
  - rewrite find_app. fold (ofB bookId). rewrite Hnone. cbn. now rewrite String.eqb_refl.
  - rewrite List.filter_app. fold (ofB bookId).
    rewrite (filter_none (ofB bookId) (List.filter keep tbl)).
    + cbn. now rewrite String.eqb_refl.
    + intros r Hr. apply List.filter_In in Hr as [_ Hr].
      subst keep ofB. cbn in *. apply andb_true_iff in Hr as [_ Hr].
      now apply negb_true_iff in Hr.
  - intros other Hother Hfresh. rewrite find_app. fold (ofB other).
    assert (Hfind : List.find (ofB other) (List.filter keep tbl) = List.find (ofB other) tbl).
    { clear Hnone. induction tbl as [|r tbl IH]; cbn; [reflexivity|].
      destruct (ofB other r) eqn:Hr.
      - assert (Hk : keep r = true).
        { subst keep ofB. cbn in *. apply String.eqb_eq in Hr.
          apply andb_true_iff. split; apply negb_true_iff, String.eqb_neq.
          + apply (Hfresh r); [now left | exact Hr].
          + congruence. }
        rewrite Hk. cbn. now rewrite Hr.
      - destruct (keep r); cbn; rewrite ?Hr; apply IH;
          intros r' Hr'; apply Hfresh; now right. }
    rewrite Hfind. destruct (List.find (ofB other) tbl); [reflexivity|]. cbn.
    apply not_eq_sym, String.eqb_neq in Hother. now rewrite Hother.
  - intros other r Hother Hin Hbook Hid Hu. rewrite find_app. fold (ofB other).
    rewrite find_none_in.
    + cbn. apply not_eq_sym, String.eqb_neq in Hother. now rewrite Hother.
    + intros r' Hr'. apply List.filter_In in Hr' as [Hin' Hk].
      destruct (ofB other r') eqn:Hr'; [|reflexivity]. exfalso.
      subst ofB keep. cbn in *. apply String.eqb_eq in Hr'.
      assert (r' = r).
      { eapply NoDup_map_inj; [exact Hu | exact Hin' | exact Hin | congruence]. }
      subst r'. apply andb_true_iff in Hk as [Hk _].
      apply negb_true_iff, String.eqb_neq in Hk. congruence.
  - unfold Annotations.deleteBookStructure. rewrite find_none_in; [reflexivity|].
    intros r Hr. apply List.filter_In in Hr as [_ Hr]. now apply negb_true_iff in Hr.
Qed.

(** ** The sidebar entries of an EPUB *)

Section TocEntries.
Import Epub EpubToc.

Lemma findIndex_Some {A} (p : A -> bool) (l : list A) (i : nat) :
  findIndex p l = Some i -> exists x, l !! i = Some x /\ p x = true.
Proof.
  revert i; induction l as [|y l IH]; cbn; intros i Hi; [discriminate|].
  destruct (p y) eqn:Hy.
  - injection Hi as <-. now exists y.
  - destruct (findIndex p l) as [j|]; [|discriminate]. injection Hi as <-.
    now apply IH.
Qed.

Lemma label_nonempty (prefix : string) (c : ascii) (n : nat) :
  String.append (String c prefix) (JS.showNat n) <> EmptyString.
Proof. rewrite append_cons. discriminate. Qed.

Lemma titleOr_nonempty (t : option string) (fallback : string) :
  fallback <> EmptyString -> titleOr t fallback <> EmptyString.
Proof.
  intros Hf. unfold titleOr. destruct t as [[|c t]|]; cbn; try exact Hf. discriminate.
Qed.

Lemma tocEntryStep_valid (anchorBased : bool) (pgs : list PageInfo)
    (entries : list TocItem) (t : EpubTocItem) :
  Forall (pointsIntoPages pgs) entries ->
  Forall (pointsIntoPages pgs) (tocEntryStep anchorBased pgs entries t)
  /\ (length (tocEntryStep anchorBased pgs entries t) <= S (length entries))%nat.
Proof.
  intros Hall. unfold tocEntryStep.
  destruct (tocHref t) as [href|]; [|split; [exact Hall | lia]].
  destruct href as [|c href]; cbn [JS.truthy negb]; [split; [exact Hall | lia]|].
  set (h := String c href).
  destruct (if anchorBased then _ else _) as [i|] eqn:Hi; [|split; [exact Hall | lia]].
  split; [|rewrite length_app; cbn; lia].
  apply Forall_app. split; [exact Hall|]. constructor; [|constructor].
  split; cbn.
  - apply titleOr_nonempty. unfold sectionLabel. apply label_nonempty.
  - destruct anchorBased; apply findIndex_Some in Hi as (page & Hpage & Hp).
    + exists h, page. repeat split; try assumption; try discriminate.
      apply andb_true_iff in Hp as [Hp _]. apply String.eqb_eq in Hp. now left.
    + exists h, page. repeat split; try assumption; try discriminate.
      apply orb_true_iff in Hp as [Hp|Hp]; apply String.eqb_eq in Hp; auto.
Qed.

Lemma tocEntries_valid (anchorBased : bool) (pgs : list PageInfo) (l : list EpubTocItem)
    (entries : list TocItem) :
  Forall (pointsIntoPages pgs) entries ->
  Forall (pointsIntoPages pgs) (fold_left (tocEntryStep anchorBased pgs) l entries)
  /\ (length (fold_left (tocEntryStep anchorBased pgs) l entries)
      <= length entries + length l)%nat.
Proof.
  revert entries; induction l as [|t l IH]; intros entries Hall; cbn [fold_left].
  - split; [exact Hall | cbn; lia].
  - destruct (tocEntryStep_valid anchorBased pgs entries t Hall) as [Hstep Hlen].
    destruct (IH _ Hstep) as [Hrest Hlen']. split; [exact Hrest|]. cbn. lia.
Qed.

Lemma anchorPages_titled (ids : gmap string string) (l : list EpubTocItem)
    (pgs : list PageInfo) :
  Forall (fun p => pageTitle p <> EmptyString) pgs ->
  Forall (fun p => pageTitle p <> EmptyString) (fold_left (anchorStep ids) l pgs).
Proof.
  revert pgs; induction l as [|t l IH]; intros pgs Hall; cbn [fold_left]; [exact Hall|].
  apply IH. unfold anchorStep.
  destruct (tocHref t) as [href|]; [|exact Hall].
  destruct (negb (JS.truthy href)); [exact Hall|].
  destruct (JS.orElse _ _) as [fid|]; [|exact Hall].
  destruct (negb (JS.truthy fid)); [exact Hall|].
  apply Forall_app. split; [exact Hall|]. constructor; [|constructor]. cbn.
  apply titleOr_nonempty. unfold pageLabel. apply label_nonempty.
Qed.

Lemma flowPages_titled (titles : gmap string string) (l : list EpubSpineItem) :
  Forall (fun p => pageTitle p <> EmptyString) (imap (flowPage titles) l).
Proof.
  apply List.Forall_forall. intros p Hp. apply list_elem_of_In in Hp.
  apply elem_of_lookup_imap in Hp as (i & sp & -> & _). cbn.
  apply titleOr_nonempty. unfold pageLabel. apply label_nonempty.
Qed.

End TocEntries.

(** X16.  The table of contents of a loaded EPUB never points outside
    the book.  Every sidebar entry that [openEpub] builds has a title
    that is not empty, carries the href of its TOC item, and its index
    is the position of an existing page whose file is the file of that
    href (literally, or after normalising both); so every index that
    [loadBook] hands to the reader lies below the chapter count it
    reports.  There are at most as many entries as TOC items, and every
    page has a title that is not empty. *)
Theorem openEpub_toc_valid (epub : Epub.EPub) (title creator : option string)
    (baseName : string) (cover : option string) (bookId : string) :
  let entry := Epub.openEpub epub in
  let info := Epub.loadBook epub title creator baseName cover bookId in
  Forall (fun e =>
            Epub.itemTitle e <> EmptyString
            /\ exists href page,
                 Epub.itemHref e = Some href /\ href <> EmptyString
                 /\ Epub.pages entry !! Epub.itemIndex e = Some page
                 /\ (Epub.pageHref page = Epub.fileHrefOf href
                     \/ Epub.normalizeHref (Epub.pageHref page)
                        = Epub.normalizeHref (Epub.fileHrefOf href)))
         (Epub.tocEntries entry)
  /\ Forall (fun e => 0 <= Z.of_nat (Epub.itemIndex e)
                      < Epub.chapterCount (Epub.metadata info))
            (Epub.bookToc info)
  /\ (length (Epub.tocEntries entry) <= length (Epub.toc epub))%nat
  /\ Forall (fun p => Epub.pageTitle p <> EmptyString) (Epub.pages entry).
Proof.
  intros entry info.
  destruct (tocEntries_valid (Epub.useAnchorBasedPages epub) (Epub.pages entry)
              (Epub.sortByOrder (Epub.toc epub)) [] ltac:(constructor)) as [Hvalid Hlen].
  change (fold_left _ _ _) with (Epub.tocEntries entry) in Hvalid, Hlen.
  split; [exact Hvalid|]. split; [|split].
  - change (Epub.bookToc info) with (Epub.tocEntries entry).
    change (Epub.chapterCount (Epub.metadata info))
      with (Z.of_nat (length (Epub.pages entry))).
    eapply Forall_impl; [exact Hvalid|].
    intros e (_ & href & page & _ & _ & Hpage & _).
    apply lookup_lt_Some in Hpage. lia.
  - exact (Nat.le_trans _ _ _ Hlen
             (Nat.eq_le_incl _ _ (Permutation_length (sortByOrder_perm (Epub.toc epub))))).
  - subst entry. unfold Epub.openEpub. cbn [Epub.pages].
    destruct (Epub.useAnchorBasedPages epub).
    + apply anchorPages_titled. constructor.
    + apply flowPages_titled.
Qed.

(** ** Trimming *)

Section TrimFacts.
Import JS.
Local Open Scope string_scope.

Lemma trimEnd_cons (c : ascii) (s : string) :
  isSpace c = false -> trimEnd (String c s) = String c (trimEnd s).
Proof. intros Hc. cbn. rewrite Hc. now destruct (trimEnd s). Qed.

Lemma trimEnd_step (c : ascii) (s : string) :
  trimEnd (String c s)
  = match trimEnd s with
    | "" => if isSpace c then "" else String c ""
    | t => String c t
    end.
Proof. reflexivity. Qed.

Lemma trimEnd_idem (s : string) : trimEnd (trimEnd s) = trimEnd s.
Proof.
  induction s as [|c s IH]; [reflexivity|]. rewrite (trimEnd_step c s).
  destruct (trimEnd s) as [|d t] eqn:Ht.
  - destruct (isSpace c) eqn:Hc; [reflexivity|]. cbn. now rewrite Hc.
  - rewrite (trimEnd_step c (String d t)), IH. reflexivity.
Qed.

Lemma trimStart_head (s : string) :
  trimStart s = "" \/ exists c t, trimStart s = String c t /\ isSpace c = false.
Proof.
  induction s as [|c s IH]; [now left|]. cbn.
  destruct (isSpace c) eqn:Hc; [exact IH|]. right. now exists c, s.
Qed.

Lemma trim_idem (s : string) : trim (trim s) = trim s.
Proof.
  unfold trim. destruct (trimStart_head s) as [->|(c & t & -> & Hc)]; [reflexivity|].
  rewrite (trimEnd_cons c t Hc). cbn [trimStart]. rewrite Hc.
  rewrite (trimEnd_cons c _ Hc). now rewrite trimEnd_idem.
Qed.

End TrimFacts.

(** ** The text of a PDF page *)

Section PageText.
Import JS PdfBook.
Local Open Scope string_scope.

Lemma string_append_assoc (s t u : string) : (s ++ t) ++ u = s ++ (t ++ u).
Proof.
  induction s as [|c s IH]; rewrite ?append_nil_l, ?append_cons; [reflexivity|].
  now rewrite IH.
Qed.

Lemma nonSpace_append (s t : string) : nonSpace (s ++ t) = nonSpace s ++ nonSpace t.
Proof.
  induction s as [|c s IH]; rewrite ?append_nil_l, ?append_cons; [reflexivity|].
  cbn. destruct (isSpace c); rewrite IH, ?append_cons; reflexivity.
Qed.

Lemma nonSpace_trimStart (s : string) : nonSpace (trimStart s) = nonSpace s.
Proof.
  induction s as [|c s IH]; [reflexivity|]. cbn.
  destruct (isSpace c) eqn:Hc; [exact IH|]. cbn. now rewrite Hc.
Qed.

Lemma nonSpace_trimEnd (s : string) : nonSpace (trimEnd s) = nonSpace s.
Proof.
  induction s as [|c s IH]; [reflexivity|]. rewrite (trimEnd_step c s).
  destruct (trimEnd s) as [|d t] eqn:Ht.
  - cbn in IH. destruct (isSpace c) eqn:Hc; cbn; rewrite Hc, <- IH; reflexivity.
  - cbn [nonSpace] in *. destruct (isSpace c); now rewrite <- IH.
Qed.

Lemma nonSpace_trim (s : string) : nonSpace (trim s) = nonSpace s.
Proof. unfold trim. now rewrite nonSpace_trimEnd, nonSpace_trimStart. Qed.

Lemma isSpace_newline : isSpace newline = true.
Proof. reflexivity. Qed.

Lemma nonSpace_collapse (run : nat) (s : string) : nonSpace (collapseFrom run s) = nonSpace s.
Proof.
  revert run; induction s as [|c s IH]; intros run; [reflexivity|]. cbn [collapseFrom].
  destruct (Ascii.eqb_spec c newline) as [->|Hc].
  - cbn [nonSpace]. rewrite isSpace_newline.
    destruct (run <? 2)%nat; [cbn [nonSpace]; rewrite isSpace_newline|]; apply IH.
  - cbn [nonSpace]. destruct (isSpace c); now rewrite IH.
Qed.

Lemma concat_cons2 (sep x y : string) (l : list string) :
  String.concat sep (x :: y :: l) = x ++ sep ++ String.concat sep (y :: l).
Proof. reflexivity. Qed.

(** The text a list of lines holds, white space apart. *)
Lemma nonSpace_join (ls : list string) :
  nonSpace (String.concat (String newline "") ls) = String.concat "" (map nonSpace ls).
Proof.
  induction ls as [|l ls IH]; [reflexivity|].
  destruct ls as [|l' ls]; [reflexivity|].
  cbn [map] in *. rewrite !concat_cons2, !nonSpace_append, IH.
  cbn [nonSpace]. rewrite isSpace_newline. reflexivity.
Qed.

Lemma concat_nil_app (ls : list string) (l : string) :
  String.concat "" (ls ++ [l]) = String.concat "" ls ++ l.
Proof.
  induction ls as [|x ls IH]; [now rewrite append_nil_l|].
  destruct ls as [|y ls].
  - cbn [app]. rewrite concat_cons2. reflexivity.
  - cbn [app] in *. rewrite !concat_cons2, IH, !append_nil_l.
    now rewrite string_append_assoc.
Qed.

Lemma pushLine_text (ls : list string) (line : string) :
  String.concat "" (map nonSpace (pushLine ls line))
  = String.concat "" (map nonSpace ls) ++ nonSpace line.
Proof.
  unfold pushLine. destruct (trim line) as [|c t] eqn:Ht; cbn [truthy].
  - rewrite <- (nonSpace_trim line), Ht. cbn. now rewrite append_nil_r.
  - rewrite map_app. cbn [map]. rewrite concat_nil_app. now rewrite <- Ht, nonSpace_trim.
Qed.

Lemma lineStep_text (st : LineState) (item : option TextItem) :
  textOf (lineStep st item) = textOf st ++ nonSpace (strOf item).
Proof.
  destruct item as [textItem|]; cbn [lineStep strOf].
  - destruct (match lastY st with Some _ => _ | None => _ end);
      unfold textOf; cbn [lines currentLine]; rewrite nonSpace_append.
    + rewrite pushLine_text, append_nil_l. reflexivity.
    + now rewrite string_append_assoc.
  - cbn. now rewrite append_nil_r.
Qed.

Lemma fold_lineStep_text (items : list (option TextItem)) (st : LineState) :
  textOf (fold_left lineStep items st)
  = textOf st ++ nonSpace (String.concat "" (map strOf items)).
Proof.
  revert st; induction items as [|item items IH]; intros st; cbn [fold_left map].
  - cbn. now rewrite append_nil_r.
  - rewrite IH, lineStep_text, string_append_assoc. f_equal.
    destruct items as [|item' items]; [now rewrite append_nil_r|].
    cbn [map]. now rewrite concat_cons2, append_nil_l, nonSpace_append.
Qed.

End PageText.

(** X19.  [getPageText] loses no text: the code units of its result
    that are not white space are, in the same order, those of the
    strings of the page's text items; all the function decides is where
    the lines break.  Its result has no white space at either end. *)
Theorem pageText_keeps_text (items : list (option PdfBook.TextItem)) :
  PdfBook.nonSpace (PdfBook.pageText items)
  = PdfBook.nonSpace
      (String.concat EmptyString
         (map PdfBook.strOf items))
  /\ JS.trim (PdfBook.pageText items) = PdfBook.pageText items.
Proof.
  split; [|apply trim_idem].
  unfold PdfBook.pageText, PdfBook.collapseNewlines.
  rewrite nonSpace_trim, nonSpace_collapse, nonSpace_join, pushLine_text.
  exact (fold_lineStep_text items (PdfBook.mkLineState [] EmptyString None)).
Qed.

(** ** Loading a PDF *)

Section PdfBookFacts.
Import JS PdfBook.

Lemma controlFree_strip (s : string) : controlFree (stripControl s) = true.
Proof.
  induction s as [|c s IH]; [reflexivity|]. cbn.
  destruct (isControl c) eqn:Hc; [exact IH|]. cbn. now rewrite Hc.
Qed.

Lemma controlFree_trimStart (s : string) :
  controlFree s = true -> controlFree (trimStart s) = true.
Proof.
  induction s as [|c s IH]; [trivial|]. cbn. intros H.
  apply andb_true_iff in H as [Hc Hs].
  destruct (isSpace c); [now apply IH|]. cbn. now rewrite Hc, Hs.
Qed.

Lemma controlFree_trimEnd (s : string) :
  controlFree s = true -> controlFree (trimEnd s) = true.
Proof.
  induction s as [|c s IH]; [trivial|]. rewrite trimEnd_step. cbn [controlFree]. intros H.
  apply andb_true_iff in H as [Hc Hs]. specialize (IH Hs).
  destruct (trimEnd s) as [|d t].
  - destruct (isSpace c); [reflexivity|]. cbn. now rewrite Hc.
  - cbn [controlFree] in *. now rewrite Hc, IH.
Qed.

Lemma controlFree_clean (s : string) : controlFree (trim (stripControl s)) = true.
Proof. apply controlFree_trimEnd, controlFree_trimStart, controlFree_strip. Qed.

End PdfBookFacts.

(** X17.  A loaded PDF always has a table of contents and a usable
    title.  When the outline is missing, empty or cannot be read, the
    table of contents is the single entry "Document" at index 0;
    otherwise it has one entry per bookmark, in order, with the
    bookmark's title and level and the 0-based index of its page, so a
    bookmark that resolves nowhere points to index 0.  The chapter
    count is the number of pages.  The title is the file's stem, or a
    non-empty string without control characters and without white space
    at its ends.  Once the document is open, [openPdf] throws only if
    the metadata request does. *)
Theorem loadPdfBook_toc (doc : Pdf.PdfDocument) (getMetadata : JS.Outcome PdfBook.RawInfo)
    (baseName stem bookId : string) :
  (PdfBook.openPdf doc getMetadata baseName stem bookId = JS.Thrown
   <-> getMetadata = JS.Thrown)
  /\ forall cached,
       PdfBook.openPdf doc getMetadata baseName stem bookId = JS.Returned cached ->
       let info := PdfBook.loadPdfBook cached bookId in
       let title := Epub.metaTitle (PdfBook.bookMetadata info) in
       PdfBook.bookEntries info <> []
       /\ (Pdf.extractOutline doc = [] ->
           PdfBook.bookEntries info = [PdfBook.mkBookTocItem "Document" 0 0])
       /\ (Pdf.extractOutline doc <> [] ->
           PdfBook.bookEntries info
           = map (fun item => PdfBook.mkBookTocItem (Pdf.tocTitle item)
                                (Pdf.pageNumber item - 1) (Pdf.level item))
                 (Pdf.extractOutline doc))
       /\ (forall outline,
             Pdf.getOutline doc = JS.Returned (Some outline) -> outline <> [] ->
             PdfBook.bookEntries info
             = imap (fun i e => PdfBook.mkBookTocItem
                                  (Pdf.tocTitle (PdfSpec.entryAt i e))
                                  (snd (fst e) - 1) (snd e))
                    (flat_map (PdfSpec.flatten doc 0) outline))
       /\ (forall dest, PdfSpec.resolvedIndex doc dest = None ->
                        PdfSpec.bookmarkPage doc dest - 1 = 0)
       /\ Epub.chapterCount (PdfBook.bookMetadata info) = Z.of_nat (Pdf.numPages doc)
       /\ (title = stem
           \/ title <> EmptyString /\ PdfBook.controlFree title = true
              /\ JS.trim title = title).
Proof.
  unfold PdfBook.openPdf. destruct getMetadata as [raw|];
    (split; [split; intros H; (discriminate H || reflexivity)|]); [|discriminate].
  intros cached [= <-]. cbn zeta.
  set (t := JS.trim (PdfBook.stripControl _)).
  cbn [PdfBook.loadPdfBook PdfBook.bookEntries PdfBook.bookMetadata PdfBook.pdfToc
       PdfBook.pdfMetadata PdfBook.pdfTitle PdfBook.pageCount Epub.metaTitle
       Epub.chapterCount].
  split; [|split; [|split; [|split; [|split; [|split]]]]].
  - destruct (Pdf.extractOutline doc); discriminate.
  - now intros ->.
  - intros Hne. destruct (Pdf.extractOutline doc); [congruence | reflexivity].
  - intros outline Hout Hne.
    assert (Htoc : Pdf.extractOutline doc
                   = imap PdfSpec.entryAt (flat_map (PdfSpec.flatten doc 0) outline)).
    { unfold Pdf.extractOutline. rewrite Hout.
      now rewrite (processOutlineItems_spec doc outline 0 []). }
    assert (Hne' : Pdf.extractOutline doc <> []).
    { rewrite Htoc. destruct outline as [|[title dest items] outline]; [congruence|].
      discriminate. }
    destruct (Pdf.extractOutline doc) as [|x l] eqn:E; [congruence|].
    rewrite Htoc, map_imap. apply imap_ext. intros i [[title page] depth] _.
    reflexivity.
  - intros dest Hnone. unfold PdfSpec.bookmarkPage. now rewrite Hnone.
  - reflexivity.
  - destruct t as [|c t'] eqn:Ht; cbn [JS.truthy]; [now left|]. right.
    rewrite <- Ht. split; [rewrite Ht; discriminate|].
    subst t. split; [apply controlFree_clean | apply trim_idem].
Qed.

(** ** Reading a range of PDF pages *)

Section PageRange.
Import JS PdfBook.

Lemma getPage_inside (doc : Pdf.PdfDocument) (i : Z) :
  1 <= i <= Z.of_nat (Pdf.numPages doc) ->
  getPage doc i = Pdf.getPageText doc (Z.to_nat i).
Proof.
  intros Hi. unfold getPage.
  destruct (Z.leb_spec i 0); [lia|]. destruct (Z.ltb_spec (Z.of_nat (Pdf.numPages doc)) i);
    [lia | reflexivity].
Qed.

Lemma pageRange_cons (startPage endPage : Z) :
  startPage <= endPage ->
  pageRange startPage endPage = startPage :: pageRange (startPage + 1) endPage.
Proof.
  intros H. unfold pageRange.
  replace (Z.to_nat (endPage - startPage + 1))
    with (S (Z.to_nat (endPage - (startPage + 1) + 1))) by lia.
  cbn [seq map]. f_equal; [lia|]. rewrite <- seq_shift, map_map.
  apply map_ext. intros k. lia.
Qed.

Lemma pageRange_nil (startPage endPage : Z) :
  endPage < startPage -> pageRange startPage endPage = [].
Proof.
  intros H. unfold pageRange. now replace (Z.to_nat (endPage - startPage + 1)) with 0%nat by lia.
Qed.

Lemma In_pageRange (startPage endPage i : Z) :
  In i (pageRange startPage endPage) <-> startPage <= i <= endPage.
Proof.
  unfold pageRange. rewrite in_map_iff. split.
  - intros (k & <- & Hk). apply in_seq in Hk. lia.
  - intros Hi. exists (Z.to_nat (i - startPage)). split; [lia|]. apply in_seq. lia.
Qed.

Lemma readPages_spec (doc : Pdf.PdfDocument) (numbers : list Z) :
  match readPages doc numbers with
  | Returned pages =>
      map fst pages = numbers
      /\ Forall (fun p => getPage doc (fst p) = Returned (snd p)) pages
  | Thrown => exists i, In i numbers /\ getPage doc i = Thrown
  end.
Proof.
  induction numbers as [|i rest IH]; cbn [readPages].
  - split; [reflexivity | constructor].
  - destruct (getPage doc i) as [text|] eqn:Hi.
    + destruct (readPages doc rest) as [pages|].
      * destruct IH as [Hnum Hall]. split; [cbn; now rewrite Hnum|].
        constructor; [exact Hi | exact Hall].
      * destruct IH as (j & Hj & Hthrown). exists j. split; [now right | exact Hthrown].
    + exists i. split; [now left | exact Hi].
Qed.

End PageRange.

(** X18.  [extractPdfPagesText] reads the pages
    [startPage, startPage + 1, ...] and stops at the requested count or
    at the last page, whichever comes first: the pages it returns are
    numbered consecutively from [startPage], none lies beyond the
    document, and each carries the text of its page.  A start beyond
    the last page returns no page (and does not throw); a start at or
    below 0 throws when at least one page is asked for; and unlike the
    extraction for search, which skips a page that cannot be read, the
    call throws if any page of the range cannot be read. *)
Theorem extractPdfPagesText_range (doc : Pdf.PdfDocument) (startPage count : Z) :
  let total := Z.of_nat (Pdf.numPages doc) in
  let endPage := Z.min (startPage + count - 1) total in
  (forall pages n,
      PdfBook.extractPdfPagesText doc startPage count = JS.Returned (pages, n) ->
      n = Pdf.numPages doc
      /\ map fst pages = PdfBook.pageRange startPage endPage
      /\ Z.of_nat (length pages) = Z.max 0 (endPage - startPage + 1)
      /\ Forall (fun p => startPage <= fst p <= total
                          /\ fst p < startPage + count
                          /\ Pdf.getPageText doc (Z.to_nat (fst p)) = JS.Returned (snd p))
                pages)
  /\ (total < startPage ->
      PdfBook.extractPdfPagesText doc startPage count = JS.Returned ([], Pdf.numPages doc))
  /\ (startPage <= 0 -> 1 <= count ->
      PdfBook.extractPdfPagesText doc startPage count = JS.Thrown)
  /\ (1 <= startPage ->
      (PdfBook.extractPdfPagesText doc startPage count = JS.Thrown
       <-> exists i, startPage <= i <= endPage
                     /\ Pdf.getPageText doc (Z.to_nat i) = JS.Thrown)).
Proof.
  intros total endPage. unfold PdfBook.extractPdfPagesText. fold total endPage.
  pose proof (readPages_spec doc (PdfBook.pageRange startPage endPage)) as Hspec.
  split; [|split; [|split]].
  - intros pages n Hrun.
    destruct (PdfBook.readPages doc _) as [pages'|]; [|discriminate].
    injection Hrun as -> <-. destruct Hspec as [Hnum Hall].
    split; [reflexivity|]. split; [exact Hnum|]. split.
    + rewrite <- (length_map fst), Hnum. unfold PdfBook.pageRange.
      rewrite length_map, length_seq. lia.
    + apply List.Forall_forall. intros p Hp.
      assert (Hrange : startPage <= fst p <= endPage).
      { apply In_pageRange. rewrite <- Hnum. now apply in_map. }
      rewrite List.Forall_forall in Hall. specialize (Hall p Hp).
      unfold PdfBook.getPage in Hall.
      destruct (Z.leb_spec (fst p) 0); [discriminate|].
      destruct (Z.ltb_spec (Z.of_nat (Pdf.numPages doc)) (fst p)); [discriminate|].
      subst endPage total. repeat split; try lia. exact Hall.
  - intros Hbeyond. rewrite pageRange_nil by lia. reflexivity.
  - intros Hlow Hcount.
    rewrite pageRange_cons by (subst endPage total; lia). cbn [PdfBook.readPages].
    unfold PdfBook.getPage. now destruct (Z.leb_spec startPage 0); [|lia].
  - intros Hstart. split.
    + intros Hrun. destruct (PdfBook.readPages doc _) as [pages'|]; [discriminate|].
      destruct Hspec as (i & Hi & Hthrown). apply In_pageRange in Hi.
      exists i. split; [exact Hi|].
      rewrite getPage_inside in Hthrown by (subst endPage total; lia). exact Hthrown.
    + intros (i & Hi & Hthrown).
      destruct (PdfBook.readPages doc _) as [pages'|]; [|reflexivity]. exfalso.
      destruct Hspec as [Hnum Hall].
      assert (Hin : In i (map fst pages')) by (rewrite Hnum; now apply In_pageRange).
      apply in_map_iff in Hin as (p & <- & Hp).
      rewrite List.Forall_forall in Hall. specialize (Hall p Hp).
      rewrite getPage_inside in Hall by (subst endPage total; lia). congruence.
Qed.

(** ** Scanning the books directory *)

Section ScannerFacts.
Import JS (Outcome, Returned, Thrown).
Import LibraryTools Scanner.

Variable join : string -> string -> string.
Variable stem : string -> string -> string.
Variable readEpub : string -> Outcome EpubScan.
Variable readPdf : string -> Outcome PdfScan.

(** Induction over directory trees: a property of a directory may use
    it for all its entries. *)
Fixpoint FsNode_forall_ind (P : FsNode -> Prop) (file : P FsFile)
    (directory : forall entries, Forall (fun entry => P (snd entry)) entries ->
                                 P (FsDirectory entries))
    (noStat : P FsNoStat) (noList : P FsNoList)
    (node : FsNode) : P node :=
  match node with
  | FsFile => file
  | FsDirectory entries =>
      directory entries
        ((fix children (l : list (string * FsNode)) : Forall (fun entry => P (snd entry)) l :=
            match l with
            | [] => @List.Forall_nil _ (fun entry => P (snd entry))
            | entry :: l' =>
                @List.Forall_cons _ (fun entry => P (snd entry)) entry l'
                  (FsNode_forall_ind P file directory noStat noList (snd entry))
                  (children l')
            end) entries)
  | FsNoStat => noStat
  | FsNoList => noList
  end.

Lemma cleanDescription_length (d : string) : JS.len (cleanDescription d) <= 300.
Proof.
  unfold cleanDescription.
  set (cleaned := JS.trim (collapseSpaces (removeTags d))).
  destruct (Z.ltb_spec 300 (JS.len cleaned)) as [Hlong|Hshort]; [|exact Hshort].
  unfold JS.len in *. rewrite length_append.
  change 297 with (0 + 297).
  pose proof (len_slice_window cleaned 0 297 ltac:(unfold JS.len; lia) ltac:(lia)) as Hs.
  unfold JS.len in Hs. cbn [String.length]. lia.
Qed.

Lemma scanEpubFile_entry (filePath file : string) :
  scannedPath (scanEpubFile stem readEpub filePath file) = filePath
  /\ scannedFormat (scanEpubFile stem readEpub filePath file) = Epub.FormatEpub.
Proof. unfold scanEpubFile. now destruct (readEpub filePath). Qed.

Lemma scanPdfFile_entry (filePath : string) :
  scannedPath (scanPdfFile stem readPdf filePath) = filePath
  /\ scannedFormat (scanPdfFile stem readPdf filePath) = Epub.FormatPdf.
Proof. unfold scanPdfFile. now destruct (readPdf filePath). Qed.

(** The loop over the entries of a directory, given what the scan of
    each entry does. *)
Lemma scanEach_entries (dirPath : string) (entries : list (string * FsNode)) :
  Forall (fun entry =>
            forall d file,
              (scanEntry join stem readEpub readPdf d file (snd entry) = Thrown
               <-> walkable (snd entry) = false)
              /\ forall scanned,
                   scanEntry join stem readEpub readPdf d file (snd entry) = Returned scanned ->
                   map scannedPath scanned = map fst (bookFiles join d file (snd entry))
                   /\ map scannedFormat scanned
                      = map (fun pf => formatOf (snd pf)) (bookFiles join d file (snd entry))
                   /\ Forall shortDescription scanned)
         entries ->
  let scan := scanEach (fun entry => scanEntry join stem readEpub readPdf dirPath
                                       (fst entry) (snd entry)) entries in
  let files := flat_map (fun entry => bookFiles join dirPath (fst entry) (snd entry))
                        entries in
  (scan = Thrown <-> forallb (fun entry => walkable (snd entry)) entries = false)
  /\ forall scanned,
       scan = Returned scanned ->
       map scannedPath scanned = map fst files
       /\ map scannedFormat scanned = map (fun pf => formatOf (snd pf)) files
       /\ Forall shortDescription scanned.
Proof.
  induction 1 as [|entry entries Hentry _ IH]; cbn zeta in *.
  - cbn. split; [split; discriminate|]. intros scanned [= <-]. repeat split. constructor.
  - cbn [scanEach flat_map forallb].
    destruct (Hentry dirPath (fst entry)) as [Hthrow Hbooks].
    destruct IH as [Hthrow' Hbooks'].
    destruct (scanEntry join stem readEpub readPdf dirPath (fst entry) (snd entry))
      as [books|] eqn:Eone.
    + assert (Hw : walkable (snd entry) = true).
      { destruct (walkable (snd entry)); [reflexivity|].
        now discriminate (proj2 Hthrow eq_refl). }
      rewrite Hw. cbn [andb].
      destruct (scanEach _ entries) as [books'|] eqn:Erest.
      * split; [split; [discriminate|]|].
        -- intros H. now discriminate (proj2 Hthrow' H).
        -- intros scanned [= <-].
           destruct (Hbooks books eq_refl) as (Hp & Hf & Hd).
           destruct (Hbooks' books' eq_refl) as (Hp' & Hf' & Hd').
           rewrite !map_app. split; [now rewrite Hp, Hp'|]. split; [now rewrite Hf, Hf'|].
           apply Forall_app. split; assumption.
      * split; [|discriminate]. split; [intros _; now apply Hthrow' | reflexivity].
    + rewrite (proj1 Hthrow eq_refl). cbn [andb]. split; [now split | discriminate].
Qed.

Lemma scanEntry_spec (node : FsNode) :
  forall dirPath file,
    (scanEntry join stem readEpub readPdf dirPath file node = Thrown
     <-> walkable node = false)
    /\ forall scanned,
         scanEntry join stem readEpub readPdf dirPath file node = Returned scanned ->
         map scannedPath scanned = map fst (bookFiles join dirPath file node)
         /\ map scannedFormat scanned
            = map (fun pf => formatOf (snd pf)) (bookFiles join dirPath file node)
         /\ Forall shortDescription scanned.
Proof.
  induction node as [|entries IH| |] using FsNode_forall_ind; intros dirPath file.
  - cbn [scanEntry bookFiles walkable]. split; [split; discriminate|].
    intros scanned [= <-]. unfold formatOf.
    destruct (isEpub file) eqn:He; cbn [orb].
    + destruct (scanEpubFile_entry (join dirPath file) file) as [Hp Hf].
      cbn [map fst snd]. rewrite Hp, Hf, He. split; [reflexivity|]. split; [reflexivity|].
      constructor; [|constructor]. unfold shortDescription, scanEpubFile.
      destruct (readEpub _) as [scan|]; cbn; [|discriminate].
      unfold describe. destruct (scanDescription scan) as [d0|]; [|discriminate].
      destruct (JS.truthy d0) eqn:Hd0.
      * intros d [= <-] _. apply cleanDescription_length.
      * intros d [= <-] Hne. destruct d0; [congruence | discriminate].
    + destruct (isPdf file); cbn [map fst snd].
      * destruct (scanPdfFile_entry (join dirPath file)) as [Hp Hf].
        rewrite Hp, Hf, He. split; [reflexivity|]. split; [reflexivity|].
        constructor; [|constructor]. unfold shortDescription, scanPdfFile.
        destruct (readPdf _); cbn; discriminate.
      * repeat split. constructor.
  - cbn [scanEntry bookFiles walkable]. exact (scanEach_entries (join dirPath file) entries IH).
  - cbn. split; [now split | discriminate].
  - cbn. split; [now split | discriminate].
Qed.

Lemma scanDirectory_listed (dirPath : string) (entries : list (string * FsNode)) :
  let scan := scanDirectory join stem readEpub readPdf dirPath (Some (Returned entries)) in
  let files := flat_map (fun entry => bookFiles join dirPath (fst entry) (snd entry))
                        entries in
  (scan = Thrown <-> forallb (fun entry => walkable (snd entry)) entries = false)
  /\ forall scanned,
       scan = Returned scanned ->
       map scannedPath scanned = map fst files
       /\ map scannedFormat scanned = map (fun pf => formatOf (snd pf)) files
       /\ Forall shortDescription scanned.
Proof.
  cbn [scanDirectory]. apply scanEach_entries.
  apply List.Forall_forall. intros entry _. apply scanEntry_spec.
Qed.

End ScannerFacts.

(** X20.  [scanDirectory] returns exactly when every entry of the tree
    can be stat'ed and every directory listed; an entry or a directory
    that cannot ends the whole scan with its error.  When it returns it
    lists every book file of the tree, whatever the readers do: the
    entries are, in the order of the walk, the files whose names end in
    [.epub] or [.pdf] (in any case), each under its joined path and with
    the format its name stands for.  A file that cannot be opened is
    listed all the same.  A description that comes out of the scan is
    never longer than 300 code units.  A directory that does not exist
    scans as the empty list, and one that cannot be listed throws. *)
Theorem scanDirectory_lists_every_book
    (join stem : string -> string -> string)
    (readEpub : string -> JS.Outcome Scanner.EpubScan)
    (readPdf : string -> JS.Outcome Scanner.PdfScan)
    (dirPath : string) (entries : list (string * Scanner.FsNode)) :
  let scan := Scanner.scanDirectory join stem readEpub readPdf dirPath
                (Some (JS.Returned entries)) in
  let files := flat_map (fun entry => Scanner.bookFiles join dirPath (fst entry) (snd entry))
                        entries in
  (scan = JS.Thrown
   <-> forallb (fun entry => Scanner.walkable (snd entry)) entries = false)
  /\ (forallb (fun entry => Scanner.walkable (snd entry)) entries = true ->
      exists scanned, scan = JS.Returned scanned)
  /\ (forall scanned,
        scan = JS.Returned scanned ->
        map LibraryTools.scannedPath scanned = map fst files
        /\ map LibraryTools.scannedFormat scanned
           = map (fun pf => Scanner.formatOf (snd pf)) files
        /\ length scanned = length files
        /\ Forall (fun b => forall d, LibraryTools.scannedDescription b = Some d ->
                                      d <> EmptyString -> JS.len d <= 300) scanned)
  /\ Scanner.scanDirectory join stem readEpub readPdf dirPath None = JS.Returned []
  /\ Scanner.scanDirectory join stem readEpub readPdf dirPath (Some JS.Thrown) = JS.Thrown.
Proof.
  intros scan files.
  destruct (scanDirectory_listed join stem readEpub readPdf dirPath entries)
    as [Hthrow Hbooks].
  fold scan in Hthrow, Hbooks. fold files in Hbooks.
  split; [exact Hthrow|]. split; [|split; [|split; reflexivity]].
  - intros Hw. destruct scan as [scanned|]; [eauto|].
    rewrite (proj1 Hthrow eq_refl) in Hw. discriminate Hw.
  - intros scanned Hscan. destruct (Hbooks scanned Hscan) as (Hp & Hf & Hd).
    split; [exact Hp|]. split; [exact Hf|]. split; [|exact Hd].
    rewrite <- (length_map LibraryTools.scannedPath), Hp. apply length_map.
Qed.

(** ** File names and formats *)

Section Suffixes.
Import JS JSText Scanner.
Local Open Scope string_scope.

Lemma append_split (x y a b : string) :
  x ++ y = a ++ b ->
  (exists m, a = x ++ m /\ y = m ++ b) \/ (exists m, x = a ++ m /\ b = m ++ y).
Proof.
  revert a; induction x as [|c x IH]; intros a; rewrite ?append_nil_l.
  - intros ->. left. now exists a.
  - destruct a as [|d a]; rewrite ?append_nil_l, ?append_cons.
    + intros <-. right. exists (String c x). now rewrite append_nil_l, append_cons.
    + intros [= <- H]. destruct (IH a H) as [(m & -> & ->)|(m & -> & ->)].
      * left. exists m. now rewrite append_cons.
      * right. exists m. now rewrite append_cons.
Qed.

Lemma drop_append (x y : string) : drop (String.length x) (x ++ y) = y.
Proof.
  induction x as [|c x IH]; rewrite ?append_nil_l, ?append_cons; [apply drop_0 | exact IH].
Qed.

Lemma startsWith_refl (s : string) : startsWith s s = true.
Proof. induction s as [|c s IH]; cbn; [reflexivity|]. now rewrite Ascii.eqb_refl. Qed.

Lemma endsWith_iff (s p : string) : endsWith s p = true <-> exists pre, s = pre ++ p.
Proof.
  unfold endsWith. split.
  - destruct (Nat.leb_spec (String.length p) (String.length s)) as [Hle|]; [|discriminate].
    intros H. apply startsWith_iff in H.
    rewrite take_all in H by (rewrite length_drop; lia).
    exists (take (String.length s - String.length p) s).
    rewrite <- H at 2. now rewrite take_drop.
  - intros [pre ->]. rewrite length_append.
    destruct (Nat.leb_spec (String.length p) (String.length pre + String.length p));
      [|lia].
    replace (String.length pre + String.length p - String.length p)%nat
      with (String.length pre) by lia.
    rewrite drop_append. apply startsWith_refl.
Qed.

Lemma toLowerCase_append (s t : string) :
  toLowerCase (s ++ t) = toLowerCase s ++ toLowerCase t.
Proof.
  induction s as [|c s IH]; rewrite ?append_nil_l, ?append_cons; [reflexivity|].
  cbn. now rewrite IH, append_cons.
Qed.

Lemma includes_append (s t : string) (c : ascii) :
  includes (s ++ t) c = includes s c || includes t c.
Proof.
  induction s as [|d s IH]; rewrite ?append_nil_l, ?append_cons; [reflexivity|].
  cbn. now rewrite IH, orb_assoc.
Qed.

(** A suffix without a slash that ends [x ++ "/" ++ y] ends [y]. *)
Lemma endsWith_behind_slash (x y ext : string) :
  includes ext "/" = false -> ext <> "" ->
  endsWith (x ++ "/" ++ y) ext = endsWith y ext.
Proof.
  intros Hslash Hne. apply eq_true_iff_eq. rewrite !endsWith_iff. split.
  - intros [pre H]. rewrite <- string_append_assoc in H.
    apply append_split in H as [(m & _ & ->)|(m & Hx & Hext)]; [now exists m|].
    destruct m as [|c m]; [exists ""; now rewrite Hext|]. exfalso.
    assert (Hin : includes (String c m) "/" = true).
    { apply append_split in Hx as [(m' & _ & Hm)|(m' & _ & Hm)].
      - destruct m' as [|d m']; rewrite ?append_nil_l, ?append_cons in Hm.
        + now rewrite <- Hm.
        + injection Hm as _ Hm.
          destruct m'; rewrite ?append_nil_l, ?append_cons in Hm; discriminate.
      - rewrite Hm, includes_append. cbn. apply orb_true_r. }
    rewrite Hext, includes_append, Hin in Hslash. discriminate.
  - intros [pre ->]. exists (x ++ "/" ++ pre). now rewrite !string_append_assoc.
Qed.

Lemma isEpub_not_isPdf (file : string) : isEpub file = true -> isPdf file = false.
Proof.
  unfold isEpub, isPdf. intros He.
  destruct (endsWith (toLowerCase file) ".pdf") eqn:Hp; [|reflexivity]. exfalso.
  apply endsWith_iff in He as [pre He]. apply endsWith_iff in Hp as [pre' Hp].
  rewrite He in Hp. apply append_split in Hp as [(m & _ & Hm)|(m & _ & Hm)].
  - destruct m as [|c1 [|c2 m]]; rewrite ?append_nil_l, ?append_cons in Hm;
      try discriminate.
    apply (f_equal String.length) in Hm. rewrite ?append_nil_l in Hm.
    cbn [String.length] in Hm. rewrite length_append in Hm. cbn in Hm. lia.
  - apply (f_equal String.length) in Hm. rewrite length_append in Hm. cbn in Hm. lia.
Qed.

Lemma isEpub_joined (d file : string) : isEpub (d ++ "/" ++ file) = isEpub file.
Proof.
  unfold isEpub. rewrite !toLowerCase_append. now apply endsWith_behind_slash.
Qed.

Lemma isPdf_joined (d file : string) : isPdf (d ++ "/" ++ file) = isPdf file.
Proof.
  unfold isPdf. rewrite !toLowerCase_append. now apply endsWith_behind_slash.
Qed.

End Suffixes.

Section Dispatch.
Import JS (Outcome, Returned, Thrown).
Import LibraryTools Scanner.

Variable join : string -> string -> string.
Variable stem : string -> string -> string.
Variable readEpub : string -> Outcome EpubScan.
Variable readPdf : string -> Outcome PdfScan.
Hypothesis join_keeps_name :
  forall d file, exists d', join d file = String.append d' (String "/" file).

Lemma scanEach_dispatch (dirPath : string) (entries : list (string * FsNode)) :
  Forall (fun entry =>
            forall d file scanned,
              scanEntry join stem readEpub readPdf d file (snd entry) = Returned scanned ->
              Forall nameTellsFormat scanned)
         entries ->
  forall scanned,
    scanEach (fun entry => scanEntry join stem readEpub readPdf dirPath
                             (fst entry) (snd entry)) entries = Returned scanned ->
    Forall nameTellsFormat scanned.
Proof.
  induction 1 as [|entry entries Hentry _ IH]; intros scanned; cbn [scanEach].
  - intros [= <-]. constructor.
  - destruct (scanEntry join stem readEpub readPdf dirPath (fst entry) (snd entry))
      as [books|] eqn:Eone; [|discriminate].
    destruct (scanEach _ entries) as [books'|]; [|discriminate].
    intros [= <-]. apply Forall_app. split; [now apply (Hentry dirPath (fst entry)) | now apply IH].
Qed.

Lemma scanEntry_dispatch (node : FsNode) :
  forall dirPath file scanned,
    scanEntry join stem readEpub readPdf dirPath file node = Returned scanned ->
    Forall nameTellsFormat scanned.
Proof.
  induction node as [|entries IH| |] using FsNode_forall_ind; intros dirPath file scanned.
  - cbn [scanEntry]. intros [= <-]. destruct (join_keeps_name dirPath file) as [d' Hjoin].
    destruct (isEpub file) eqn:He; [|destruct (isPdf file) eqn:Hp]; [| |constructor].
    + constructor; [|constructor]. unfold nameTellsFormat.
      destruct (scanEpubFile_entry stem readEpub (join dirPath file) file) as [-> ->].
      rewrite Hjoin. change (String "/" file) with (String.append "/" file).
      rewrite isEpub_joined, isPdf_joined, He. now rewrite (isEpub_not_isPdf file He).
    + constructor; [|constructor]. unfold nameTellsFormat.
      destruct (scanPdfFile_entry stem readPdf (join dirPath file)) as [-> ->].
      rewrite Hjoin. change (String "/" file) with (String.append "/" file).
      now rewrite isEpub_joined, isPdf_joined, He, Hp.
  - cbn [scanEntry]. now apply scanEach_dispatch.
  - discriminate.
  - discriminate.
Qed.

End Dispatch.

(** X21.  The name of a scanned file tells its format to every part
    of the program.  When [path.join] puts the file's name last behind
    a slash, each entry of a scan that returned satisfies exactly one of
    [isEpub] and [isPdf] on its path, and it is the one of the format
    recorded in the entry; so [loadBookTool], which asks [isEpub], and
    the extraction for the tools, which asks [isPdf], open the book with
    the same engine. *)
Theorem scanned_format_dispatch
    (join stem : string -> string -> string)
    (readEpub : string -> JS.Outcome Scanner.EpubScan)
    (readPdf : string -> JS.Outcome Scanner.PdfScan)
    (dirPath : string)
    (root : option (JS.Outcome (list (string * Scanner.FsNode))))
    (scanned : list LibraryTools.ScannedBook) :
  (forall d file, exists d', join d file = String.append d' (String "/" file)) ->
  Scanner.scanDirectory join stem readEpub readPdf dirPath root = JS.Returned scanned ->
  Forall (fun b =>
            Scanner.isEpub (LibraryTools.scannedPath b)
            = match LibraryTools.scannedFormat b with
              | Epub.FormatEpub => true
              | Epub.FormatPdf => false
              end
            /\ Scanner.isPdf (LibraryTools.scannedPath b)
               = negb (Scanner.isEpub (LibraryTools.scannedPath b)))
         scanned.
Proof.
  intros Hjoin. unfold Scanner.scanDirectory.
  destruct root as [[entries|]|]; [| discriminate | intros [= <-]; constructor].
  apply (scanEach_dispatch join stem readEpub readPdf).
  apply List.Forall_forall. intros entry _ d file.
  exact (scanEntry_dispatch join stem readEpub readPdf Hjoin (snd entry) d file).
Qed.

Lemma scanned_format_dispatch_witness :
  exists scanned,
    Scanner.scanDirectory MoreSamples.joinPaths (fun file _ => file)
      (fun _ => JS.Thrown) (fun _ => JS.Thrown) "/books"
      (Some (JS.Returned MoreSamples.smallTree)) = JS.Returned scanned
    /\ map LibraryTools.scannedPath scanned = ["/books/Moby.EPUB"; "/books/papers/logic.pdf"]
    /\ Forall (fun b => Scanner.isPdf (LibraryTools.scannedPath b)
                        = negb (Scanner.isEpub (LibraryTools.scannedPath b))) scanned.
Proof.
  eexists. split; [reflexivity|]. split; [reflexivity|].
  eapply List.Forall_impl;
    [|exact (scanned_format_dispatch MoreSamples.joinPaths (fun file _ => file)
               (fun _ => JS.Thrown) (fun _ => JS.Thrown) "/books"
               (Some (JS.Returned MoreSamples.smallTree)) _
               (fun d file => ex_intro _ d eq_refl) eq_refl)].
  intros b [_ H]. exact H.
Defined.

(** ** Cleaning a description *)

Section Descriptions.
Import JS Scanner.
Local Open Scope string_scope.

(** White space *)

Lemma spaceNormal_weaken (s : string) :
  spaceNormalFrom true s = true -> spaceNormalFrom false s = true.
Proof.
  destruct s as [|c s]; [trivial|]. cbn. destruct (isSpace c); [|trivial].
  now rewrite andb_false_r.
Qed.

Lemma spaceNormal_any (b : bool) (s : string) :
  spaceNormalFrom b s = true -> spaceNormalFrom false s = true.
Proof. destruct b; [apply spaceNormal_weaken | trivial]. Qed.

Lemma collapse_normal (s : string) :
  (forall b, spaceNormalFrom b (collapseFrom true s) = true)
  /\ spaceNormalFrom false (collapseFrom false s) = true.
Proof.
  induction s as [|c s [IHt IHf]]; [split; reflexivity|]. cbn [collapseFrom].
  destruct (isSpace c) eqn:Hc.
  - split; [exact IHt|]. cbn. apply IHt.
  - cbn [spaceNormalFrom]. rewrite Hc. split; [intros _|]; exact IHf.
Qed.

Lemma spaceNormal_trimStart (b : bool) (s : string) :
  spaceNormalFrom b s = true -> spaceNormalFrom false (trimStart s) = true.
Proof.
  revert b; induction s as [|c s IH]; intros b; [trivial|]. cbn.
  destruct (isSpace c) eqn:Hc.
  - intros H. apply andb_true_iff in H as [_ H]. now apply (IH true).
  - intros H. cbn. now rewrite Hc.
Qed.

Lemma spaceNormal_take (n : nat) (b : bool) (s : string) :
  spaceNormalFrom b s = true -> spaceNormalFrom b (take n s) = true.
Proof.
  revert b s; induction n as [|n IH]; intros b [|c s]; try reflexivity.
  cbn. destruct (isSpace c).
  - intros H. apply andb_true_iff in H as [H1 H]. rewrite H1. cbn. now apply IH.
  - apply IH.
Qed.

Lemma trimEnd_take (s : string) : exists k, trimEnd s = take k s.
Proof.
  induction s as [|c s [k IH]]; [now exists 0%nat|]. rewrite trimEnd_step.
  destruct (trimEnd s) as [|d t] eqn:Ht.
  - destruct (isSpace c); [now exists 0%nat | exists 1%nat; now destruct s].
  - exists (S k). cbn. now rewrite <- IH.
Qed.

Lemma spaceNormal_append (b : bool) (s t : string) :
  spaceNormalFrom b s = true -> (forall b', spaceNormalFrom b' t = true) ->
  spaceNormalFrom b (s ++ t) = true.
Proof.
  intros Hs Ht. revert b Hs; induction s as [|c s IH]; intros b Hs;
    rewrite ?append_nil_l, ?append_cons; [apply Ht|].
  cbn in *. destruct (isSpace c).
  - apply andb_true_iff in Hs as [H1 Hs]. rewrite H1. cbn. now apply IH.
  - now apply IH.
Qed.

(** Tags *)

Lemma closeTag_none (s : string) : closeTag s = None <-> includes s greaterThan = false.
Proof.
  induction s as [|c s IH]; cbn; [tauto|].
  destruct (Ascii.eqb c greaterThan); cbn; [split; discriminate | exact IH].
Qed.

Lemma closeTag_length (s rest : string) :
  closeTag s = Some rest -> (String.length rest < String.length s)%nat.
Proof.
  revert rest; induction s as [|c s IH]; intros rest; cbn; [discriminate|].
  destruct (Ascii.eqb c greaterThan).
  - intros [= <-]. lia.
  - intros H. specialize (IH rest H). lia.
Qed.

Lemma closeTag_includes (s rest : string) (x : ascii) :
  closeTag s = Some rest -> includes rest x = true -> includes s x = true.
Proof.
  revert rest; induction s as [|c s IH]; intros rest; cbn; [discriminate|].
  destruct (Ascii.eqb c greaterThan).
  - intros [= <-] ->. apply orb_true_r.
  - intros H Hx. rewrite (IH rest H Hx). apply orb_true_r.
Qed.

Lemma removeTags_step (fuel : nat) (c : ascii) (s' : string) :
  removeTagsFuel (S fuel) (String c s')
  = if Ascii.eqb c lessThan then
      match s' with
      | String d _ =>
          if Ascii.eqb d greaterThan then String c (removeTagsFuel fuel s')
          else match closeTag s' with
               | Some rest => removeTagsFuel fuel rest
               | None => String c (removeTagsFuel fuel s')
               end
      | EmptyString => String c EmptyString
      end
    else String c (removeTagsFuel fuel s').
Proof. reflexivity. Qed.

Lemma removeTags_includes (x : ascii) (fuel : nat) (s : string) :
  includes (removeTagsFuel fuel s) x = true -> includes s x = true.
Proof.
  revert s; induction fuel as [|fuel IH]; intros [|c s']; try discriminate.
  rewrite removeTags_step.
  destruct (Ascii.eqb c lessThan).
  - destruct s' as [|d s'']; [trivial|].
    destruct (Ascii.eqb d greaterThan).
    + cbn [includes]. intros H. apply orb_true_iff in H as [->|H]; [reflexivity|].
      apply IH in H. cbn [includes] in H. rewrite H. apply orb_true_r.
    + destruct (closeTag (String d s'')) as [rest|] eqn:Hclose.
      * intros H. apply IH in H.
        pose proof (closeTag_includes _ _ x Hclose H) as H'.
        cbn [includes] in *. rewrite H'. apply orb_true_r.
      * cbn [includes]. intros H. apply orb_true_iff in H as [->|H]; [reflexivity|].
        apply IH in H. cbn [includes] in H. rewrite H. apply orb_true_r.
  - cbn [includes]. intros H. apply orb_true_iff in H as [->|H]; [reflexivity|].
    rewrite (IH _ H). apply orb_true_r.
Qed.

Lemma removeTags_tagFree (fuel : nat) (s : string) :
  (String.length s <= fuel)%nat -> tagFree (removeTagsFuel fuel s) = true.
Proof.
  revert s; induction fuel as [|fuel IH]; intros [|c s'] Hlen; try reflexivity.
  cbn [String.length] in Hlen. rewrite removeTags_step.
  destruct (Ascii.eqb c lessThan) eqn:Hc.
  - destruct s' as [|d s'']; [cbn; now rewrite Hc|].
    destruct (Ascii.eqb d greaterThan) eqn:Hd.
    + apply Ascii.eqb_eq in Hd. subst d. cbn [tagFree]. rewrite IH by lia.
      destruct fuel as [|fuel']; [cbn in Hlen; lia|].
      rewrite removeTags_step. change (Ascii.eqb greaterThan lessThan) with false.
      cbv iota. cbn [startsWith]. rewrite Ascii.eqb_refl, startsWith_nil.
      now rewrite orb_true_r.
    + destruct (closeTag (String d s'')) as [rest|] eqn:Hclose.
      * apply IH. apply closeTag_length in Hclose. lia.
      * cbn [tagFree]. rewrite IH by lia.
        apply closeTag_none in Hclose.
        destruct (includes (removeTagsFuel fuel (String d s'')) greaterThan) eqn:Hin.
        -- apply removeTags_includes in Hin. congruence.
        -- now rewrite orb_true_r.
  - cbn [tagFree]. rewrite Hc. cbn. apply IH. lia.
Qed.

Lemma tagFree_removeTags (fuel : nat) (s : string) :
  (String.length s <= fuel)%nat -> tagFree s = true -> removeTagsFuel fuel s = s.
Proof.
  revert s; induction fuel as [|fuel IH]; intros [|c s'] Hlen Hfree; try reflexivity;
    cbn [String.length] in Hlen; [lia|].
  rewrite removeTags_step. cbn [tagFree] in Hfree.
  apply andb_true_iff in Hfree as [Hhere Hrest].
  destruct (Ascii.eqb c lessThan).
  - destruct s' as [|d s'']; [reflexivity|].
    destruct (Ascii.eqb d greaterThan) eqn:Hd.
    + now rewrite IH by (assumption || lia).
    + cbn [negb orb startsWith] in Hhere.
      rewrite (Ascii.eqb_sym greaterThan d), Hd in Hhere.
      cbn [orb] in Hhere. apply negb_true_iff in Hhere.
      change (includes (String d s'') greaterThan = false) in Hhere.
      apply closeTag_none in Hhere. rewrite Hhere.
      now rewrite IH by (assumption || lia).
  - now rewrite IH by (assumption || lia).
Qed.

Lemma collapse_includes (r : bool) (s : string) :
  includes (collapseFrom r s) greaterThan = true -> includes s greaterThan = true.
Proof.
  revert r; induction s as [|c s IH]; intros r; [trivial|]. cbn [collapseFrom].
  destruct (isSpace c); [destruct r|]; cbn [includes].
  - intros H. rewrite (IH _ H). apply orb_true_r.
  - intros H. cbn in H. rewrite (IH _ H). apply orb_true_r.
  - intros H. apply orb_true_iff in H as [->|H]; [reflexivity|].
    rewrite (IH _ H). apply orb_true_r.
Qed.

Lemma here_ok (c : ascii) (s s' : string) :
  (startsWith s (String greaterThan "") = true ->
   startsWith s' (String greaterThan "") = true) ->
  (includes s' greaterThan = true -> includes s greaterThan = true) ->
  negb (Ascii.eqb c lessThan) || startsWith s (String greaterThan "")
    || negb (includes s greaterThan) = true ->
  negb (Ascii.eqb c lessThan) || startsWith s' (String greaterThan "")
    || negb (includes s' greaterThan) = true.
Proof.
  intros Hstart Hin H. destruct (negb (Ascii.eqb c lessThan)); [reflexivity|].
  cbn in *. apply orb_true_iff in H as [H|H].
  - now rewrite (Hstart H).
  - destruct (includes s' greaterThan) eqn:E; [|apply orb_true_r].
    rewrite (Hin eq_refl) in H. discriminate.
Qed.

Lemma tagFree_collapse (r : bool) (s : string) :
  tagFree s = true -> tagFree (collapseFrom r s) = true.
Proof.
  revert r; induction s as [|c s IH]; intros r Hfree; [reflexivity|].
  cbn [tagFree] in Hfree. apply andb_true_iff in Hfree as [Hhere Hrest].
  cbn [collapseFrom]. destruct (isSpace c) eqn:Hc.
  - destruct r; [now apply IH|]. cbn [tagFree]. rewrite (IH true Hrest). reflexivity.
  - cbn [tagFree]. rewrite (IH false Hrest), andb_true_r.
    revert Hhere. apply here_ok.
    + destruct s as [|d s]; [discriminate|]. cbn [startsWith collapseFrom].
      destruct (Ascii.eqb_spec greaterThan d) as [<-|]; [|discriminate].
      intros _. change (isSpace greaterThan) with false. cbv iota.
      cbn [startsWith]. now rewrite Ascii.eqb_refl, startsWith_nil.
    + apply collapse_includes.
Qed.

Lemma tagFree_trimStart (s : string) : tagFree s = true -> tagFree (trimStart s) = true.
Proof.
  induction s as [|c s IH]; [trivial|]. cbn [trimStart].
  destruct (isSpace c); [|trivial]. cbn [tagFree]. intros H.
  apply andb_true_iff in H as [_ H]. now apply IH.
Qed.

Lemma includes_take (n : nat) (s : string) (x : ascii) :
  includes (take n s) x = true -> includes s x = true.
Proof.
  revert s; induction n as [|n IH]; intros [|c s]; try discriminate.
  cbn. intros H. apply orb_true_iff in H as [->|H]; [reflexivity|].
  rewrite (IH _ H). apply orb_true_r.
Qed.

Lemma tagFree_take (n : nat) (s : string) : tagFree s = true -> tagFree (take n s) = true.
Proof.
  revert s; induction n as [|n IH]; intros [|c s]; try reflexivity.
  cbn [take tagFree]. intros H. apply andb_true_iff in H as [Hhere Hrest].
  rewrite (IH s Hrest), andb_true_r.
  destruct n as [|n].
  - destruct (negb (Ascii.eqb c lessThan)); [reflexivity|]. now destruct s.
  - revert Hhere. apply here_ok; [|apply includes_take].
    destruct s as [|d s]; [discriminate|]. cbn [take startsWith].
    destruct (Ascii.eqb greaterThan d); [intros _; apply startsWith_nil | trivial].
Qed.

Lemma tagFree_append (s t : string) :
  tagFree s = true -> tagFree t = true -> includes t greaterThan = false ->
  tagFree (s ++ t) = true.
Proof.
  intros Hs Ht Hno. induction s as [|c s IH]; rewrite ?append_nil_l, ?append_cons;
    [exact Ht|].
  cbn [tagFree] in *. apply andb_true_iff in Hs as [Hhere Hrest].
  rewrite (IH Hrest), andb_true_r. revert Hhere. apply here_ok.
  - destruct s as [|d s]; [discriminate|]. rewrite append_cons. cbn [startsWith].
    destruct (Ascii.eqb greaterThan d); [intros _; apply startsWith_nil | trivial].
  - rewrite includes_append, Hno, orb_false_r. trivial.
Qed.

Lemma trimEnd_append_dots (s : string) : trimEnd (s ++ "...") = s ++ "...".
Proof.
  induction s as [|c s IH]; rewrite ?append_nil_l, ?append_cons; [reflexivity|].
  rewrite trimEnd_step, IH.
  destruct s as [|d s]; rewrite ?append_nil_l, ?append_cons; reflexivity.
Qed.

End Descriptions.

(** X22.  The clean-up of a description.  Whatever the metadata hold,
    the cleaned description has at most 300 code units, contains no tag
    any more (removing tags again changes nothing), has all its white
    space as single blanks and none at either end.  A text that is
    longer than 300 code units after cleaning is cut to its first 297
    and ends in three dots. *)
Theorem cleanDescription_clean (description : string) :
  let cleaned := JS.trim (Scanner.collapseSpaces (Scanner.removeTags description)) in
  let result := Scanner.cleanDescription description in
  JS.len result <= 300
  /\ Scanner.tagFree result = true
  /\ Scanner.removeTags result = result
  /\ Scanner.spaceNormal result = true
  /\ JS.trim result = result
  /\ (JS.len cleaned <= 300 -> result = cleaned)
  /\ (300 < JS.len cleaned ->
      result = String.append (JS.take 297 cleaned) "..." /\ JS.len result = 300).
Proof.
  intros cleaned result.
  assert (Hfree : Scanner.tagFree cleaned = true).
  { subst cleaned. unfold JS.trim. destruct (trimEnd_take (JS.trimStart
      (Scanner.collapseSpaces (Scanner.removeTags description)))) as [k ->].
    apply tagFree_take, tagFree_trimStart, tagFree_collapse.
    now apply removeTags_tagFree. }
  assert (Hnormal : Scanner.spaceNormalFrom false cleaned = true).
  { subst cleaned. unfold JS.trim. destruct (trimEnd_take (JS.trimStart
      (Scanner.collapseSpaces (Scanner.removeTags description)))) as [k ->].
    apply spaceNormal_take, (spaceNormal_trimStart false).
    apply (proj2 (collapse_normal _)). }
  assert (Htrim : JS.trim cleaned = cleaned) by apply trim_idem.
  assert (Hresult : result = if 300 <? JS.len cleaned
                             then String.append (JS.take 297 cleaned) "..."
                             else cleaned).
  { subst result. unfold Scanner.cleanDescription. fold cleaned.
    destruct (300 <? JS.len cleaned); [|reflexivity].
    now rewrite slice_head by lia. }
  assert (Hall : Scanner.tagFree result = true /\ Scanner.spaceNormal result = true
                 /\ JS.trim result = result).
  { rewrite Hresult. destruct (Z.ltb_spec 300 (JS.len cleaned)) as [Hlong|Hshort];
      [|now repeat split].
    split; [|split].
    - apply tagFree_append; [now apply tagFree_take | reflexivity | reflexivity].
    - apply spaceNormal_append; [now apply spaceNormal_take | now intros []].
    - unfold JS.trim.
      assert (Hstart : JS.trimStart (String.append (JS.take 297 cleaned) "...")
                       = String.append (JS.take 297 cleaned) "...").
      { destruct cleaned as [|c rest] eqn:E; [reflexivity|].
        assert (Hc : JS.isSpace c = false).
        { unfold JS.trim in Htrim.
          destruct (trimStart_head (String c rest)) as [H0|(c' & t & Ht & Hc')].
          - rewrite H0 in Htrim. cbn in Htrim. discriminate.
          - rewrite Ht in Htrim. rewrite (trimEnd_cons c' t Hc') in Htrim.
            injection Htrim as -> _. exact Hc'. }
        cbn [JS.take]. rewrite append_cons. cbn [JS.trimStart]. now rewrite Hc. }
      rewrite Hstart. apply trimEnd_append_dots. }
  destruct Hall as (H1 & H2 & H3).
  split; [apply cleanDescription_length|]. split; [exact H1|].
  split; [now apply tagFree_removeTags|]. split; [exact H2|]. split; [exact H3|].
  rewrite Hresult. split.
  - intros Hshort. now destruct (Z.ltb_spec 300 (JS.len cleaned)); [lia|].
  - intros Hlong. destruct (Z.ltb_spec 300 (JS.len cleaned)); [|lia].
    split; [reflexivity|]. unfold JS.len in *. rewrite length_append, length_take.
    cbn [String.length]. lia.
Qed.

(** ** The extraction cache and the table of contents *)

Section ExtractionCache.
Import JS (Outcome, Returned, Thrown).
Import Storage TocTools.

Lemma getExtractedBook_hit (st : Store)
    (extractPdf extractEpub : string -> string -> Outcome Extraction) (now later : Z)
    (term : string) (cache : gmap string CachedBook) (book : LibraryBook)
    (cached : CachedBook) :
  BookLookup.findBook st term = Some book ->
  cache !! id book = Some cached -> now - extractedAt cached < CACHE_TTL_MS ->
  getExtractedBook st extractPdf extractEpub now later term cache
  = (Returned (Some (cachedBook cached)), cache).
Proof.
  intros Hfind Hc Hfresh. unfold getExtractedBook. rewrite Hfind, Hc.
  destruct (Z.ltb_spec (now - extractedAt cached) CACHE_TTL_MS); [reflexivity | lia].
Qed.

Lemma hasSemanticIndex_get (bookId : string) (tbl : list Annotations.SemanticIndex) :
  Annotations.hasSemanticIndex bookId tbl
  = match Annotations.getSemanticIndex bookId tbl with Some _ => true | None => false end.
Proof.
  unfold Annotations.hasSemanticIndex, Annotations.getSemanticIndex.
  induction tbl as [|r tbl IH]; cbn; [reflexivity|].
  destruct (Annotations.forBook bookId r); [reflexivity | exact IH].
Qed.

End ExtractionCache.

(** X23.  The extracted text of a book is cached under the book's id
    for ten minutes.  After an extraction that succeeded, any search
    term that resolves to the same book gets, for less than ten minutes
    after the entry was stored, the very same extraction, without the
    file being read again (so whatever the extractors would do then),
    and the cache is left as it is.  The engine that extracts is chosen
    by the path alone: the PDF engine if the path ends in [.pdf], the
    EPUB engine for every other file.  A failed extraction throws and
    stores nothing. *)
Theorem getExtractedBook_cache (st : Storage.Store)
    (extractPdf extractEpub extractPdf' extractEpub' :
       string -> string -> JS.Outcome TocTools.Extraction)
    (now later now' later' : Z) (term term' : string)
    (cache : gmap string TocTools.CachedBook) (book : Storage.LibraryBook) :
  BookLookup.findBook st term = Some book ->
  BookLookup.findBook st term' = Some book ->
  (forall cached, cache !! Storage.id book = Some cached ->
                  TocTools.CACHE_TTL_MS <= now - TocTools.extractedAt cached) ->
  let extraction := if Scanner.isPdf (Storage.path book)
                    then extractPdf (Storage.path book) (Storage.id book)
                    else extractEpub (Storage.path book) (Storage.id book) in
  let first := TocTools.getExtractedBook st extractPdf extractEpub now later term cache in
  (extraction = JS.Thrown -> first = (JS.Thrown, cache))
  /\ (forall ex, extraction = JS.Returned ex ->
        let result := Indexing.mkBook (Storage.id book) (TocTools.exTitle ex)
                        (TocTools.exAuthor ex) (TocTools.exChapters ex) in
        fst first = JS.Returned (Some result)
        /\ (now' - later < TocTools.CACHE_TTL_MS ->
            TocTools.getExtractedBook st extractPdf' extractEpub' now' later' term'
              (snd first)
            = (JS.Returned (Some result), snd first))).
Proof.
  intros Hfind Hfind' Hstale extraction first.
  assert (Hfirst : first = match extraction with
                           | JS.Thrown => (JS.Thrown, cache)
                           | JS.Returned ex =>
                               let result := Indexing.mkBook (Storage.id book)
                                               (TocTools.exTitle ex) (TocTools.exAuthor ex)
                                               (TocTools.exChapters ex) in
                               (JS.Returned (Some result),
                                <[Storage.id book :=
                                    TocTools.mkCachedBook result later]> cache)
                           end).
  { subst first extraction. unfold TocTools.getExtractedBook. rewrite Hfind.
    destruct (cache !! Storage.id book) as [cached|] eqn:Hc; [|reflexivity].
    specialize (Hstale cached eq_refl).
    destruct (Z.ltb_spec (now - TocTools.extractedAt cached) TocTools.CACHE_TTL_MS);
      [lia | reflexivity]. }
  rewrite Hfirst. split.
  - now intros ->.
  - intros ex ->. cbn zeta. cbn [fst snd]. split; [reflexivity|]. intros Hfresh.
    eapply (getExtractedBook_hit st extractPdf' extractEpub' now' later' term' _ book
              (TocTools.mkCachedBook _ later) Hfind').
    + apply lookup_insert_eq.
    + exact Hfresh.
Qed.

(** X24.  Saving a semantic index and asking for it again.  When
    [saveBookIndex] has stored an index for the book that a search term
    resolves to, [getBookIndex] with the same term finds it: it reports
    the index with the data just saved and the time of the call.  The
    [hasSemanticIndex] flag of the table of contents is looked up under
    the search term itself and not under the id of the book: it is true
    when the book is addressed by its id, and false when it is addressed
    by a title that is no book id in the index table, although the book
    has an index.  The table of contents lists the extracted chapters
    under their own indexes. *)
Theorem saveBookIndex_then_ask {J : Type} (parse : string -> JS.Outcome J)
    (st : Storage.Store) (newId now term : string) (args : TocTools.IndexArgs)
    (semantic semantic' : list Annotations.SemanticIndex)
    (book : Storage.LibraryBook) (result : TocTools.SaveIndexResult)
    (indexData : J) (extracted : Indexing.ExtractedBook) :
  BookLookup.findBook st term = Some book ->
  TocTools.saveBookIndex st newId now term args semantic = (JS.Returned result, semantic') ->
  parse (TocTools.indexJson args) = JS.Returned indexData ->
  (exists indexId createdAt stats,
      result = TocTools.IndexSaved (Storage.id book) (Storage.title book) indexId stats now
      /\ TocTools.getBookIndex parse st term semantic'
         = JS.Returned (TocTools.HasIndex (Storage.id book) (Storage.title book)
                          indexData createdAt now))
  /\ Annotations.hasSemanticIndex (Storage.id book) semantic' = true
  /\ exists toc,
       TocTools.getBookToc (Some extracted) term semantic' = Some toc
       /\ map TocTools.lineIndex (TocTools.tocChapters toc)
          = map Epub.index (Indexing.chapters extracted)
       /\ (term = Storage.id book -> TocTools.tocHasSemanticIndex toc = true)
       /\ ((forall r, In r semantic' -> Annotations.siBookId r <> term) ->
           TocTools.tocHasSemanticIndex toc = false).
Proof.
  intros Hfind Hsave Hparse. unfold TocTools.saveBookIndex in Hsave. rewrite Hfind in Hsave.
  pose proof (saveSemanticIndex_facts newId now (Storage.id book)
                (TocTools.indexJson args) semantic) as Hfacts.
  destruct (Annotations.saveSemanticIndex _ _ _ _ _) as [[saved|] tbl] eqn:Hrun;
    [|discriminate].
  injection Hsave as <- <-. cbn [fst snd] in Hfacts.
  destruct (Hfacts saved eq_refl) as (Hget & Hhas & _ & Hdata & Hupdated).
  split; [|split; [exact Hhas|]].
  - exists (Annotations.siId saved), (Annotations.siCreatedAt saved). eexists.
    rewrite Hupdated. split; [reflexivity|].
    unfold TocTools.getBookIndex. rewrite Hfind, Hget, Hdata, Hparse.
    now rewrite Hupdated.
  - eexists. split; [reflexivity|].
    cbn [TocTools.tocChapters TocTools.tocHasSemanticIndex]. split; [|split].
    + rewrite map_map. reflexivity.
    + intros ->. now rewrite Hget.
    + intros Hnone. unfold Annotations.getSemanticIndex.
      rewrite find_none_in; [reflexivity|].
      intros r Hr. apply String.eqb_neq. now apply Hnone.
Qed.

Lemma getExtractedBook_cache_witness :
  exists result,
    fst (TocTools.getExtractedBook MoreSamples.twoTitles MoreSamples.noExtraction
           MoreSamples.mobyExtraction 1000 1500 "moby-dick" ∅)
    = JS.Returned (Some result)
    /\ TocTools.getExtractedBook MoreSamples.twoTitles MoreSamples.noExtraction
         MoreSamples.noExtraction 2000 2500 "aaaaaaaaaaaaaaaa"
         (snd (TocTools.getExtractedBook MoreSamples.twoTitles MoreSamples.noExtraction
                 MoreSamples.mobyExtraction 1000 1500 "moby-dick" ∅))
       = (JS.Returned (Some result),
          snd (TocTools.getExtractedBook MoreSamples.twoTitles MoreSamples.noExtraction
                 MoreSamples.mobyExtraction 1000 1500 "moby-dick" ∅)).
Proof.
  assert (Hstale : forall cached,
            (∅ : gmap string TocTools.CachedBook) !! "aaaaaaaaaaaaaaaa" = Some cached ->
            TocTools.CACHE_TTL_MS <= 1000 - TocTools.extractedAt cached).
  { intros cached H. rewrite lookup_empty in H. discriminate H. }
  destruct (getExtractedBook_cache MoreSamples.twoTitles MoreSamples.noExtraction
              MoreSamples.mobyExtraction MoreSamples.noExtraction MoreSamples.noExtraction
              1000 1500 2000 2500 "moby-dick" "aaaaaaaaaaaaaaaa" ∅
              (Storage.mkLibraryBook "aaaaaaaaaaaaaaaa" "/books/moby.epub" "Moby-Dick"
                 "Herman Melville" Epub.FormatEpub None None None "2024-01-01" None)
              eq_refl eq_refl Hstale)
    as [_ Hok].
  destruct (Hok _ eq_refl) as [Hfirst Hagain].
  eexists. split; [exact Hfirst|]. apply Hagain. unfold TocTools.CACHE_TTL_MS. lia.
Defined.

Lemma saveBookIndex_then_ask_witness :
  exists toc,
    TocTools.getBookToc (Some Samples.gappedBook) "moby-dick"
      (snd (TocTools.saveBookIndex MoreSamples.twoTitles "i1" "2024-06-01" "moby-dick"
              MoreSamples.mobyIndexArgs [])) = Some toc
    /\ TocTools.tocHasSemanticIndex toc = false
    /\ Annotations.hasSemanticIndex "aaaaaaaaaaaaaaaa"
         (snd (TocTools.saveBookIndex MoreSamples.twoTitles "i1" "2024-06-01" "moby-dick"
                 MoreSamples.mobyIndexArgs [])) = true.
Proof.
  destruct (saveBookIndex_then_ask (fun json => JS.Returned json) MoreSamples.twoTitles
              "i1" "2024-06-01" "moby-dick" MoreSamples.mobyIndexArgs []
              (snd (TocTools.saveBookIndex MoreSamples.twoTitles "i1" "2024-06-01" "moby-dick"
                      MoreSamples.mobyIndexArgs []))
              (Storage.mkLibraryBook "aaaaaaaaaaaaaaaa" "/books/moby.epub" "Moby-Dick"
                 "Herman Melville" Epub.FormatEpub None None None "2024-01-01" None)
              (TocTools.IndexSaved "aaaaaaaaaaaaaaaa" "Moby-Dick" "i1"
                 (TocTools.mkIndexStats 0 0 0 0) "2024-06-01")
              "{}" Samples.gappedBook eq_refl eq_refl eq_refl)
    as (_ & Hhas & toc & Htoc & _ & _ & Hflag).
  exists toc. split; [exact Htoc|]. split; [|exact Hhas].
  apply Hflag. intros r [<-|[]]. discriminate.
Defined.

(** ** What the removal of repeated text leaves of a chapter *)

Section DedupKeeps.
Import Epub.
Local Open Scope string_scope.

Lemma part_slice (s : string) (start : Z) (stop : option Z) :
  exists before after, s = before ++ JS.slice s start stop ++ after.
Proof.
  unfold JS.slice.
  set (from := Z.to_nat (JS.clampIndex (JS.len s) start)).
  set (n := Z.to_nat _).
  exists (JS.take from s), (JS.drop n (JS.drop from s)).
  now rewrite take_drop, take_drop.
Qed.

Lemma part_trimStart (s : string) : exists before, s = before ++ JS.trimStart s.
Proof.
  induction s as [|c s [before IH]]; [now exists ""|]. cbn [JS.trimStart].
  destruct (JS.isSpace c); [|now exists ""].
  exists (String c before). now rewrite append_cons, <- IH.
Qed.

Lemma part_trim (s : string) : exists before after, s = before ++ JS.trim s ++ after.
Proof.
  unfold JS.trim. destruct (part_trimStart s) as [before Hs].
  destruct (trimEnd_take (JS.trimStart s)) as [k Hk].
  exists before, (JS.drop k (JS.trimStart s)). now rewrite Hk, take_drop.
Qed.

Lemma part_trans (s t u : string) :
  (exists before after, s = before ++ t ++ after) ->
  (exists before after, t = before ++ u ++ after) ->
  exists before after, s = before ++ u ++ after.
Proof.
  intros (a & b & ->) (c & d & ->). exists (a ++ c), (d ++ b).
  now rewrite !string_append_assoc.
Qed.

Lemma part_refl (s : string) : exists before after, s = before ++ s ++ after.
Proof. exists "", "". now rewrite append_nil_l, append_nil_r. Qed.

Lemma part_stripCommonPrefix (commonPrefix text : string) :
  exists before after, text = before ++ stripCommonPrefix commonPrefix text ++ after.
Proof.
  unfold stripCommonPrefix. destruct (200 <? _)%Z; [|apply part_refl].
  destruct (_ && _); [apply part_slice | apply part_refl].
Qed.

Lemma part_stripCommonSuffix (commonSuffix text : string) :
  exists before after, text = before ++ stripCommonSuffix commonSuffix text ++ after.
Proof.
  unfold stripCommonSuffix. destruct (200 <? _)%Z; [|apply part_refl].
  destruct (_ && _); [apply part_slice | apply part_refl].
Qed.

Lemma part_len (s t : string) :
  (exists before after, s = before ++ t ++ after) -> (JS.len t <= JS.len s)%Z.
Proof.
  intros (a & b & ->). unfold JS.len. rewrite !length_append. lia.
Qed.

End DedupKeeps.

(** X25.  The removal of repeated text only ever removes: it returns
    as many chapters as it was given, under the same indexes and titles
    and in the same order, and the content of each is one contiguous
    part of the content it had, so no chapter grows and no text is
    reordered or invented.  The content that is left has no white space
    at either end when three or more chapters were given. *)
Theorem deduplicate_only_removes (chapters : list Epub.ExtractedChapter) :
  let result := Epub.deduplicateChapterContent chapters in
  length result = length chapters
  /\ map Epub.index result = map Epub.index chapters
  /\ map Epub.title result = map Epub.title chapters
  /\ Forall2 (fun ch ch' =>
                (exists before after,
                    Epub.content ch
                    = String.append before (String.append (Epub.content ch') after))
                /\ JS.len (Epub.content ch') <= JS.len (Epub.content ch))
             chapters result
  /\ ((3 <= length chapters)%nat ->
      Forall (fun ch' => JS.trim (Epub.content ch') = Epub.content ch') result).
Proof.
  cbn zeta. unfold Epub.deduplicateChapterContent.
  destruct (Nat.ltb_spec (length chapters) 3) as [Hfew|Hmany].
  - repeat split; [| lia].
    apply Forall2_same_length_lookup_2; [reflexivity|].
    intros i x y Hx Hy. assert (x = y) as -> by congruence.
    split; [apply part_refl | lia].
  - set (cp := Epub.commonPrefixOf chapters). set (cs := Epub.commonSuffixOf chapters).
    clearbody cp cs. repeat split.
    + now rewrite length_map.
    + now rewrite map_map.
    + now rewrite map_map.
    + clear Hmany. induction chapters as [|ch l IH]; cbn [map]; constructor; [|exact IH].
      assert (Hpart : exists before after,
                 Epub.content ch
                 = String.append before
                     (String.append
                        (JS.trim (Epub.stripCommonSuffix cs
                                    (Epub.stripCommonPrefix cp (Epub.content ch))))
                        after)).
      { eapply part_trans; [apply part_stripCommonPrefix|].
        eapply part_trans; [apply part_stripCommonSuffix | apply part_trim]. }
      split; [exact Hpart | exact (part_len _ _ Hpart)].
    + intros _. apply List.Forall_forall. intros ch' Hin.
      apply in_map_iff in Hin as (ch & <- & _). cbn. apply trim_idem.
Qed.

(** ** Every listed chapter can be read *)

Section ListedChapters.
Import Epub Indexing.

Lemma sorted_filter {A} (f : A -> Z) (p : A -> bool) (l : list A) :
  StronglySorted Z.lt (map f l) -> StronglySorted Z.lt (map f (List.filter p l)).
Proof.
  induction l as [|x l IH]; cbn [map List.filter]; intros Hs; [constructor|].
  apply StronglySorted_inv in Hs as [Hl Hx]. destruct (p x); [|now apply IH].
  cbn [map]. constructor; [now apply IH|].
  apply List.Forall_forall. intros z Hz. apply in_map_iff in Hz as (y & <- & Hy).
  apply filter_In in Hy as [Hy _].
  rewrite List.Forall_forall in Hx. apply Hx. now apply in_map.
Qed.

Lemma numbered_from {A} (l : list A) :
  forall k,
    StronglySorted Z.lt
      (map (fun ip => Z.of_nat (fst ip)) (imap (fun i x => ((k + i)%nat, x)) l))
    /\ Forall (fun z => Z.of_nat k <= z < Z.of_nat k + Z.of_nat (length l))
              (map (fun ip => Z.of_nat (fst ip)) (imap (fun i x => ((k + i)%nat, x)) l)).
Proof.
  induction l as [|x l IH]; intros k; [split; constructor|].
  rewrite imap_cons. cbn [map fst length].
  assert (Hrest : imap ((fun i y => ((k + i)%nat, y)) ∘ S) l
                  = imap (fun i y => ((S k + i)%nat, y)) l).
  { apply imap_ext. intros i y _. cbn. f_equal. lia. }
  rewrite Hrest. destruct (IH (S k)) as [Hs Hb]. split.
  - constructor; [exact Hs|].
    eapply List.Forall_impl; [|exact Hb]. cbn. intros z Hz. lia.
  - constructor; [lia|].
    eapply List.Forall_impl; [|exact Hb]. cbn. intros z Hz. lia.
Qed.

Lemma numbered_pages {A} (l : list A) :
  StronglySorted Z.lt (map (fun ip => Z.of_nat (fst ip)) (imap pair l))
  /\ Forall (fun z => 0 <= z < Z.of_nat (length l))
            (map (fun ip => Z.of_nat (fst ip)) (imap pair l)).
Proof.
  destruct (numbered_from l 0) as [Hs Hb].
  assert (E : imap (fun i (x : A) => ((0 + i)%nat, x)) l = imap pair l)
    by (apply imap_ext; reflexivity).
  rewrite E in Hs, Hb. split; [exact Hs|].
  eapply List.Forall_impl; [|exact Hb]. cbn. intros z Hz. lia.
Qed.

Lemma numbered_seq (a n : nat) :
  StronglySorted Z.lt (map (fun k => Z.of_nat k - 1) (seq a n))
  /\ Forall (fun z => Z.of_nat a - 1 <= z < Z.of_nat a - 1 + Z.of_nat n)
            (map (fun k => Z.of_nat k - 1) (seq a n)).
Proof.
  revert a; induction n as [|n IH]; intros a; [split; constructor|].
  cbn [seq map]. destruct (IH (S a)) as [Hs Hb]. split.
  - constructor; [exact Hs|].
    eapply List.Forall_impl; [|exact Hb]. cbn. intros z Hz. lia.
  - constructor; [lia|].
    eapply List.Forall_impl; [|exact Hb]. cbn. intros z Hz. lia.
Qed.

Lemma Forall_map_filter {A} (P : Z -> Prop) (f : A -> Z) (p : A -> bool) (l : list A) :
  Forall P (map f l) -> Forall P (map f (List.filter p l)).
Proof.
  rewrite !List.Forall_forall. intros H z Hz.
  apply in_map_iff in Hz as (y & <- & Hy). apply filter_In in Hy as [Hy _].
  apply H. now apply in_map.
Qed.

(** In a list whose indexes increase, [find] by index is exact. *)
Lemma findChapter_listed (chs : list ExtractedChapter) (ch : ExtractedChapter) :
  StronglySorted Z.lt (map index chs) -> In ch chs ->
  findChapter chs (index ch) = Some ch.
Proof.
  unfold findChapter. induction chs as [|c chs IH]; intros Hs Hin; [destruct Hin|].
  cbn [map] in Hs. apply StronglySorted_inv in Hs as [Hs Hc]. cbn [List.find].
  destruct Hin as [->|Hin]; [now rewrite Z.eqb_refl|].
  destruct (Z.eqb_spec (index c) (index ch)) as [E|_]; [|now apply IH].
  rewrite List.Forall_forall in Hc. specialize (Hc (index ch) (in_map index _ _ Hin)). lia.
Qed.

Lemma listed_chapter_read (id t a : string) (chs : list ExtractedChapter)
    (ch : ExtractedChapter) (off lim : option Z) :
  StronglySorted Z.lt (map index chs) -> In ch chs ->
  exists r,
    readChapter (Some (mkBook id t a chs)) (mkArgs (index ch) off lim) = ChapterRead r
    /\ sliceChapterIndex r = index ch
    /\ sliceChapterTitle r = title ch
    /\ totalLength r = JS.len (content ch).
Proof.
  intros Hs Hin. unfold readChapter. cbn [chapters chapterIndex].
  rewrite (findChapter_listed chs ch Hs Hin). eexists. split; [reflexivity|].
  repeat split.
Qed.

Lemma length_map_filter_le {A B} (f : A -> B) (p : A -> bool) (l : list A) :
  (length (map f (List.filter p l)) <= length l)%nat.
Proof. rewrite length_map. apply List.filter_length_le. Qed.

End ListedChapters.

(** X26.  The chapters that an extraction returns, for an EPUB and for
    a PDF alike, carry strictly increasing indexes, each the position of
    an existing page, so no index occurs twice and there are at most as
    many chapters as pages.  Hence every chapter that the table of
    contents lists can be read under its listed index: [readChapter]
    finds that very chapter, with its title and its full length,
    whatever the offset and the limit. *)
Theorem listed_chapters_readable :
  (forall getChapter stripHtml entry,
      let chs := Epub.extractBookText getChapter stripHtml entry in
      StronglySorted Z.lt (map Epub.index chs)
      /\ Forall (fun i => 0 <= i < Z.of_nat (length (Epub.pages entry))) (map Epub.index chs)
      /\ (length chs <= length (Epub.pages entry))%nat
      /\ forall ch id t a off lim,
           In ch chs ->
           exists r,
             Indexing.readChapter (Some (Indexing.mkBook id t a chs))
               (Indexing.mkArgs (Epub.index ch) off lim) = Indexing.ChapterRead r
             /\ Indexing.sliceChapterIndex r = Epub.index ch
             /\ Indexing.sliceChapterTitle r = Epub.title ch
             /\ Indexing.totalLength r = JS.len (Epub.content ch))
  /\ (forall doc toc,
        let chs := Pdf.extractPdfText doc toc in
        StronglySorted Z.lt (map Epub.index chs)
        /\ Forall (fun i => 0 <= i < Z.of_nat (Pdf.numPages doc)) (map Epub.index chs)
        /\ (length chs <= Pdf.numPages doc)%nat
        /\ forall ch id t a off lim,
             In ch chs ->
             exists r,
               Indexing.readChapter (Some (Indexing.mkBook id t a chs))
                 (Indexing.mkArgs (Epub.index ch) off lim) = Indexing.ChapterRead r
               /\ Indexing.sliceChapterIndex r = Epub.index ch
               /\ Indexing.sliceChapterTitle r = Epub.title ch
               /\ Indexing.totalLength r = JS.len (Epub.content ch)).
Proof.
  split.
  - intros getChapter stripHtml entry chs.
    pose proof (extractBookText_index getChapter stripHtml entry) as Hidx.
    fold chs in Hidx. destruct (numbered_pages (Epub.pages entry)) as [Hs Hb].
    assert (Hsorted : StronglySorted Z.lt (map Epub.index chs)).
    { rewrite Hidx. now apply sorted_filter. }
    repeat split.
    + exact Hsorted.
    + rewrite Hidx. now apply Forall_map_filter.
    + rewrite <- (length_map Epub.index chs), Hidx.
      etransitivity; [apply length_map_filter_le|]. now rewrite length_imap.
    + intros ch id t a off lim Hin. now apply listed_chapter_read.
  - intros doc toc chs.
    assert (Hidx : map Epub.index chs
                   = map (fun n => Z.of_nat n - 1)
                         (List.filter (ExtractionSpec.pdfPageHasText doc)
                                      (seq 1 (Pdf.numPages doc)))).
    { unfold chs, Pdf.extractPdfText. now rewrite extractPdfText_from. }
    destruct (numbered_seq 1 (Pdf.numPages doc)) as [Hs Hb].
    assert (Hsorted : StronglySorted Z.lt (map Epub.index chs)).
    { rewrite Hidx. now apply sorted_filter. }
    repeat split.
    + exact Hsorted.
    + rewrite Hidx. apply Forall_map_filter.
      eapply List.Forall_impl; [|exact Hb]. cbn. intros z Hz. lia.
    + rewrite <- (length_map Epub.index chs), Hidx.
      etransitivity; [apply length_map_filter_le|]. now rewrite length_seq.
    + intros ch id t a off lim Hin. now apply listed_chapter_read.
Qed.

(** ** What a search can return *)

Section SearchScope.
Import Storage.

Lemma blank_no_terms (q : string) :
  JS.trimStart q = EmptyString ->
  forall skipping, List.filter JS.truthy (splitSpaces skipping q) = [].
Proof.
  induction q as [|c q IH]; intros Hblank skipping; [reflexivity|].
  cbn [JS.trimStart] in Hblank. cbn [splitSpaces].
  destruct (JS.isSpace c); [|discriminate Hblank].
  destruct skipping; [now apply IH|]. cbn [List.filter]. now apply IH.
Qed.

Lemma trim_blank (q : string) : JS.trim q = EmptyString -> JS.trimStart q = EmptyString.
Proof.
  unfold JS.trim. induction q as [|c q IH]; [reflexivity|]. cbn [JS.trimStart].
  destruct (JS.isSpace c) eqn:Hc; [exact IH|].
  rewrite (trimEnd_cons c q Hc). discriminate.
Qed.

Lemma joined_source (engine : FtsEngine) (terms : string) (d : Db) (r : RankedRow) :
  In r (flat_map
          (fun fts =>
             if ftsMatches engine terms fts then
               map (fun bc => {| ranked := bc; bm25_score := bm25 engine terms fts |})
                   (List.filter (fun bc => String.eqb (ftsContentId fts) (rowId bc))
                                (book_content d))
             else [])
          (book_content_fts d)) ->
  In (ranked r) (book_content d)
  /\ exists fts, In fts (book_content_fts d)
                 /\ ftsMatches engine terms fts = true
                 /\ ftsContentId fts = rowId (ranked r).
Proof.
  intros Hr. apply in_flat_map in Hr as (fts & Hfts & Hr).
  destruct (ftsMatches engine terms fts) eqn:Hm; [|destruct Hr].
  apply in_map_iff in Hr as (bc & <- & Hbc). cbn [ranked].
  apply List.filter_In in Hbc as [Hbc Hid]. apply String.eqb_eq in Hid.
  split; [exact Hbc|]. exists fts. auto.
Qed.

Lemma selectRanked_source (engine : FtsEngine) (terms : string)
    (books : option (list string)) (n : Z) (d : Db) (r : RankedRow) :
  In r (selectRanked engine terms books n d) ->
  In (ranked r) (book_content d)
  /\ (exists fts, In fts (book_content_fts d)
                  /\ ftsMatches engine terms fts = true
                  /\ ftsContentId fts = rowId (ranked r))
  /\ forall b bs, books = Some (b :: bs) -> In (rowBookId (ranked r)) (b :: bs).
Proof.
  unfold selectRanked. intros Hr. apply In_limitRows, In_orderByScore in Hr.
  destruct books as [[|b bs]|].
  - destruct (joined_source _ _ _ _ Hr) as [Hrow Hfts].
    repeat split; [exact Hrow | exact Hfts | discriminate].
  - apply List.filter_In in Hr as [Hr Hin].
    destruct (joined_source _ _ _ _ Hr) as [Hrow Hfts].
    repeat split; [exact Hrow | exact Hfts |].
    intros b' bs' [= <- <-]. apply existsb_exists in Hin as (x & Hx & E).
    apply String.eqb_eq in E. now rewrite E.
  - destruct (joined_source _ _ _ _ Hr) as [Hrow Hfts].
    repeat split; [exact Hrow | exact Hfts | discriminate].
Qed.

Lemma length_limitRows {A} (n : Z) (l : list A) :
  0 <= n -> (length (limitRows n l) <= Z.to_nat n)%nat.
Proof.
  intros Hn. unfold limitRows. destruct (Z.ltb_spec n 0) as [?|_]; [lia|].
  rewrite List.length_firstn. lia.
Qed.

End SearchScope.

(** X27.  What a full-text search can return.  A query that is empty
    or all white space returns nothing, whatever is indexed.  Every
    passage returned is a row of the content table, joined by its id to
    a full-text row that matches the query terms.  A book filter that
    names books is honoured: every passage belongs to one of them; an
    empty filter list is no filter.  At most [limit] passages are
    returned for a positive limit, and at most 20 when the limit is
    missing or 0. *)
Theorem searchBookContent_scope (engine : Storage.FtsEngine)
    (params : Storage.SearchParams) (d : Storage.Db) :
  let hits := Storage.searchBookContent engine params d in
  (JS.trim (Storage.query params) = EmptyString -> hits = [])
  /\ Forall (fun hit =>
               exists row fts,
                 In row (Storage.book_content d)
                 /\ In fts (Storage.book_content_fts d)
                 /\ Storage.ftsContentId fts = Storage.rowId row
                 /\ Storage.ftsMatches engine
                      (Storage.buildTerms (Storage.query params)) fts = true
                 /\ Storage.hitBookId hit = Storage.rowBookId row
                 /\ Storage.hitChapterIndex hit = Storage.rowChapterIndex row
                 /\ Storage.hitChapterTitle hit = Storage.rowChapterTitle row
                 /\ Storage.hitContent hit = Storage.rowContent row)
            hits
  /\ (forall b bs, Storage.bookIds params = Some (b :: bs) ->
                   Forall (fun hit => In (Storage.hitBookId hit) (b :: bs)) hits)
  /\ (Storage.bookIds params = Some [] ->
      hits = Storage.searchBookContent engine
               (Storage.mkSearchParams (Storage.query params) None (Storage.limit params)) d)
  /\ (forall n, Storage.limit params = Some n -> 0 < n -> (length hits <= Z.to_nat n)%nat)
  /\ (Storage.limit params = None \/ Storage.limit params = Some 0 ->
      (length hits <= 20)%nat).
Proof.
  cbn zeta. unfold Storage.searchBookContent.
  set (terms := Storage.buildTerms (Storage.query params)).
  repeat split.
  - intros Hblank. unfold terms, Storage.buildTerms.
    rewrite (blank_no_terms _ (trim_blank _ Hblank)). reflexivity.
  - destruct (negb (JS.truthy terms)); [constructor|].
    apply List.Forall_forall. intros hit Hhit. unfold Storage.normalizeScores in Hhit.
    apply in_map_iff in Hhit as (r & <- & Hr). cbn.
    destruct (selectRanked_source _ _ _ _ _ _ Hr) as (Hrow & (fts & Hfts & Hm & Hid) & _).
    exists (Storage.ranked r), fts. repeat split; assumption.
  - intros b bs Hfilter. destruct (negb (JS.truthy terms)); [constructor|].
    apply List.Forall_forall. intros hit Hhit. unfold Storage.normalizeScores in Hhit.
    apply in_map_iff in Hhit as (r & <- & Hr). cbn.
    destruct (selectRanked_source _ _ _ _ _ _ Hr) as (_ & _ & Hin). now apply Hin.
  - intros Hfilter. cbn [Storage.query Storage.limit Storage.bookIds]. fold terms.
    unfold Storage.selectRanked. now rewrite Hfilter.
  - intros n Hlimit Hn. destruct (negb (JS.truthy terms)); [cbn; lia|].
    unfold Storage.normalizeScores. rewrite length_map. unfold Storage.selectRanked.
    rewrite Hlimit. unfold Storage.limitOrDefault.
    destruct (Z.eqb_spec n 0) as [?|_]; [lia|]. apply length_limitRows. lia.
  - intros Hlimit. destruct (negb (JS.truthy terms)); [cbn; lia|].
    unfold Storage.normalizeScores. rewrite length_map. unfold Storage.selectRanked.
    assert (E : Storage.limitOrDefault (Storage.limit params) = 20)
      by (destruct Hlimit as [-> | ->]; reflexivity).
    rewrite E. exact (length_limitRows 20 _ ltac:(lia)).
Qed.

(** ** What loading a book and saving a position write to the catalog *)

Section ReadingRecord.
Import JS (Outcome, Returned, Thrown).
Import Storage LibraryTools.

Lemma find_updateFirst_same (h : string) (f : LibraryBook -> LibraryBook)
    (l : list LibraryBook) :
  (forall b, id (f b) = id b) ->
  List.find (hasId h) (updateFirst (hasId h) f l) = f <$> List.find (hasId h) l.
Proof.
  intros Hid. induction l as [|b l IH]; [reflexivity|]. cbn [updateFirst List.find].
  destruct (hasId h b) eqn:E; cbn [List.find].
  - assert (E' : hasId h (f b) = true) by (unfold hasId in *; now rewrite Hid).
    now rewrite E'.
  - now rewrite E.
Qed.

Lemma find_updateFirst_other (h h' : string) (f : LibraryBook -> LibraryBook)
    (l : list LibraryBook) :
  h' <> h -> (forall b, id (f b) = id b) ->
  List.find (hasId h') (updateFirst (hasId h) f l) = List.find (hasId h') l.
Proof.
  intros Hne Hid. induction l as [|b l IH]; [reflexivity|]. cbn [updateFirst List.find].
  destruct (hasId h b) eqn:E; cbn [List.find].
  - assert (E' : hasId h' b = false).
    { unfold hasId in *. apply String.eqb_eq in E. apply String.eqb_neq. congruence. }
    assert (E'' : hasId h' (f b) = false) by (unfold hasId in *; now rewrite Hid).
    now rewrite E', E''.
  - destruct (hasId h' b); [reflexivity | exact IH].
Qed.

Lemma map_id_updateFirst_any (h : string) (f : LibraryBook -> LibraryBook)
    (l : list LibraryBook) :
  (forall b, id (f b) = id b) -> map id (updateFirst (hasId h) f l) = map id l.
Proof.
  intros Hid. induction l as [|b l IH]; [reflexivity|]. cbn [updateFirst].
  destruct (hasId h b); cbn [map]; [now rewrite Hid | now rewrite IH].
Qed.

(** The store after the position check of [loadBookTool]: only the
    session can differ. *)
Lemma loadBookTool_run (fs : gmap string (list byte)) (now : string)
    (loadInfo : string -> string -> Outcome Epub.BookInfo)
    (bookPath bookId : string) (bookInfo : Epub.BookInfo) (st : Store) :
  hashBook fs bookPath = Returned bookId ->
  loadInfo bookPath bookId = Returned bookInfo ->
  exists (result : LoadedBook) (st' : Store),
    loadBookTool fs now loadInfo bookPath st = (Returned result, st')
    /\ loadedInfo result = bookInfo
    /\ lastBook (getSession st') = Some bookId
    /\ db st' = db st
    /\ getLibrary st'
       = match List.find (hasId bookId) (books (getLibrary st)) with
         | Some _ =>
             {| version := version (getLibrary st);
                bookPath := Storage.bookPath (getLibrary st);
                books := updateFirst (hasId bookId)
                           (touch now (Epub.chapterCount (Epub.metadata bookInfo)))
                           (books (getLibrary st));
                collections := collections (getLibrary st) |}
         | None => getLibrary st
         end.
Proof.
  intros Hhash Hinfo. unfold loadBookTool. rewrite Hhash, Hinfo.
  unfold getLibrary, getSession, savePosition, saveSession, saveLibrary.
  destruct (getPosition st bookId) as [saved|];
    [destruct (Epub.chapterCount (Epub.metadata bookInfo) <=? chapterIndex saved)|];
    cbn [libraryDoc sessionDoc db];
    destruct (List.find (hasId bookId) (books (libraryDoc st)));
    eexists; eexists; (split; [reflexivity|]); repeat split.
Qed.

End ReadingRecord.

(** X28.  Reading is recorded on the catalog entry of the book and
    nowhere else.  A load that succeeds makes the book the session's
    last book, stamps the entry with the time of the load and the
    chapter count just found, and leaves every other entry, the order
    of the catalog and the search tables as they were; a book that is
    not catalogued is loaded all the same but is not added to the
    catalog.  A load that fails, because the file cannot be read or the
    engine throws, changes nothing.  Saving a position stamps the entry
    with the time and keeps its chapter count. *)
Theorem reading_is_recorded (fs : gmap string (list byte)) (now : string)
    (loadInfo : string -> string -> JS.Outcome Epub.BookInfo)
    (bookPath : string) (st : Storage.Store) :
  (Storage.hashBook fs bookPath = JS.Thrown ->
   LibraryTools.loadBookTool fs now loadInfo bookPath st = (JS.Thrown, st))
  /\ (forall bookId,
        Storage.hashBook fs bookPath = JS.Returned bookId ->
        loadInfo bookPath bookId = JS.Thrown ->
        LibraryTools.loadBookTool fs now loadInfo bookPath st = (JS.Thrown, st))
  /\ (forall bookId bookInfo,
        Storage.hashBook fs bookPath = JS.Returned bookId ->
        loadInfo bookPath bookId = JS.Returned bookInfo ->
        exists result st',
          LibraryTools.loadBookTool fs now loadInfo bookPath st = (JS.Returned result, st')
          /\ LibraryTools.loadedInfo result = bookInfo
          /\ Storage.lastBook (Storage.getSession st') = Some bookId
          /\ Storage.db st' = Storage.db st
          /\ map Storage.id (Storage.books (Storage.getLibrary st'))
             = map Storage.id (Storage.books (Storage.getLibrary st))
          /\ (forall other, other <> bookId ->
                Storage.getBook st' other = Storage.getBook st other)
          /\ match Storage.getBook st bookId with
             | Some entry =>
                 exists entry',
                   Storage.getBook st' bookId = Some entry'
                   /\ Storage.lastRead entry' = Some now
                   /\ Storage.chapterCount entry'
                      = Some (Epub.chapterCount (Epub.metadata bookInfo))
                   /\ Storage.path entry' = Storage.path entry
                   /\ Storage.title entry' = Storage.title entry
                   /\ Storage.addedAt entry' = Storage.addedAt entry
             | None => Storage.getLibrary st' = Storage.getLibrary st
             end)
  /\ (forall now1 now2 bookId chapter scroll,
        let st' := PositionTools.savePositionTool now1 now2 bookId chapter scroll st in
        Storage.getBook st' bookId
        = PositionTools.setLastRead now2 <$> Storage.getBook st bookId
        /\ (forall other, other <> bookId ->
              Storage.getBook st' other = Storage.getBook st other)
        /\ Storage.db st' = Storage.db st).
Proof.
  split; [|split; [|split]].
  - intros Hhash. unfold LibraryTools.loadBookTool. now rewrite Hhash.
  - intros bookId Hhash Hinfo. unfold LibraryTools.loadBookTool. now rewrite Hhash, Hinfo.
  - intros bookId bookInfo Hhash Hinfo.
    destruct (loadBookTool_run fs now loadInfo bookPath bookId bookInfo st Hhash Hinfo)
      as (result & st' & Hrun & Hres & Hlast & Hdb & Hlib).
    exists result, st'. split; [exact Hrun|]. split; [exact Hres|].
    split; [exact Hlast|]. split; [exact Hdb|].
    unfold Storage.getBook. rewrite Hlib.
    change (fun b : Storage.LibraryBook => String.eqb (Storage.id b) bookId)
      with (LibraryTools.hasId bookId).
    destruct (List.find (LibraryTools.hasId bookId) (Storage.books (Storage.getLibrary st)))
      as [entry|] eqn:Hfind; cbn [Storage.books].
    + split; [now apply map_id_updateFirst_any|]. split.
      * intros other Hother.
        apply (find_updateFirst_other bookId other
                 (LibraryTools.touch now (Epub.chapterCount (Epub.metadata bookInfo))));
          [exact Hother | reflexivity].
      * exists (LibraryTools.touch now (Epub.chapterCount (Epub.metadata bookInfo)) entry).
        split; [|repeat split].
        rewrite (find_updateFirst_same bookId
                   (LibraryTools.touch now (Epub.chapterCount (Epub.metadata bookInfo))))
          by reflexivity.
        now rewrite Hfind.
    + repeat split.
  - intros now1 now2 bookId chapter scroll st'. subst st'.
    unfold PositionTools.savePositionTool, Storage.getBook.
    cbn [Storage.getLibrary Storage.savePosition Storage.saveSession Storage.libraryDoc].
    change (fun b : Storage.LibraryBook => String.eqb (Storage.id b) bookId)
      with (LibraryTools.hasId bookId).
    destruct (List.find (LibraryTools.hasId bookId) (Storage.books (Storage.libraryDoc st)))
      as [entry|] eqn:Hfind; cbn [Storage.getLibrary Storage.saveLibrary Storage.libraryDoc
                                   Storage.books Storage.db].
    + split; [|split; [|reflexivity]].
      * rewrite (find_updateFirst_same bookId (PositionTools.setLastRead now2))
          by reflexivity.
        reflexivity.
      * intros other Hother.
        apply (find_updateFirst_other bookId other (PositionTools.setLastRead now2));
          [exact Hother | reflexivity].
    + split; [|split; [|reflexivity]]; [|reflexivity].
      unfold Storage.getLibrary. now rewrite Hfind.
Qed.

(** ** What a rescan keeps of a catalog entry *)

Section ScanHistory.
Import JS (Outcome, Returned, Thrown).
Import Storage LibraryTools LibrarySpec.

Variable fs : gmap string (list byte).

(** Where an entry of the catalog after the loop comes from, field by
    field: an entry that was there, with its reading history, or a
    scanned file that was not known, without any. *)
Lemma loop_history (clock : nat -> string) (l : list (nat * ScannedBook)) :
  forall bks b,
    In b (fold_left (reconcile fs clock) l bks) ->
    (exists b0, In b0 bks
                /\ id b = id b0 /\ path b = path b0 /\ format b = format b0
                /\ addedAt b = addedAt b0 /\ lastRead b = lastRead b0
                /\ chapterCount b = chapterCount b0)
    \/ (exists e, In e l
                  /\ ~ In (idAt fs (snd e)) (map id bks)
                  /\ id b = idAt fs (snd e) /\ path b = scannedPath (snd e)
                  /\ format b = scannedFormat (snd e)
                  /\ addedAt b = clock (fst e) /\ lastRead b = None
                  /\ chapterCount b = None).
Proof.
  induction l as [|e l IH]; intros bks b Hb.
  - left. exists b. repeat split. exact Hb.
  - cbn [fold_left] in Hb.
    destruct (IH _ _ Hb)
      as [(b1 & Hb1 & Hid & Hpath & Hformat & Hadded & Hread & Hcount)
         |(e' & He' & Hnew & H)].
    + unfold reconcile in Hb1.
      destruct (List.find (hasId (idAt fs (snd e))) bks) eqn:Hfind.
      * apply in_updateFirst in Hb1 as (b0 & Hb0 & [->| ->]).
        -- left. exists b0. repeat split; assumption.
        -- left. exists b0. repeat split; assumption.
      * apply in_app_or in Hb1 as [Hb1|[<-|[]]].
        -- left. exists b1. repeat split; assumption.
        -- right. exists e. split; [now left|].
           split; [now apply find_hasId_None|]. repeat split; assumption.
    + right. exists e'. split; [now right|]. split; [|exact H].
      intros Hin. apply Hnew. now apply reconcile_keeps_ids.
Qed.

End ScanHistory.

(** X29.  A rescan never loses reading history.  When [viewLibrary]
    returns, the session (the reading positions and the last book) and
    the search tables are untouched, and so are the collections.  Every
    entry of the saved catalog is either an entry that was catalogued
    before, with the same id, path, format, date of addition, time of
    last reading and chapter count (the scan only refreshes title,
    author, cover and description), or the entry of a scanned file
    whose id was new, added at the time the clock showed at its turn and
    with no reading recorded. *)
Theorem rescan_keeps_history (fs : gmap string (list byte)) (clock : nat -> string)
    (dir : string) (scannedBooks : list LibraryTools.ScannedBook) (st : Storage.Store)
    (lib' : Storage.LibraryData) (st' : Storage.Store) :
  LibraryTools.viewLibrary fs clock dir scannedBooks st = (JS.Returned lib', st') ->
  Storage.getSession st' = Storage.getSession st
  /\ Storage.db st' = Storage.db st
  /\ Storage.getLibrary st' = lib'
  /\ Storage.collections lib' = Storage.collections (Storage.getLibrary st)
  /\ Storage.bookPath lib' = dir
  /\ forall b, In b (Storage.books lib') ->
       (exists b0, In b0 (Storage.books (Storage.getLibrary st))
                   /\ Storage.id b = Storage.id b0
                   /\ Storage.path b = Storage.path b0
                   /\ Storage.format b = Storage.format b0
                   /\ Storage.addedAt b = Storage.addedAt b0
                   /\ Storage.lastRead b = Storage.lastRead b0
                   /\ Storage.chapterCount b = Storage.chapterCount b0)
       \/ (exists i s, scannedBooks !! i = Some s
                       /\ ~ In (LibrarySpec.idAt fs s)
                               (map Storage.id (Storage.books (Storage.getLibrary st)))
                       /\ Storage.id b = LibrarySpec.idAt fs s
                       /\ Storage.path b = LibraryTools.scannedPath s
                       /\ Storage.format b = LibraryTools.scannedFormat s
                       /\ Storage.addedAt b = clock i
                       /\ Storage.lastRead b = None
                       /\ Storage.chapterCount b = None).
Proof.
  intros Hrun.
  destruct (viewLibrary_returned fs clock dir scannedBooks st lib' st' Hrun)
    as (_ & -> & ->).
  repeat split. intros b Hb. cbn [Storage.books] in Hb.
  unfold LibrarySpec.scannedCatalog in Hb. apply List.filter_In in Hb as [Hb _].
  destruct (loop_history fs clock _ _ _ Hb) as [Hleft|(e & He & Hnew & Hrest)];
    [now left|].
  right. destruct e as [i s]. exists i, s. cbn [fst snd] in *.
  split; [now apply in_imap_pair|]. split; [exact Hnew | exact Hrest].
Qed.

Lemma rescan_keeps_history_witness :
  exists lib' st',
    LibraryTools.viewLibrary Samples.oneFile (fun _ => "2024-03-03") "/books"
      Samples.mobyScan Samples.staleStore = (JS.Returned lib', st')
    /\ Storage.getSession st' = Storage.getSession Samples.staleStore.
Proof.
  assert (Hr : LibrarySpec.readable Samples.oneFile Samples.mobyScan).
  { intros s [<-|[]]. eexists. reflexivity. }
  pose proof (viewLibrary_readable Samples.oneFile (fun _ => "2024-03-03") "/books"
                Samples.mobyScan Samples.staleStore Hr) as Hrun.
  cbv zeta in Hrun. eexists _, _. split; [exact Hrun|].
  exact (proj1 (rescan_keeps_history _ _ _ _ _ _ _ Hrun)).
Defined.
